(** * A shallow embedding of the RDBMS engine (parser, index, executor, storage)

    The development follows the Python sources under [src/database]:
    [types.py] (Column, Index), [parser.py] (QueryParser), [executor.py]
    (QueryExecutor), [storage.py] (Storage) and [engine.py] (DatabaseEngine).

    Conventions of the embedding.
    - Python [str] is [string]; query text is taken to be ASCII (the character
      classes below are Python's restricted to code points below 128).
    - Python [int] is [Z]; [int(s)] raises [ValueError] for a text of more
      than 4300 digits, the interpreter's default limit
      ([sys.int_info.default_max_str_digits]); a [float] is the rational it
      denotes, NaN or an infinity; [==] is Python's, under which
      [True == 1 == 1.0].
    - A Python [dict] is an insertion-ordered association list without
      repeated keys, looked up with the key equality of its key type (for
      values: [==], with which Python's hashing agrees; Python tries object
      identity before [==], which differs from [==] for a NaN key only, and
      [validate_value] admits no float into a row); a [set] of row-ids
      is a list without repetitions, its order standing for the iteration
      order of the set.
    - The row store is keyed in the source by [str(row_id)] and read back
      with [int(row_id_str)]; since [int(str(n)) = n] the store is keyed here
      by the integer itself.
    - Python mutates objects in place and an exception does not undo earlier
      mutations, so every executor function returns the state it leaves behind
      together with either a result or the exception raised.
    - The data directory is a flat directory holding the files
      [<table>_schema.json] and [<table>_data.pkl].  Opening a file for
      writing raises [OSError] when its name is longer than the file system
      allows ([NAME_MAX], 255 bytes); the file is then left as it was.  A
      table name is taken to be a file-name component (no [/] and no NUL, as
      for every name the parser's [\w+] yields); failures that come and go
      (a full disk, permissions changed meanwhile) are not modelled.  The
      engine reads only files whose names a directory listing gave it; asked
      for a name the file system refuses, [load_table_schema],
      [load_table_data] and [table_exists] answer here that there is no such
      file. *)

From Stdlib Require Import Bool Ascii String List ZArith QArith Lia.
Import ListNotations.

Open Scope string_scope.
Open Scope Z_scope.

(* ================================================================== *)
(** ** Python string primitives used by the parser *)

Module PyStr.

Definition code (c : ascii) : nat := nat_of_ascii c.

(** [str.isspace] on ASCII: TAB..CR, FS..US and the blank. *)
Definition is_space (c : ascii) : bool :=
  (Nat.leb 9 (code c) && Nat.leb (code c) 13)
  || (Nat.leb 28 (code c) && Nat.leb (code c) 32).

Definition is_digit (c : ascii) : bool :=
  Nat.leb 48 (code c) && Nat.leb (code c) 57.

Definition is_lower (c : ascii) : bool :=
  Nat.leb 97 (code c) && Nat.leb (code c) 122.

Definition is_upper (c : ascii) : bool :=
  Nat.leb 65 (code c) && Nat.leb (code c) 90.

(** The regular-expression class [\w] on ASCII. *)
Definition is_word (c : ascii) : bool :=
  is_lower c || is_upper c || is_digit c || Ascii.eqb c "_".

Definition upper_char (c : ascii) : ascii :=
  if is_lower c then ascii_of_nat (code c - 32) else c.

Definition lower_char (c : ascii) : ascii :=
  if is_upper c then ascii_of_nat (code c + 32) else c.

Fixpoint upper (s : string) : string :=
  match s with
  | EmptyString => EmptyString
  | String c s' => String (upper_char c) (upper s')
  end.

Fixpoint lower (s : string) : string :=
  match s with
  | EmptyString => EmptyString
  | String c s' => String (lower_char c) (lower s')
  end.

Definition is_empty (s : string) : bool :=
  match s with EmptyString => true | _ => false end.

(** Appending one character, [current += char]. *)
Definition snoc (s : string) (c : ascii) : string := s ++ String c EmptyString.

Fixpoint lstrip_by (p : ascii -> bool) (s : string) : string :=
  match s with
  | EmptyString => EmptyString
  | String c s' => if p c then lstrip_by p s' else s
  end.

Fixpoint rstrip_by (p : ascii -> bool) (s : string) : string :=
  match s with
  | EmptyString => EmptyString
  | String c s' =>
      let r := rstrip_by p s' in
      if p c && is_empty r then EmptyString else String c r
  end.

(** [s.strip()] *)
Definition strip (s : string) : string := rstrip_by is_space (lstrip_by is_space s).

(** [s.rstrip(';')] *)
Definition rstrip_semicolon (s : string) : string :=
  rstrip_by (fun c => Ascii.eqb c ";") s.

Fixpoint startswith (p s : string) : bool :=
  match p, s with
  | EmptyString, _ => true
  | String a p', String b s' => Ascii.eqb a b && startswith p' s'
  | String _ _, EmptyString => false
  end.

Fixpoint drop (n : nat) (s : string) : string :=
  match n, s with
  | O, _ => s
  | S n', String _ s' => drop n' s'
  | S _, EmptyString => EmptyString
  end.

Fixpoint take (n : nat) (s : string) : string :=
  match n, s with
  | O, _ => EmptyString
  | S n', String c s' => String c (take n' s')
  | S _, EmptyString => EmptyString
  end.

Definition endswith (p s : string) : bool :=
  Nat.leb (String.length p) (String.length s)
  && String.eqb (drop (String.length s - String.length p) s) p.

(** [s[1:-1]] *)
Definition slice_1_m1 (s : string) : string :=
  take (String.length s - 2) (drop 1 s).

(** [s[1:]] *)
Definition slice_1 (s : string) : string := drop 1 s.

(** The first occurrence of a non-empty [sep]: the text before it and the
    text after it ([s.split(sep, 1)] when it has two parts). *)
Fixpoint split_once (sep s : string) : option (string * string) :=
  if startswith sep s then Some (EmptyString, drop (String.length sep) s)
  else match s with
       | EmptyString => None
       | String c s' =>
           match split_once sep s' with
           | Some (l, r) => Some (String c l, r)
           | None => None
           end
       end.

(** [sub in s] *)
(** [s.replace(old, new)] for a non-empty [old]: the occurrences of [old]
    are found from left to right and do not overlap; [skip] is the number of
    characters of the occurrence just replaced that are still to be passed. *)
Fixpoint replace_from (old new : string) (skip : nat) (s : string) : string :=
  match s with
  | EmptyString => EmptyString
  | String c s' =>
      match skip with
      | S k => replace_from old new k s'
      | O =>
          if startswith old s
          then new ++ replace_from old new (String.length old - 1) s'
          else String c (replace_from old new O s')
      end
  end.

Definition replace (old new s : string) : string := replace_from old new O s.

Definition contains (sub s : string) : bool :=
  match split_once sub s with Some _ => true | None => false end.

(** [s.split(c)] for a one-character separator: never the empty list. *)
Fixpoint split_char (sep : ascii) (s : string) : list string :=
  match s with
  | EmptyString => [EmptyString]
  | String c s' =>
      if Ascii.eqb c sep then EmptyString :: split_char sep s'
      else match split_char sep s' with
           | [] => [String c EmptyString]
           | h :: t => String c h :: t
           end
  end.

(** [s.split()]: maximal runs of non-blank characters. *)
Fixpoint split_ws_from (cur : string) (s : string) : list string :=
  match s with
  | EmptyString => if is_empty cur then [] else [cur]
  | String c s' =>
      if is_space c
      then (if is_empty cur then split_ws_from EmptyString s'
            else cur :: split_ws_from EmptyString s')
      else split_ws_from (snoc cur c) s'
  end.

Definition split_ws (s : string) : list string := split_ws_from EmptyString s.

(** [s.isdigit()] *)
Fixpoint all_digits (s : string) : bool :=
  match s with
  | EmptyString => true
  | String c s' => is_digit c && all_digits s'
  end.

Definition isdigit (s : string) : bool := negb (is_empty s) && all_digits s.

Definition digit_val (c : ascii) : Z := Z.of_nat (code c - 48).

Fixpoint digits_value (acc : Z) (s : string) : Z :=
  match s with
  | EmptyString => acc
  | String c s' => digits_value (10 * acc + digit_val c) s'
  end.

End PyStr.

(* ================================================================== *)
(** ** A backtracking matcher for the parser's five patterns

    Python's [re] explores alternatives in a fixed order (greedy repetition
    tries the longest first, lazy repetition the shortest first) and returns
    the first complete match; the continuation-passing matcher below does the
    same.  Groups are numbered as in the source patterns. *)

Module Re.

Inductive regex : Type :=
| Chr (p : ascii -> bool)              (* one character of a class *)
| Seq (a b : regex)
| Star (greedy : bool) (a : regex)     (* a* and a*? *)
| Opt (a : regex)                      (* (?:a)? *)
| Group (n : nat) (a : regex)          (* ( a ) *)
| Eos.                                 (* $ without MULTILINE *)

Definition groups := list (nat * string).

Fixpoint group (n : nat) (g : groups) : option string :=
  match g with
  | [] => None
  | (m, s) :: g' => if Nat.eqb m n then Some s else group n g'
  end.

Definition newline : ascii := ascii_of_nat 10.

Definition at_end (s : string) : bool :=
  match s with
  | EmptyString => true
  | String c EmptyString => Ascii.eqb c newline
  | _ => false
  end.

Fixpoint run (r : regex) (s : string) (g : groups)
         (k : string -> groups -> option groups) {struct r} : option groups :=
  match r with
  | Chr p =>
      match s with
      | String c s' => if p c then k s' g else None
      | EmptyString => None
      end
  | Seq a b => run a s g (fun s' g' => run b s' g' k)
  | Opt a =>
      match run a s g k with
      | Some res => Some res
      | None => k s g
      end
  | Group n a =>
      run a s g (fun s' g' =>
        k s' ((n, PyStr.take (String.length s - String.length s') s) :: g'))
  | Eos => if at_end s then k s g else None
  | Star greedy a =>
      (fix loop (fuel : nat) (s : string) (g : groups) {struct fuel} : option groups :=
         match fuel with
         | O => k s g
         | S fuel' =>
             let more :=
               run a s g (fun s' g' =>
                 if Nat.ltb (String.length s') (String.length s)
                 then loop fuel' s' g' else None) in
             if greedy
             then match more with Some res => Some res | None => k s g end
             else match k s g with Some res => Some res | None => more end
         end) (String.length s) s g
  end.

(** [pattern.match(s)]: anchored at the start only. *)
Definition rmatch (r : regex) (s : string) : option groups :=
  run r s [] (fun _ g => Some g).

Definition plus (a : regex) : regex := Seq a (Star true a).

Definition seq_all (l : list regex) : regex :=
  fold_right Seq (Star true (Chr (fun _ => false))) l.

(** A literal under [re.IGNORECASE]. *)
Fixpoint lit (s : string) : list regex :=
  match s with
  | EmptyString => []
  | String c s' =>
      Chr (fun x => Ascii.eqb (PyStr.upper_char x) (PyStr.upper_char c)) :: lit s'
  end.

Definition word : regex := Chr PyStr.is_word.                 (* \w *)
Definition space : regex := Chr PyStr.is_space.               (* \s *)
Definition any : regex := Chr (fun _ => true).                (* . with DOTALL *)
Definition dot : regex := Chr (fun c => negb (Ascii.eqb c newline)). (* . *)
Definition chr (c : ascii) : regex := Chr (Ascii.eqb c).

End Re.

(* ================================================================== *)
(** ** Runtime values *)

(** A Python float is NaN, an infinity, or a finite binary fraction, kept
    here as the rational it denotes (so that [==] is exact, as in Python). *)
Inductive pyfloat : Type :=
| FNan
| FInf (negative : bool)
| FFin (q : Q).

(** The values a parsed literal or a stored cell can be: [None], [bool],
    [int], [str], [float]. *)
Inductive value : Type :=
| VNone
| VBool (b : bool)
| VInt (z : Z)
| VStr (s : string)
| VFloat (f : pyfloat).

Definition is_none (v : value) : bool :=
  match v with VNone => true | _ => false end.

(** The number a value denotes under Python's numeric tower ([bool] is a
    subclass of [int]; [True == 1], [1 == 1.0]). *)
Definition numeric (v : value) : option pyfloat :=
  match v with
  | VBool b => Some (FFin (inject_Z (if b then 1 else 0)))
  | VInt z => Some (FFin (inject_Z z))
  | VFloat f => Some f
  | VNone | VStr _ => None
  end.

Definition float_eqb (a b : pyfloat) : bool :=
  match a, b with
  | FFin p, FFin q => Qeq_bool p q
  | FInf s, FInf t => Bool.eqb s t
  | _, _ => false
  end.

(** Python's [a == b] on these values. *)
Definition py_eq (a b : value) : bool :=
  match a, b with
  | VNone, VNone => true
  | VStr s, VStr t => String.eqb s t
  | _, _ =>
      match numeric a, numeric b with
      | Some x, Some y => float_eqb x y
      | _, _ => false
      end
  end.

(** [a != b] *)
Definition py_ne (a b : value) : bool := negb (py_eq a b).

(* ------------------------------------------------------------------ *)
(** *** The builtin [float(str)]

    Grammar of the language reference: optional sign, then [inf],
    [infinity], [nan] (any case) or a decimal number with optional fraction
    and exponent, digits optionally separated by single underscores; the
    value is the decimal rounded to the nearest binary64, ties to even,
    overflowing to an infinity. *)

Module PyFloat.

Fixpoint digits_loop (s : string) (acc : Z) (n : nat) : Z * nat * string :=
  match s with
  | String c s' =>
      if PyStr.is_digit c then digits_loop s' (10 * acc + PyStr.digit_val c) (S n)
      else if Ascii.eqb c "_" then
        match s' with
        | String d s'' =>
            if PyStr.is_digit d
            then digits_loop s'' (10 * acc + PyStr.digit_val d) (S n)
            else (acc, n, s)
        | EmptyString => (acc, n, s)
        end
      else (acc, n, s)
  | EmptyString => (acc, n, s)
  end.

(** digitpart ::= digit (["_"] digit)*, continuing the mantissa [acc]. *)
Definition digitpart (acc : Z) (s : string) : option (Z * nat * string) :=
  match s with
  | String c _ => if PyStr.is_digit c then Some (digits_loop s acc 0) else None
  | EmptyString => None
  end.

(** number ::= [digitpart] "." digitpart | digitpart ["."]; the result is
    the mantissa, the count of fraction digits and the unread text. *)
Definition number (s : string) : option (Z * nat * string) :=
  match digitpart 0 s with
  | Some (ip, _, r) =>
      match r with
      | String "."%char r' =>
          match digitpart ip r' with
          | Some res => Some res
          | None => Some (ip, O, r')
          end
      | _ => Some (ip, O, r)
      end
  | None =>
      match s with
      | String "."%char r' => digitpart 0 r'
      | _ => None
      end
  end.

Definition sign (s : string) : bool * string :=
  match s with
  | String "-"%char r => (true, r)
  | String "+"%char r => (false, r)
  | _ => (false, s)
  end.

(** exponent ::= ("e" | "E") [sign] digitpart; absent exponent is 0. *)
Definition exponent (s : string) : option Z :=
  match s with
  | EmptyString => Some 0
  | String c r =>
      if Ascii.eqb (PyStr.lower_char c) "e" then
        let '(neg, r') := sign r in
        match digitpart 0 r' with
        | Some (e, _, EmptyString) => Some (if neg then - e else e)
        | _ => None
        end
      else None
  end.

Definition round_half_even (n d : Z) : Z :=
  let q := n / d in
  let r := n mod d in
  if 2 * r <? d then q
  else if d <? 2 * r then q + 1
  else if Z.even q then q else q + 1.

(** The binary64 nearest to [D * 10^E], for [0 <= D]. *)
Definition nearest_double (neg : bool) (D E : Z) : pyfloat :=
  if D =? 0 then FFin 0 else
  let n := if 0 <=? E then D * 10 ^ E else D in
  let d := if 0 <=? E then 1 else 10 ^ (- E) in
  let g := Z.log2 n - Z.log2 d in
  let above := if 0 <=? g then d * 2 ^ g <=? n else d <=? n * 2 ^ (- g) in
  let e0 := if above then g else g - 1 in
  let p := Z.max (e0 - 52) (-1074) in
  let m := if 0 <=? p then round_half_even n (d * 2 ^ p)
           else round_half_even (n * 2 ^ (- p)) d in
  if (0 <=? p) && (2 ^ 1024 <=? m * 2 ^ p) then FInf neg
  else
    let sm := if neg then - m else m in
    FFin (if 0 <=? p then inject_Z (sm * 2 ^ p)
          else Qmake sm (Z.to_pos (2 ^ (- p)))).

(** [float(s)]; [None] stands for the [ValueError] it raises. *)
Definition float (s : string) : option pyfloat :=
  let '(neg, r) := sign (PyStr.strip s) in
  let w := PyStr.lower r in
  if String.eqb w "inf" || String.eqb w "infinity" then Some (FInf neg)
  else if String.eqb w "nan" then Some FNan
  else
    match number r with
    | Some (D, fn, r') =>
        match exponent r' with
        | Some e => Some (nearest_double neg D (e - Z.of_nat fn))
        | None => None
        end
    | None => None
    end.

End PyFloat.

(* ================================================================== *)
(** ** Dictionaries and exceptions *)

Section Dict.
Context {K V : Type} (eqb : K -> K -> bool).

Definition dict : Type := list (K * V).

(** [d.get(k)]: the entry whose key equals [k]. *)
Fixpoint dict_get (k : K) (d : dict) : option V :=
  match d with
  | [] => None
  | (k', v) :: d' => if eqb k' k then Some v else dict_get k d'
  end.

(** [k in d] *)
Definition dict_mem (k : K) (d : dict) : bool :=
  match dict_get k d with Some _ => true | None => false end.

(** [d[k] = v]: an existing key keeps its position, a new key goes last. *)
Fixpoint dict_set (k : K) (v : V) (d : dict) : dict :=
  match d with
  | [] => [(k, v)]
  | (k', v') :: d' =>
      if eqb k' k then (k', v) :: d' else (k', v') :: dict_set k v d'
  end.

(** [del d[k]] *)
Fixpoint dict_del (k : K) (d : dict) : dict :=
  match d with
  | [] => []
  | (k', v') :: d' => if eqb k' k then d' else (k', v') :: dict_del k d'
  end.

Definition dict_keys (d : dict) : list K := map fst d.

(** No key of the dictionary equals an earlier one. *)
Fixpoint dict_wf (d : dict) : Prop :=
  match d with
  | [] => True
  | (k, _) :: d' => dict_get k d' = None /\ dict_wf d'
  end.
End Dict.

Arguments dict : clear implicits.

Inductive DataType : Type := INT | TEXT | BOOL.

(** What a [ValueError] raised by the engine is about. *)
Inductive value_error : Type :=
| TableExists (table : string)
| NoSuchTable (table : string)
| CountMismatch (ncols nvalues : nat)
| NoSuchColumn (col : string)
| InvalidType (col : string) (expected : DataType)
| NullPrimaryKey (col : string)
| DuplicateValue (col : string) (v : value)
| UniqueViolation (col : string)
| BadDataType (ty : string)          (* DataType(s) on an unknown name *)
| Unpack                             (* a, b = <sequence of another length> *)
| IntMaxStrDigits (digits : nat).    (* int(s) on more digits than the limit *)

Inductive exn : Type :=
| SyntaxError (msg : string)
| ValueError (e : value_error)
| IndexError
| KeyError
| OSError (file_name : string).      (* open(file_name, 'w') refused *)

Inductive result (A : Type) : Type :=
| Ok (a : A)
| Raise (e : exn).
Arguments Ok {A} a.
Arguments Raise {A} e.

Definition bind {A B : Type} (r : result A) (f : A -> result B) : result B :=
  match r with
  | Ok a => f a
  | Raise e => Raise e
  end.

Notation "x <- r ;; k" := (bind r (fun x => k))
  (at level 61, r at next level, right associativity).

(** *** The builtin [int(str)] on decimal digits

    [int(s)] for a text [s] made of an optional minus sign and decimal
    digits, the only texts the parser hands to it. *)

Module PyInt.

(** [sys.int_info.default_max_str_digits] *)
Definition MAX_STR_DIGITS : nat := 4300.

Definition of_digits (negative : bool) (digits : string) : result Z :=
  if Nat.ltb MAX_STR_DIGITS (String.length digits)
  then Raise (ValueError (IntMaxStrDigits (String.length digits)))
  else Ok (if negative then - PyStr.digits_value 0 digits
           else PyStr.digits_value 0 digits).

End PyInt.

(* ================================================================== *)
(** ** parser.py *)

Record ColumnDef : Type := mkColumnDef {
  cd_name : string;
  cd_type : string;
  cd_constraints : list string
}.

Record Condition : Type := mkCondition {
  cond_column : string;
  cond_operator : string;
  cond_value : value
}.

Record JoinInfo : Type := mkJoin {
  join_table : string;
  left_column : string;
  right_column : string
}.

(** The dictionary [parse] returns, one constructor per [QueryType]. *)
Inductive Query : Type :=
| CREATE_TABLE (table_name : string) (columns : list ColumnDef)
| INSERT (table_name : string) (columns : option (list string)) (values : list value)
| SELECT (table_name : string) (columns : list string)
         (where_ : option (list Condition)) (join : option JoinInfo)
| UPDATE (table_name : string) (set_ : dict string value)
         (where_ : option (list Condition))
| DELETE (table_name : string) (where_ : option (list Condition)).

Module QueryParser.
Import Re.

(** Source pattern, flags IGNORECASE | DOTALL: the words CREATE TABLE and a
    blank, group 1 = \w+, \s*, an opening parenthesis, group 2 = greedy
    ".*", a closing parenthesis. *)
Definition CREATE_TABLE_PATTERN : regex :=
  seq_all (lit "CREATE TABLE "
           ++ [Group 1 (plus word); Star true space; chr "(";
               Group 2 (Star true any); chr ")"]).

(** Source pattern, flags IGNORECASE | DOTALL: INSERT INTO and a blank,
    group 1 = \w+, \s*, optionally a parenthesised group 2 = lazy ".*?",
    \s*, VALUES, \s*, an opening parenthesis, group 3 = greedy ".*", a
    closing parenthesis. *)
Definition INSERT_PATTERN : regex :=
  seq_all (lit "INSERT INTO "
           ++ [Group 1 (plus word); Star true space;
               Opt (seq_all [chr "("; Group 2 (Star false any); chr ")"]);
               Star true space]
           ++ lit "VALUES"
           ++ [Star true space; chr "("; Group 3 (Star true any); chr ")"]).

(** Source pattern, flag IGNORECASE: SELECT and a blank, group 1 = lazy
    ".*?", FROM between single blanks, group 2 = \w+, optionally
    [\s+WHERE\s+] and group 3 = lazy ".*?", optionally [\s+INNER JOIN\s+],
    group 4 = \w+, [\s+ON\s+] and group 5 = greedy ".*", then $. *)
Definition SELECT_PATTERN : regex :=
  seq_all (lit "SELECT "
           ++ [Group 1 (Star false dot)]
           ++ lit " FROM "
           ++ [Group 2 (plus word);
               Opt (seq_all ([plus space] ++ lit "WHERE"
                             ++ [plus space; Group 3 (Star false dot)]));
               Opt (seq_all ([plus space] ++ lit "INNER JOIN"
                             ++ [plus space; Group 4 (plus word); plus space]
                             ++ lit "ON"
                             ++ [plus space; Group 5 (Star true dot)]));
               Eos]).

(** Source pattern, flag IGNORECASE: UPDATE and a blank, group 1 = \w+,
    [\s+SET\s+], group 2 = lazy ".*?", optionally [\s+WHERE\s+] and
    group 3 = greedy ".*", then $. *)
Definition UPDATE_PATTERN : regex :=
  seq_all (lit "UPDATE "
           ++ [Group 1 (plus word); plus space]
           ++ lit "SET"
           ++ [plus space; Group 2 (Star false dot);
               Opt (seq_all ([plus space] ++ lit "WHERE"
                             ++ [plus space; Group 3 (Star true dot)]));
               Eos]).

(** Source pattern, flag IGNORECASE: DELETE FROM and a blank, group 1 =
    \w+, optionally [\s+WHERE\s+] and group 2 = greedy ".*", then $. *)
Definition DELETE_PATTERN : regex :=
  seq_all (lit "DELETE FROM "
           ++ [Group 1 (plus word);
               Opt (seq_all ([plus space] ++ lit "WHERE"
                             ++ [plus space; Group 2 (Star true dot)]));
               Eos]).

(** [match.group(n)] of a group that took part in the match. *)
Definition group_str (n : nat) (g : groups) : string :=
  match group n g with Some s => s | None => EmptyString end.

(** Truthiness of [match.group(n)]: [None] and [''] are both false. *)
Definition group_nonempty (n : nat) (g : groups) : option string :=
  match group n g with
  | Some s => if PyStr.is_empty s then None else Some s
  | None => None
  end.

Fixpoint split_commas_loop (s : string) (result_ : list string)
         (current : string) (paren_depth : Z) : list string :=
  match s with
  | EmptyString =>
      if PyStr.is_empty current then result_
      else result_ ++ [PyStr.strip current]
  | String char s' =>
      if Ascii.eqb char "(" then
        split_commas_loop s' result_ (PyStr.snoc current char) (paren_depth + 1)
      else if Ascii.eqb char ")" then
        split_commas_loop s' result_ (PyStr.snoc current char) (paren_depth - 1)
      else if Ascii.eqb char "," && (paren_depth =? 0) then
        split_commas_loop s' (result_ ++ [PyStr.strip current]) EmptyString paren_depth
      else split_commas_loop s' result_ (PyStr.snoc current char) paren_depth
  end.

Definition _split_by_commas (s : string) : list string :=
  split_commas_loop s [] EmptyString 0.

(** The one-character string holding a double quote. *)
Definition dquote : string := String (ascii_of_nat 34) EmptyString.

Definition _parse_value (value_str : string) : result value :=
  let value_str := PyStr.strip value_str in
  if String.eqb (PyStr.upper value_str) "NULL" then Ok VNone
  else if String.eqb (PyStr.upper value_str) "TRUE" then Ok (VBool true)
  else if String.eqb (PyStr.upper value_str) "FALSE" then Ok (VBool false)
  else if PyStr.startswith "'" value_str && PyStr.endswith "'" value_str
       then Ok (VStr (PyStr.slice_1_m1 value_str))
  else if PyStr.startswith dquote value_str && PyStr.endswith dquote value_str
       then Ok (VStr (PyStr.slice_1_m1 value_str))
  else if PyStr.isdigit value_str
       then n <- PyInt.of_digits false value_str ;; Ok (VInt n)
  else if PyStr.startswith "-" value_str && PyStr.isdigit (PyStr.slice_1 value_str)
       then n <- PyInt.of_digits true (PyStr.slice_1 value_str) ;; Ok (VInt n)
  else match PyFloat.float value_str with
       | Some f => Ok (VFloat f)
       | None => Ok (VStr value_str)
       end.

(** The [for val in self._split_by_commas(values_str)] loop. *)
Fixpoint values_loop (vals : list string) (values : list value)
  : result (list value) :=
  match vals with
  | [] => Ok values
  | val :: rest =>
      v <- _parse_value (PyStr.strip val) ;;
      values_loop rest (values ++ [v])
  end.

Definition _parse_values (values_str : string) : result (list value) :=
  values_loop (_split_by_commas values_str) [].

Fixpoint where_loop (conds : list string) (conditions : list Condition)
  : result (list Condition) :=
  match conds with
  | [] => Ok conditions
  | cond :: rest =>
      if PyStr.contains "=" cond then
        match PyStr.split_once "=" cond with
        | Some (lhs, rhs) =>
            v <- _parse_value (PyStr.strip rhs) ;;
            where_loop rest (conditions ++ [mkCondition (PyStr.strip lhs) "=" v])
        | None => where_loop rest conditions
        end
      else if PyStr.contains "!=" cond then
        match PyStr.split_once "!=" cond with
        | Some (lhs, rhs) =>
            v <- _parse_value (PyStr.strip rhs) ;;
            where_loop rest (conditions ++ [mkCondition (PyStr.strip lhs) "!=" v])
        | None => where_loop rest conditions
        end
      else where_loop rest conditions
  end.

Definition _parse_where_clause (where_str : string) : result (list Condition) :=
  where_loop (_split_by_commas where_str) [].

(** [self._parse_where_clause(where_clause) if where_clause else None] *)
Definition where_of (where_clause : option string)
  : result (option (list Condition)) :=
  match where_clause with
  | Some w => conditions <- _parse_where_clause w ;; Ok (Some conditions)
  | None => Ok None
  end.

Fixpoint create_columns_loop (col_defs : list string) (columns : list ColumnDef)
  : result (list ColumnDef) :=
  match col_defs with
  | [] => Ok columns
  | col_def :: rest =>
      let col_def := PyStr.strip col_def in
      if PyStr.is_empty col_def then create_columns_loop rest columns
      else
        match PyStr.split_ws col_def with
        | col_name :: ty :: more =>
            create_columns_loop rest
              (columns ++ [mkColumnDef col_name (PyStr.upper ty) (map PyStr.upper more)])
        | _ => Raise IndexError            (* parts[1] *)
        end
  end.

Definition _parse_create_table (query : string) : result Query :=
  match rmatch CREATE_TABLE_PATTERN query with
  | None => Raise (SyntaxError "Invalid CREATE TABLE syntax")
  | Some m =>
      let table_name := group_str 1 m in
      let columns_str := group_str 2 m in
      columns <- create_columns_loop (_split_by_commas columns_str) [] ;;
      Ok (CREATE_TABLE table_name columns)
  end.

Definition _parse_insert (query : string) : result Query :=
  match rmatch INSERT_PATTERN query with
  | None => Raise (SyntaxError "Invalid INSERT syntax")
  | Some m =>
      let table_name := group_str 1 m in
      let values_str := group_str 3 m in
      let columns :=
        match group_nonempty 2 m with
        | Some columns_str => Some (map PyStr.strip (PyStr.split_char "," columns_str))
        | None => None
        end in
      values <- _parse_values values_str ;;
      Ok (INSERT table_name columns values)
  end.

(** [a, b = s.split('.')] *)
Definition unpack_dotted (s : string) : result (string * string) :=
  match PyStr.split_char "." s with
  | [a; b] => Ok (a, b)
  | _ => Raise (ValueError Unpack)
  end.

Definition _parse_select (query : string) : result Query :=
  match rmatch SELECT_PATTERN query with
  | None => Raise (SyntaxError "Invalid SELECT syntax")
  | Some m =>
      let columns_str := PyStr.strip (group_str 1 m) in
      let table_name := PyStr.strip (group_str 2 m) in
      let columns :=
        if String.eqb columns_str "*" then ["*"]
        else map PyStr.strip (PyStr.split_char "," columns_str) in
      conditions <- where_of (group_nonempty 3 m) ;;
      match group_nonempty 4 m, group_nonempty 5 m with
      | Some join_table, Some join_condition =>
          match PyStr.split_char "=" join_condition with
          | [l; r] =>
              lp <- unpack_dotted (PyStr.strip l) ;;
              rp <- unpack_dotted (PyStr.strip r) ;;
              Ok (SELECT table_name columns conditions
                    (Some (mkJoin (PyStr.strip join_table) (snd lp) (snd rp))))
          | _ => Raise (SyntaxError "Invalid JOIN condition")
          end
      | _, _ => Ok (SELECT table_name columns conditions None)
      end
  end.

Fixpoint set_loop (assigns : list string) (assignments : dict string value)
  : result (dict string value) :=
  match assigns with
  | [] => Ok assignments
  | assign :: rest =>
      match PyStr.split_once "=" assign with
      | Some (col, val) =>
          v <- _parse_value (PyStr.strip val) ;;
          set_loop rest (dict_set String.eqb (PyStr.strip col) v assignments)
      | None => Raise (ValueError Unpack)
      end
  end.

Definition _parse_update (query : string) : result Query :=
  match rmatch UPDATE_PATTERN query with
  | None => Raise (SyntaxError "Invalid UPDATE syntax")
  | Some m =>
      let table_name := group_str 1 m in
      let set_clause := group_str 2 m in
      assignments <- set_loop (_split_by_commas set_clause) [] ;;
      conditions <- where_of (group_nonempty 3 m) ;;
      Ok (UPDATE table_name assignments conditions)
  end.

Definition _parse_delete (query : string) : result Query :=
  match rmatch DELETE_PATTERN query with
  | None => Raise (SyntaxError "Invalid DELETE syntax")
  | Some m =>
      conditions <- where_of (group_nonempty 2 m) ;;
      Ok (DELETE (group_str 1 m) conditions)
  end.

Definition parse (query : string) : result Query :=
  let query := PyStr.rstrip_semicolon (PyStr.strip query) in
  let u := PyStr.upper query in
  if PyStr.startswith "CREATE TABLE" u then _parse_create_table query
  else if PyStr.startswith "INSERT INTO" u then _parse_insert query
  else if PyStr.startswith "SELECT" u then _parse_select query
  else if PyStr.startswith "UPDATE" u then _parse_update query
  else if PyStr.startswith "DELETE FROM" u then _parse_delete query
  else Raise (SyntaxError ("Unsupported query type: " ++ query)).

End QueryParser.

(* ================================================================== *)
(** ** types.py *)

Definition DataType_value (d : DataType) : string :=
  match d with INT => "INT" | TEXT => "TEXT" | BOOL => "BOOL" end.

(** [DataType(s)]: lookup of an enumeration member by value. *)
Definition DataType_of (s : string) : result DataType :=
  if String.eqb s "INT" then Ok INT
  else if String.eqb s "TEXT" then Ok TEXT
  else if String.eqb s "BOOL" then Ok BOOL
  else Raise (ValueError (BadDataType s)).

Record Column : Type := mkColumn {
  name : string;
  dtype : DataType;
  is_primary : bool;
  is_unique : bool
}.

(** [Column.validate_value]; [isinstance(True, int)] holds in Python. *)
Definition validate_value (self : Column) (v : value) : bool :=
  match v with
  | VNone => true
  | _ =>
      match dtype self with
      | INT => match v with VInt _ | VBool _ => true | _ => false end
      | TEXT => match v with VStr _ => true | _ => false end
      | BOOL => match v with VBool _ => true | _ => false end
      end
  end.

(** Sets of row-ids. *)
Definition set_add (r : Z) (s : list Z) : list Z :=
  if existsb (Z.eqb r) s then s else s ++ [r].

Definition set_discard (r : Z) (s : list Z) : list Z :=
  filter (fun x => negb (Z.eqb x r)) s.

Definition nonempty {A : Type} (l : list A) : bool :=
  match l with [] => false | _ => true end.

Module Index.

Record t : Type := mk {
  column_name : string;
  is_unique : bool;
  _index : dict value (list Z)       (* value -> set of row_ids *)
}.

(** [Index(column_name, is_unique)] *)
Definition new (column_name : string) (is_unique : bool) : t :=
  mk column_name is_unique [].

Definition with_index (self : t) (d : dict value (list Z)) : t :=
  mk (column_name self) (is_unique self) d.

Definition search (self : t) (v : value) : list Z :=
  match dict_get py_eq v (_index self) with
  | Some s => s
  | None => []
  end.

Definition has_value (self : t) (v : value) : bool :=
  dict_mem py_eq v (_index self).

Definition insert (self : t) (v : value) (row_id : Z) : t * bool :=
  if is_none v then (self, true)
  else if is_unique self && has_value self v && nonempty (search self v)
  then (self, false)
  else (with_index self (dict_set py_eq v (set_add row_id (search self v)) (_index self)),
        true).

Definition delete (self : t) (v : value) (row_id : Z) : t :=
  if has_value self v then
    let s := set_discard row_id (search self v) in
    if nonempty s then with_index self (dict_set py_eq v s (_index self))
    else with_index self (dict_del py_eq v (_index self))
  else self.

Definition update (self : t) (old_value new_value : value) (row_id : Z) : t * bool :=
  insert (delete self old_value row_id) new_value row_id.

End Index.

(* ================================================================== *)
(** ** storage.py *)

Definition Row : Type := dict string value.
Definition Rows : Type := dict Z Row.

(** [row.get(col)] *)
Definition row_get (row : Row) (col : string) : value :=
  match dict_get String.eqb col row with
  | Some v => v
  | None => VNone
  end.

(** One schema file and one data file per table.  The file
    [<table>_schema.json] is kept here under the table's name, and so is the
    file [<table>_data.pkl]: different names give different files, and no
    schema file is a data file.  [json.dump] / [pickle.dump] write a copy of
    the object as it is at the time of the call. *)
Record Storage : Type := mkStorage {
  schema_files : dict string (list ColumnDef);
  data_files : dict string Rows
}.

(** [f"{table_name}_schema.json"] and [f"{table_name}_data.pkl"] *)
Definition schema_file_name (table_name : string) : string :=
  table_name ++ "_schema.json".

Definition data_file_name (table_name : string) : string :=
  table_name ++ "_data.pkl".

(** The longest file name the file system accepts. *)
Definition NAME_MAX : nat := 255.

(** [open(file, 'w')]: refused, before anything is written, when the file
    name is too long. *)
Definition open_w (file_name : string) : result unit :=
  if Nat.leb (String.length file_name) NAME_MAX then Ok tt
  else Raise (OSError file_name).

Definition save_table_schema (self : Storage) (table_name : string)
           (columns : list ColumnDef) : result Storage :=
  _ <- open_w (schema_file_name table_name) ;;
  Ok (mkStorage (dict_set String.eqb table_name columns (schema_files self))
                (data_files self)).

Definition load_table_schema (self : Storage) (table_name : string)
  : option (list ColumnDef) :=
  dict_get String.eqb table_name (schema_files self).

Definition save_table_data (self : Storage) (table_name : string) (data : Rows)
  : result Storage :=
  _ <- open_w (data_file_name table_name) ;;
  Ok (mkStorage (schema_files self)
                (dict_set String.eqb table_name data (data_files self))).

Definition load_table_data (self : Storage) (table_name : string) : option Rows :=
  dict_get String.eqb table_name (data_files self).

(** [Storage.table_exists]: the schema file is there. *)
Definition table_exists (self : Storage) (table_name : string) : bool :=
  dict_mem String.eqb table_name (schema_files self).

(** For every schema file present, its name with every occurrence of
    [_schema.json] taken out (the order of a directory listing is not
    specified; file creation order is used). *)
Definition list_tables (self : Storage) : list string :=
  map (fun table_name =>
         PyStr.replace "_schema.json" "" (schema_file_name table_name))
      (dict_keys (schema_files self)).

Definition empty_storage : Storage := mkStorage [] [].

(* ================================================================== *)
(** ** executor.py *)

(** The per-table dictionary [{'schema', 'data', 'indexes', 'next_row_id'}];
    [rows] is [table['data']['rows']].  (A table loaded from a schema file
    that has no data file beside it has no ['rows'] entry in the source, and
    every statement on it raises [KeyError]; here [rows] is empty in that
    case.  The engine writes the data file together with the schema file:
    the invariant [files_ok] below states that no schema file is without
    its data file; it holds in every reachable state, and the states of a
    [session] start from a storage that satisfies it.) *)
Record Table : Type := mkTable {
  schema : list Column;
  rows : Rows;
  indexes : dict string Index.t;
  next_row_id : Z
}.

Record QueryExecutor : Type := mkExecutor {
  storage : Storage;
  tables : dict string Table
}.

(** The dictionaries returned to the caller (all carry ['status': 'OK']). *)
Inductive Response : Type :=
| Created (table_name : string)
| Inserted (row_id : Z)
| Selected (columns : list string) (rows_ : list Row)
| Updated (updated_count : Z)
| Deleted (deleted_count : Z).

Definition set_table (self : QueryExecutor) (table_name : string) (t : Table)
  : QueryExecutor :=
  mkExecutor (storage self) (dict_set String.eqb table_name t (tables self)).

Definition set_storage (self : QueryExecutor) (st : Storage) : QueryExecutor :=
  mkExecutor st (tables self).

(** [in] on a list of strings: some element equals the string. *)
Definition list_mem (s : string) (l : list string) : bool :=
  existsb (String.eqb s) l.

(** The [Column(...)] built from a column definition or a persisted
    descriptor (the two call sites are the same expression). *)
Definition column_of (col_def : ColumnDef) : result Column :=
  ty <- DataType_of (cd_type col_def) ;;
  Ok (mkColumn (cd_name col_def) ty
        (list_mem "PRIMARY KEY" (cd_constraints col_def))
        (list_mem "UNIQUE" (cd_constraints col_def)
         || list_mem "PRIMARY KEY" (cd_constraints col_def))).

Fixpoint columns_of (col_defs : list ColumnDef) : result (list Column) :=
  match col_defs with
  | [] => Ok []
  | col_def :: rest =>
      col <- column_of col_def ;;
      cols <- columns_of rest ;;
      Ok (col :: cols)
  end.

(** "Create indexes for primary key and unique columns". *)
Fixpoint make_indexes (columns : list Column) (indexes : dict string Index.t)
  : dict string Index.t :=
  match columns with
  | [] => indexes
  | col :: rest =>
      if is_primary col || is_unique col
      then make_indexes rest
             (dict_set String.eqb (name col)
                (Index.new (name col) (is_primary col || is_unique col)) indexes)
      else make_indexes rest indexes
  end.

(** The [for col in columns] loop of [_load_table] for one stored row. *)
Fixpoint load_row (columns : list Column) (indexes : dict string Index.t)
         (row : Row) (row_id : Z) : dict string Index.t :=
  match columns with
  | [] => indexes
  | col :: rest =>
      match dict_get String.eqb (name col) indexes with
      | Some ix =>
          load_row rest
            (dict_set String.eqb (name col)
               (fst (Index.insert ix (row_get row (name col)) row_id)) indexes)
            row row_id
      | None => load_row rest indexes row row_id
      end
  end.

(** The [for row_id_str, row in rows.items()] loop of [_load_table]. *)
Fixpoint load_rows (columns : list Column) (items : Rows)
         (indexes : dict string Index.t) (next_row_id : Z)
  : dict string Index.t * Z :=
  match items with
  | [] => (indexes, next_row_id)
  | (row_id, row) :: rest =>
      load_rows columns rest (load_row columns indexes row row_id)
                (Z.max next_row_id (row_id + 1))
  end.

Definition _load_table (self : QueryExecutor) (table_name : string)
  : result QueryExecutor :=
  match load_table_schema (storage self) table_name with
  | None | Some [] => Ok self
  | Some schema_data =>
      columns <- columns_of schema_data ;;
      let indexes := make_indexes columns [] in
      let table_data :=
        match load_table_data (storage self) table_name with
        | Some d => d
        | None => []
        end in
      let '(indexes, next_row_id) := load_rows columns table_data indexes 1 in
      Ok (set_table self table_name (mkTable columns table_data indexes next_row_id))
  end.

Fixpoint load_tables (self : QueryExecutor) (names : list string)
  : result QueryExecutor :=
  match names with
  | [] => Ok self
  | table_name :: rest =>
      self' <- _load_table self table_name ;;
      load_tables self' rest
  end.

Definition _load_existing_tables (self : QueryExecutor) : result QueryExecutor :=
  load_tables self (list_tables (storage self)).

(** [QueryExecutor(storage)] *)
Definition QueryExecutor_init (st : Storage) : result QueryExecutor :=
  _load_existing_tables (mkExecutor st []).

(** [next((col for col in columns if col.name == col_name), None)] *)
Definition find_column (columns : list Column) (col_name : string) : option Column :=
  find (fun col => String.eqb (name col) col_name) columns.

Fixpoint check_columns (columns : list Column) (indexes : dict string Index.t)
         (row : Row) (exclude_row_id : option Z) : option exn :=
  match columns with
  | [] => None
  | col :: rest =>
      let v := row_get row (name col) in
      if is_primary col && is_none v
      then Some (ValueError (NullPrimaryKey (name col)))
      else if (is_primary col || is_unique col) && negb (is_none v) then
        match dict_get String.eqb (name col) indexes with
        | None => Some KeyError
        | Some index =>
            if Index.has_value index v then
              let existing_rows := Index.search index v in
              let existing_rows :=
                match exclude_row_id with
                | Some r => set_discard r existing_rows
                | None => existing_rows
                end in
              if nonempty existing_rows
              then Some (ValueError (DuplicateValue (name col) v))
              else check_columns rest indexes row exclude_row_id
            else check_columns rest indexes row exclude_row_id
        end
      else check_columns rest indexes row exclude_row_id
  end.

(** [_check_constraints(table_name, row, exclude_row_id)]: [None] when the
    row passes, otherwise the exception raised. *)
Definition _check_constraints (table : Table) (row : Row)
           (exclude_row_id : option Z) : option exn :=
  check_columns (schema table) (indexes table) row exclude_row_id.

(** The full-scan test of one row against every condition. *)
Fixpoint match_all (row : Row) (conditions : list Condition) : bool :=
  match conditions with
  | [] => true
  | condition :: rest =>
      let col_value := row_get row (cond_column condition) in
      if String.eqb (cond_operator condition) "=" then
        if py_ne col_value (cond_value condition) then false
        else match_all row rest
      else if String.eqb (cond_operator condition) "!=" then
        if py_eq col_value (cond_value condition) then false
        else match_all row rest
      else match_all row rest
  end.

(** "Fallback to full scan". *)
Definition full_scan (rows : Rows) (conditions : list Condition) : Rows :=
  filter (fun item => match_all (snd item) conditions) rows.

(** The rows an index names, in the order the set yields the row-ids. *)
Fixpoint rows_of_ids (rows : Rows) (ids : list Z) (filtered_rows : Rows) : Rows :=
  match ids with
  | [] => filtered_rows
  | row_id :: rest =>
      match dict_get Z.eqb row_id rows with
      | Some row => rows_of_ids rows rest (dict_set Z.eqb row_id row filtered_rows)
      | None => rows_of_ids rows rest filtered_rows
      end
  end.

(** "Try to use indexes for equality conditions": the first condition that
    is an equality on an indexed column decides the result alone. *)
Fixpoint index_path (indexes : dict string Index.t) (rows : Rows)
         (conditions : list Condition) : option Rows :=
  match conditions with
  | [] => None
  | condition :: rest =>
      if String.eqb (cond_operator condition) "=" then
        match dict_get String.eqb (cond_column condition) indexes with
        | Some index =>
            Some (rows_of_ids rows (Index.search index (cond_value condition)) [])
        | None => index_path indexes rows rest
        end
      else index_path indexes rows rest
  end.

Definition _apply_where_clause (table : Table) (rows : Rows)
           (conditions : option (list Condition)) : Rows :=
  match conditions with
  | None | Some [] => rows
  | Some conditions =>
      match index_path (indexes table) rows conditions with
      | Some filtered_rows => filtered_rows
      | None => full_scan rows conditions
      end
  end.

Definition _execute_create_table (self : QueryExecutor) (table_name : string)
           (col_defs : list ColumnDef) : QueryExecutor * result Response :=
  if dict_mem String.eqb table_name (tables self)
  then (self, Raise (ValueError (TableExists table_name)))
  else
    match columns_of col_defs with
    | Raise e => (self, Raise e)
    | Ok columns =>
        let schema_data :=
          map (fun cc => mkColumnDef (name (fst cc)) (DataType_value (dtype (fst cc)))
                                     (cd_constraints (snd cc)))
              (combine columns col_defs) in
        let table := mkTable columns [] (make_indexes columns []) 1 in
        let self := set_table self table_name table in
        (* Save to disk *)
        match save_table_schema (storage self) table_name schema_data with
        | Raise e => (self, Raise e)
        | Ok st =>
            let self := set_storage self st in
            match save_table_data (storage self) table_name (rows table) with
            | Raise e => (self, Raise e)
            | Ok st => (set_storage self st, Ok (Created table_name))
            end
        end
    end.

(** "Create row dictionary": the [zip(col_names, values)] loop. *)
Fixpoint build_row (columns : list Column) (pairs : list (string * value))
         (row_data : Row) : result Row :=
  match pairs with
  | [] => Ok row_data
  | (col_name, v) :: rest =>
      match find_column columns col_name with
      | None => Raise (ValueError (NoSuchColumn col_name))
      | Some col_def =>
          if validate_value col_def v
          then build_row columns rest (dict_set String.eqb col_name v row_data)
          else Raise (ValueError (InvalidType col_name (dtype col_def)))
      end
  end.

(** "Fill missing columns with NULL". *)
Fixpoint fill_missing (columns : list Column) (row_data : Row) : Row :=
  match columns with
  | [] => row_data
  | col :: rest =>
      if dict_mem String.eqb (name col) row_data
      then fill_missing rest row_data
      else fill_missing rest (dict_set String.eqb (name col) VNone row_data)
  end.

(** "Update indexes" of an insert: the updated index dictionary and, when an
    index refuses the value, the column it belongs to (later indexes are
    then left as they were). *)
Fixpoint insert_indexes (items : dict string Index.t) (row_data : Row) (row_id : Z)
  : dict string Index.t * option string :=
  match items with
  | [] => ([], None)
  | (col_name, index) :: rest =>
      let '(index', ok) := Index.insert index (row_get row_data col_name) row_id in
      if ok then
        let '(rest', failed) := insert_indexes rest row_data row_id in
        ((col_name, index') :: rest', failed)
      else ((col_name, index') :: rest, Some col_name)
  end.

(** The part of [_execute_insert] from "Get column order" to "Fill missing
    columns with NULL": the row dictionary handed to the constraint check. *)
Definition assemble_row (table : Table) (query_columns : option (list string))
           (values : list value) : result Row :=
  let columns := schema table in
  let col_names :=
    match query_columns with
    | Some (c :: cs) => c :: cs
    | _ => map name columns
    end in
  if negb (Nat.eqb (List.length col_names) (List.length values))
  then Raise (ValueError (CountMismatch (List.length col_names) (List.length values)))
  else
    row_data <- build_row columns (combine col_names values) [] ;;
    Ok (fill_missing columns row_data).

Definition _execute_insert (self : QueryExecutor) (table_name : string)
           (query_columns : option (list string)) (values : list value)
  : QueryExecutor * result Response :=
  match dict_get String.eqb table_name (tables self) with
  | None => (self, Raise (ValueError (NoSuchTable table_name)))
  | Some table =>
      let columns := schema table in
      match assemble_row table query_columns values with
      | Raise e => (self, Raise e)
      | Ok row_data =>
          match _check_constraints table row_data None with
          | Some e => (self, Raise e)
          | None =>
              let row_id := next_row_id table in
              let rows1 := dict_set Z.eqb row_id row_data (rows table) in
              let '(indexes1, failed) := insert_indexes (indexes table) row_data row_id in
              match failed with
              | Some col_name =>
                  (* Rollback *)
                  (set_table self table_name
                     (mkTable columns (dict_del Z.eqb row_id rows1) indexes1
                              (next_row_id table + 1 - 1)),
                   Raise (ValueError (UniqueViolation col_name)))
              | None =>
                  let table' := mkTable columns rows1 indexes1 (next_row_id table + 1) in
                  let self := set_table self table_name table' in
                  (* Save to disk *)
                  match save_table_data (storage self) table_name rows1 with
                  | Raise e => (self, Raise e)
                  | Ok st => (set_storage self st, Ok (Inserted row_id))
                  end
              end
          end
      end
  end.

(** "Select columns": the projection of one row. *)
Fixpoint project (row : Row) (selected_columns : list string) (result_row : Row)
  : result Row :=
  match selected_columns with
  | [] => Ok result_row
  | col_name :: rest =>
      match dict_get String.eqb col_name row with
      | Some v => project row rest (dict_set String.eqb col_name v result_row)
      | None => Raise (ValueError (NoSuchColumn col_name))
      end
  end.

Fixpoint project_all (items : Rows) (selected_columns : list string)
  : result (list Row) :=
  match items with
  | [] => Ok []
  | (_, row) :: rest =>
      r <- project row selected_columns [] ;;
      rs <- project_all rest selected_columns ;;
      Ok (r :: rs)
  end.

(** The key [f"{table}.{k}"]. *)
Definition dotted (table_name k : string) : string := table_name ++ "." ++ k.

(** [{f"{table}.{k}": v for k, v in row.items()}] merged into [acc]. *)
Fixpoint prefixed (table_name : string) (row : Row) (acc : Row) : Row :=
  match row with
  | [] => acc
  | (k, v) :: rest =>
      prefixed table_name rest (dict_set String.eqb (dotted table_name k) v acc)
  end.

(** "Merge rows": the left row's prefixed entries, then [update] with the
    right row's. *)
Definition merge_rows (left_table_name : string) (left_row : Row)
           (right_table_name : string) (right_row : Row) : Row :=
  prefixed right_table_name right_row (prefixed left_table_name left_row []).

(** The index branch of the join, for one left row. *)
Definition join_index_row (left_table_name right_table_name : string)
           (right_rows : Rows) (index : Index.t) (left_col : string)
           (left_row : Row) : list Row :=
  let left_value := row_get left_row left_col in
  if is_none left_value then []
  else
    flat_map (fun right_row_id =>
                match dict_get Z.eqb right_row_id right_rows with
                | Some right_row =>
                    if nonempty right_row
                    then [merge_rows left_table_name left_row right_table_name right_row]
                    else []
                | None => []
                end)
             (Index.search index left_value).

(** The nested-loop branch of the join, for one left row. *)
Definition join_scan_row (left_table_name right_table_name : string)
           (right_rows : Rows) (left_col right_col : string)
           (left_row : Row) : list Row :=
  let left_value := row_get left_row left_col in
  if is_none left_value then []
  else
    flat_map (fun item =>
                if py_eq (row_get (snd item) right_col) left_value
                then [merge_rows left_table_name left_row right_table_name (snd item)]
                else [])
             right_rows.

Definition join_index (left_table_name right_table_name : string)
           (right_rows : Rows) (index : Index.t) (left_col : string)
           (left_rows : Rows) : list Row :=
  flat_map (fun item => join_index_row left_table_name right_table_name right_rows
                                       index left_col (snd item))
           left_rows.

Definition join_scan (left_table_name right_table_name : string)
           (right_rows : Rows) (left_col right_col : string)
           (left_rows : Rows) : list Row :=
  flat_map (fun item => join_scan_row left_table_name right_table_name right_rows
                                      left_col right_col (snd item))
           left_rows.

Definition _execute_join (self : QueryExecutor) (left_table_name : string)
           (left_rows : Rows) (join_info : JoinInfo) : result (list Row) :=
  let right_table_name := join_table join_info in
  match dict_get String.eqb right_table_name (tables self) with
  | None => Raise (ValueError (NoSuchTable right_table_name))
  | Some right_table =>
      let left_col := left_column join_info in
      let right_col := right_column join_info in
      match dict_get String.eqb right_col (indexes right_table) with
      | Some index =>
          Ok (join_index left_table_name right_table_name (rows right_table)
                         index left_col left_rows)
      | None =>
          Ok (join_scan left_table_name right_table_name (rows right_table)
                        left_col right_col left_rows)
      end
  end.

Definition _execute_select (self : QueryExecutor) (table_name : string)
           (query_columns : list string) (where_ : option (list Condition))
           (join : option JoinInfo) : QueryExecutor * result Response :=
  match dict_get String.eqb table_name (tables self) with
  | None => (self, Raise (ValueError (NoSuchTable table_name)))
  | Some table =>
      let selected_columns :=
        match query_columns with
        | ["*"] => map name (schema table)
        | _ => query_columns
        end in
      let filtered_rows := _apply_where_clause table (rows table) where_ in
      match join with
      | Some join_info =>
          (self,
           join_result <- _execute_join self table_name filtered_rows join_info ;;
           Ok (Selected selected_columns join_result))
      | None =>
          (self,
           rs <- project_all filtered_rows selected_columns ;;
           Ok (Selected selected_columns rs))
      end
  end.

(** "Create updated row": the [for col_name, new_value in query['set'].items()]
    loop. *)
Fixpoint apply_set (columns : list Column) (items : dict string value)
         (updated_row : Row) : result Row :=
  match items with
  | [] => Ok updated_row
  | (col_name, new_value) :: rest =>
      match find_column columns col_name with
      | None => Raise (ValueError (NoSuchColumn col_name))
      | Some col_def =>
          if validate_value col_def new_value
          then apply_set columns rest (dict_set String.eqb col_name new_value updated_row)
          else Raise (ValueError (InvalidType col_name (dtype col_def)))
      end
  end.

(** "Update indexes" of an update, with the same convention as
    [insert_indexes]. *)
Fixpoint update_indexes (items : dict string Index.t) (row updated_row : Row)
         (row_id : Z) : dict string Index.t * option string :=
  match items with
  | [] => ([], None)
  | (col_name, index) :: rest =>
      let old_value := row_get row col_name in
      let new_value := row_get updated_row col_name in
      if py_ne old_value new_value then
        let '(index', ok) := Index.update index old_value new_value row_id in
        if ok then
          let '(rest', failed) := update_indexes rest row updated_row row_id in
          ((col_name, index') :: rest', failed)
        else ((col_name, index') :: rest, Some col_name)
      else
        let '(rest', failed) := update_indexes rest row updated_row row_id in
        ((col_name, index) :: rest', failed)
  end.

(** One iteration of the [for row_id_str in filtered_rows] loop of
    [_execute_update]: the table it leaves and the exception, if any. *)
Definition update_row (table : Table) (set_ : dict string value) (row_id : Z)
  : Table * option exn :=
  match dict_get Z.eqb row_id (rows table) with
  | None => (table, Some KeyError)
  | Some row =>
      match apply_set (schema table) set_ row with
      | Raise e => (table, Some e)
      | Ok updated_row =>
          match _check_constraints table updated_row (Some row_id) with
          | Some e => (table, Some e)
          | None =>
              let '(indexes1, failed) :=
                update_indexes (indexes table) row updated_row row_id in
              match failed with
              | Some col_name =>
                  (mkTable (schema table) (rows table) indexes1 (next_row_id table),
                   Some (ValueError (UniqueViolation col_name)))
              | None =>
                  (mkTable (schema table)
                           (dict_set Z.eqb row_id updated_row (rows table))
                           indexes1 (next_row_id table),
                   None)
              end
          end
      end
  end.

Fixpoint update_loop (table : Table) (set_ : dict string value) (ids : list Z)
         (updated_count : Z) : Table * Z * option exn :=
  match ids with
  | [] => (table, updated_count, None)
  | row_id :: rest =>
      match update_row table set_ row_id with
      | (table', Some e) => (table', updated_count, Some e)
      | (table', None) => update_loop table' set_ rest (updated_count + 1)
      end
  end.

Definition _execute_update (self : QueryExecutor) (table_name : string)
           (set_ : dict string value) (where_ : option (list Condition))
  : QueryExecutor * result Response :=
  match dict_get String.eqb table_name (tables self) with
  | None => (self, Raise (ValueError (NoSuchTable table_name)))
  | Some table =>
      let filtered_rows := _apply_where_clause table (rows table) where_ in
      match update_loop table set_ (dict_keys filtered_rows) 0 with
      | (table', _, Some e) => (set_table self table_name table', Raise e)
      | (table', updated_count, None) =>
          let self := set_table self table_name table' in
          (* Save to disk *)
          if 0 <? updated_count then
            match save_table_data (storage self) table_name (rows table') with
            | Raise e => (self, Raise e)
            | Ok st => (set_storage self st, Ok (Updated updated_count))
            end
          else (self, Ok (Updated updated_count))
      end
  end.

(** "Remove from indexes". *)
Definition delete_indexes (items : dict string Index.t) (row : Row) (row_id : Z)
  : dict string Index.t :=
  map (fun item => (fst item, Index.delete (snd item) (row_get row (fst item)) row_id))
      items.

(** One iteration of the loop of [_execute_delete]. *)
Definition delete_row (table : Table) (row_id : Z) : Table * option exn :=
  match dict_get Z.eqb row_id (rows table) with
  | None => (table, Some KeyError)
  | Some row =>
      (mkTable (schema table) (dict_del Z.eqb row_id (rows table))
               (delete_indexes (indexes table) row row_id) (next_row_id table),
       None)
  end.

Fixpoint delete_loop (table : Table) (ids : list Z) (deleted_count : Z)
  : Table * Z * option exn :=
  match ids with
  | [] => (table, deleted_count, None)
  | row_id :: rest =>
      match delete_row table row_id with
      | (table', Some e) => (table', deleted_count, Some e)
      | (table', None) => delete_loop table' rest (deleted_count + 1)
      end
  end.

Definition _execute_delete (self : QueryExecutor) (table_name : string)
           (where_ : option (list Condition)) : QueryExecutor * result Response :=
  match dict_get String.eqb table_name (tables self) with
  | None => (self, Raise (ValueError (NoSuchTable table_name)))
  | Some table =>
      let filtered_rows := _apply_where_clause table (rows table) where_ in
      match delete_loop table (dict_keys filtered_rows) 0 with
      | (table', _, Some e) => (set_table self table_name table', Raise e)
      | (table', deleted_count, None) =>
          let self := set_table self table_name table' in
          (* Save to disk *)
          if 0 <? deleted_count then
            match save_table_data (storage self) table_name (rows table') with
            | Raise e => (self, Raise e)
            | Ok st => (set_storage self st, Ok (Deleted deleted_count))
            end
          else (self, Ok (Deleted deleted_count))
      end
  end.

(** [QueryExecutor.execute] *)
Definition execute (self : QueryExecutor) (parsed_query : Query)
  : QueryExecutor * result Response :=
  match parsed_query with
  | CREATE_TABLE table_name columns => _execute_create_table self table_name columns
  | INSERT table_name columns values => _execute_insert self table_name columns values
  | SELECT table_name columns where_ join =>
      _execute_select self table_name columns where_ join
  | UPDATE table_name set_ where_ => _execute_update self table_name set_ where_
  | DELETE table_name where_ => _execute_delete self table_name where_
  end.

(* ================================================================== *)
(** ** engine.py *)

Module DatabaseEngine.

(** [DatabaseEngine(data_dir)]: the executor built over the storage found
    in the data directory. *)
Definition init (st : Storage) : result QueryExecutor := QueryExecutor_init st.

(** [DatabaseEngine.execute]: parse, then execute. *)
Definition execute (self : QueryExecutor) (query : string)
  : QueryExecutor * result Response :=
  match QueryParser.parse query with
  | Raise e => (self, Raise e)
  | Ok parsed_query => execute self parsed_query
  end.

(** A sequence of [execute] calls on one engine, with the outcome of each
    (a raised exception does not stop the caller from going on). *)
Fixpoint execute_all (self : QueryExecutor) (queries : list string)
  : QueryExecutor * list (result Response) :=
  match queries with
  | [] => (self, [])
  | q :: rest =>
      let '(self', r) := execute self q in
      let '(self'', rs) := execute_all self' rest in
      (self'', r :: rs)
  end.

Definition get_table_info (self : QueryExecutor) (table_name : string)
  : result (list (string * string * bool * bool) * nat) :=
  match dict_get String.eqb table_name (tables self) with
  | None => Raise (ValueError (NoSuchTable table_name))
  | Some table =>
      Ok (map (fun col => (name col, DataType_value (dtype col),
                           is_primary col, is_unique col)) (schema table),
          List.length (rows table))
  end.

End DatabaseEngine.

(** A fresh engine over an empty data directory. *)
Definition fresh : QueryExecutor := mkExecutor empty_storage [].

(* ================================================================== *)
(** * Invariants, reachable states and example databases

    The vocabulary of the properties proved below. *)

(** Row [r] holds a non-null value equal to [v] in column [c]. *)
Definition holds (rows : Rows) (c : string) (r : Z) (v : value) : Prop :=
  exists row, dict_get Z.eqb r rows = Some row
              /\ is_none (row_get row c) = false
              /\ py_eq (row_get row c) v = true.

(** Every entry of the index maps its value to at most one row-id. *)
Definition entries_single (ix : Index.t) : Prop :=
  forall k s, In (k, s) (Index._index ix) -> (List.length s <= 1)%nat.

(** The index [ix] of column [c] is a well-formed unique index whose
    content is exactly what the rows hold in that column. *)
Record index_ok (c : string) (ix : Index.t) (rows : Rows) : Prop := mk_index_ok {
  ix_wf : dict_wf py_eq (Index._index ix);
  ix_unique : Index.is_unique ix = true;
  ix_reflects : forall v r, In r (Index.search ix v) <-> holds rows c r v;
  ix_entries : entries_single ix
}.

(** The test "Create indexes for primary key and unique columns". *)
Definition indexed (col : Column) : bool := is_primary col || is_unique col.

(** The invariant of a table: rows, indexes and every stored row are
    well-formed dictionaries; the indexes are those of the unique and
    primary columns and reflect the rows; stored row-ids are positive and
    below the counter; no primary-key column holds null. *)
Record table_inv (t : Table) : Prop := mk_table_inv {
  inv_rows_wf : dict_wf Z.eqb (rows t);
  inv_indexes_wf : dict_wf String.eqb (indexes t);
  inv_index_ok : forall c ix, In (c, ix) (indexes t) -> index_ok c ix (rows t);
  inv_index_col : forall c ix, In (c, ix) (indexes t) ->
    exists col, In col (schema t) /\ name col = c /\ indexed col = true;
  inv_col_index : forall col, In col (schema t) -> indexed col = true ->
    dict_mem String.eqb (name col) (indexes t) = true;
  inv_row_wf : forall r row, dict_get Z.eqb r (rows t) = Some row ->
    dict_wf String.eqb row;
  inv_row_id : forall r row, dict_get Z.eqb r (rows t) = Some row ->
    0 < r < next_row_id t;
  inv_next : 1 <= next_row_id t;
  inv_primary : forall r row col, dict_get Z.eqb r (rows t) = Some row ->
    In col (schema t) -> is_primary col = true ->
    is_none (row_get row (name col)) = false
}.

(** Every table of the executor satisfies the invariant. *)
Definition state_inv (s : QueryExecutor) : Prop :=
  forall table_name t, dict_get String.eqb table_name (tables s) = Some t -> table_inv t.

(** Index dictionaries rewritten entry by entry. *)
Definition map_items (g : string -> Index.t -> Index.t) (items : dict string Index.t)
  : dict string Index.t :=
  map (fun it => (fst it, g (fst it) (snd it))) items.

(** [existing_rows - {exclude_row_id}] when a row-id is excluded. *)
Definition excluding (exclude_row_id : option Z) (s : list Z) : list Z :=
  match exclude_row_id with
  | Some r => set_discard r s
  | None => s
  end.

(** The table a successful insert of [row] leaves. *)
Definition inserted_table (t : Table) (row : Row) : Table :=
  mkTable (schema t) (dict_set Z.eqb (next_row_id t) row (rows t))
          (map_items (fun c ix => fst (Index.insert ix (row_get row c) (next_row_id t)))
                     (indexes t))
          (next_row_id t + 1).

(** The table a successful iteration of the update loop leaves. *)
Definition updated_table (t : Table) (r : Z) (row row' : Row) : Table :=
  mkTable (schema t) (dict_set Z.eqb r row' (rows t))
          (map_items (fun c ix => if py_ne (row_get row c) (row_get row' c)
                                  then fst (Index.update ix (row_get row c)
                                                         (row_get row' c) r)
                                  else ix) (indexes t))
          (next_row_id t).

(** "Save to disk" at the end of a statement that changed a table: the rows
    are written to the data file, or the refusal of the file system is
    raised, with the change made in memory. *)
Definition saved (s : QueryExecutor) (table_name : string) (rows_ : Rows)
           (r : Response) : QueryExecutor * result Response :=
  match save_table_data (storage s) table_name rows_ with
  | Raise e => (s, Raise e)
  | Ok st => (set_storage s st, Ok r)
  end.

(** The exceptions an Update raises for a SET assignment [c = w]: the
    column is unknown, the value is not of the column's type, null is given
    to a primary-key column, or a value is given to a unique or primary
    column in which another row holds it. *)
Definition set_error (columns : list Column) (set_ : dict string value) (e : exn)
  : Prop :=
  exists c w,
    dict_get String.eqb c set_ = Some w
    /\ ((find_column columns c = None /\ e = ValueError (NoSuchColumn c))
        \/ (exists col_def, find_column columns c = Some col_def
                            /\ validate_value col_def w = false
                            /\ e = ValueError (InvalidType c (dtype col_def)))
        \/ (is_none w = true
            /\ (exists col, In col columns /\ name col = c /\ is_primary col = true)
            /\ e = ValueError (NullPrimaryKey c))
        \/ (is_none w = false
            /\ (exists col, In col columns /\ name col = c /\ indexed col = true)
            /\ e = ValueError (DuplicateValue c w))).

(** Index dictionaries as [make_indexes] builds them: empty unique indexes
    named after unique or primary columns. *)
Definition fresh_indexes (all : list Column) (d : dict string Index.t) : Prop :=
  dict_wf String.eqb d
  /\ forall c ix, In (c, ix) d ->
       Index._index ix = [] /\ Index.is_unique ix = true
       /\ exists col, In col all /\ name col = c /\ indexed col = true.

(** What [_load_table] needs of a data file to rebuild a table that
    satisfies the invariant: a well-formed store of well-formed rows with
    positive row-ids, no null in a primary-key column and no value held twice
    in a unique or primary column. *)
Definition stored_ok (columns : list Column) (data : Rows) : Prop :=
  dict_wf Z.eqb data
  /\ (forall r row, dict_get Z.eqb r data = Some row ->
        dict_wf String.eqb row /\ 0 < r
        /\ forall col, In col columns -> is_primary col = true ->
                       is_none (row_get row (name col)) = false)
  /\ (forall col r1 r2 v, In col columns -> indexed col = true ->
        holds data (name col) r1 v -> holds data (name col) r2 v -> r1 = r2).

(** Every schema file reads back as a list of columns, and the data file
    beside it (no rows when there is none) suits them. *)
Definition storage_ok (st : Storage) : Prop :=
  forall table_name col_defs,
    load_table_schema st table_name = Some col_defs ->
    exists columns,
      columns_of col_defs = Ok columns
      /\ stored_ok columns (match load_table_data st table_name with
                            | Some d => d
                            | None => []
                            end).

(** Every schema file has a name the file system accepts, and its data
    file is beside it. *)
Definition files_ok (st : Storage) : Prop :=
  forall table_name col_defs,
    load_table_schema st table_name = Some col_defs ->
    open_w (schema_file_name table_name) = Ok tt
    /\ exists data, load_table_data st table_name = Some data.

(** The schema file of a table in memory reads back as the table's columns;
    a table in memory lacks its schema file only when the file system refuses
    the name of that file. *)
Definition linked (s : QueryExecutor) : Prop :=
  forall table_name t, dict_get String.eqb table_name (tables s) = Some t ->
    match load_table_schema (storage s) table_name with
    | Some col_defs => columns_of col_defs = Ok (schema t)
    | None => open_w (schema_file_name table_name)
              = Raise (OSError (schema_file_name table_name))
    end.

(** The invariant of the executor together with its storage. *)
Definition system_inv (s : QueryExecutor) : Prop :=
  state_inv s /\ storage_ok (storage s) /\ files_ok (storage s) /\ linked s.

(** The states an engine started on an empty data directory can be in: after
    any sequence of [execute] calls, whether they returned or raised, and of
    restarts, where the executor is dropped and constructed again over the
    storage it leaves. *)
Inductive reachable : QueryExecutor -> Prop :=
| reach_fresh : reachable fresh
| reach_execute (s : QueryExecutor) (q : Query) :
    reachable s -> reachable (fst (execute s q))
| reach_restart (s s' : QueryExecutor) :
    reachable s -> QueryExecutor_init (storage s) = Ok s' -> reachable s'.

(** A small database used to instantiate the theorems below. *)
Definition demo_queries : list string :=
  ["CREATE TABLE users (id INT PRIMARY KEY, name TEXT, email TEXT UNIQUE)";
   "INSERT INTO users VALUES (1,'Alice','a@x.com')";
   "INSERT INTO users VALUES (2,'Bob','b@x.com')";
   "CREATE TABLE orders (id INT UNIQUE, user_id INT, item TEXT, amount INT)";
   "INSERT INTO orders VALUES (1, 2, 'book', 3)"].

Definition demo : QueryExecutor := fst (DatabaseEngine.execute_all fresh demo_queries).

Definition demo_users : Table :=
  Eval vm_compute in
    match dict_get String.eqb "users" (tables demo) with
    | Some t => t
    | None => mkTable [] [] [] 0
    end.

Definition demo_orders : Table :=
  Eval vm_compute in
    match dict_get String.eqb "orders" (tables demo) with
    | Some t => t
    | None => mkTable [] [] [] 0
    end.

(** A table with a unique column before its primary-key column, holding one
    row.  (The constraint token ["PRIMARY KEY"] is what [column_of] looks
    for.) *)
Definition keyed_queries : list Query :=
  [CREATE_TABLE "t" [mkColumnDef "u" "INT" ["UNIQUE"];
                     mkColumnDef "p" "INT" ["PRIMARY KEY"]];
   INSERT "t" None [VInt 1; VInt 1]].

Definition keyed : QueryExecutor :=
  fold_left (fun s q => fst (execute s q)) keyed_queries fresh.

Definition keyed_table : Table :=
  Eval vm_compute in
    match dict_get String.eqb "t" (tables keyed) with
    | Some t => t
    | None => mkTable [] [] [] 0
    end.

(** A [users] table where one row has no email. *)
Definition nulls_queries : list string :=
  ["CREATE TABLE users (id INT, email TEXT UNIQUE)";
   "INSERT INTO users VALUES (1, 'a@x.com')";
   "INSERT INTO users VALUES (2, NULL)"].

Definition nulls : QueryExecutor := fst (DatabaseEngine.execute_all fresh nulls_queries).

Definition nulls_users : Table :=
  Eval vm_compute in
    match dict_get String.eqb "users" (tables nulls) with
    | Some t => t
    | None => mkTable [] [] [] 0
    end.

(** A table joined with itself. *)
Definition selfjoin_queries : list string :=
  ["CREATE TABLE t (a INT UNIQUE, b INT)";
   "INSERT INTO t VALUES (1, 2)";
   "INSERT INTO t VALUES (2, 9)"].

Definition selfjoin : QueryExecutor := fst (DatabaseEngine.execute_all fresh selfjoin_queries).

Definition selfjoin_rows : Rows :=
  [(1, [("a", VInt 1); ("b", VInt 2)]); (2, [("a", VInt 2); ("b", VInt 9)])].

(** The stored row-ids of a table are below its counter. *)
Definition ids_below (t : Table) : Prop :=
  1 <= next_row_id t /\ forall k row, In (k, row) (rows t) -> k < next_row_id t.


(** The counter is 1, or one more than a stored row-id. *)
Definition counter_tight (t : Table) : Prop :=
  next_row_id t = 1 \/ exists row, In (next_row_id t - 1, row) (rows t).

(** What [_load_table] rebuilds for a table name: the rows of the data file
    (none when there is no such file), the least counter, from 1 on, above
    their row-ids, and the columns of a schema file that is not empty. *)
Definition loaded_from (st : Storage) (table_name : string) (t : Table) : Prop :=
  rows t = match load_table_data st table_name with
           | Some d => d
           | None => []
           end
  /\ ids_below t /\ counter_tight t
  /\ exists cd cds, load_table_schema st table_name = Some (cd :: cds)
                    /\ columns_of (cd :: cds) = Ok (schema t).












(** Some character of the string is a blank. *)
Fixpoint has_space (s : string) : bool :=
  match s with
  | EmptyString => false
  | String c s' => PyStr.is_space c || has_space s'
  end.

(* ================================================================== *)
(** * The remaining operations, and further vocabulary *)

(** [DatabaseEngine.list_tables] *)
Definition DatabaseEngine_list_tables (self : QueryExecutor) : list string :=
  list_tables (storage self).

(** The test of the index loop of [_apply_where_clause]: an equality on a
    column that has an index. *)
Definition indexed_equality (t : Table) (c : Condition) : bool :=
  String.eqb (cond_operator c) "="
  && dict_mem String.eqb (cond_column c) (indexes t).

(** What one condition asks of a row: [=] asks for equal values, [!=] for
    unequal ones (a column the row lacks reads as null), and any other
    operator asks nothing. *)
Definition cond_holds (row : Row) (c : Condition) : bool :=
  if String.eqb (cond_operator c) "="
  then py_eq (row_get row (cond_column c)) (cond_value c)
  else if String.eqb (cond_operator c) "!="
       then negb (py_eq (row_get row (cond_column c)) (cond_value c))
       else true.

(** Every table in memory has its data file, which holds the table's
    rows. *)
Definition synced (s : QueryExecutor) : Prop :=
  forall table_name t, dict_get String.eqb table_name (tables s) = Some t ->
    load_table_data (storage s) table_name = Some (rows t).

Definition is_update (q : Query) : bool :=
  match q with UPDATE _ _ _ => true | _ => false end.




(** The exception is the refusal of a file by the file system. *)
Definition is_os_error (e : exn) : bool :=
  match e with OSError _ => true | _ => false end.

(** The demonstration database after a restart of the engine. *)
Definition demo_restarted : QueryExecutor :=
  match QueryExecutor_init (storage demo) with
  | Ok s => s
  | Raise _ => fresh
  end.

(** The indexes that [Index(column_name, is_unique)] and the methods
    [insert] and [delete] (hence [update]) give. *)
Inductive Index_built : Index.t -> Prop :=
| built_new (column_name : string) (is_unique : bool) :
    Index_built (Index.new column_name is_unique)
| built_insert (ix : Index.t) (v : value) (r : Z) :
    Index_built ix -> Index_built (fst (Index.insert ix v r))
| built_delete (ix : Index.t) (v : value) (r : Z) :
    Index_built ix -> Index_built (Index.delete ix v r).

(** Every entry of an index has a non-null key and a non-empty set of
    distinct row-ids, of one row-id when the index is unique. *)
Definition entries_proper (ix : Index.t) : Prop :=
  forall v s, In (v, s) (Index._index ix) ->
    is_none v = false /\ s <> [] /\ NoDup s
    /\ (Index.is_unique ix = true -> List.length s = 1%nat).

(** The decimal digit with value [d]. *)
Definition digit_char (d : Z) : ascii := ascii_of_nat (48 + Z.to_nat d).

(** The decimal digits of [n], most significant first, before [acc]. *)
Fixpoint str_digits (fuel : nat) (n : Z) (acc : string) : string :=
  match fuel with
  | O => acc
  | S fuel' =>
      let acc' := String (digit_char (n mod 10)) acc in
      if n <? 10 then acc' else str_digits fuel' (n / 10) acc'
  end.

(** The builtin [str(n)] on an integer (as in [str(row_id)] and in the
    statements the API layer formats). *)
Definition str_int (n : Z) : string :=
  if n <? 0 then String "-" (str_digits (S (Z.to_nat (- n))) (- n) EmptyString)
  else str_digits (S (Z.to_nat n)) n EmptyString.

(** Some character of the string is [c]. *)
Fixpoint has_char (c : ascii) (s : string) : bool :=
  match s with
  | EmptyString => false
  | String a s' => Ascii.eqb a c || has_char c s'
  end.

(** A list of fields without its last field when that one is empty. *)
Fixpoint drop_empty_last (fields : list string) : list string :=
  match fields with
  | [] => []
  | [x] => if PyStr.is_empty x then [] else [x]
  | x :: rest => x :: drop_empty_last rest
  end.

(** Every entry of the row is for a column of the schema and passes the
    type validation of the first column of that name, and the row has an
    entry for every column. *)
Definition row_typed (columns : list Column) (row : Row) : Prop :=
  (forall c v, dict_get String.eqb c row = Some v ->
     exists col, find_column columns c = Some col /\ validate_value col v = true)
  /\ (forall col, In col columns -> dict_mem String.eqb (name col) row = true).

Definition rows_typed (columns : list Column) (rows : Rows) : Prop :=
  forall r row, dict_get Z.eqb r rows = Some row -> row_typed columns row.

(** The rows in memory and the rows in the data files are typed. *)
Definition typed_inv (s : QueryExecutor) : Prop :=
  (forall table_name t, dict_get String.eqb table_name (tables s) = Some t ->
     rows_typed (schema t) (rows t))
  /\ (forall table_name col_defs columns,
        load_table_schema (storage s) table_name = Some col_defs ->
        columns_of col_defs = Ok columns ->
        rows_typed columns (match load_table_data (storage s) table_name with
                            | Some d => d
                            | None => []
                            end)).

(* ================================================================== *)
(** * Properties *)

(** ** Python equality is a partial equivalence

    [==] is symmetric and transitive on all values; it is reflexive on every
    value except NaN. *)

Lemma float_eqb_sym (a b : pyfloat) : float_eqb a b = float_eqb b a.
Proof.
  destruct a as [| s | p], b as [| t | q]; simpl; try reflexivity.
  - destruct s, t; reflexivity.
  - destruct (Qeq_bool p q) eqn:E1, (Qeq_bool q p) eqn:E2; try reflexivity.
    + apply Qeq_bool_iff in E1. symmetry in E1. apply Qeq_bool_iff in E1. congruence.
    + apply Qeq_bool_iff in E2. symmetry in E2. apply Qeq_bool_iff in E2. congruence.
Qed.

Lemma float_eqb_trans (a b c : pyfloat) :
  float_eqb a b = true -> float_eqb b c = true -> float_eqb a c = true.
Proof.
  destruct a as [| s | p], b as [| t | q], c as [| u | r]; simpl; try discriminate.
  - destruct s, t, u; simpl; congruence.
  - intros H1 H2. apply Qeq_bool_iff in H1. apply Qeq_bool_iff in H2.
    apply Qeq_bool_iff. now rewrite H1.
Qed.

Lemma py_eq_sym (a b : value) : py_eq a b = py_eq b a.
Proof.
  destruct a, b; unfold py_eq, numeric; try reflexivity;
    try apply float_eqb_sym.
  apply String.eqb_sym.
Qed.

Lemma py_eq_trans (a b c : value) :
  py_eq a b = true -> py_eq b c = true -> py_eq a c = true.
Proof.
  destruct a, b, c; unfold py_eq, numeric; try discriminate;
    try (intros; reflexivity); try (apply float_eqb_trans).
  intros H1 H2. apply String.eqb_eq in H1. apply String.eqb_eq in H2.
  subst. apply String.eqb_refl.
Qed.

Lemma py_eq_none_l (v : value) : py_eq VNone v = is_none v.
Proof. destruct v; reflexivity. Qed.

Lemma py_eq_none_r (v : value) : py_eq v VNone = is_none v.
Proof. rewrite py_eq_sym. apply py_eq_none_l. Qed.

Lemma py_eq_is_none (a b : value) : py_eq a b = true -> is_none a = is_none b.
Proof. destruct a, b; simpl; congruence. Qed.

(** Equal values are equal to the same things. *)
Lemma py_eq_congr (a b c : value) : py_eq a b = true -> py_eq a c = py_eq b c.
Proof.
  intros H. destruct (py_eq a c) eqn:E1, (py_eq b c) eqn:E2; try reflexivity.
  - rewrite py_eq_sym in H. rewrite (py_eq_trans _ _ _ H E1) in E2. discriminate.
  - rewrite (py_eq_trans _ _ _ H E2) in E1. discriminate.
Qed.

Lemma py_eq_refl_r (a b : value) : py_eq a b = true -> py_eq b b = true.
Proof.
  intros H. apply (py_eq_trans b a b); [now rewrite py_eq_sym | exact H].
Qed.

(** ** Dictionaries keyed by a partial equivalence *)

Section DictFacts.
Context {K V : Type} (eqb : K -> K -> bool).
Hypothesis eqb_sym : forall a b, eqb a b = eqb b a.
Hypothesis eqb_trans : forall a b c, eqb a b = true -> eqb b c = true -> eqb a c = true.

Lemma eqb_congr a b c : eqb a b = true -> eqb a c = eqb b c.
Proof.
  intros H. destruct (eqb a c) eqn:E1, (eqb b c) eqn:E2; try reflexivity.
  - rewrite eqb_sym in H. rewrite (eqb_trans _ _ _ H E1) in E2. discriminate.
  - rewrite (eqb_trans _ _ _ H E2) in E1. discriminate.
Qed.

Lemma dict_get_congr (k k' : K) (d : dict K V) :
  eqb k k' = true -> dict_get eqb k d = dict_get eqb k' d.
Proof.
  intros H. induction d as [| [k0 x0] d IH]; simpl; [reflexivity |].
  rewrite (eqb_sym k0 k), (eqb_sym k0 k'), (eqb_congr _ _ _ H), IH. reflexivity.
Qed.

Lemma dict_get_set (k k' : K) (x : V) (d : dict K V) :
  dict_get eqb k' (dict_set eqb k x d)
  = if eqb k k' then Some x else dict_get eqb k' d.
Proof.
  induction d as [| [k0 x0] d IH]; simpl.
  - reflexivity.
  - destruct (eqb k0 k) eqn:E; simpl.
    + rewrite (eqb_congr _ _ k' E). destruct (eqb k k'); reflexivity.
    + rewrite IH. destruct (eqb k0 k') eqn:E0; [| reflexivity].
      destruct (eqb k k') eqn:E1; [| reflexivity].
      rewrite eqb_sym in E1. rewrite (eqb_trans _ _ _ E0 E1) in E. discriminate.
Qed.

Lemma dict_wf_set (k : K) (x : V) (d : dict K V) :
  dict_wf eqb d -> dict_wf eqb (dict_set eqb k x d).
Proof.
  induction d as [| [k0 x0] d IH]; simpl.
  - auto.
  - intros [Hn Hw]. destruct (eqb k0 k) eqn:E; simpl.
    + auto.
    + split; [| auto]. rewrite dict_get_set, eqb_sym, E. exact Hn.
Qed.

Lemma dict_get_del (k k' : K) (d : dict K V) :
  dict_wf eqb d ->
  dict_get eqb k' (dict_del eqb k d)
  = if eqb k k' then None else dict_get eqb k' d.
Proof.
  induction d as [| [k0 x0] d IH]; simpl.
  - destruct (eqb k k'); reflexivity.
  - intros [Hn Hw]. destruct (eqb k0 k) eqn:E; simpl.
    + rewrite <- (eqb_congr _ _ k' E).
      destruct (eqb k0 k') eqn:E0; [| reflexivity].
      rewrite <- (dict_get_congr _ _ d E0). exact Hn.
    + rewrite (IH Hw). destruct (eqb k k') eqn:E1; [| reflexivity].
      destruct (eqb k0 k') eqn:E0; [| reflexivity].
      rewrite eqb_sym in E1. rewrite (eqb_trans _ _ _ E0 E1) in E. discriminate.
Qed.

Lemma dict_wf_del (k : K) (d : dict K V) :
  dict_wf eqb d -> dict_wf eqb (dict_del eqb k d).
Proof.
  induction d as [| [k0 x0] d IH]; simpl.
  - auto.
  - intros [Hn Hw]. destruct (eqb k0 k) eqn:E; simpl.
    + exact Hw.
    + split; [| auto]. rewrite (dict_get_del _ _ _ Hw), Hn.
      destruct (eqb k k0); reflexivity.
Qed.

Lemma dict_get_In (k : K) (x : V) (d : dict K V) :
  dict_get eqb k d = Some x -> exists k0, In (k0, x) d /\ eqb k0 k = true.
Proof.
  induction d as [| [k0 x0] d IH]; simpl; [discriminate |].
  destruct (eqb k0 k) eqn:E.
  - intros [= ->]. eauto.
  - intros H. destruct (IH H) as (k1 & Hin & Hk). eauto.
Qed.

Lemma dict_In_get (k : K) (x : V) (d : dict K V) :
  dict_wf eqb d -> eqb k k = true -> In (k, x) d -> dict_get eqb k d = Some x.
Proof.
  intros Hw Hr. induction d as [| [k0 x0] d IH]; simpl; [contradiction |].
  destruct Hw as [Hn Hw]. intros [[= -> ->] | Hin].
  - now rewrite Hr.
  - specialize (IH Hw Hin). destruct (eqb k0 k) eqn:E; [| exact IH].
    rewrite (dict_get_congr _ _ d E) in Hn. congruence.
Qed.
End DictFacts.

Lemma string_eqb_trans (a b c : string) :
  String.eqb a b = true -> String.eqb b c = true -> String.eqb a c = true.
Proof. rewrite !String.eqb_eq. congruence. Qed.

Lemma Z_eqb_trans (a b c : Z) :
  Z.eqb a b = true -> Z.eqb b c = true -> Z.eqb a c = true.
Proof. rewrite !Z.eqb_eq. congruence. Qed.

(** The three instances in use: column and table names, row-ids, values. *)
Lemma sget_set {V} (k k' : string) (x : V) (d : dict string V) :
  dict_get String.eqb k' (dict_set String.eqb k x d)
  = if String.eqb k k' then Some x else dict_get String.eqb k' d.
Proof. apply dict_get_set; [apply String.eqb_sym | apply string_eqb_trans]. Qed.

Lemma swf_set {V} (k : string) (x : V) (d : dict string V) :
  dict_wf String.eqb d -> dict_wf String.eqb (dict_set String.eqb k x d).
Proof. apply dict_wf_set; [apply String.eqb_sym | apply string_eqb_trans]. Qed.

Lemma zget_set {V} (k k' : Z) (x : V) (d : dict Z V) :
  dict_get Z.eqb k' (dict_set Z.eqb k x d)
  = if Z.eqb k k' then Some x else dict_get Z.eqb k' d.
Proof. apply dict_get_set; [apply Z.eqb_sym | apply Z_eqb_trans]. Qed.

Lemma zwf_set {V} (k : Z) (x : V) (d : dict Z V) :
  dict_wf Z.eqb d -> dict_wf Z.eqb (dict_set Z.eqb k x d).
Proof. apply dict_wf_set; [apply Z.eqb_sym | apply Z_eqb_trans]. Qed.

Lemma zget_del {V} (k k' : Z) (d : dict Z V) :
  dict_wf Z.eqb d ->
  dict_get Z.eqb k' (dict_del Z.eqb k d)
  = if Z.eqb k k' then None else dict_get Z.eqb k' d.
Proof. apply dict_get_del; [apply Z.eqb_sym | apply Z_eqb_trans]. Qed.

Lemma zwf_del {V} (k : Z) (d : dict Z V) :
  dict_wf Z.eqb d -> dict_wf Z.eqb (dict_del Z.eqb k d).
Proof. apply dict_wf_del; [apply Z.eqb_sym | apply Z_eqb_trans]. Qed.

Lemma vget_set {V} (k k' : value) (x : V) (d : dict value V) :
  dict_get py_eq k' (dict_set py_eq k x d)
  = if py_eq k k' then Some x else dict_get py_eq k' d.
Proof. apply dict_get_set; [apply py_eq_sym | apply py_eq_trans]. Qed.

Lemma vwf_set {V} (k : value) (x : V) (d : dict value V) :
  dict_wf py_eq d -> dict_wf py_eq (dict_set py_eq k x d).
Proof. apply dict_wf_set; [apply py_eq_sym | apply py_eq_trans]. Qed.

Lemma vget_del {V} (k k' : value) (d : dict value V) :
  dict_wf py_eq d ->
  dict_get py_eq k' (dict_del py_eq k d)
  = if py_eq k k' then None else dict_get py_eq k' d.
Proof. apply dict_get_del; [apply py_eq_sym | apply py_eq_trans]. Qed.

Lemma vwf_del {V} (k : value) (d : dict value V) :
  dict_wf py_eq d -> dict_wf py_eq (dict_del py_eq k d).
Proof. apply dict_wf_del; [apply py_eq_sym | apply py_eq_trans]. Qed.

Lemma vget_congr {V} (k k' : value) (d : dict value V) :
  py_eq k k' = true -> dict_get py_eq k d = dict_get py_eq k' d.
Proof. apply dict_get_congr; [apply py_eq_sym | apply py_eq_trans]. Qed.

Lemma zdict_In_get {V} (k : Z) (x : V) (d : dict Z V) :
  dict_wf Z.eqb d -> In (k, x) d -> dict_get Z.eqb k d = Some x.
Proof.
  intros Hw. apply (dict_In_get Z.eqb Z.eqb_sym Z_eqb_trans); auto using Z.eqb_refl.
Qed.

Lemma zdict_get_In {V} (k : Z) (x : V) (d : dict Z V) :
  dict_get Z.eqb k d = Some x -> In (k, x) d.
Proof.
  intros H. destruct (dict_get_In Z.eqb _ _ _ H) as (k0 & Hin & E).
  apply Z.eqb_eq in E. now subst.
Qed.

Lemma sdict_In_get {V} (k : string) (x : V) (d : dict string V) :
  dict_wf String.eqb d -> In (k, x) d -> dict_get String.eqb k d = Some x.
Proof.
  intros Hw. apply (dict_In_get String.eqb String.eqb_sym string_eqb_trans);
    auto using String.eqb_refl.
Qed.

Lemma sdict_get_In {V} (k : string) (x : V) (d : dict string V) :
  dict_get String.eqb k d = Some x -> In (k, x) d.
Proof.
  intros H. destruct (dict_get_In String.eqb _ _ _ H) as (k0 & Hin & E).
  apply String.eqb_eq in E. now subst.
Qed.

(** ** Sets of row-ids *)

Lemma In_set_add (x r : Z) (s : list Z) : In x (set_add r s) <-> x = r \/ In x s.
Proof.
  unfold set_add. destruct (existsb (Z.eqb r) s) eqn:E.
  - apply existsb_exists in E. destruct E as (y & Hy & Ey).
    apply Z.eqb_eq in Ey. subst y. intuition (subst; auto).
  - rewrite in_app_iff. simpl. intuition.
Qed.

Lemma In_set_discard (x r : Z) (s : list Z) :
  In x (set_discard r s) <-> In x s /\ x <> r.
Proof.
  unfold set_discard. rewrite filter_In.
  destruct (Z.eqb_spec x r); simpl; intuition congruence.
Qed.

Lemma length_set_discard (r : Z) (s : list Z) :
  (List.length (set_discard r s) <= List.length s)%nat.
Proof. apply filter_length_le. Qed.

Lemma nonempty_false {A} (l : list A) : nonempty l = false -> l = [].
Proof. destruct l; [reflexivity | discriminate]. Qed.

Lemma In_nil_eq {A} (l : list A) : (forall x, ~ In x l) -> l = [].
Proof. destruct l as [| a l]; [reflexivity |]. intros H. destruct (H a). now left. Qed.

(** ** What the index operations do to [search] *)

Lemma search_congr (ix : Index.t) (v v' : value) :
  py_eq v v' = true -> Index.search ix v = Index.search ix v'.
Proof.
  intros H. unfold Index.search. now rewrite (vget_congr _ _ _ H).
Qed.

Lemma has_value_false_search (ix : Index.t) (v : value) :
  Index.has_value ix v = false -> Index.search ix v = [].
Proof.
  unfold Index.has_value, dict_mem, Index.search.
  destruct (dict_get py_eq v (Index._index ix)); [discriminate | reflexivity].
Qed.

Lemma search_delete (ix : Index.t) (v v' : value) (r : Z) :
  dict_wf py_eq (Index._index ix) ->
  Index.search (Index.delete ix v r) v'
  = if py_eq v v' then set_discard r (Index.search ix v') else Index.search ix v'.
Proof.
  intros Hw. unfold Index.delete.
  destruct (Index.has_value ix v) eqn:Hh.
  - destruct (nonempty (set_discard r (Index.search ix v))) eqn:Hn.
    + unfold Index.search at 1. simpl. rewrite vget_set.
      destruct (py_eq v v') eqn:E; [| reflexivity].
      now rewrite (search_congr ix v v' E).
    + unfold Index.search at 1. simpl. rewrite (vget_del _ _ _ Hw).
      destruct (py_eq v v') eqn:E; [| reflexivity].
      apply nonempty_false in Hn. now rewrite <- (search_congr ix v v' E).
  - destruct (py_eq v v') eqn:E; [| reflexivity].
    rewrite <- (search_congr ix v v' E), (has_value_false_search _ _ Hh). reflexivity.
Qed.

Lemma wf_delete (ix : Index.t) (v : value) (r : Z) :
  dict_wf py_eq (Index._index ix) ->
  dict_wf py_eq (Index._index (Index.delete ix v r)).
Proof.
  intros Hw. unfold Index.delete.
  destruct (Index.has_value ix v); [| exact Hw].
  destruct (nonempty _); simpl; [now apply vwf_set | now apply vwf_del].
Qed.

Lemma unique_delete (ix : Index.t) (v : value) (r : Z) :
  Index.is_unique (Index.delete ix v r) = Index.is_unique ix.
Proof.
  unfold Index.delete. destruct (Index.has_value ix v); [| reflexivity].
  destruct (nonempty _); reflexivity.
Qed.

(** An insert into a unique index succeeds exactly when the value is null or
    not yet present. *)
Lemma insert_ok (ix : Index.t) (v : value) (r : Z) :
  is_none v = true \/ Index.search ix v = [] ->
  snd (Index.insert ix v r) = true.
Proof.
  unfold Index.insert. intros [H | H].
  - now rewrite H.
  - destruct (is_none v); [reflexivity |]. rewrite H. simpl.
    now rewrite !andb_false_r.
Qed.

Lemma search_insert (ix : Index.t) (v v' : value) (r : Z) :
  snd (Index.insert ix v r) = true ->
  Index.search (fst (Index.insert ix v r)) v'
  = if negb (is_none v) && py_eq v v'
    then set_add r (Index.search ix v') else Index.search ix v'.
Proof.
  unfold Index.insert. destruct (is_none v) eqn:Hv; simpl; [reflexivity |].
  destruct (Index.is_unique ix && Index.has_value ix v && nonempty (Index.search ix v));
    simpl; [discriminate |].
  intros _. unfold Index.search at 1. simpl. rewrite vget_set.
  destruct (py_eq v v') eqn:E; [| reflexivity].
  now rewrite (search_congr ix v v' E).
Qed.

Lemma wf_insert (ix : Index.t) (v : value) (r : Z) :
  dict_wf py_eq (Index._index ix) ->
  dict_wf py_eq (Index._index (fst (Index.insert ix v r))).
Proof.
  intros Hw. unfold Index.insert. destruct (is_none v); [exact Hw |].
  destruct (_ && _ && _); simpl; [exact Hw | now apply vwf_set].
Qed.

Lemma unique_insert (ix : Index.t) (v : value) (r : Z) :
  Index.is_unique (fst (Index.insert ix v r)) = Index.is_unique ix.
Proof.
  unfold Index.insert. destruct (is_none v); [reflexivity |].
  destruct (_ && _ && _); reflexivity.
Qed.

(** ** The index of a column reflects the rows *)

Lemma dict_set_In_val {K V} (eqb : K -> K -> bool) (k k0 : K) (x v : V) (d : dict K V) :
  In (k, x) (dict_set eqb k0 v d) -> x = v \/ In (k, x) d.
Proof.
  induction d as [| [k1 v1] d IH]; simpl.
  - intros [[= _ <-] | []]. now left.
  - destruct (eqb k1 k0); simpl.
    + intros [[= _ <-] | H]; [now left | right; auto].
    + intros [H | H]; [right; auto |]. destruct (IH H); auto.
Qed.

Lemma dict_del_In {K V} (eqb : K -> K -> bool) (k k0 : K) (x : V) (d : dict K V) :
  In (k, x) (dict_del eqb k0 d) -> In (k, x) d.
Proof.
  induction d as [| [k1 v1] d IH]; simpl; [auto |].
  destruct (eqb k1 k0); simpl; [auto |]. intros [H | H]; auto.
Qed.

Lemma search_single (ix : Index.t) (v : value) :
  entries_single ix -> (List.length (Index.search ix v) <= 1)%nat.
Proof.
  intros H. unfold Index.search.
  destruct (dict_get py_eq v (Index._index ix)) as [s |] eqn:E; [| simpl; lia].
  destruct (dict_get_In py_eq _ _ _ E) as (k0 & Hin & _). exact (H _ _ Hin).
Qed.

Lemma ix_single (c : string) (ix : Index.t) (rows : Rows) :
  index_ok c ix rows -> forall v, (List.length (Index.search ix v) <= 1)%nat.
Proof. intros H v. apply search_single, H. Qed.

Lemma entries_delete (ix : Index.t) (v : value) (r : Z) :
  entries_single ix -> entries_single (Index.delete ix v r).
Proof.
  intros H. unfold Index.delete. destruct (Index.has_value ix v); [| exact H].
  destruct (nonempty _); intros k s Hin; simpl in Hin.
  - apply dict_set_In_val in Hin. destruct Hin as [-> | Hin]; [| exact (H _ _ Hin)].
    eapply Nat.le_trans; [apply length_set_discard | now apply search_single].
  - apply dict_del_In in Hin. exact (H _ _ Hin).
Qed.

Lemma entries_insert (ix : Index.t) (v : value) (r : Z) :
  entries_single ix ->
  is_none v = true \/ Index.search ix v = [] ->
  entries_single (fst (Index.insert ix v r)).
Proof.
  intros H Hchk. unfold Index.insert. destruct (is_none v) eqn:Hn; [exact H |].
  destruct (_ && _ && _); [exact H |]. intros k s Hin. simpl in Hin.
  apply dict_set_In_val in Hin. destruct Hin as [-> | Hin]; [| exact (H _ _ Hin)].
  destruct Hchk as [Hf | ->]; [discriminate | simpl; lia].
Qed.

Lemma holds_set (rows : Rows) (c : string) (r r0 : Z) (row : Row) (v : value) :
  holds (dict_set Z.eqb r row rows) c r0 v
  <-> (r0 = r /\ is_none (row_get row c) = false /\ py_eq (row_get row c) v = true)
      \/ (r0 <> r /\ holds rows c r0 v).
Proof.
  unfold holds. split.
  - intros (row0 & Hg & Hn & He). rewrite zget_set in Hg.
    destruct (Z.eqb_spec r r0).
    + injection Hg as <-. left. auto.
    + right. split; [congruence | eauto].
  - intros [(-> & Hn & He) | (Hne & row0 & Hg & Hn & He)].
    + exists row. rewrite zget_set, Z.eqb_refl. auto.
    + exists row0. rewrite zget_set. destruct (Z.eqb_spec r r0); [congruence | auto].
Qed.

Lemma holds_del (rows : Rows) (c : string) (r r0 : Z) (v : value) :
  dict_wf Z.eqb rows ->
  holds (dict_del Z.eqb r rows) c r0 v <-> r0 <> r /\ holds rows c r0 v.
Proof.
  intros Hw. unfold holds. split.
  - intros (row0 & Hg & Hn & He). rewrite (zget_del _ _ _ Hw) in Hg.
    destruct (Z.eqb_spec r r0); [discriminate |]. split; [congruence | eauto].
  - intros (Hne & row0 & Hg & Hn & He). exists row0.
    rewrite (zget_del _ _ _ Hw). destruct (Z.eqb_spec r r0); [congruence | auto].
Qed.

Lemma holds_at (rows : Rows) (c : string) (r : Z) (row : Row) (v : value) :
  dict_get Z.eqb r rows = Some row ->
  holds rows c r v <-> is_none (row_get row c) = false /\ py_eq (row_get row c) v = true.
Proof.
  intros Hg. unfold holds. split.
  - intros (row0 & Hg0 & H). rewrite Hg in Hg0. injection Hg0 as <-. exact H.
  - intros H. eauto.
Qed.

Lemma length_le_1_eq (s : list Z) (a b : Z) :
  (List.length s <= 1)%nat -> In a s -> In b s -> a = b.
Proof.
  destruct s as [| x [| y s]]; simpl; intros Hl Ha Hb; try contradiction; lia.
Qed.

Lemma index_ok_delete (c : string) (ix : Index.t) (rows : Rows) (r : Z) (row : Row) :
  index_ok c ix rows -> dict_wf Z.eqb rows ->
  dict_get Z.eqb r rows = Some row ->
  index_ok c (Index.delete ix (row_get row c) r) (dict_del Z.eqb r rows).
Proof.
  intros [Hw Hu Hr Hs] Hrows Hg. constructor.
  - now apply wf_delete.
  - now rewrite unique_delete.
  - intros v r0. rewrite (search_delete _ _ _ _ Hw), (holds_del _ _ _ _ _ Hrows).
    destruct (py_eq (row_get row c) v) eqn:E.
    + rewrite In_set_discard, Hr. tauto.
    + rewrite Hr. split; [| tauto]. intros H. split; [| exact H].
      intros ->. apply (holds_at _ _ _ _ _ Hg) in H. destruct H. congruence.
  - now apply entries_delete.
Qed.

Lemma index_ok_insert (c : string) (ix : Index.t) (rows : Rows) (r : Z) (row : Row) :
  index_ok c ix rows ->
  dict_get Z.eqb r rows = None ->
  is_none (row_get row c) = true \/ Index.search ix (row_get row c) = [] ->
  index_ok c (fst (Index.insert ix (row_get row c) r)) (dict_set Z.eqb r row rows).
Proof.
  intros [Hw Hu Hr Hs] Hg Hchk.
  pose proof (insert_ok ix _ r Hchk) as Hok. constructor.
  - now apply wf_insert.
  - now rewrite unique_insert.
  - intros v r0. rewrite (search_insert _ _ _ _ Hok), holds_set.
    assert (Hfresh : forall w, ~ In r (Index.search ix w)).
    { intros w Hin. apply Hr in Hin. destruct Hin as (row0 & Hg0 & _). congruence. }
    destruct (is_none (row_get row c)) eqn:Hn; simpl.
    + rewrite Hr. split.
      * intros H. right. split; [| exact H]. intros ->. apply Hr in H.
        exact (Hfresh v H).
      * intros [(_ & Hf & _) | (_ & H)]; [discriminate | exact H].
    + destruct (py_eq (row_get row c) v) eqn:E.
      * rewrite In_set_add, Hr. split.
        -- intros [-> | H]; [left; auto |]. right. split; [| exact H].
           intros ->. apply Hr in H. exact (Hfresh v H).
        -- intros [(-> & _) | (_ & H)]; auto.
      * rewrite Hr. split.
        -- intros H. right. split; [| exact H]. intros ->. apply Hr in H.
           exact (Hfresh v H).
        -- intros [(_ & _ & Hf) | (_ & H)]; [discriminate | exact H].
  - now apply entries_insert.
Qed.

Lemma index_ok_ext (c : string) (ix : Index.t) (rows1 rows2 : Rows) :
  (forall k, dict_get Z.eqb k rows1 = dict_get Z.eqb k rows2) ->
  index_ok c ix rows1 -> index_ok c ix rows2.
Proof.
  intros He [Hw Hu Hr Hs]. constructor; auto.
  intros v r. rewrite Hr. unfold holds. now setoid_rewrite He.
Qed.

Lemma discard_nil_search (s : list Z) (r : Z) :
  set_discard r s = [] -> ~ In r s -> s = [].
Proof.
  intros Hd Hn. apply In_nil_eq. intros x Hx.
  assert (H : In x (set_discard r s)).
  { apply In_set_discard. split; [exact Hx | congruence]. }
  rewrite Hd in H. exact H.
Qed.

(** The index step of an update: when the new value passed the constraint
    check, the index update cannot be refused and the index reflects the
    rows with the row replaced. *)
Lemma index_ok_update (c : string) (ix : Index.t) (rows : Rows) (r : Z)
      (row row' : Row) :
  index_ok c ix rows -> dict_wf Z.eqb rows ->
  dict_get Z.eqb r rows = Some row ->
  is_none (row_get row' c) = true
  \/ set_discard r (Index.search ix (row_get row' c)) = [] ->
  (py_ne (row_get row c) (row_get row' c) = true ->
   snd (Index.update ix (row_get row c) (row_get row' c) r) = true)
  /\ index_ok c (if py_ne (row_get row c) (row_get row' c)
                 then fst (Index.update ix (row_get row c) (row_get row' c) r)
                 else ix)
              (dict_set Z.eqb r row' rows).
Proof.
  intros Hok Hrows Hg Hchk. unfold py_ne.
  destruct (py_eq (row_get row c) (row_get row' c)) eqn:E; simpl.
  - split; [discriminate |]. destruct Hok as [Hw Hu Hr Hs]. constructor; auto.
    intros v r0. rewrite Hr, holds_set. split.
    + intros H. destruct (Z.eq_dec r0 r) as [-> | Hne]; [left | right; auto].
      apply (holds_at _ _ _ _ _ Hg) in H. destruct H as [Hn He].
      rewrite (py_eq_is_none _ _ E) in Hn. rewrite (py_eq_congr _ _ _ E) in He. auto.
    + intros [(-> & Hn & He) | (_ & H)]; [| exact H].
      apply (holds_at _ _ _ _ _ Hg).
      rewrite (py_eq_is_none _ _ E), (py_eq_congr _ _ _ E). auto.
  - pose proof (index_ok_delete _ _ _ _ _ Hok Hrows Hg) as Hdel.
    assert (Hchk1 : is_none (row_get row' c) = true
                    \/ Index.search (Index.delete ix (row_get row c) r)
                                    (row_get row' c) = []).
    { destruct Hchk as [Hn | Hd]; [now left | right].
      rewrite (search_delete _ _ _ _ (ix_wf _ _ _ Hok)), E.
      apply (discard_nil_search _ r Hd). intros Hin.
      apply (ix_reflects _ _ _ Hok) in Hin. apply (holds_at _ _ _ _ _ Hg) in Hin.
      destruct Hin. congruence. }
    split; [intros _; unfold Index.update; now apply insert_ok |].
    unfold Index.update.
    apply (index_ok_ext c _ (dict_set Z.eqb r row' (dict_del Z.eqb r rows))).
    + intros k. rewrite !zget_set, (zget_del _ _ _ Hrows).
      destruct (Z.eqb r k); reflexivity.
    + apply index_ok_insert; [exact Hdel | | exact Hchk1].
      rewrite (zget_del _ _ _ Hrows), Z.eqb_refl. reflexivity.
Qed.

(** ** The table invariant *)

Lemma get_map_items g (c : string) (items : dict string Index.t) :
  dict_get String.eqb c (map_items g items)
  = option_map (g c) (dict_get String.eqb c items).
Proof.
  induction items as [| [k ix] items IH]; simpl; [reflexivity |].
  destruct (String.eqb_spec k c); [subst; reflexivity | exact IH].
Qed.

Lemma wf_map_items g (items : dict string Index.t) :
  dict_wf String.eqb items -> dict_wf String.eqb (map_items g items).
Proof.
  induction items as [| [k ix] items IH]; simpl; [auto |].
  intros [Hn Hw]. split; [| auto].
  fold (map_items g items). now rewrite get_map_items, Hn.
Qed.

Lemma In_map_items g (c : string) (ix' : Index.t) (items : dict string Index.t) :
  In (c, ix') (map_items g items) <-> exists ix, In (c, ix) items /\ ix' = g c ix.
Proof.
  unfold map_items. rewrite in_map_iff. split.
  - intros ([k ix] & [= <- <-] & Hin). eauto.
  - intros (ix & Hin & ->). exists (c, ix). auto.
Qed.

Lemma mem_map_items g (c : string) (items : dict string Index.t) :
  dict_mem String.eqb c (map_items g items) = dict_mem String.eqb c items.
Proof.
  unfold dict_mem. rewrite get_map_items.
  destruct (dict_get String.eqb c items); reflexivity.
Qed.

Lemma table_inv_step (t : Table) (rows' : Rows) g (n' : Z) :
  table_inv t ->
  dict_wf Z.eqb rows' -> 1 <= n' ->
  (forall c ix, In (c, ix) (indexes t) -> index_ok c (g c ix) rows') ->
  (forall r row, dict_get Z.eqb r rows' = Some row ->
     dict_wf String.eqb row /\ 0 < r < n'
     /\ forall col, In col (schema t) -> is_primary col = true ->
                    is_none (row_get row (name col)) = false) ->
  table_inv (mkTable (schema t) rows' (map_items g (indexes t)) n').
Proof.
  intros Hinv Hw Hn Hix Hrows. constructor; simpl.
  - exact Hw.
  - apply wf_map_items, Hinv.
  - intros c ix' Hin. apply In_map_items in Hin. destruct Hin as (ix & Hin & ->). auto.
  - intros c ix' Hin. apply In_map_items in Hin. destruct Hin as (ix & Hin & ->).
    eapply inv_index_col; eauto.
  - intros col Hc Hi. rewrite mem_map_items. now apply Hinv.
  - intros r row Hg. now apply (Hrows r row).
  - intros r row Hg. now apply (Hrows r row).
  - exact Hn.
  - intros r row col Hg. now apply (Hrows r row).
Qed.

(** *** The constraint check *)

Lemma check_columns_none (columns : list Column) (ixs : dict string Index.t)
      (row : Row) (ex : option Z) :
  check_columns columns ixs row ex = None ->
  forall col, In col columns ->
    (is_primary col = true -> is_none (row_get row (name col)) = false)
    /\ (indexed col = true -> is_none (row_get row (name col)) = false ->
        exists ix, dict_get String.eqb (name col) ixs = Some ix
                   /\ excluding ex (Index.search ix (row_get row (name col))) = []).
Proof.
  induction columns as [| c0 columns IH]; simpl; [contradiction |].
  intros Hchk col [<- | Hin].
  - unfold indexed. destruct (is_primary c0) eqn:Hp, (is_none (row_get row (name c0))) eqn:Hn;
      simpl in *; try discriminate.
    + split; [reflexivity |]. intros _ _.
      destruct (dict_get String.eqb (name c0) ixs) as [ix |]; [| discriminate].
      exists ix. split; [reflexivity |].
      destruct (Index.has_value ix (row_get row (name c0))) eqn:Hh.
      * fold (excluding ex (Index.search ix (row_get row (name c0)))) in Hchk.
        destruct (nonempty _) eqn:Hne; [discriminate |]. now apply nonempty_false.
      * rewrite (has_value_false_search _ _ Hh). destruct ex; reflexivity.
    + split; [discriminate |]. intros _ Hf. discriminate.
    + split; [discriminate |]. intros Hu _. rewrite Hu in Hchk. simpl in Hchk.
      destruct (dict_get String.eqb (name c0) ixs) as [ix |]; [| discriminate].
      exists ix. split; [reflexivity |].
      destruct (Index.has_value ix (row_get row (name c0))) eqn:Hh.
      * fold (excluding ex (Index.search ix (row_get row (name c0)))) in Hchk.
        destruct (nonempty _) eqn:Hne; [discriminate |]. now apply nonempty_false.
      * rewrite (has_value_false_search _ _ Hh). destruct ex; reflexivity.
  - apply IH; [| exact Hin].
    destruct (is_primary c0 && is_none (row_get row (name c0))); [discriminate |].
    destruct ((is_primary c0 || is_unique c0) && negb (is_none (row_get row (name c0))));
      [| exact Hchk].
    destruct (dict_get String.eqb (name c0) ixs) as [ix |]; [| discriminate].
    destruct (Index.has_value ix _); [| exact Hchk].
    destruct (nonempty _); [discriminate | exact Hchk].
Qed.

(** Under the invariant, a row that passed the check finds every index
    ready to take its value. *)
Lemma check_indexes (t : Table) (row : Row) (ex : option Z) :
  table_inv t -> _check_constraints t row ex = None ->
  forall c ix, In (c, ix) (indexes t) ->
    is_none (row_get row c) = true
    \/ excluding ex (Index.search ix (row_get row c)) = [].
Proof.
  intros Hinv Hchk c ix Hin.
  destruct (inv_index_col _ Hinv _ _ Hin) as (col & Hcol & <- & Hi).
  destruct (is_none (row_get row (name col))) eqn:Hn; [now left | right].
  destruct (check_columns_none _ _ _ _ Hchk col Hcol) as [_ H].
  destruct (H Hi Hn) as (ix' & Hg & He).
  rewrite (sdict_In_get _ _ _ (inv_indexes_wf _ Hinv) Hin) in Hg.
  now injection Hg as <-.
Qed.

(** *** Rows built by insert and update are well-formed dictionaries *)

Lemma build_row_wf (columns : list Column) (pairs : list (string * value))
      (acc row : Row) :
  build_row columns pairs acc = Ok row -> dict_wf String.eqb acc ->
  dict_wf String.eqb row.
Proof.
  revert acc. induction pairs as [| [c v] pairs IH]; simpl; intros acc H Hw.
  - now injection H as <-.
  - destruct (find_column columns c); [| discriminate].
    destruct (validate_value _ v); [| discriminate].
    apply (IH _ H). now apply swf_set.
Qed.

Lemma fill_missing_wf (columns : list Column) (acc : Row) :
  dict_wf String.eqb acc -> dict_wf String.eqb (fill_missing columns acc).
Proof.
  revert acc. induction columns as [| col columns IH]; simpl; intros acc Hw; [exact Hw |].
  destruct (dict_mem String.eqb (name col) acc); apply IH; [exact Hw |].
  now apply swf_set.
Qed.

Lemma assemble_row_wf (t : Table) (query_columns : option (list string))
      (values : list value) (row : Row) :
  assemble_row t query_columns values = Ok row -> dict_wf String.eqb row.
Proof.
  unfold assemble_row. destruct (negb _); [discriminate |].
  destruct (build_row _ _ _) as [row0 | e] eqn:Hb; simpl; [| discriminate].
  intros [= <-]. apply fill_missing_wf. apply (build_row_wf _ _ _ _ Hb). exact I.
Qed.

Lemma apply_set_wf (columns : list Column) (items : dict string value)
      (acc row : Row) :
  apply_set columns items acc = Ok row -> dict_wf String.eqb acc ->
  dict_wf String.eqb row.
Proof.
  revert acc. induction items as [| [c v] items IH]; simpl; intros acc H Hw.
  - now injection H as <-.
  - destruct (find_column columns c); [| discriminate].
    destruct (validate_value _ v); [| discriminate].
    apply (IH _ H). now apply swf_set.
Qed.

(** *** The executor state *)

Lemma state_inv_set_table (s : QueryExecutor) (table_name : string) (t : Table) :
  state_inv s -> table_inv t -> state_inv (set_table s table_name t).
Proof.
  intros Hs Ht T t'. unfold set_table. simpl. rewrite sget_set.
  destruct (String.eqb table_name T); [intros [= <-]; exact Ht | apply Hs].
Qed.

Lemma state_inv_set_storage (s : QueryExecutor) (st : Storage) :
  state_inv s -> state_inv (set_storage s st).
Proof. intros Hs T t. apply Hs. Qed.

Lemma state_inv_saved (s : QueryExecutor) (table_name : string) (rows_ : Rows)
      (r : Response) :
  state_inv s -> state_inv (fst (saved s table_name rows_ r)).
Proof.
  intros Hs. unfold saved. destruct (save_table_data _ _ _); simpl;
    [now apply state_inv_set_storage | exact Hs].
Qed.

(** *** Insert *)

Lemma insert_indexes_ok (items : dict string Index.t) (row : Row) (r : Z) :
  (forall c ix, In (c, ix) items -> snd (Index.insert ix (row_get row c) r) = true) ->
  insert_indexes items row r
  = (map_items (fun c ix => fst (Index.insert ix (row_get row c) r)) items, None).
Proof.
  induction items as [| [c ix] items IH]; simpl; intros H; [reflexivity |].
  pose proof (H c ix (or_introl eq_refl)) as Hok.
  destruct (Index.insert ix (row_get row c) r) as [ix' ok]. simpl in Hok. subst ok.
  rewrite IH; [reflexivity |]. intros c0 ix0 Hin. apply H. now right.
Qed.

Lemma fresh_row_id (t : Table) :
  table_inv t -> dict_get Z.eqb (next_row_id t) (rows t) = None.
Proof.
  intros Hinv. destruct (dict_get Z.eqb (next_row_id t) (rows t)) as [row |] eqn:E;
    [| reflexivity].
  apply (inv_row_id _ Hinv) in E. lia.
Qed.

Lemma inserted_table_inv (t : Table) (row : Row) :
  table_inv t -> dict_wf String.eqb row ->
  _check_constraints t row None = None ->
  table_inv (inserted_table t row).
Proof.
  intros Hinv Hw Hchk. pose proof (inv_next _ Hinv) as Hn.
  unfold inserted_table. apply table_inv_step; auto.
  - apply zwf_set, Hinv.
  - lia.
  - intros c ix Hin. apply index_ok_insert.
    + now apply Hinv.
    + now apply fresh_row_id.
    + exact (check_indexes _ _ _ Hinv Hchk c ix Hin).
  - intros r row0. rewrite zget_set. destruct (Z.eqb_spec (next_row_id t) r).
    + intros [= <-]. subst r. split; [exact Hw |]. split; [lia |].
      intros col Hc Hp. now apply (check_columns_none _ _ _ _ Hchk col Hc).
    + intros Hg. split; [eapply inv_row_wf; eauto |].
      split; [apply (inv_row_id _ Hinv) in Hg; lia |].
      intros col Hc Hp. eapply inv_primary; eauto.
Qed.

(** Before it comes to "Save to disk" a statement raises no [OSError]. *)
Lemma columns_of_not_os (col_defs : list ColumnDef) (e : exn) :
  columns_of col_defs = Raise e -> is_os_error e = false.
Proof.
  induction col_defs as [| cd col_defs IH]; cbn [columns_of]; [discriminate |].
  unfold column_of, DataType_of.
  destruct (String.eqb (cd_type cd) "INT"); cbn [bind];
    [| destruct (String.eqb (cd_type cd) "TEXT"); cbn [bind];
       [| destruct (String.eqb (cd_type cd) "BOOL"); cbn [bind];
          [| now intros [= <-]]]];
    (destruct (columns_of col_defs); cbn [bind]; [discriminate |];
     intros [= <-]; now apply IH).
Qed.

Lemma build_row_not_os (columns : list Column) (pairs : list (string * value))
      (acc : Row) (e : exn) :
  build_row columns pairs acc = Raise e -> is_os_error e = false.
Proof.
  revert acc. induction pairs as [| [c v] pairs IH]; simpl; intros acc; [discriminate |].
  destruct (find_column columns c) as [cd |]; [| now intros [= <-]].
  destruct (validate_value cd v); [apply IH | now intros [= <-]].
Qed.

Lemma assemble_row_not_os (t : Table) (query_columns : option (list string))
      (values : list value) (e : exn) :
  assemble_row t query_columns values = Raise e -> is_os_error e = false.
Proof.
  unfold assemble_row. destruct (negb _); [now intros [= <-] |].
  destruct (build_row _ _ _) eqn:E; cbn [bind]; [discriminate |].
  intros [= <-]. exact (build_row_not_os _ _ _ _ E).
Qed.

Lemma apply_set_not_os (columns : list Column) (items : dict string value)
      (row : Row) (e : exn) :
  apply_set columns items row = Raise e -> is_os_error e = false.
Proof.
  revert row. induction items as [| [c v] items IH]; simpl; intros row; [discriminate |].
  destruct (find_column columns c) as [cd |]; [| now intros [= <-]].
  destruct (validate_value cd v); [apply IH | now intros [= <-]].
Qed.

Lemma check_columns_not_os (columns : list Column) (ixs : dict string Index.t)
      (row : Row) (ex : option Z) (e : exn) :
  check_columns columns ixs row ex = Some e -> is_os_error e = false.
Proof.
  induction columns as [| c0 columns IH]; simpl; [discriminate |].
  destruct (is_primary c0 && is_none (row_get row (name c0))); [now intros [= <-] |].
  destruct ((is_primary c0 || is_unique c0) && negb (is_none (row_get row (name c0))));
    [| exact IH].
  destruct (dict_get String.eqb (name c0) ixs) as [ix |]; [| now intros [= <-]].
  destruct (Index.has_value ix _); [| exact IH].
  destruct (nonempty _); [now intros [= <-] | exact IH].
Qed.

(** What [_execute_insert] does in a state that satisfies the invariant:
    it either raises before changing anything, or stores the assembled row
    under the current counter and bumps the counter. *)
Lemma execute_insert_spec (s : QueryExecutor) (table_name : string)
      (query_columns : option (list string)) (values : list value) :
  state_inv s ->
  (exists e, _execute_insert s table_name query_columns values = (s, Raise e)
             /\ is_os_error e = false)
  \/ (exists t row,
        dict_get String.eqb table_name (tables s) = Some t
        /\ assemble_row t query_columns values = Ok row
        /\ dict_wf String.eqb row
        /\ _check_constraints t row None = None
        /\ _execute_insert s table_name query_columns values
           = saved (set_table s table_name (inserted_table t row)) table_name
                   (dict_set Z.eqb (next_row_id t) row (rows t))
                   (Inserted (next_row_id t))).
Proof.
  intros Hs. unfold _execute_insert.
  destruct (dict_get String.eqb table_name (tables s)) as [t |] eqn:Ht; [| eauto].
  pose proof (Hs _ _ Ht) as Hinv.
  destruct (assemble_row t query_columns values) as [row | e] eqn:Hrow;
    [| left; exists e; split; [reflexivity | exact (assemble_row_not_os _ _ _ _ Hrow)]].
  destruct (_check_constraints t row None) as [e |] eqn:Hchk;
    [left; exists e; split; [reflexivity | exact (check_columns_not_os _ _ _ _ _ Hchk)] |].
  right. exists t, row. split; [reflexivity |]. split; [exact Hrow |].
  assert (Hw : dict_wf String.eqb row) by exact (assemble_row_wf _ _ _ _ Hrow).
  split; [exact Hw |]. split; [exact Hchk |].
  rewrite insert_indexes_ok; [reflexivity |].
  intros c ix Hin. apply insert_ok.
  exact (check_indexes _ _ _ Hinv Hchk c ix Hin).
Qed.


(** *** Update *)

Lemma update_indexes_ok (items : dict string Index.t) (row row' : Row) (r : Z) :
  (forall c ix, In (c, ix) items ->
     py_ne (row_get row c) (row_get row' c) = true ->
     snd (Index.update ix (row_get row c) (row_get row' c) r) = true) ->
  update_indexes items row row' r
  = (map_items (fun c ix => if py_ne (row_get row c) (row_get row' c)
                            then fst (Index.update ix (row_get row c) (row_get row' c) r)
                            else ix) items, None).
Proof.
  induction items as [| [c ix] items IH]; simpl; intros H; [reflexivity |].
  pose proof (H c ix (or_introl eq_refl)) as Hok.
  rewrite IH; [| intros c0 ix0 Hin; apply H; now right].
  destruct (py_ne (row_get row c) (row_get row' c)); [| reflexivity].
  specialize (Hok eq_refl).
  destruct (Index.update ix (row_get row c) (row_get row' c) r) as [ix' ok].
  simpl in Hok. subst ok. reflexivity.
Qed.

Lemma updated_table_inv (t : Table) (r : Z) (row row' : Row) :
  table_inv t -> dict_get Z.eqb r (rows t) = Some row ->
  dict_wf String.eqb row' ->
  _check_constraints t row' (Some r) = None ->
  table_inv (updated_table t r row row').
Proof.
  intros Hinv Hg Hw Hchk. unfold updated_table. apply table_inv_step; auto.
  - apply zwf_set, Hinv.
  - apply Hinv.
  - intros c ix Hin.
    apply (index_ok_update c ix (rows t) r row row');
      [now apply Hinv | apply Hinv | exact Hg |].
    exact (check_indexes _ _ _ Hinv Hchk c ix Hin).
  - intros r0 row0. rewrite zget_set. destruct (Z.eqb_spec r r0).
    + intros [= <-]. subst r0. split; [exact Hw |].
      split; [eapply inv_row_id; eauto |].
      intros col Hc Hp. now apply (check_columns_none _ _ _ _ Hchk col Hc).
    + intros Hg0. split; [eapply inv_row_wf; eauto |].
      split; [eapply inv_row_id; eauto |].
      intros col Hc Hp. eapply inv_primary; eauto.
Qed.

(** One iteration of the update loop, in a table that satisfies the
    invariant: it raises leaving the table as it was, or commits the row. *)
Lemma update_row_spec (t : Table) (set_ : dict string value) (r : Z) :
  table_inv t ->
  (exists e, update_row t set_ r = (t, Some e))
  \/ (exists row row',
        dict_get Z.eqb r (rows t) = Some row
        /\ apply_set (schema t) set_ row = Ok row'
        /\ _check_constraints t row' (Some r) = None
        /\ update_row t set_ r = (updated_table t r row row', None)).
Proof.
  intros Hinv. unfold update_row.
  destruct (dict_get Z.eqb r (rows t)) as [row |] eqn:Hg; [| eauto].
  destruct (apply_set (schema t) set_ row) as [row' | e] eqn:Ha; [| eauto].
  destruct (_check_constraints t row' (Some r)) as [e |] eqn:Hchk; [eauto |].
  right. exists row, row'. repeat split; auto.
  rewrite update_indexes_ok; [reflexivity |].
  intros c ix Hin.
  apply (index_ok_update c ix (rows t) r row row');
    [now apply Hinv | apply Hinv | exact Hg |].
  exact (check_indexes _ _ _ Hinv Hchk c ix Hin).
Qed.

Lemma update_row_inv (t : Table) (set_ : dict string value) (r : Z) :
  table_inv t -> table_inv (fst (update_row t set_ r)).
Proof.
  intros Hinv. destruct (update_row_spec t set_ r Hinv) as [(e & ->) | H]; [exact Hinv |].
  destruct H as (row & row' & Hg & Ha & Hchk & ->). simpl.
  apply updated_table_inv; auto.
  apply (apply_set_wf _ _ _ _ Ha). eapply inv_row_wf; eauto.
Qed.

Lemma update_loop_inv (t : Table) (set_ : dict string value) (ids : list Z) (n : Z) :
  table_inv t -> table_inv (fst (fst (update_loop t set_ ids n))).
Proof.
  revert t n. induction ids as [| r ids IH]; simpl; intros t n Hinv; [exact Hinv |].
  pose proof (update_row_inv t set_ r Hinv) as H.
  destruct (update_row t set_ r) as [t' [e |]]; simpl in *; [exact H |].
  now apply IH.
Qed.

(** *** Delete *)

Lemma delete_row_inv (t : Table) (r : Z) :
  table_inv t -> table_inv (fst (delete_row t r)).
Proof.
  intros Hinv. unfold delete_row.
  destruct (dict_get Z.eqb r (rows t)) as [row |] eqn:Hg; simpl; [| exact Hinv].
  apply (table_inv_step t _ (fun c ix => Index.delete ix (row_get row c) r)); auto.
  - apply zwf_del, Hinv.
  - apply Hinv.
  - intros c ix Hin. apply index_ok_delete; [now apply Hinv | apply Hinv | exact Hg].
  - intros r0 row0. rewrite (zget_del _ _ _ (inv_rows_wf _ Hinv)).
    destruct (Z.eqb r r0); [discriminate |]. intros Hg0.
    split; [eapply inv_row_wf; eauto |]. split; [eapply inv_row_id; eauto |].
    intros col Hc Hp. eapply inv_primary; eauto.
Qed.

Lemma delete_loop_inv (t : Table) (ids : list Z) (n : Z) :
  table_inv t -> table_inv (fst (fst (delete_loop t ids n))).
Proof.
  revert t n. induction ids as [| r ids IH]; simpl; intros t n Hinv; [exact Hinv |].
  pose proof (delete_row_inv t r Hinv) as H.
  destruct (delete_row t r) as [t' [e |]]; simpl in *; [exact H |].
  now apply IH.
Qed.

(** *** Create table *)

Lemma In_dict_set {V} (c k : string) (x v : V) (d : dict string V) :
  In (c, x) (dict_set String.eqb k v d) -> (c = k /\ x = v) \/ In (c, x) d.
Proof.
  induction d as [| [k0 v0] d IH]; simpl.
  - intros [[= <- <-] | []]. now left.
  - destruct (String.eqb_spec k0 k); simpl.
    + intros [[= <- <-] | H]; [left; auto | right; auto].
    + intros [H | H]; [right; auto |]. destruct (IH H); auto.
Qed.

Lemma make_indexes_fresh (all columns : list Column) (acc : dict string Index.t) :
  incl columns all -> fresh_indexes all acc ->
  fresh_indexes all (make_indexes columns acc).
Proof.
  revert acc. induction columns as [| col columns IH]; simpl; intros acc Hi Ha; [exact Ha |].
  assert (Hi' : incl columns all) by (intros x Hx; apply Hi; now right).
  destruct (is_primary col || is_unique col) eqn:E; [| now apply IH].
  apply IH; [exact Hi' |]. destruct Ha as [Hw Ha]. split; [now apply swf_set |].
  intros c ix Hin. apply In_dict_set in Hin. destruct Hin as [[-> ->] | Hin]; [| auto].
  simpl. repeat split. exists col. split; [apply Hi; now left | auto].
Qed.

Lemma make_indexes_mem_acc (columns : list Column) (acc : dict string Index.t) (c : string) :
  dict_mem String.eqb c acc = true ->
  dict_mem String.eqb c (make_indexes columns acc) = true.
Proof.
  revert acc. induction columns as [| col columns IH]; simpl; intros acc H; [exact H |].
  destruct (is_primary col || is_unique col); apply IH; [| exact H].
  unfold dict_mem in *. rewrite sget_set. destruct (String.eqb (name col) c); auto.
Qed.

Lemma make_indexes_mem (columns : list Column) (acc : dict string Index.t) (col : Column) :
  In col columns -> indexed col = true ->
  dict_mem String.eqb (name col) (make_indexes columns acc) = true.
Proof.
  revert acc. induction columns as [| c0 columns IH]; simpl; intros acc;
    [contradiction |]. intros [<- | Hin] Hi.
  - unfold indexed in Hi. rewrite Hi. apply make_indexes_mem_acc.
    unfold dict_mem. now rewrite sget_set, String.eqb_refl.
  - destruct (is_primary c0 || is_unique c0); now apply IH.
Qed.

Lemma created_table_inv (columns : list Column) :
  table_inv (mkTable columns [] (make_indexes columns []) 1).
Proof.
  assert (Hf : fresh_indexes columns (make_indexes columns [])).
  { apply make_indexes_fresh; [apply incl_refl |]. split; [exact I | intros c ix []]. }
  destruct Hf as [Hw Hf]. constructor; simpl; try discriminate; try exact I; try lia.
  - exact Hw.
  - intros c ix Hin. destruct (Hf c ix Hin) as (He & Hu & _). constructor; auto.
    + now rewrite He.
    + intros v r. unfold Index.search. rewrite He. simpl. split; [contradiction |].
      intros (row & Hg & _). discriminate.
    + intros k s Hks. rewrite He in Hks. contradiction.
  - intros c ix Hin. now apply (Hf c ix Hin).
  - intros col Hin Hi. now apply make_indexes_mem.
Qed.

(** ** Every statement preserves the invariant *)

Lemma execute_create_table_inv (s : QueryExecutor) (table_name : string)
      (col_defs : list ColumnDef) :
  state_inv s -> state_inv (fst (_execute_create_table s table_name col_defs)).
Proof.
  intros Hs. unfold _execute_create_table.
  destruct (dict_mem String.eqb table_name (tables s)); [exact Hs |].
  destruct (columns_of col_defs) as [columns | e]; [| exact Hs].
  assert (H : state_inv (set_table s table_name
                           (mkTable columns [] (make_indexes columns []) 1)))
    by (apply state_inv_set_table; [exact Hs | apply created_table_inv]).
  destruct (save_table_schema _ _ _) as [st |]; [| exact H].
  destruct (save_table_data _ _ _) as [st' |]; simpl;
    repeat apply state_inv_set_storage; exact H.
Qed.

Lemma execute_insert_inv (s : QueryExecutor) (table_name : string)
      (query_columns : option (list string)) (values : list value) :
  state_inv s -> state_inv (fst (_execute_insert s table_name query_columns values)).
Proof.
  intros Hs. destruct (execute_insert_spec s table_name query_columns values Hs)
    as [(e & -> & _) | (t & row & Ht & _ & Hw & Hchk & ->)]; [exact Hs |].
  apply state_inv_saved, state_inv_set_table; [exact Hs |].
  apply inserted_table_inv; auto. exact (Hs _ _ Ht).
Qed.

Lemma execute_select_state (s : QueryExecutor) table_name cols where_ join :
  fst (_execute_select s table_name cols where_ join) = s.
Proof.
  unfold _execute_select.
  destruct (dict_get String.eqb table_name (tables s)); [| reflexivity].
  destruct join; reflexivity.
Qed.

(** The tables a statement leaves in memory do not depend on what the file
    system answers. *)
Lemma saved_tables (s : QueryExecutor) (table_name : string) (rows_ : Rows)
      (r : Response) :
  tables (fst (saved s table_name rows_ r)) = tables s.
Proof. unfold saved. destruct (save_table_data _ _ _); reflexivity. Qed.

Lemma create_table_tables (s : QueryExecutor) (table_name : string)
      (col_defs : list ColumnDef) (columns : list Column) :
  dict_mem String.eqb table_name (tables s) = false ->
  columns_of col_defs = Ok columns ->
  tables (fst (_execute_create_table s table_name col_defs))
  = dict_set String.eqb table_name
             (mkTable columns [] (make_indexes columns []) 1) (tables s).
Proof.
  intros Hm Hc. unfold _execute_create_table. rewrite Hm, Hc.
  destruct (save_table_schema _ _ _); [| reflexivity].
  destruct (save_table_data _ _ _); reflexivity.
Qed.

Lemma update_tables (s : QueryExecutor) (table_name : string) (t : Table)
      (set_ : dict string value) (where_ : option (list Condition)) :
  dict_get String.eqb table_name (tables s) = Some t ->
  tables (fst (_execute_update s table_name set_ where_))
  = dict_set String.eqb table_name
      (fst (fst (update_loop t set_
                   (dict_keys (_apply_where_clause t (rows t) where_)) 0)))
      (tables s).
Proof.
  intros Ht. unfold _execute_update. rewrite Ht.
  destruct (update_loop _ _ _ _) as [[t' n] [e |]]; [reflexivity |].
  destruct (0 <? n); [| reflexivity].
  destruct (save_table_data _ _ _); reflexivity.
Qed.

Lemma delete_tables (s : QueryExecutor) (table_name : string) (t : Table)
      (where_ : option (list Condition)) :
  dict_get String.eqb table_name (tables s) = Some t ->
  tables (fst (_execute_delete s table_name where_))
  = dict_set String.eqb table_name
      (fst (fst (delete_loop t (dict_keys (_apply_where_clause t (rows t) where_)) 0)))
      (tables s).
Proof.
  intros Ht. unfold _execute_delete. rewrite Ht.
  destruct (delete_loop _ _ _) as [[t' n] [e |]]; [reflexivity |].
  destruct (0 <? n); [| reflexivity].
  destruct (save_table_data _ _ _); reflexivity.
Qed.

Lemma execute_update_inv (s : QueryExecutor) (table_name : string)
      (set_ : dict string value) (where_ : option (list Condition)) :
  state_inv s -> state_inv (fst (_execute_update s table_name set_ where_)).
Proof.
  intros Hs. unfold _execute_update.
  destruct (dict_get String.eqb table_name (tables s)) as [t |] eqn:Ht; [| exact Hs].
  pose proof (update_loop_inv t set_
                (dict_keys (_apply_where_clause t (rows t) where_)) 0 (Hs _ _ Ht)) as H.
  destruct (update_loop _ _ _ _) as [[t' n] [e |]]; simpl in *.
  - now apply state_inv_set_table.
  - destruct (0 <? n);
      [destruct (save_table_data _ _ _); simpl; [apply state_inv_set_storage |] |];
      now apply state_inv_set_table.
Qed.

Lemma execute_delete_inv (s : QueryExecutor) (table_name : string)
      (where_ : option (list Condition)) :
  state_inv s -> state_inv (fst (_execute_delete s table_name where_)).
Proof.
  intros Hs. unfold _execute_delete.
  destruct (dict_get String.eqb table_name (tables s)) as [t |] eqn:Ht; [| exact Hs].
  pose proof (delete_loop_inv t
                (dict_keys (_apply_where_clause t (rows t) where_)) 0 (Hs _ _ Ht)) as H.
  destruct (delete_loop _ _ _) as [[t' n] [e |]]; simpl in *.
  - now apply state_inv_set_table.
  - destruct (0 <? n);
      [destruct (save_table_data _ _ _); simpl; [apply state_inv_set_storage |] |];
      now apply state_inv_set_table.
Qed.

Lemma execute_inv (s : QueryExecutor) (q : Query) :
  state_inv s -> state_inv (fst (execute s q)).
Proof.
  intros Hs. destruct q; simpl.
  - now apply execute_create_table_inv.
  - now apply execute_insert_inv.
  - now rewrite execute_select_state.
  - now apply execute_update_inv.
  - now apply execute_delete_inv.
Qed.

(** ** Loading a table from storage *)

Lemma dict_get_app {K V} (eqb : K -> K -> bool) (k : K) (d1 d2 : dict K V) :
  dict_get eqb k (d1 ++ d2)%list
  = match dict_get eqb k d1 with
    | Some x => Some x
    | None => dict_get eqb k d2
    end.
Proof.
  induction d1 as [| [k1 x1] d1 IH]; simpl; [reflexivity |].
  destruct (eqb k1 k); [reflexivity | exact IH].
Qed.

Lemma dict_set_fresh {K V} (eqb : K -> K -> bool) (k : K) (x : V) (d : dict K V) :
  dict_get eqb k d = None -> dict_set eqb k x d = (d ++ [(k, x)])%list.
Proof.
  induction d as [| [k1 x1] d IH]; simpl; [reflexivity |].
  destruct (eqb k1 k); [discriminate |]. intros H. now rewrite IH.
Qed.

Lemma zwf_app_fresh {V} (k : Z) (x : V) (d1 d2 : dict Z V) :
  dict_wf Z.eqb (d1 ++ (k, x) :: d2)%list -> dict_get Z.eqb k d1 = None.
Proof.
  induction d1 as [| [k1 x1] d1 IH]; simpl; [reflexivity |].
  intros [Hn Hw]. destruct (Z.eqb_spec k1 k) as [-> | Hne]; [| now apply IH].
  rewrite dict_get_app in Hn. destruct (dict_get Z.eqb k d1); [discriminate |].
  simpl in Hn. rewrite Z.eqb_refl in Hn. discriminate.
Qed.

(** A value that is not equal to itself (a NaN) is found in no index. *)
Lemma search_irrefl (ix : Index.t) (v : value) :
  py_eq v v = false -> Index.search ix v = [].
Proof.
  intros H. unfold Index.search.
  destruct (dict_get py_eq v (Index._index ix)) as [s |] eqn:E; [| reflexivity].
  destruct (dict_get_In py_eq _ _ _ E) as (k0 & _ & Hk).
  rewrite (py_eq_refl_r _ _ Hk) in H. discriminate.
Qed.

(** Inserting the value of a row the unique index already reflects leaves
    the index reflecting the rows ([_load_table] does so when two columns of
    a schema share a name). *)
Lemma index_ok_reinsert (c : string) (ix : Index.t) (rows : Rows) (r : Z) (row : Row) :
  index_ok c ix rows -> dict_get Z.eqb r rows = Some row ->
  index_ok c (fst (Index.insert ix (row_get row c) r)) rows.
Proof.
  intros Hok Hg. destruct (is_none (row_get row c)) eqn:Hn.
  { unfold Index.insert. rewrite Hn. exact Hok. }
  destruct (py_eq (row_get row c) (row_get row c)) eqn:E.
  - assert (Hin : In r (Index.search ix (row_get row c))).
    { apply (ix_reflects _ _ _ Hok). exists row. auto. }
    unfold Index.insert. rewrite Hn, (ix_unique _ _ _ Hok).
    destruct (Index.has_value ix (row_get row c)) eqn:Hh.
    + destruct (Index.search ix (row_get row c)); [contradiction | exact Hok].
    + rewrite (has_value_false_search _ _ Hh) in Hin. contradiction.
  - pose proof (search_irrefl ix _ E) as Hs.
    assert (Hchk : is_none (row_get row c) = true \/ Index.search ix (row_get row c) = [])
      by now right.
    pose proof (insert_ok ix _ r Hchk) as Hins.
    destruct Hok as [Hw Hu Hr He]. constructor.
    + now apply wf_insert.
    + now rewrite unique_insert.
    + intros v r0. rewrite (search_insert _ _ _ _ Hins), Hn. simpl.
      destruct (py_eq (row_get row c) v) eqn:E'; [| apply Hr].
      rewrite py_eq_sym in E'. rewrite (py_eq_refl_r _ _ E') in E. discriminate.
    + now apply entries_insert.
Qed.

Lemma In_sdict_set {V} (c k : string) (x v : V) (d : dict string V) :
  dict_wf String.eqb d ->
  In (c, x) (dict_set String.eqb k v d) ->
  (c = k /\ x = v) \/ (c <> k /\ In (c, x) d).
Proof.
  intros Hw Hin. apply (sdict_In_get _ _ _ (swf_set k v d Hw)) in Hin.
  rewrite sget_set in Hin. destruct (String.eqb_spec k c) as [-> | Hne].
  - injection Hin as <-. now left.
  - right. split; [congruence | now apply sdict_get_In].
Qed.

(** The column loop of [_load_table] for one stored row [(r, row)]: the
    indexes, which reflected the rows read so far, reflect them with the new
    row, whatever the order and the repetitions of the column names. *)
Lemma load_row_ok (columns : list Column) (rows : Rows) (r : Z) (row : Row)
      (ixs : dict string Index.t) :
  dict_get Z.eqb r rows = None ->
  dict_wf String.eqb ixs ->
  (forall c ix, In (c, ix) ixs ->
     index_ok c ix (dict_set Z.eqb r row rows)
     \/ (index_ok c ix rows
         /\ (is_none (row_get row c) = true \/ Index.search ix (row_get row c) = [])
         /\ exists col, In col columns /\ name col = c)) ->
  dict_wf String.eqb (load_row columns ixs row r)
  /\ (forall c, dict_mem String.eqb c (load_row columns ixs row r)
                = dict_mem String.eqb c ixs)
  /\ forall c ix, In (c, ix) (load_row columns ixs row r) ->
       index_ok c ix (dict_set Z.eqb r row rows).
Proof.
  intros Hfresh. revert ixs.
  assert (Hat : dict_get Z.eqb r (dict_set Z.eqb r row rows) = Some row)
    by now rewrite zget_set, Z.eqb_refl.
  induction columns as [| col columns IH]; simpl; intros ixs Hw H.
  - split; [exact Hw |]. split; [reflexivity |]. intros c ix Hin.
    destruct (H c ix Hin) as [Hok | (_ & _ & col & [] & _)]. exact Hok.
  - destruct (dict_get String.eqb (name col) ixs) as [ix0 |] eqn:Hg.
    + pose proof (sdict_get_In _ _ _ Hg) as Hin0.
      destruct (IH (dict_set String.eqb (name col)
                      (fst (Index.insert ix0 (row_get row (name col)) r)) ixs))
        as (Hw' & Hmem & Hall).
      * now apply swf_set.
      * intros c ix Hin. apply (In_sdict_set _ _ _ _ _ Hw) in Hin.
        destruct Hin as [[-> ->] | [Hne Hin]].
        -- left. destruct (H _ _ Hin0) as [Hok | (Hok & Hchk & _)].
           ++ now apply index_ok_reinsert.
           ++ now apply index_ok_insert.
        -- destruct (H c ix Hin) as [Hok | (Hok & Hchk & col' & [<- | Hc] & Hname)];
             [now left | congruence |]. right. eauto.
      * split; [exact Hw' |]. split; [| exact Hall].
        intros c. rewrite Hmem. unfold dict_mem. rewrite sget_set.
        destruct (String.eqb_spec (name col) c) as [<- | Hne]; [| reflexivity].
        now rewrite Hg.
    + apply IH; [exact Hw |]. intros c ix Hin.
      destruct (H c ix Hin) as [Hok | (Hok & Hchk & col' & [<- | Hc] & Hname)];
        [now left | | right; eauto].
      subst c. rewrite (sdict_In_get _ _ _ Hw Hin) in Hg. discriminate.
Qed.

(** One iteration of the row loop of [_load_table]. *)
Lemma load_step_inv (columns : list Column) (done : Rows) (ixs : dict string Index.t)
      (n r : Z) (row : Row) :
  table_inv (mkTable columns done ixs n) ->
  dict_get Z.eqb r done = None ->
  dict_wf String.eqb row -> 0 < r ->
  (forall col, In col columns -> is_primary col = true ->
               is_none (row_get row (name col)) = false) ->
  (forall col r0, In col columns -> indexed col = true ->
                  ~ holds done (name col) r0 (row_get row (name col))) ->
  table_inv (mkTable columns (dict_set Z.eqb r row done) (load_row columns ixs row r)
                     (Z.max n (r + 1))).
Proof.
  intros Hinv Hfresh Hw Hr Hprim Huniq.
  destruct (load_row_ok columns done r row ixs Hfresh (inv_indexes_wf _ Hinv))
    as (Hw' & Hmem & Hall).
  { intros c ix Hin. right. split; [exact (inv_index_ok _ Hinv c ix Hin) |].
    destruct (inv_index_col _ Hinv c ix Hin) as (col & Hc & Hname & Hi). simpl in Hc.
    split; [| eauto].
    destruct (is_none (row_get row c)) eqn:Hn; [now left | right].
    apply In_nil_eq. intros r0 Hin0.
    apply (ix_reflects _ _ _ (inv_index_ok _ Hinv c ix Hin)) in Hin0.
    subst c. exact (Huniq col r0 Hc Hi Hin0). }
  pose proof (inv_next _ Hinv) as Hn. simpl in Hn.
  constructor; simpl.
  - apply zwf_set. exact (inv_rows_wf _ Hinv).
  - exact Hw'.
  - exact Hall.
  - intros c ix Hin. apply (sdict_In_get _ _ _ Hw') in Hin.
    assert (Hm : dict_mem String.eqb c ixs = true).
    { rewrite <- Hmem. unfold dict_mem. now rewrite Hin. }
    unfold dict_mem in Hm.
    destruct (dict_get String.eqb c ixs) as [ix0 |] eqn:Hg; [| discriminate].
    exact (inv_index_col _ Hinv c ix0 (sdict_get_In _ _ _ Hg)).
  - intros col Hc Hi. rewrite Hmem. exact (inv_col_index _ Hinv col Hc Hi).
  - intros r0 row0. rewrite zget_set. destruct (Z.eqb r r0).
    + now intros [= <-].
    + apply (inv_row_wf _ Hinv).
  - intros r0 row0. rewrite zget_set. destruct (Z.eqb_spec r r0).
    + intros _. subst r0. lia.
    + intros Hg. apply (inv_row_id _ Hinv) in Hg. simpl in Hg. lia.
  - lia.
  - intros r0 row0 col. rewrite zget_set. destruct (Z.eqb r r0).
    + intros [= <-]. apply Hprim.
    + apply (inv_primary _ Hinv).
Qed.

(** The row loop of [_load_table] over a data file that suits the columns
    rebuilds indexes and counter into a table that satisfies the invariant. *)
Lemma load_rows_inv (columns : list Column) (items done : Rows)
      (ixs : dict string Index.t) (n : Z) :
  table_inv (mkTable columns done ixs n) ->
  stored_ok columns (done ++ items)%list ->
  table_inv (mkTable columns (done ++ items)%list
                     (fst (load_rows columns items ixs n))
                     (snd (load_rows columns items ixs n))).
Proof.
  revert done ixs n. induction items as [| [r row] items IH]; simpl; intros done ixs n Hinv Hst.
  - now rewrite app_nil_r.
  - destruct Hst as (Hw & Hrows & Huniq).
    pose proof (zwf_app_fresh _ _ _ _ Hw) as Hfresh.
    assert (Hat : dict_get Z.eqb r (done ++ (r, row) :: items)%list = Some row).
    { rewrite dict_get_app, Hfresh. simpl. now rewrite Z.eqb_refl. }
    destruct (Hrows r row Hat) as (Hroww & Hpos & Hprim).
    assert (Hstep : table_inv (mkTable columns (done ++ [(r, row)])%list
                                       (load_row columns ixs row r) (Z.max n (r + 1)))).
    { rewrite <- (dict_set_fresh Z.eqb r row done Hfresh).
      apply load_step_inv; auto.
      intros col r0 Hc Hi Hheld.
      assert (Hr0 : holds (done ++ (r, row) :: items)%list (name col) r0
                          (row_get row (name col))).
      { destruct Hheld as (row0 & Hg0 & H0). exists row0. split; [| exact H0].
        now rewrite dict_get_app, Hg0. }
      assert (Hr1 : holds (done ++ (r, row) :: items)%list (name col) r
                          (row_get row (name col))).
      { destruct Hheld as (row0 & Hg0 & Hn0 & He0). exists row. split; [exact Hat |].
        split; [| exact (py_eq_refl_r _ _ He0)].
        rewrite <- (py_eq_is_none _ _ He0). exact Hn0. }
      pose proof (Huniq col r0 r _ Hc Hi Hr0 Hr1) as ->.
      destruct Hheld as (row0 & Hg0 & _). congruence. }
    specialize (IH (done ++ [(r, row)])%list (load_row columns ixs row r)
                   (Z.max n (r + 1)) Hstep).
    rewrite <- app_assoc in IH. simpl in IH. apply IH.
    split; [exact Hw | split; [exact Hrows | exact Huniq]].
Qed.

(** The rows of a table that satisfies the invariant suit its columns. *)
Lemma table_inv_stored (t : Table) : table_inv t -> stored_ok (schema t) (rows t).
Proof.
  intros Hinv. split; [exact (inv_rows_wf _ Hinv) |]. split.
  - intros r row Hg. split; [exact (inv_row_wf _ Hinv r row Hg) |].
    split; [apply (inv_row_id _ Hinv r row Hg) |].
    intros col Hc Hp. exact (inv_primary _ Hinv r row col Hg Hc Hp).
  - intros col r1 r2 v Hc Hi H1 H2.
    pose proof (inv_col_index _ Hinv col Hc Hi) as Hm. unfold dict_mem in Hm.
    destruct (dict_get String.eqb (name col) (indexes t)) as [ix |] eqn:Hg;
      [| discriminate].
    pose proof (inv_index_ok _ Hinv _ _ (sdict_get_In _ _ _ Hg)) as Hok.
    apply (ix_reflects _ _ _ Hok) in H1. apply (ix_reflects _ _ _ Hok) in H2.
    exact (length_le_1_eq _ _ _ (ix_single _ _ _ Hok v) H1 H2).
Qed.

Lemma update_row_schema (t : Table) (set_ : dict string value) (r : Z) :
  schema (fst (update_row t set_ r)) = schema t.
Proof.
  unfold update_row. destruct (dict_get Z.eqb r (rows t)); [| reflexivity].
  destruct (apply_set _ _ _); [| reflexivity].
  destruct (_check_constraints _ _ _); [reflexivity |].
  destruct (update_indexes _ _ _ _) as [ixs [c |]]; reflexivity.
Qed.

Lemma update_loop_schema (t : Table) (set_ : dict string value) (ids : list Z) (n : Z) :
  schema (fst (fst (update_loop t set_ ids n))) = schema t.
Proof.
  revert t n. induction ids as [| r ids IH]; simpl; intros t n; [reflexivity |].
  pose proof (update_row_schema t set_ r) as H.
  destruct (update_row t set_ r) as [t' [e |]]; simpl in *; [exact H |].
  now rewrite IH.
Qed.

Lemma delete_loop_schema (t : Table) (ids : list Z) (n : Z) :
  schema (fst (fst (delete_loop t ids n))) = schema t.
Proof.
  revert t n. induction ids as [| r ids IH]; simpl; intros t n; [reflexivity |].
  unfold delete_row. destruct (dict_get Z.eqb r (rows t)); simpl; [| reflexivity].
  now rewrite IH.
Qed.

(** ** The storage keeps what a restart needs *)

Lemma DataType_of_value (d : DataType) : DataType_of (DataType_value d) = Ok d.
Proof. destruct d; reflexivity. Qed.

(** The descriptor CREATE TABLE persists gives the same columns back. *)
Lemma persisted_schema_reloads (col_defs : list ColumnDef) (columns : list Column) :
  columns_of col_defs = Ok columns ->
  columns_of (map (fun cc => mkColumnDef (name (fst cc)) (DataType_value (dtype (fst cc)))
                                         (cd_constraints (snd cc)))
                  (combine columns col_defs)) = Ok columns.
Proof.
  revert columns. induction col_defs as [| cd col_defs IH]; simpl; intros columns.
  - now intros [= <-].
  - destruct (column_of cd) as [col | e] eqn:Ec; simpl; [| discriminate].
    destruct (columns_of col_defs) as [cols | e]; simpl; [| discriminate].
    intros [= <-]. simpl. rewrite (IH cols eq_refl). unfold column_of at 1. simpl.
    rewrite DataType_of_value. simpl.
    unfold column_of in Ec. destruct (DataType_of (cd_type cd)); simpl in Ec;
      [| discriminate].
    injection Ec as <-. reflexivity.
Qed.

(** *** Writing a file *)

Lemma length_append (a b : string) :
  String.length (a ++ b) = (String.length a + String.length b)%nat.
Proof. induction a as [| c a IH]; simpl; [reflexivity | now rewrite IH]. Qed.

(** [name.replace("_schema.json", "")] gives the table's name back when the
    name holds no dot: the only place where [_schema.json] starts in
    [<name>_schema.json] is then the end of the name. *)
Lemma no_suffix_inside (rest : string) :
  rest <> EmptyString -> has_char "." rest = false ->
  PyStr.startswith "_schema.json" (rest ++ "_schema.json") = false.
Proof.
  destruct rest as [| c1 [| c2 [| c3 [| c4 [| c5 [| c6 [| c7 [| c8 r]]]]]]]];
    intros Hne Hd; [congruence | ..]; cbn [append PyStr.startswith];
    try (cbn; now rewrite ?andb_false_r).
  cbn [has_char] in Hd.
  destruct (Ascii.eqb_spec c8 ".") as [-> | Hc8].
  - now rewrite !orb_true_r in Hd.
  - destruct (Ascii.eqb_spec "." c8) as [E | _]; [congruence |].
    cbn [andb]. now rewrite ?andb_false_r.
Qed.

Lemma replace_schema_suffix (table_name : string) :
  has_char "." table_name = false ->
  PyStr.replace "_schema.json" "" (schema_file_name table_name) = table_name.
Proof.
  unfold PyStr.replace, schema_file_name.
  induction table_name as [| c T IH]; intros Hd; [reflexivity |].
  cbn [append PyStr.replace_from].
  change (String c (T ++ "_schema.json")) with (String c T ++ "_schema.json").
  rewrite (no_suffix_inside (String c T)) by (discriminate || exact Hd).
  f_equal. apply IH. cbn [has_char] in Hd. now apply orb_false_elim in Hd.
Qed.

Lemma open_w_cases (file_name : string) :
  open_w file_name = Ok tt \/ open_w file_name = Raise (OSError file_name).
Proof. unfold open_w. destruct (Nat.leb _ _); auto. Qed.

(** The data file of a table has a shorter name than its schema file. *)
Lemma data_file_opens (table_name : string) :
  open_w (schema_file_name table_name) = Ok tt ->
  open_w (data_file_name table_name) = Ok tt.
Proof.
  unfold open_w, schema_file_name, data_file_name. rewrite !length_append.
  cbn [String.length].
  destruct (Nat.leb_spec (String.length table_name + 12) NAME_MAX) as [H |];
    [| discriminate].
  intros _. destruct (Nat.leb_spec (String.length table_name + 9) NAME_MAX);
    [reflexivity | lia].
Qed.

Lemma save_table_data_cases (st : Storage) (table_name : string) (data : Rows) :
  (open_w (data_file_name table_name) = Ok tt
   /\ save_table_data st table_name data
      = Ok (mkStorage (schema_files st)
                      (dict_set String.eqb table_name data (data_files st))))
  \/ (open_w (data_file_name table_name) = Raise (OSError (data_file_name table_name))
      /\ save_table_data st table_name data
         = Raise (OSError (data_file_name table_name))).
Proof.
  unfold save_table_data.
  destruct (open_w_cases (data_file_name table_name)) as [H | H]; rewrite H; auto.
Qed.

Lemma save_table_schema_cases (st : Storage) (table_name : string)
      (col_defs : list ColumnDef) :
  (open_w (schema_file_name table_name) = Ok tt
   /\ save_table_schema st table_name col_defs
      = Ok (mkStorage (dict_set String.eqb table_name col_defs (schema_files st))
                      (data_files st)))
  \/ (open_w (schema_file_name table_name)
      = Raise (OSError (schema_file_name table_name))
      /\ save_table_schema st table_name col_defs
         = Raise (OSError (schema_file_name table_name))).
Proof.
  unfold save_table_schema.
  destruct (open_w_cases (schema_file_name table_name)) as [H | H]; rewrite H; auto.
Qed.

(** A write that returns leaves every other file as it was. *)
Lemma save_table_data_load (st st' : Storage) (table_name : string) (data : Rows) :
  save_table_data st table_name data = Ok st' ->
  (forall T, load_table_schema st' T = load_table_schema st T)
  /\ (forall T, load_table_data st' T
                = if String.eqb table_name T then Some data else load_table_data st T).
Proof.
  destruct (save_table_data_cases st table_name data) as [[_ ->] | [_ ->]];
    [| discriminate].
  intros [= <-]. split; [reflexivity |]. intros T. unfold load_table_data. simpl.
  apply sget_set.
Qed.

Lemma save_table_schema_load (st st' : Storage) (table_name : string)
      (col_defs : list ColumnDef) :
  save_table_schema st table_name col_defs = Ok st' ->
  (forall T, load_table_schema st' T
             = if String.eqb table_name T then Some col_defs
               else load_table_schema st T)
  /\ (forall T, load_table_data st' T = load_table_data st T).
Proof.
  destruct (save_table_schema_cases st table_name col_defs) as [[_ ->] | [_ ->]];
    [| discriminate].
  intros [= <-]. split; [| reflexivity]. intros T. unfold load_table_schema. simpl.
  apply sget_set.
Qed.

Lemma storage_ok_save_data (st st' : Storage) (table_name : string) (data : Rows) :
  storage_ok st ->
  (forall col_defs columns,
     load_table_schema st table_name = Some col_defs ->
     columns_of col_defs = Ok columns -> stored_ok columns data) ->
  save_table_data st table_name data = Ok st' ->
  storage_ok st'.
Proof.
  intros Hst Hd Hsave T col_defs Hs.
  destruct (save_table_data_load _ _ _ _ Hsave) as [Hls Hld].
  rewrite Hls in Hs. destruct (Hst T col_defs Hs) as (columns & Hc & Hok).
  exists columns. split; [exact Hc |]. rewrite Hld.
  destruct (String.eqb_spec table_name T) as [-> | Hne]; [| exact Hok].
  exact (Hd _ _ Hs Hc).
Qed.

Lemma files_ok_save_data (st st' : Storage) (table_name : string) (data : Rows) :
  files_ok st -> save_table_data st table_name data = Ok st' -> files_ok st'.
Proof.
  intros Hf Hsave T col_defs Hs.
  destruct (save_table_data_load _ _ _ _ Hsave) as [Hls Hld].
  rewrite Hls in Hs. destruct (Hf T col_defs Hs) as (Hw & d & Hd).
  split; [exact Hw |]. rewrite Hld. destruct (String.eqb table_name T); eauto.
Qed.

Lemma linked_set_table (s : QueryExecutor) (table_name : string) (t : Table) :
  linked s ->
  match load_table_schema (storage s) table_name with
  | Some col_defs => columns_of col_defs = Ok (schema t)
  | None => open_w (schema_file_name table_name)
            = Raise (OSError (schema_file_name table_name))
  end ->
  linked (set_table s table_name t).
Proof.
  intros Hl Ht T t'. unfold set_table. simpl. rewrite sget_set.
  destruct (String.eqb_spec table_name T) as [-> | Hne]; [| apply Hl].
  now intros [= <-].
Qed.

Lemma linked_set_storage (s : QueryExecutor) (st : Storage) :
  linked s ->
  (forall T, load_table_schema st T = load_table_schema (storage s) T) ->
  linked (set_storage s st).
Proof.
  intros Hl He T t Hg. simpl. rewrite He. now apply Hl.
Qed.

(** Replacing a table of the executor by one of the same schema, and then
    storing its rows, keeps the system invariant, whether the write returns
    or raises. *)
Lemma system_inv_commit (s : QueryExecutor) (table_name : string) (t t' : Table)
      (r : Response) :
  system_inv s ->
  dict_get String.eqb table_name (tables s) = Some t ->
  table_inv t' -> schema t' = schema t ->
  system_inv (set_table s table_name t')
  /\ system_inv (fst (saved (set_table s table_name t') table_name (rows t') r)).
Proof.
  intros (Hs & Hst & Hf & Hl) Ht Hinv Hsch.
  assert (Hl' : linked (set_table s table_name t')).
  { apply linked_set_table; [exact Hl |]. rewrite Hsch. exact (Hl _ _ Ht). }
  assert (H1 : system_inv (set_table s table_name t')).
  { split; [now apply state_inv_set_table |]. split; [exact Hst |].
    split; [exact Hf | exact Hl']. }
  split; [exact H1 |]. unfold saved.
  destruct (save_table_data _ _ _) as [st' | e] eqn:Hsave; [| exact H1]. simpl.
  simpl in Hsave.
  split; [now apply state_inv_set_storage, state_inv_set_table |]. split.
  - apply (storage_ok_save_data (storage s) st' table_name (rows t') Hst);
      [| exact Hsave].
    intros cds columns Hf' Hc'. pose proof (Hl _ _ Ht) as Hlt. rewrite Hf' in Hlt.
    rewrite Hlt in Hc'. injection Hc' as <-. rewrite <- Hsch.
    now apply table_inv_stored.
  - split; [exact (files_ok_save_data _ _ _ _ Hf Hsave) |].
    apply linked_set_storage; [exact Hl' |].
    exact (proj1 (save_table_data_load _ _ _ _ Hsave)).
Qed.

Lemma stored_ok_nil (columns : list Column) : stored_ok columns [].
Proof.
  repeat split; try discriminate. intros col r1 r2 v _ _ (row & Hg & _). discriminate.
Qed.

Lemma execute_create_table_system_inv (s : QueryExecutor) (table_name : string)
      (col_defs : list ColumnDef) :
  system_inv s -> system_inv (fst (_execute_create_table s table_name col_defs)).
Proof.
  intros Hsys. pose proof Hsys as (Hs & Hst & Hf & Hl). unfold _execute_create_table.
  destruct (dict_mem String.eqb table_name (tables s)) eqn:Hm; [exact Hsys |].
  destruct (columns_of col_defs) as [cols | e] eqn:Hc; [| exact Hsys].
  pose proof (persisted_schema_reloads _ _ Hc) as Hre.
  set (t := mkTable cols [] (make_indexes cols []) 1).
  set (schema_data := map _ (combine cols col_defs)) in *.
  assert (Hs1 : state_inv (set_table s table_name t))
    by (apply state_inv_set_table; [exact Hs | apply created_table_inv]).
  cbn [storage set_table].
  destruct (save_table_schema_cases (storage s) table_name schema_data)
    as [[Hw Hsave] | [Hw Hsave]]; rewrite Hsave.
  - (* the schema file is written, and so is the data file *)
    cbn [storage set_storage rows t].
    destruct (save_table_data_cases
                (mkStorage (dict_set String.eqb table_name schema_data
                                     (schema_files (storage s)))
                           (data_files (storage s))) table_name [])
      as [[_ Hsave2] | [Hw2 _]];
      [| rewrite (data_file_opens _ Hw) in Hw2; discriminate].
    rewrite Hsave2. cbn [fst].
    split; [now apply state_inv_set_storage, state_inv_set_storage |].
    split; [| split].
    + intros T cds. unfold load_table_schema, load_table_data. simpl.
      rewrite !sget_set. destruct (String.eqb_spec table_name T) as [-> | Hne].
      * intros [= <-]. exists cols. split; [exact Hre | apply stored_ok_nil].
      * apply Hst.
    + intros T cds. unfold load_table_schema, load_table_data. simpl.
      rewrite !sget_set. destruct (String.eqb_spec table_name T) as [-> | Hne].
      * intros _. split; [exact Hw | eauto].
      * apply Hf.
    + intros T t0. simpl. rewrite sget_set. unfold load_table_schema. simpl.
      rewrite sget_set. destruct (String.eqb_spec table_name T) as [-> | Hne].
      * now intros [= <-].
      * apply Hl.
  - (* the schema file is refused: the table stays in memory *)
    cbn [fst]. split; [exact Hs1 |]. split; [exact Hst |]. split; [exact Hf |].
    apply linked_set_table; [exact Hl |].
    destruct (load_table_schema (storage s) table_name) as [cds |] eqn:Hload;
      [| exact Hw].
    destruct (Hf _ _ Hload) as [Hw' _]. rewrite Hw' in Hw. discriminate.
Qed.

Lemma execute_system_inv (s : QueryExecutor) (q : Query) :
  system_inv s -> system_inv (fst (execute s q)).
Proof.
  intros Hsys. pose proof Hsys as (Hs & Hst & Hf & Hl). destruct q; simpl.
  - now apply execute_create_table_system_inv.
  - destruct (execute_insert_spec s table_name columns values Hs)
      as [(e & -> & _) | (t & row & Ht & _ & Hw & Hchk & ->)]; [exact Hsys |].
    apply (system_inv_commit s table_name t (inserted_table t row) _ Hsys Ht);
      [| reflexivity].
    apply inserted_table_inv; auto. exact (Hs _ _ Ht).
  - now rewrite execute_select_state.
  - unfold _execute_update.
    destruct (dict_get String.eqb table_name (tables s)) as [t |] eqn:Ht; [| exact Hsys].
    pose proof (update_loop_inv t set_
                  (dict_keys (_apply_where_clause t (rows t) where_)) 0 (Hs _ _ Ht)) as H.
    pose proof (update_loop_schema t set_
                  (dict_keys (_apply_where_clause t (rows t) where_)) 0) as Hsch.
    destruct (update_loop _ _ _ _) as [[t' n] [e |]]; simpl in H, Hsch.
    + now apply (system_inv_commit s table_name t t' (Updated n)).
    + destruct (0 <? n);
        now apply (system_inv_commit s table_name t t' (Updated n)).
  - unfold _execute_delete.
    destruct (dict_get String.eqb table_name (tables s)) as [t |] eqn:Ht; [| exact Hsys].
    pose proof (delete_loop_inv t
                  (dict_keys (_apply_where_clause t (rows t) where_)) 0 (Hs _ _ Ht)) as H.
    pose proof (delete_loop_schema t
                  (dict_keys (_apply_where_clause t (rows t) where_)) 0) as Hsch.
    destruct (delete_loop _ _ _) as [[t' n] [e |]]; simpl in H, Hsch.
    + now apply (system_inv_commit s table_name t t' (Deleted n)).
    + destruct (0 <? n);
        now apply (system_inv_commit s table_name t t' (Deleted n)).
Qed.

(** [_load_table] over a storage that is in order never raises and adds a
    table that satisfies the invariant (or none, for an empty schema). *)
Lemma load_table_inv (s : QueryExecutor) (table_name : string) :
  system_inv s ->
  exists s', _load_table s table_name = Ok s'
             /\ storage s' = storage s /\ system_inv s'.
Proof.
  intros Hsys. pose proof Hsys as (Hs & Hst & Hfl & Hl). unfold _load_table.
  destruct (load_table_schema (storage s) table_name) as [[| cd cds] |] eqn:Hf;
    [eauto | | eauto].
  destruct (Hst _ _ Hf) as (columns & Hc & Hok). rewrite Hc. simpl.
  set (data := match load_table_data (storage s) table_name with
               | Some d => d
               | None => []
               end) in *.
  pose proof (load_rows_inv columns data [] (make_indexes columns []) 1
                (created_table_inv columns) Hok) as Hinv. simpl in Hinv.
  destruct (load_rows columns data (make_indexes columns []) 1) as [ixs n].
  eexists. split; [reflexivity |]. split; [reflexivity |].
  split; [now apply state_inv_set_table |]. split; [exact Hst |].
  split; [exact Hfl |].
  apply linked_set_table; [exact Hl |]. cbn [storage]. now rewrite Hf.
Qed.

Lemma load_tables_inv (names : list string) (s : QueryExecutor) :
  system_inv s ->
  exists s', load_tables s names = Ok s'
             /\ storage s' = storage s /\ system_inv s'.
Proof.
  revert s. induction names as [| T names IH]; simpl; intros s Hsys; [eauto |].
  destruct (load_table_inv s T Hsys) as (s1 & -> & Hst1 & Hsys1). simpl.
  destruct (IH s1 Hsys1) as (s2 & -> & Hst2 & Hsys2).
  exists s2. split; [reflexivity |]. split; [congruence | exact Hsys2].
Qed.


(** Constructing an executor over a storage that is in order succeeds and
    gives a state that satisfies the invariant. *)
Lemma init_inv (st : Storage) :
  storage_ok st -> files_ok st ->
  exists s, QueryExecutor_init st = Ok s /\ storage s = st /\ system_inv s.
Proof.
  intros Hst Hf. unfold QueryExecutor_init, _load_existing_tables.
  apply (load_tables_inv _ (mkExecutor st [])).
  split; [intros T t; discriminate |]. split; [exact Hst |].
  split; [exact Hf |]. intros T t. discriminate.
Qed.

Lemma reachable_system_inv (s : QueryExecutor) : reachable s -> system_inv s.
Proof.
  induction 1 as [| s q Hr IH | s s' Hr IH Hinit].
  - split; [intros T t; discriminate |]. split; [intros T col_defs; discriminate |].
    split; [intros T col_defs; discriminate | intros T t; discriminate].
  - now apply execute_system_inv.
  - destruct IH as (_ & Hst & Hf & _).
    destruct (init_inv _ Hst Hf) as (s1 & H1 & _ & Hsys).
    rewrite H1 in Hinit. now injection Hinit as <-.
Qed.

Lemma reachable_inv (s : QueryExecutor) : reachable s -> state_inv s.
Proof. intros Hr. apply (reachable_system_inv s Hr). Qed.

(** A restart always succeeds from a reachable state. *)
Lemma restart_succeeds (s : QueryExecutor) :
  reachable s -> exists s', QueryExecutor_init (storage s) = Ok s' /\ reachable s'.
Proof.
  intros Hr. destruct (reachable_system_inv s Hr) as (_ & Hst & Hf & _).
  destruct (init_inv _ Hst Hf) as (s' & Hinit & _). eauto using reach_restart.
Qed.

(** The engine's [execute(text)] stays within the reachable states. *)
Lemma engine_execute_reachable (s : QueryExecutor) (text : string) :
  reachable s -> reachable (fst (DatabaseEngine.execute s text)).
Proof.
  intros Hr. unfold DatabaseEngine.execute.
  destruct (QueryParser.parse text) as [q | e]; [| exact Hr].
  now apply reach_execute.
Qed.

Lemma execute_all_reachable (s : QueryExecutor) (queries : list string) :
  reachable s -> reachable (fst (DatabaseEngine.execute_all s queries)).
Proof.
  revert s. induction queries as [| q queries IH]; simpl; intros s Hr; [exact Hr |].
  pose proof (engine_execute_reachable s q Hr) as H1.
  destruct (DatabaseEngine.execute s q) as [s1 r1]. simpl in H1.
  specialize (IH s1 H1).
  destruct (DatabaseEngine.execute_all s1 queries) as [s2 rs]. exact IH.
Qed.

Lemma demo_reachable : reachable demo.
Proof. apply execute_all_reachable, reach_fresh. Qed.

(** ** Rows selected, rows assembled: what the statements work on *)

Lemma check_columns_app (pre post : list Column) (ixs : dict string Index.t)
      (row : Row) (ex : option Z) :
  check_columns (pre ++ post) ixs row ex
  = match check_columns pre ixs row ex with
    | Some e => Some e
    | None => check_columns post ixs row ex
    end.
Proof.
  induction pre as [| c0 pre IH]; simpl; [reflexivity |].
  destruct (is_primary c0 && is_none (row_get row (name c0))); [reflexivity |].
  destruct ((is_primary c0 || is_unique c0) && negb (is_none (row_get row (name c0))));
    [| exact IH].
  destruct (dict_get String.eqb (name c0) ixs) as [ix |]; [| reflexivity].
  destruct (Index.has_value ix _); [| exact IH].
  destruct (nonempty _); [reflexivity | exact IH].
Qed.

Lemma apply_set_other (columns : list Column) (items : dict string value)
      (acc row' : Row) (c : string) :
  dict_get String.eqb c items = None ->
  apply_set columns items acc = Ok row' -> row_get row' c = row_get acc c.
Proof.
  revert acc. induction items as [| [k v] items IH]; simpl; intros acc Hn H.
  - now injection H as <-.
  - destruct (String.eqb k c) eqn:E; [discriminate |].
    destruct (find_column columns k); [| discriminate].
    destruct (validate_value _ v); [| discriminate].
    rewrite (IH _ Hn H). unfold row_get. now rewrite sget_set, E.
Qed.

(** After the SET loop the tentative row holds the assigned value. *)
Lemma apply_set_get (columns : list Column) (items : dict string value)
      (acc row' : Row) (c : string) (v : value) :
  dict_wf String.eqb items ->
  dict_get String.eqb c items = Some v ->
  apply_set columns items acc = Ok row' -> row_get row' c = v.
Proof.
  revert acc. induction items as [| [k w] items IH]; simpl; intros acc Hw Hg H;
    [discriminate |].
  destruct Hw as [Hn Hw].
  destruct (find_column columns k); [| discriminate].
  destruct (validate_value _ w); [| discriminate].
  destruct (String.eqb_spec k c) as [-> | Hne].
  - injection Hg as <-. rewrite (apply_set_other _ _ _ _ _ Hn H).
    unfold row_get. now rewrite sget_set, String.eqb_refl.
  - exact (IH _ Hw Hg H).
Qed.

Lemma In_zdict_set {V} (k r : Z) (x v : V) (d : dict Z V) :
  In (k, x) (dict_set Z.eqb r v d) -> (k = r /\ x = v) \/ In (k, x) d.
Proof.
  induction d as [| [k0 v0] d IH]; simpl.
  - intros [[= <- <-] | []]. now left.
  - destruct (Z.eqb_spec k0 r); simpl.
    + intros [[= <- <-] | H]; [left; auto | right; auto].
    + intros [H | H]; [right; auto |]. destruct (IH H); auto.
Qed.

Lemma rows_of_ids_In (rows : Rows) (ids : list Z) (acc : Rows) (k : Z) (row : Row) :
  In (k, row) (rows_of_ids rows ids acc) ->
  In (k, row) acc \/ dict_get Z.eqb k rows = Some row.
Proof.
  revert acc. induction ids as [| r ids IH]; simpl; intros acc H; [now left |].
  destruct (dict_get Z.eqb r rows) as [row0 |] eqn:E; [| now apply IH].
  destruct (IH _ H) as [Hin | Hg]; [| now right].
  apply In_zdict_set in Hin. destruct Hin as [[-> ->] | Hin]; auto.
Qed.

(** The filtered rows are rows of the table. *)
Lemma where_clause_rows (t : Table) (where_ : option (list Condition)) (k : Z) (row : Row) :
  dict_wf Z.eqb (rows t) ->
  In (k, row) (_apply_where_clause t (rows t) where_) ->
  dict_get Z.eqb k (rows t) = Some row.
Proof.
  intros Hw. unfold _apply_where_clause.
  destruct where_ as [[| c cs] |]; try (now apply zdict_In_get).
  destruct (index_path (indexes t) (rows t) (c :: cs)) as [f |] eqn:E.
  - revert E. generalize (c :: cs). intros conds. induction conds as [| c0 conds IH];
      simpl; [discriminate |].
    destruct (String.eqb (cond_operator c0) "="); [| exact IH].
    destruct (dict_get String.eqb (cond_column c0) (indexes t)); [| exact IH].
    intros [= <-] Hin. destruct (rows_of_ids_In _ _ _ _ _ Hin) as [[] | H]. exact H.
  - unfold full_scan. intros Hin. apply filter_In in Hin. now apply zdict_In_get.
Qed.

Lemma fill_missing_get (columns : list Column) (row : Row) (c : string) :
  dict_mem String.eqb c row = true ->
  dict_get String.eqb c (fill_missing columns row) = dict_get String.eqb c row.
Proof.
  revert row. induction columns as [| col columns IH]; simpl; intros row Hm; [reflexivity |].
  destruct (dict_mem String.eqb (name col) row) eqn:E; [now apply IH |].
  assert (Hne : String.eqb (name col) c = false).
  { destruct (String.eqb_spec (name col) c) as [E0 | ]; [| reflexivity].
    rewrite E0 in E. congruence. }
  rewrite IH.
  - now rewrite sget_set, Hne.
  - unfold dict_mem in *. now rewrite sget_set, Hne.
Qed.

Lemma zget_none_notin {V} (k : Z) (d : dict Z V) :
  dict_get Z.eqb k d = None -> forall x, ~ In (k, x) d.
Proof.
  induction d as [| [k1 x1] d IH]; simpl; intros H x; [tauto |].
  destruct (Z.eqb_spec k1 k) as [-> | Hne]; [discriminate |].
  intros [[= -> _] | Hin]; [congruence | exact (IH H x Hin)].
Qed.

Lemma zwf_NoDup_keys {V} (d : dict Z V) : dict_wf Z.eqb d -> NoDup (dict_keys d).
Proof.
  induction d as [| [k x] d IH]; simpl; intros Hw; [constructor |].
  destruct Hw as [Hn Hw]. constructor; [| now apply IH].
  unfold dict_keys. intros Hin. apply in_map_iff in Hin.
  destruct Hin as ([k' x'] & E & Hin). simpl in E. subst k'.
  exact (zget_none_notin _ _ Hn _ Hin).
Qed.

Lemma existsb_keys {V} (k : Z) (d : dict Z V) :
  existsb (Z.eqb k) (dict_keys d) = dict_mem Z.eqb k d.
Proof.
  unfold dict_mem. induction d as [| [k1 x1] d IH]; simpl; [reflexivity |].
  rewrite (Z.eqb_sym k k1). destruct (Z.eqb k1 k); [reflexivity | exact IH].
Qed.

Lemma zget_filter {V} (P : Z * V -> bool) (k : Z) (d : dict Z V) :
  dict_wf Z.eqb d ->
  dict_get Z.eqb k (filter P d)
  = match dict_get Z.eqb k d with
    | Some x => if P (k, x) then Some x else None
    | None => None
    end.
Proof.
  induction d as [| [k1 x1] d IH]; simpl; [reflexivity |]. intros [Hn Hw].
  destruct (Z.eqb_spec k1 k) as [-> | Hne].
  - destruct (P (k, x1)); simpl; [now rewrite Z.eqb_refl |].
    now rewrite (IH Hw), Hn.
  - destruct (P (k1, x1)); simpl; [| exact (IH Hw)].
    destruct (Z.eqb_spec k1 k); [contradiction | exact (IH Hw)].
Qed.

Lemma zwf_filter {V} (P : Z * V -> bool) (d : dict Z V) :
  dict_wf Z.eqb d -> dict_wf Z.eqb (filter P d).
Proof.
  induction d as [| [k x] d IH]; simpl; [auto |]. intros [Hn Hw].
  destruct (P (k, x)); simpl; [| auto]. split; [| auto].
  now rewrite (zget_filter _ _ _ Hw), Hn.
Qed.

Lemma zwf_rows_of_ids (rows : Rows) (ids : list Z) (acc : Rows) :
  dict_wf Z.eqb acc -> dict_wf Z.eqb (rows_of_ids rows ids acc).
Proof.
  revert acc. induction ids as [| r ids IH]; simpl; intros acc Hw; [exact Hw |].
  destruct (dict_get Z.eqb r rows); apply IH; [now apply zwf_set | exact Hw].
Qed.

(** The rows a WHERE clause keeps form a dictionary of their own. *)
Lemma where_clause_wf (t : Table) (where_ : option (list Condition)) :
  dict_wf Z.eqb (rows t) -> dict_wf Z.eqb (_apply_where_clause t (rows t) where_).
Proof.
  intros Hw. unfold _apply_where_clause. destruct where_ as [[| c cs] |]; try exact Hw.
  destruct (index_path (indexes t) (rows t) (c :: cs)) as [f |] eqn:E.
  - revert E. generalize (c :: cs). intros conds.
    induction conds as [| c0 conds IH]; simpl; [discriminate |].
    destruct (String.eqb (cond_operator c0) "="); [| exact IH].
    destruct (dict_get String.eqb (cond_column c0) (indexes t)); [| exact IH].
    intros [= <-]. now apply zwf_rows_of_ids.
  - now apply zwf_filter.
Qed.

Lemma dict_keys_set_present {V} (k : Z) (x : V) (d : dict Z V) :
  dict_mem Z.eqb k d = true -> dict_keys (dict_set Z.eqb k x d) = dict_keys d.
Proof.
  unfold dict_mem. induction d as [| [k1 x1] d IH]; simpl; [discriminate |].
  destruct (Z.eqb k1 k); simpl; [reflexivity |]. intros H. now rewrite IH.
Qed.

(** The loop of [_execute_update] when it raises nothing: every target is
    replaced by the row the SET loop builds from it, and nothing else
    changes. *)
Lemma update_loop_spec (set_ : dict string value) (ids : list Z) (t t' : Table) (n n' : Z) :
  table_inv t -> NoDup ids ->
  update_loop t set_ ids n = (t', n', None) ->
  n' = n + Z.of_nat (List.length ids)
  /\ schema t' = schema t /\ next_row_id t' = next_row_id t
  /\ dict_keys (rows t') = dict_keys (rows t)
  /\ forall k,
       (In k ids ->
        exists row row', dict_get Z.eqb k (rows t) = Some row
                         /\ apply_set (schema t) set_ row = Ok row'
                         /\ dict_get Z.eqb k (rows t') = Some row')
       /\ (~ In k ids -> dict_get Z.eqb k (rows t') = dict_get Z.eqb k (rows t)).
Proof.
  revert t n. induction ids as [| r ids IH]; intros t n Hinv Hnd Hl.
  - simpl in Hl. injection Hl as <- <-. rewrite Z.add_0_r.
    split; [reflexivity |]. split; [reflexivity |]. split; [reflexivity |].
    split; [reflexivity |]. intros k. split; [intros [] | reflexivity].
  - inversion Hnd as [| ? ? Hr Hnd']; subst. cbn [update_loop] in Hl.
    destruct (update_row_spec t set_ r Hinv)
      as [(e & He) | (row & row' & Hg & Ha & Hchk & He)]; rewrite He in Hl;
      [discriminate |].
    assert (Hinv1 : table_inv (updated_table t r row row')).
    { apply updated_table_inv; auto.
      apply (apply_set_wf _ _ _ _ Ha). eapply inv_row_wf; eauto. }
    destruct (IH _ _ Hinv1 Hnd' Hl) as (Hn & Hs & Hc & Hk & Hrows). simpl in *.
    split; [lia |]. split; [exact Hs |]. split; [exact Hc |]. split.
    + rewrite Hk. apply dict_keys_set_present. unfold dict_mem. now rewrite Hg.
    + intros k. destruct (Hrows k) as [Hin Hout]. split.
      * intros [<- | Hk'].
        -- exists row, row'. split; [exact Hg |]. split; [exact Ha |].
           rewrite (proj2 (Hrows r) Hr). now rewrite zget_set, Z.eqb_refl.
        -- destruct (Hin Hk') as (rowk & rowk' & Hgk & Hak & Hgk').
           rewrite zget_set in Hgk. destruct (Z.eqb_spec r k); [subst; contradiction |].
           eauto.
      * intros Hnot. rewrite Hout by tauto. rewrite zget_set.
        destruct (Z.eqb_spec r k); [subst; tauto | reflexivity].
Qed.

Lemma sdict_set_same {V} (k : string) (x : V) (d : dict string V) :
  dict_get String.eqb k d = Some x -> dict_set String.eqb k x d = d.
Proof.
  induction d as [| [k1 x1] d IH]; simpl; [discriminate |].
  destruct (String.eqb k1 k); [now intros [= ->] |]. intros H. now rewrite IH.
Qed.

Lemma set_table_same (s : QueryExecutor) (table_name : string) (t : Table) :
  dict_get String.eqb table_name (tables s) = Some t -> set_table s table_name t = s.
Proof.
  intros H. unfold set_table. rewrite (sdict_set_same _ _ _ H). now destruct s.
Qed.

Lemma build_row_other (columns : list Column) (pairs : list (string * value))
      (acc row : Row) (c : string) :
  build_row columns pairs acc = Ok row -> ~ In c (map fst pairs) ->
  dict_get String.eqb c row = dict_get String.eqb c acc.
Proof.
  revert acc. induction pairs as [| [c0 v0] pairs IH]; simpl; intros acc H Hn.
  - now injection H as <-.
  - destruct (find_column columns c0); [| discriminate].
    destruct (validate_value _ v0); [| discriminate].
    rewrite (IH _ H) by tauto. rewrite sget_set.
    destruct (String.eqb_spec c0 c); [tauto | reflexivity].
Qed.

Lemma build_row_get (columns : list Column) (pairs : list (string * value))
      (acc row : Row) (c : string) (v : value) :
  build_row columns pairs acc = Ok row -> NoDup (map fst pairs) -> In (c, v) pairs ->
  dict_get String.eqb c row = Some v.
Proof.
  revert acc. induction pairs as [| [c0 v0] pairs IH]; simpl; intros acc H Hnd Hin;
    [contradiction |].
  destruct (find_column columns c0); [| discriminate].
  destruct (validate_value _ v0); [| discriminate].
  inversion Hnd as [| ? ? Hn Hnd']; subst. destruct Hin as [[= -> ->] | Hin].
  - rewrite (build_row_other _ _ _ _ _ H Hn). now rewrite sget_set, String.eqb_refl.
  - exact (IH _ H Hnd' Hin).
Qed.

Lemma fill_missing_none (columns : list Column) (acc : Row) (c : string) :
  dict_get String.eqb c acc = None -> row_get (fill_missing columns acc) c = VNone.
Proof.
  revert acc. induction columns as [| col columns IH]; simpl; intros acc H.
  - unfold row_get. now rewrite H.
  - destruct (dict_mem String.eqb (name col) acc); [now apply IH |].
    destruct (String.eqb_spec (name col) c) as [E | Hne].
    + unfold row_get. rewrite fill_missing_get.
      * now rewrite sget_set, E, String.eqb_refl.
      * unfold dict_mem. now rewrite sget_set, E, String.eqb_refl.
    + apply IH. rewrite sget_set. destruct (String.eqb_spec (name col) c); tauto.
Qed.

Lemma map_fst_combine (cs : list string) (vs : list value) :
  List.length cs = List.length vs -> map fst (combine cs vs) = cs.
Proof.
  revert vs. induction cs as [| c cs IH]; intros [| v vs]; simpl; try discriminate;
    [reflexivity |]. intros [= H]. now rewrite IH.
Qed.

(** The first column at which the constraint check fails, and why. *)
Lemma check_columns_first (columns : list Column) (ixs : dict string Index.t)
      (row : Row) (ex : option Z) (e : exn) :
  (forall col, In col columns -> indexed col = true ->
               dict_mem String.eqb (name col) ixs = true) ->
  check_columns columns ixs row ex = Some e ->
  exists pre c0 post,
    columns = (pre ++ c0 :: post)%list
    /\ check_columns pre ixs row ex = None
    /\ ((is_primary c0 = true /\ is_none (row_get row (name c0)) = true
         /\ e = ValueError (NullPrimaryKey (name c0)))
        \/ (indexed c0 = true /\ is_none (row_get row (name c0)) = false
            /\ e = ValueError (DuplicateValue (name c0) (row_get row (name c0)))
            /\ exists ix,
                 dict_get String.eqb (name c0) ixs = Some ix
                 /\ nonempty (excluding ex (Index.search ix (row_get row (name c0))))
                    = true)).
Proof.
  induction columns as [| c columns IH]; intros Hix H; [discriminate |].
  assert (IH' : check_columns [c] ixs row ex = None ->
                check_columns columns ixs row ex = Some e ->
                exists pre c0 post,
                  (c :: columns = pre ++ c0 :: post)%list
                  /\ check_columns pre ixs row ex = None
                  /\ ((is_primary c0 = true /\ is_none (row_get row (name c0)) = true
                       /\ e = ValueError (NullPrimaryKey (name c0)))
                      \/ (indexed c0 = true /\ is_none (row_get row (name c0)) = false
                          /\ e = ValueError (DuplicateValue (name c0) (row_get row (name c0)))
                          /\ exists ix,
                               dict_get String.eqb (name c0) ixs = Some ix
                               /\ nonempty (excluding ex
                                              (Index.search ix (row_get row (name c0))))
                                  = true))).
  { intros Hc Hrest.
    destruct (IH (fun col Hin => Hix col (or_intror Hin)) Hrest)
      as (pre & c0 & post & -> & Hpre & Hkind).
    exists (c :: pre), c0, post. split; [reflexivity |]. split; [| exact Hkind].
    change (c :: pre) with ([c] ++ pre)%list. now rewrite check_columns_app, Hc. }
  change (c :: columns) with ([c] ++ columns)%list in H.
  rewrite check_columns_app in H.
  destruct (check_columns [c] ixs row ex) as [e0 |] eqn:Hc; [| now apply IH'].
  injection H as <-. exists [], c, columns. split; [reflexivity |].
  split; [reflexivity |]. simpl in Hc.
  destruct (is_primary c && is_none (row_get row (name c))) eqn:E0.
  { injection Hc as <-. apply andb_prop in E0. left. tauto. }
  destruct ((is_primary c || is_unique c) && negb (is_none (row_get row (name c))))
    eqn:E1; [| discriminate].
  apply andb_prop in E1. destruct E1 as [Ei Hn]. apply negb_true_iff in Hn.
  destruct (dict_get String.eqb (name c) ixs) as [ix |] eqn:Hg.
  - destruct (Index.has_value ix _); [| discriminate].
    destruct (nonempty _) eqn:Hne; [| discriminate].
    injection Hc as <-. right. split; [exact Ei |]. split; [exact Hn |].
    split; [reflexivity |]. exists ix. split; [reflexivity | exact Hne].
  - specialize (Hix c (or_introl eq_refl) Ei). unfold dict_mem in Hix.
    rewrite Hg in Hix. discriminate.
Qed.

Lemma nonempty_In {A} (l : list A) : nonempty l = true -> exists x, In x l.
Proof. destruct l as [| x l]; [discriminate |]. intros _. exists x. now left. Qed.

(** A duplicate-value error names a value that a row other than the
    excluded one holds. *)
Lemma duplicate_is_held (t : Table) (c : string) (ix : Index.t) (v : value)
      (ex : option Z) :
  table_inv t -> dict_get String.eqb c (indexes t) = Some ix ->
  nonempty (excluding ex (Index.search ix v)) = true ->
  exists r', Some r' <> ex /\ holds (rows t) c r' v.
Proof.
  intros Hinv Hg Hne. apply nonempty_In in Hne. destruct Hne as (r' & Hin).
  pose proof (inv_index_ok _ Hinv _ _ (sdict_get_In _ _ _ Hg)) as Hok.
  exists r'. destruct ex as [r |]; simpl in Hin.
  - apply In_set_discard in Hin. destruct Hin as [Hin Hne].
    split; [congruence | now apply (ix_reflects _ _ _ Hok)].
  - split; [discriminate | now apply (ix_reflects _ _ _ Hok)].
Qed.

(** The SET loop does not look at the row it changes: it raises the same
    error, or builds rows that agree on the assigned columns. *)
Lemma apply_set_raise_any (columns : list Column) (items : dict string value)
      (acc acc' : Row) (e : exn) :
  apply_set columns items acc = Raise e -> apply_set columns items acc' = Raise e.
Proof.
  revert acc acc'. induction items as [| [k w] items IH]; simpl; intros acc acc';
    [discriminate |].
  destruct (find_column columns k) as [cd |]; [| auto].
  destruct (validate_value cd w); [apply IH | auto].
Qed.

Lemma apply_set_ok_any (columns : list Column) (items : dict string value)
      (acc acc' row : Row) :
  apply_set columns items acc = Ok row ->
  exists row', apply_set columns items acc' = Ok row'
               /\ forall c, dict_mem String.eqb c items = true ->
                            row_get row' c = row_get row c.
Proof.
  revert acc acc'. induction items as [| [k w] items IH]; simpl; intros acc acc' H.
  - exists acc'. split; [reflexivity |]. unfold dict_mem. simpl. discriminate.
  - destruct (find_column columns k) as [cd |]; [| discriminate].
    destruct (validate_value cd w); [| discriminate].
    destruct (IH _ (dict_set String.eqb k w acc') H) as (row' & H' & Hsame).
    exists row'. split; [exact H' |]. intros c. unfold dict_mem. simpl.
    destruct (dict_get String.eqb c items) as [x |] eqn:Hc.
    + intros _. apply Hsame. unfold dict_mem. now rewrite Hc.
    + destruct (String.eqb k c) eqn:E; [| discriminate].
      intros _. rewrite (apply_set_other _ _ _ _ _ Hc H),
                  (apply_set_other _ _ _ _ _ Hc H').
      unfold row_get. now rewrite !sget_set, E.
Qed.


(** When the SET loop raises, it is for one of the assignments. *)
Lemma apply_set_raises (columns : list Column) (items : dict string value)
      (acc : Row) (e : exn) :
  dict_wf String.eqb items ->
  apply_set columns items acc = Raise e ->
  exists c w,
    dict_get String.eqb c items = Some w
    /\ ((find_column columns c = None /\ e = ValueError (NoSuchColumn c))
        \/ (exists col_def, find_column columns c = Some col_def
                            /\ validate_value col_def w = false
                            /\ e = ValueError (InvalidType c (dtype col_def)))).
Proof.
  revert acc. induction items as [| [k w] items IH]; simpl; intros acc Hw H;
    [discriminate |].
  destruct Hw as [Hn Hw].
  destruct (find_column columns k) as [cd |] eqn:Hf.
  - destruct (validate_value cd w) eqn:Hv.
    + destruct (IH _ Hw H) as (c & w0 & Hg & Hkind). exists c, w0.
      split; [| exact Hkind].
      destruct (String.eqb_spec k c) as [-> | _]; [congruence | exact Hg].
    + injection H as <-. exists k, w. rewrite String.eqb_refl.
      split; [reflexivity |]. right. exists cd. auto.
  - injection H as <-. exists k, w. rewrite String.eqb_refl.
    split; [reflexivity |]. left. auto.
Qed.

(** One iteration of the update loop on a stored row, case by case. *)
Lemma update_row_cases (t : Table) (set_ : dict string value) (r : Z) (row : Row) :
  table_inv t -> dict_get Z.eqb r (rows t) = Some row ->
  update_row t set_ r
  = match apply_set (schema t) set_ row with
    | Raise e => (t, Some e)
    | Ok row' =>
        match _check_constraints t row' (Some r) with
        | Some e => (t, Some e)
        | None => (updated_table t r row row', None)
        end
    end.
Proof.
  intros Hinv Hg. unfold update_row. rewrite Hg.
  destruct (apply_set (schema t) set_ row) as [row' | e] eqn:Ha; [| reflexivity].
  destruct (_check_constraints t row' (Some r)) as [e |] eqn:Hchk; [reflexivity |].
  rewrite update_indexes_ok; [reflexivity |].
  intros c ix Hin.
  apply (index_ok_update c ix (rows t) r row row');
    [now apply Hinv | apply Hinv | exact Hg |].
  exact (check_indexes _ _ _ Hinv Hchk c ix Hin).
Qed.

(** The tentative row of a stored row fails the constraint check only at a
    column the SET clause assigns: the values it keeps passed the check
    when they were stored. *)
Lemma check_error_assigned (t : Table) (set_ : dict string value) (r : Z)
      (row row' : Row) (e : exn) :
  table_inv t -> dict_wf String.eqb set_ ->
  dict_get Z.eqb r (rows t) = Some row ->
  apply_set (schema t) set_ row = Ok row' ->
  _check_constraints t row' (Some r) = Some e ->
  exists c0 w,
    In c0 (schema t) /\ dict_get String.eqb (name c0) set_ = Some w
    /\ ((is_primary c0 = true /\ is_none w = true
         /\ e = ValueError (NullPrimaryKey (name c0)))
        \/ (indexed c0 = true /\ is_none w = false
            /\ e = ValueError (DuplicateValue (name c0) w))).
Proof.
  intros Hinv Hw Hg Ha Hchk.
  destruct (check_columns_first _ _ _ _ _ (inv_col_index _ Hinv) Hchk)
    as (pre & c0 & post & Hs & _ & Hkind).
  assert (Hin : In c0 (schema t)) by (rewrite Hs; apply in_or_app; right; now left).
  destruct (dict_get String.eqb (name c0) set_) as [w |] eqn:Hset.
  - exists c0, w. split; [exact Hin |]. split; [exact Hset |].
    rewrite (apply_set_get _ _ _ _ _ _ Hw Hset Ha) in Hkind.
    destruct Hkind as [H | (H1 & H2 & H3 & _)]; [left; exact H | right; auto].
  - exfalso. rewrite (apply_set_other _ _ _ _ _ Hset Ha) in Hkind.
    destruct Hkind as [(Hp & Hn & _) | (Hi & Hn & _ & ix & Hix & Hne)].
    + rewrite (inv_primary _ Hinv r row c0 Hg Hin Hp) in Hn. discriminate.
    + pose proof (inv_index_ok _ Hinv _ _ (sdict_get_In _ _ _ Hix)) as Hok.
      apply nonempty_In in Hne. destruct Hne as (k & Hk). simpl in Hk.
      apply In_set_discard in Hk. destruct Hk as [Hk Hne]. apply Hne.
      apply (length_le_1_eq (Index.search ix (row_get row (name c0))));
        [apply (ix_single _ _ _ Hok) | exact Hk |].
      apply (ix_reflects _ _ _ Hok). exists row. split; [exact Hg |].
      split; [exact Hn |].
      apply (ix_reflects _ _ _ Hok) in Hk. destruct Hk as (rowk & _ & _ & Hk).
      exact (py_eq_refl_r _ _ Hk).
Qed.

(** The exception of an iteration of the update loop is that of a SET
    assignment. *)
Lemma update_row_set_error (t t0 : Table) (set_ : dict string value) (r : Z)
      (row : Row) (e : exn) :
  table_inv t -> dict_wf String.eqb set_ ->
  dict_get Z.eqb r (rows t) = Some row ->
  update_row t set_ r = (t0, Some e) -> set_error (schema t) set_ e.
Proof.
  intros Hinv Hw Hg. rewrite (update_row_cases _ _ _ _ Hinv Hg).
  destruct (apply_set (schema t) set_ row) as [row' | e0] eqn:Ha.
  - destruct (_check_constraints t row' (Some r)) as [e0 |] eqn:Hchk; [| discriminate].
    intros [= _ <-].
    destruct (check_error_assigned _ _ _ _ _ _ Hinv Hw Hg Ha Hchk)
      as (c0 & w & Hin & Hset & [(Hp & Hn & ->) | (Hi & Hn & ->)]);
      exists (name c0), w; (split; [exact Hset |]); right; right; [left | right];
      (split; [exact Hn |]); (split; [exists c0; auto | reflexivity]).
  - intros [= _ <-].
    destruct (apply_set_raises _ _ _ _ Hw Ha) as (c & w & Hset & Hkind).
    exists c, w. split; [exact Hset |].
    destruct Hkind as [H | H]; [left; exact H | right; left; exact H].
Qed.

(** When the SET loop succeeds and assigns no unique or primary column but
    [c], an iteration can only raise the duplicate-value error of [c]. *)
Lemma update_row_only_duplicate (t t0 : Table) (set_ : dict string value) (r : Z)
      (row : Row) (e : exn) (c : string) (v : value) :
  table_inv t -> dict_wf String.eqb set_ ->
  dict_get Z.eqb r (rows t) = Some row ->
  dict_get String.eqb c set_ = Some v -> is_none v = false ->
  (exists row', apply_set (schema t) set_ row = Ok row') ->
  (forall c0, In c0 (schema t) -> indexed c0 = true -> name c0 <> c ->
              dict_get String.eqb (name c0) set_ = None) ->
  update_row t set_ r = (t0, Some e) ->
  e = ValueError (DuplicateValue c v).
Proof.
  intros Hinv Hw Hg Hset Hv (row' & Ha) Honly.
  rewrite (update_row_cases _ _ _ _ Hinv Hg), Ha.
  destruct (_check_constraints t row' (Some r)) as [e0 |] eqn:Hchk; [| discriminate].
  intros [= _ <-].
  destruct (check_error_assigned _ _ _ _ _ _ Hinv Hw Hg Ha Hchk)
    as (c0 & w & Hin & Hset0 & Hkind).
  assert (Hi : indexed c0 = true).
  { destruct Hkind as [(Hp & _) | (Hi & _)]; [| exact Hi].
    unfold indexed. now rewrite Hp. }
  destruct (String.eqb_spec (name c0) c) as [E | Hne].
  - rewrite E in *. rewrite Hset in Hset0. injection Hset0 as <-.
    destruct Hkind as [(_ & Hn & _) | (_ & _ & ->)]; [congruence | reflexivity].
  - rewrite (Honly c0 Hin Hi Hne) in Hset0. discriminate.
Qed.



(** The statements of [_execute_update] once the loop is known. *)
Lemma execute_update_cases (s : QueryExecutor) (table_name : string) (t : Table)
      (set_ : dict string value) (where_ : option (list Condition)) :
  dict_get String.eqb table_name (tables s) = Some t ->
  _execute_update s table_name set_ where_
  = match update_loop t set_ (dict_keys (_apply_where_clause t (rows t) where_)) 0 with
    | (t', _, Some e) => (set_table s table_name t', Raise e)
    | (t', updated_count, None) =>
        if 0 <? updated_count
        then saved (set_table s table_name t') table_name (rows t') (Updated updated_count)
        else (set_table s table_name t', Ok (Updated updated_count))
    end.
Proof. intros Ht. unfold _execute_update. now rewrite Ht. Qed.

(** The rows an Update or Delete works on are stored rows, each once. *)
Lemma where_clause_ids (t : Table) (where_ : option (list Condition)) :
  table_inv t ->
  NoDup (dict_keys (_apply_where_clause t (rows t) where_))
  /\ forall k, In k (dict_keys (_apply_where_clause t (rows t) where_)) ->
       exists row, dict_get Z.eqb k (rows t) = Some row.
Proof.
  intros Hinv. split.
  - apply zwf_NoDup_keys, where_clause_wf, Hinv.
  - intros k Hk. unfold dict_keys in Hk. apply in_map_iff in Hk.
    destruct Hk as ([k0 row] & E & Hk). simpl in E. subst k0. exists row.
    exact (where_clause_rows _ _ _ _ (inv_rows_wf _ Hinv) Hk).
Qed.





(** What [_load_table] leaves in memory for a table whose schema file is
    not empty, and that it touches nothing else. *)
Lemma load_table_get (s s' : QueryExecutor) (table_name : string) :
  _load_table s table_name = Ok s' ->
  storage s' = storage s
  /\ (forall T, T <> table_name ->
                dict_get String.eqb T (tables s') = dict_get String.eqb T (tables s))
  /\ forall cd cds, load_table_schema (storage s) table_name = Some (cd :: cds) ->
       exists t', dict_get String.eqb table_name (tables s') = Some t'
                  /\ columns_of (cd :: cds) = Ok (schema t')
                  /\ rows t' = match load_table_data (storage s) table_name with
                               | Some d => d
                               | None => []
                               end
                  /\ next_row_id t'
                     = snd (load_rows (schema t') (rows t') (make_indexes (schema t') []) 1).
Proof.
  unfold _load_table.
  destruct (load_table_schema (storage s) table_name) as [[| cd cds] |];
    try (intros [= <-]; repeat split; discriminate).
  destruct (columns_of (cd :: cds)) as [columns | e] eqn:Ec; cbn [bind]; [| discriminate].
  set (data := match load_table_data (storage s) table_name with
               | Some d => d | None => [] end).
  destruct (load_rows columns data (make_indexes columns []) 1) as [ixs n] eqn:El.
  intros [= <-]. split; [reflexivity |]. split.
  - intros T Hne. cbn [tables set_table]. rewrite sget_set.
    destruct (String.eqb_spec table_name T); [congruence | reflexivity].
  - intros cd0 cds0 [= <- <-]. eexists. cbn [tables set_table].
    rewrite sget_set, String.eqb_refl.
    split; [reflexivity |]. cbn [schema rows next_row_id]. rewrite El, Ec. auto.
Qed.

Lemma load_tables_storage (names : list string) (s s' : QueryExecutor) :
  load_tables s names = Ok s' -> storage s' = storage s.
Proof.
  revert s. induction names as [| n names IH]; simpl; intros s H.
  - now injection H as <-.
  - destruct (_load_table s n) as [s1 | e] eqn:E; simpl in H; [| discriminate].
    destruct (load_table_get _ _ _ E) as (Hst & _). rewrite (IH s1 H). exact Hst.
Qed.

(* ================================================================== *)
(** * The specification, property by property *)

(** ** C2: uniqueness *)

(** C2.  In every state reachable through [execute] (after a statement
    that returned as well as after one that raised, and after the engine was
    restarted over its storage), for every table and every column marked
    unique or primary: two distinct row-ids never hold equal
    non-null values in that column, the column has an index, every entry of
    the index maps its value to at most one row-id, and for every value
    [search] yields at most one row-id. *)
Theorem unique_columns_stay_unique (s : QueryExecutor) (table_name : string)
        (t : Table) (col : Column) :
  reachable s ->
  dict_get String.eqb table_name (tables s) = Some t ->
  In col (schema t) ->
  is_unique col || is_primary col = true ->
  (forall r1 r2 row1 row2,
      dict_get Z.eqb r1 (rows t) = Some row1 ->
      dict_get Z.eqb r2 (rows t) = Some row2 ->
      r1 <> r2 ->
      is_none (row_get row1 (name col)) = false ->
      py_eq (row_get row1 (name col)) (row_get row2 (name col)) = false)
  /\ exists index,
       dict_get String.eqb (name col) (indexes t) = Some index
       /\ (forall v row_ids, In (v, row_ids) (Index._index index) ->
                             (List.length row_ids <= 1)%nat)
       /\ forall v, (List.length (Index.search index v) <= 1)%nat.
Proof.
  intros Hr Ht Hcol Hu.
  pose proof (reachable_inv s Hr _ _ Ht) as Hinv.
  assert (Hi : indexed col = true) by (unfold indexed; now rewrite orb_comm).
  pose proof (inv_col_index _ Hinv col Hcol Hi) as Hmem. unfold dict_mem in Hmem.
  destruct (dict_get String.eqb (name col) (indexes t)) as [ix |] eqn:Hix;
    [| discriminate].
  pose proof (inv_index_ok _ Hinv _ _ (sdict_get_In _ _ _ Hix)) as Hok.
  split.
  - intros r1 r2 row1 row2 H1 H2 Hne Hn.
    destruct (py_eq (row_get row1 (name col)) (row_get row2 (name col))) eqn:E;
      [| reflexivity].
    exfalso. apply Hne.
    apply (length_le_1_eq (Index.search ix (row_get row2 (name col))));
      [apply (ix_single _ _ _ Hok) | |]; apply (ix_reflects _ _ _ Hok).
    + exists row1. auto.
    + exists row2. split; [exact H2 |]. split.
      * now rewrite <- (py_eq_is_none _ _ E).
      * rewrite py_eq_sym in E. exact (py_eq_trans _ _ _ E (eq_trans (py_eq_sym _ _) E)).
  - exists ix. split; [reflexivity |].
    split; [apply (ix_entries _ _ _ Hok) | apply (ix_single _ _ _ Hok)].
Qed.

(** The theorem at the [email] column of the demonstration database. *)
Lemma unique_columns_stay_unique_witness :
  reachable demo
  /\ dict_get String.eqb "users" (tables demo) = Some demo_users
  /\ In (mkColumn "email" TEXT false true) (schema demo_users)
  /\ (forall r1 r2 row1 row2,
        dict_get Z.eqb r1 (rows demo_users) = Some row1 ->
        dict_get Z.eqb r2 (rows demo_users) = Some row2 ->
        r1 <> r2 ->
        is_none (row_get row1 "email") = false ->
        py_eq (row_get row1 "email") (row_get row2 "email") = false).
Proof.
  assert (H1 : dict_get String.eqb "users" (tables demo) = Some demo_users)
    by (vm_compute; reflexivity).
  assert (H2 : In (mkColumn "email" TEXT false true) (schema demo_users))
    by (simpl; auto).
  split; [exact demo_reachable |]. split; [exact H1 |]. split; [exact H2 |].
  exact (proj1 (unique_columns_stay_unique demo "users" demo_users
                  (mkColumn "email" TEXT false true) demo_reachable H1 H2 eq_refl)).
Defined.

(** ** C5: primary keys are not null *)

(** The check raises nothing but the two constraint errors when every
    unique or primary column has its index. *)
Lemma check_columns_error_kind (columns : list Column) (ixs : dict string Index.t)
      (row : Row) (ex : option Z) (e : exn) :
  (forall col, In col columns -> indexed col = true ->
               dict_mem String.eqb (name col) ixs = true) ->
  check_columns columns ixs row ex = Some e ->
  (exists col, In col columns /\ is_primary col = true
               /\ is_none (row_get row (name col)) = true
               /\ e = ValueError (NullPrimaryKey (name col)))
  \/ (exists c v, e = ValueError (DuplicateValue c v)).
Proof.
  induction columns as [| c0 columns IH]; simpl; intros Hix; [discriminate |].
  assert (IH' : check_columns columns ixs row ex = Some e ->
                (exists col, (c0 = col \/ In col columns) /\ is_primary col = true
                             /\ is_none (row_get row (name col)) = true
                             /\ e = ValueError (NullPrimaryKey (name col)))
                \/ (exists c v, e = ValueError (DuplicateValue c v))).
  { intros H. destruct (IH (fun col Hin => Hix col (or_intror Hin)) H)
      as [(col & Hin & Hrest) | Hd]; [left; exists col; auto | now right]. }
  destruct (is_primary c0 && is_none (row_get row (name c0))) eqn:E0.
  { intros [= <-]. apply andb_prop in E0. left. exists c0. tauto. }
  destruct ((is_primary c0 || is_unique c0) && negb (is_none (row_get row (name c0))))
    eqn:E; [| exact IH'].
  apply andb_prop in E. destruct E as [E _].
  specialize (Hix c0 (or_introl eq_refl) E). unfold dict_mem in Hix.
  destruct (dict_get String.eqb (name c0) ixs) as [ix |]; [| discriminate].
  destruct (Index.has_value ix _); [| exact IH'].
  destruct (nonempty _); [| exact IH']. intros [= <-]. right. eauto.
Qed.

Lemma insert_check_raises (s : QueryExecutor) (table_name : string) (t : Table)
      (query_columns : option (list string)) (values : list value) (row : Row) (e : exn) :
  dict_get String.eqb table_name (tables s) = Some t ->
  assemble_row t query_columns values = Ok row ->
  _check_constraints t row None = Some e ->
  _execute_insert s table_name query_columns values = (s, Raise e).
Proof.
  intros Ht Hrow Hchk. unfold _execute_insert. now rewrite Ht, Hrow, Hchk.
Qed.

Lemma update_check_raises (t : Table) (set_ : dict string value) (r : Z)
      (row row' : Row) (e : exn) :
  dict_get Z.eqb r (rows t) = Some row ->
  apply_set (schema t) set_ row = Ok row' ->
  _check_constraints t row' (Some r) = Some e ->
  update_row t set_ r = (t, Some e).
Proof.
  intros Hg Ha Hchk. unfold update_row. now rewrite Hg, Ha, Hchk.
Qed.

(** C5 (as amended).  In every reachable state (restarts of the engine
    included) and for every column marked primary: no stored row holds null
    in it.  A row with null in it fails the constraint check at the first
    column of the schema that fails, which is this column or one before it:
    with this column's null-primary-key error when no earlier column fails,
    and otherwise with that earlier column's own error, the null-primary-key
    error when it is primary and null in the row, the duplicate-value error
    when another row holds the row's value in it.  An Insert whose assembled
    row has null in the column raises that error and leaves the state as it
    was.  An Update that selects a row whose tentative row has null in the
    column raises in its first iteration: the tentative row of the first
    selected row has null in the column too, the statement raises the error
    of the constraint check of that row and leaves the state as it was. *)
Theorem primary_key_never_null (s : QueryExecutor) (table_name : string)
        (t : Table) (col : Column) :
  reachable s ->
  dict_get String.eqb table_name (tables s) = Some t ->
  In col (schema t) ->
  is_primary col = true ->
  (forall r row, dict_get Z.eqb r (rows t) = Some row ->
                 is_none (row_get row (name col)) = false)
  /\ (forall row ex, is_none (row_get row (name col)) = true ->
        (exists pre c0 post e,
            schema t = (pre ++ c0 :: post)%list
            /\ ~ In col pre
            /\ check_columns pre (indexes t) row ex = None
            /\ _check_constraints t row ex = Some e
            /\ ((is_primary c0 = true /\ is_none (row_get row (name c0)) = true
                 /\ e = ValueError (NullPrimaryKey (name c0)))
                \/ (indexed c0 = true /\ is_none (row_get row (name c0)) = false
                    /\ e = ValueError (DuplicateValue (name c0) (row_get row (name c0)))
                    /\ exists r', Some r' <> ex
                                  /\ holds (rows t) (name c0) r' (row_get row (name c0))))
            /\ (c0 = col -> e = ValueError (NullPrimaryKey (name col))))
        /\ (forall pre post, schema t = (pre ++ col :: post)%list ->
              check_columns pre (indexes t) row ex = None ->
              _check_constraints t row ex
              = Some (ValueError (NullPrimaryKey (name col)))))
  /\ (forall query_columns values row,
        assemble_row t query_columns values = Ok row ->
        is_none (row_get row (name col)) = true ->
        exists e, _check_constraints t row None = Some e
                  /\ execute s (INSERT table_name query_columns values) = (s, Raise e))
  /\ (forall set_ where_ r row row',
        In r (dict_keys (_apply_where_clause t (rows t) where_)) ->
        dict_get Z.eqb r (rows t) = Some row ->
        apply_set (schema t) set_ row = Ok row' ->
        is_none (row_get row' (name col)) = true ->
        exists r1 rest row1 row1' e,
          dict_keys (_apply_where_clause t (rows t) where_) = r1 :: rest
          /\ dict_get Z.eqb r1 (rows t) = Some row1
          /\ apply_set (schema t) set_ row1 = Ok row1'
          /\ is_none (row_get row1' (name col)) = true
          /\ _check_constraints t row1' (Some r1) = Some e
          /\ update_row t set_ r1 = (t, Some e)
          /\ execute s (UPDATE table_name set_ where_) = (s, Raise e)).
Proof.
  intros Hr Ht Hcol Hp.
  pose proof (reachable_inv s Hr _ _ Ht) as Hinv.
  assert (Hfail : forall row ex, is_none (row_get row (name col)) = true ->
                    exists e, _check_constraints t row ex = Some e).
  { intros row ex Hn. destruct (_check_constraints t row ex) as [e |] eqn:E; [eauto |].
    destruct (check_columns_none _ _ _ _ E col Hcol) as [H _].
    rewrite (H Hp) in Hn. discriminate. }
  split; [| split; [| split]].
  - intros r row Hg. eapply inv_primary; eauto.
  - intros row ex Hn. split.
    + destruct (Hfail row ex Hn) as (e & He).
      destruct (check_columns_first _ _ _ _ _ (inv_col_index _ Hinv) He)
        as (pre & c0 & post & Hs & Hpre & Hkind).
      exists pre, c0, post, e. split; [exact Hs |]. split.
      { intros Hin. destruct (check_columns_none _ _ _ _ Hpre col Hin) as [H _].
        rewrite (H Hp) in Hn. discriminate. }
      split; [exact Hpre |]. split; [exact He |]. split.
      * destruct Hkind as [H | (Hi & Hn0 & -> & ix & Hix & Hne)]; [now left | right].
        split; [exact Hi |]. split; [exact Hn0 |]. split; [reflexivity |].
        exact (duplicate_is_held t _ ix _ ex Hinv Hix Hne).
      * intros ->. destruct Hkind as [(_ & _ & ->) | (_ & Hn0 & _)];
          [reflexivity | congruence].
    + intros pre post Hs Hpre. unfold _check_constraints.
      rewrite Hs, check_columns_app, Hpre. simpl. now rewrite Hp, Hn.
  - intros qc values row Hrow Hn. destruct (Hfail row None Hn) as (e & He).
    exists e. split; [exact He |]. cbn [execute].
    now apply (insert_check_raises _ _ t _ _ row).
  - intros set_ where_ r row row' Hin Hg Ha Hn.
    destruct (where_clause_ids t where_ Hinv) as [_ Hstored].
    destruct (dict_keys (_apply_where_clause t (rows t) where_)) as [| r1 rest] eqn:Hids;
      [contradiction |].
    destruct (Hstored r1 (or_introl eq_refl)) as (row1 & Hg1).
    destruct (apply_set_ok_any _ _ _ row1 _ Ha) as (row1' & Ha1 & Hsame).
    assert (Hn1 : is_none (row_get row1' (name col)) = true).
    { destruct (dict_get String.eqb (name col) set_) as [w |] eqn:Hset.
      - rewrite Hsame; [exact Hn |]. unfold dict_mem. now rewrite Hset.
      - exfalso. rewrite (apply_set_other _ _ _ _ _ Hset Ha) in Hn.
        rewrite (inv_primary _ Hinv r row col Hg Hcol Hp) in Hn. discriminate. }
    destruct (Hfail row1' (Some r1) Hn1) as (e & He).
    pose proof (update_check_raises _ _ _ _ _ _ Hg1 Ha1 He) as Hu.
    exists r1, rest, row1, row1', e. repeat (split; [first [reflexivity | assumption] |]).
    cbn [execute]. rewrite (execute_update_cases _ _ _ _ _ Ht), Hids.
    cbn [update_loop]. rewrite Hu. now rewrite (set_table_same _ _ _ Ht).
Qed.

Lemma fold_execute_reachable (qs : list Query) (s : QueryExecutor) :
  reachable s -> reachable (fold_left (fun s q => fst (execute s q)) qs s).
Proof.
  revert s. induction qs as [| q qs IH]; simpl; intros s Hr; [exact Hr |].
  apply IH. now apply reach_execute.
Qed.

Lemma keyed_reachable : reachable keyed.
Proof. apply fold_execute_reachable, reach_fresh. Qed.

(** C5 as stated fails: the assembled row [(u, p) = (1, NULL)] has null in
    the primary-key column [p], and the Insert raises the duplicate-value
    error of the earlier column [u], not a null-primary-key error. *)
Lemma null_primary_key_reported_as_duplicate :
  dict_get String.eqb "t" (tables keyed) = Some keyed_table
  /\ In (mkColumn "p" INT true true) (schema keyed_table)
  /\ assemble_row keyed_table None [VInt 1; VNone] = Ok [("u", VInt 1); ("p", VNone)]
  /\ execute keyed (INSERT "t" None [VInt 1; VNone])
     = (keyed, Raise (ValueError (DuplicateValue "u" (VInt 1)))).
Proof. vm_compute. repeat split; auto. Qed.

(** The theorem at the primary-key column of that table: no stored row has
    null in it, and the Update that sets it to null raises its
    null-primary-key error. *)
Lemma primary_key_never_null_witness :
  reachable keyed
  /\ dict_get String.eqb "t" (tables keyed) = Some keyed_table
  /\ In (mkColumn "p" INT true true) (schema keyed_table)
  /\ (forall r row, dict_get Z.eqb r (rows keyed_table) = Some row ->
                    is_none (row_get row "p") = false)
  /\ execute keyed (UPDATE "t" [("p", VNone)] None)
     = (keyed, Raise (ValueError (NullPrimaryKey "p"))).
Proof.
  assert (H1 : dict_get String.eqb "t" (tables keyed) = Some keyed_table)
    by (vm_compute; reflexivity).
  assert (H2 : In (mkColumn "p" INT true true) (schema keyed_table))
    by (simpl; auto).
  split; [exact keyed_reachable |]. split; [exact H1 |]. split; [exact H2 |].
  destruct (primary_key_never_null keyed "t" keyed_table
              (mkColumn "p" INT true true) keyed_reachable H1 H2 eq_refl)
    as (Hrows & _ & _ & Hupdate).
  split; [exact Hrows |].
  destruct (Hupdate [("p", VNone)] None 1 [("u", VInt 1); ("p", VInt 1)]
              [("u", VInt 1); ("p", VNone)])
    as (r1 & rest & row1 & row1' & e & Hids & Hg1 & Ha1 & _ & Hchk & _ & Hex);
    [vm_compute; auto | reflexivity | reflexivity | reflexivity |].
  rewrite Hex. do 2 f_equal.
  injection Hids as <- _. vm_compute in Hg1. injection Hg1 as <-.
  vm_compute in Ha1. injection Ha1 as <-. vm_compute in Hchk. now injection Hchk as <-.
Defined.

(** ** C7: an update to a value another row holds *)

(** The constraint check refuses a row that would repeat, in a unique or
    primary column, the non-null value of another row. *)
Lemma duplicate_fails_check (t : Table) (col : Column) (r r' : Z) (held row' : Row) :
  table_inv t -> In col (schema t) -> indexed col = true ->
  dict_get Z.eqb r' (rows t) = Some held -> r <> r' ->
  is_none (row_get row' (name col)) = false ->
  py_eq (row_get held (name col)) (row_get row' (name col)) = true ->
  exists e, _check_constraints t row' (Some r) = Some e
            /\ ((forall c, In c (schema t) -> is_primary c = true ->
                           is_none (row_get row' (name c)) = false) ->
                exists c w, e = ValueError (DuplicateValue c w)).
Proof.
  intros Hinv Hcol Hi Hg Hne Hn He.
  destruct (_check_constraints t row' (Some r)) as [e |] eqn:Hchk.
  - exists e. split; [reflexivity |]. intros Hpk.
    destruct (check_columns_error_kind _ _ _ _ _ (inv_col_index _ Hinv) Hchk)
      as [(c & Hc & Hp & Hnull & _) | Hd]; [| exact Hd].
    rewrite (Hpk c Hc Hp) in Hnull. discriminate.
  - exfalso. destruct (check_columns_none _ _ _ _ Hchk col Hcol) as [_ H].
    destruct (H Hi Hn) as (ix & Hix & Hex). simpl in Hex.
    pose proof (inv_index_ok _ Hinv _ _ (sdict_get_In _ _ _ Hix)) as Hok.
    assert (Hin : In r' (set_discard r (Index.search ix (row_get row' (name col))))).
    { apply In_set_discard. split; [| congruence].
      apply (ix_reflects _ _ _ Hok). exists held. split; [exact Hg |].
      split; [| exact He]. now rewrite (py_eq_is_none _ _ He). }
    rewrite Hex in Hin. exact Hin.
Qed.

(** Through the update loop: as long as row [r'] holds [v] in the unique
    column, only [r'] itself can be committed.  A loop that has [r] among
    its targets therefore raises in its first iteration, or in its second
    when the first is that of [r'] and commits. *)
Lemma update_loop_duplicate (set_ : dict string value) (col : Column) (v : value)
      (r r' : Z) (row held : Row) (ids : list Z) (t : Table) (n : Z) :
  dict_wf String.eqb set_ ->
  dict_get String.eqb (name col) set_ = Some v -> is_none v = false ->
  indexed col = true -> r <> r' ->
  table_inv t -> In col (schema t) ->
  dict_get Z.eqb r (rows t) = Some row ->
  dict_get Z.eqb r' (rows t) = Some held ->
  py_eq (row_get held (name col)) v = true ->
  NoDup ids ->
  (forall k, In k ids -> exists rowk, dict_get Z.eqb k (rows t) = Some rowk) ->
  In r ids ->
  exists t' n' e row_id rest rowf,
    update_loop t set_ ids n = (t', n', Some e)
    /\ ((ids = row_id :: rest /\ t' = t)
        \/ exists held',
             ids = r' :: row_id :: rest
             /\ apply_set (schema t) set_ held = Ok held'
             /\ _check_constraints t held' (Some r') = None
             /\ t' = updated_table t r' held held')
    /\ update_row t' set_ row_id = (t', Some e)
    /\ table_inv t'
    /\ dict_get Z.eqb row_id (rows t') = Some rowf.
Proof.
  intros Hw Hset Hv Hi Hne Hinv Hcol Hg Hg' Hheld Hnd Hst Hin.
  destruct ids as [| r1 rest]; [contradiction |].
  destruct (Hst r1 (or_introl eq_refl)) as (row1 & Hg1).
  pose proof (update_row_cases t set_ r1 row1 Hinv Hg1) as Hc.
  destruct (apply_set (schema t) set_ row1) as [row1' | e1] eqn:Ha1.
  2:{ exists t, n, e1, r1, rest, row1. cbn [update_loop]. rewrite Hc. auto 6. }
  destruct (_check_constraints t row1' (Some r1)) as [e1 |] eqn:Hchk1.
  { exists t, n, e1, r1, rest, row1. cbn [update_loop]. rewrite Hc. auto 6. }
  pose proof (apply_set_get _ _ _ _ _ _ Hw Hset Ha1) as Hval1.
  assert (Hr1 : r1 = r').
  { destruct (Z.eq_dec r1 r') as [E | E]; [exact E | exfalso].
    destruct (duplicate_fails_check t col r1 r' held row1' Hinv Hcol Hi Hg' E)
      as (e & He & _); [now rewrite Hval1 | now rewrite Hval1 |]. congruence. }
  subst r1. rewrite Hg' in Hg1. injection Hg1 as <-.
  apply NoDup_cons_iff in Hnd. destruct Hnd as [Hnotin Hnd'].
  assert (Hin' : In r rest) by (destruct Hin; [congruence | assumption]).
  destruct rest as [| r2 rest2]; [contradiction |].
  assert (Hne2 : r2 <> r') by (intros ->; apply Hnotin; now left).
  set (t1 := updated_table t r' held row1') in *.
  assert (Hinv1 : table_inv t1).
  { apply updated_table_inv; auto.
    apply (apply_set_wf _ _ _ _ Ha1). eapply inv_row_wf; eauto. }
  destruct (Hst r2 (or_intror (or_introl eq_refl))) as (row2 & Hg2).
  assert (Hg2' : dict_get Z.eqb r2 (rows t1) = Some row2).
  { unfold t1. simpl. rewrite zget_set.
    destruct (Z.eqb_spec r' r2); [congruence | exact Hg2]. }
  assert (Hh1 : dict_get Z.eqb r' (rows t1) = Some row1').
  { unfold t1. simpl. now rewrite zget_set, Z.eqb_refl. }
  pose proof (update_row_cases t1 set_ r2 row2 Hinv1 Hg2') as Hc2.
  assert (Hfail : exists e, update_row t1 set_ r2 = (t1, Some e)).
  { destruct (apply_set (schema t1) set_ row2) as [row2' | e2] eqn:Ha2; [| eauto].
    destruct (_check_constraints t1 row2' (Some r2)) as [e2 |] eqn:Hchk2; [eauto |].
    exfalso.
    pose proof (apply_set_get _ _ _ _ _ _ Hw Hset Ha2) as Hval2.
    destruct (duplicate_fails_check t1 col r2 r' row1' row2' Hinv1 Hcol Hi Hh1 Hne2)
      as (e & He & _); [now rewrite Hval2 | | congruence].
    rewrite Hval1, Hval2. exact (py_eq_refl_r _ _ Hheld). }
  destruct Hfail as (e & He).
  exists t1, (n + 1), e, r2, rest2, row2. cbn [update_loop]. rewrite Hc, He.
  split; [reflexivity |]. split; [| auto].
  right. exists row1'. auto.
Qed.

(** C7 (as amended).  In a reachable state, let SET assign to a unique or
    primary column a non-null value [v] that row [r'] holds, and let [r] be
    another stored row.  The loop iteration for [r] raises and leaves the
    table (rows and indexes) exactly as it was.  Hence an Update with [r]
    among its targets raises: in the iteration of the first selected row, or
    in that of the second when the first is [r'] itself and is committed; the
    iteration that raises leaves the table as it found it, [r] and every row
    other than [r'] keep their prior rows, and [r'] still holds [v].  The
    exception is that of a SET assignment: unknown column, value not of the
    column's type, null given to a primary-key column, or a value given to a
    unique or primary column; it is the duplicate-value error of the column
    and [v] whenever the SET loop builds the tentative row and assigns no
    unique or primary column of another name.  (When the SET loop built the
    tentative row of [r] and that row has no null primary key, the exception
    of the iteration for [r] is a duplicate-value error.) *)
Theorem duplicate_update_rejected (s : QueryExecutor) (table_name : string)
        (t : Table) (col : Column) (set_ : dict string value) (v : value)
        (r r' : Z) (row held : Row) :
  reachable s ->
  dict_get String.eqb table_name (tables s) = Some t ->
  In col (schema t) ->
  is_unique col || is_primary col = true ->
  dict_wf String.eqb set_ ->
  dict_get String.eqb (name col) set_ = Some v ->
  is_none v = false ->
  dict_get Z.eqb r (rows t) = Some row ->
  dict_get Z.eqb r' (rows t) = Some held ->
  r <> r' ->
  py_eq (row_get held (name col)) v = true ->
  (exists e,
      update_row t set_ r = (t, Some e)
      /\ set_error (schema t) set_ e
      /\ (forall row', apply_set (schema t) set_ row = Ok row' ->
            (forall c, In c (schema t) -> is_primary c = true ->
                       is_none (row_get row' (name c)) = false) ->
            exists c w, e = ValueError (DuplicateValue c w))
      /\ ((exists row', apply_set (schema t) set_ row = Ok row') ->
          (forall c0, In c0 (schema t) -> indexed c0 = true -> name c0 <> name col ->
                      dict_get String.eqb (name c0) set_ = None) ->
          e = ValueError (DuplicateValue (name col) v)))
  /\ forall where_,
       In r (dict_keys (_apply_where_clause t (rows t) where_)) ->
       exists t' e,
         execute s (UPDATE table_name set_ where_) = (set_table s table_name t', Raise e)
         /\ (exists row_id rest,
               ((dict_keys (_apply_where_clause t (rows t) where_) = row_id :: rest
                 /\ t' = t)
                \/ exists held',
                     dict_keys (_apply_where_clause t (rows t) where_)
                     = r' :: row_id :: rest
                     /\ apply_set (schema t) set_ held = Ok held'
                     /\ _check_constraints t held' (Some r') = None
                     /\ t' = updated_table t r' held held')
               /\ update_row t' set_ row_id = (t', Some e))
         /\ dict_get Z.eqb r (rows t') = Some row
         /\ (forall k, k <> r' -> dict_get Z.eqb k (rows t') = dict_get Z.eqb k (rows t))
         /\ (exists held', dict_get Z.eqb r' (rows t') = Some held'
                           /\ py_eq (row_get held' (name col)) v = true)
         /\ set_error (schema t) set_ e
         /\ ((exists row', apply_set (schema t) set_ row = Ok row') ->
             (forall c0, In c0 (schema t) -> indexed c0 = true -> name c0 <> name col ->
                         dict_get String.eqb (name c0) set_ = None) ->
             e = ValueError (DuplicateValue (name col) v)).
Proof.
  intros Hr Ht Hcol Hu Hw Hset Hv Hg Hg' Hne Hheld.
  pose proof (reachable_inv s Hr _ _ Ht) as Hinv.
  assert (Hi : indexed col = true) by (unfold indexed; now rewrite orb_comm).
  split.
  - assert (He : exists e, update_row t set_ r = (t, Some e)).
    { rewrite (update_row_cases _ _ _ _ Hinv Hg).
      destruct (apply_set (schema t) set_ row) as [row' | e] eqn:Ha; [| eauto].
      destruct (_check_constraints t row' (Some r)) as [e |] eqn:Hchk; [eauto |].
      exfalso.
      pose proof (apply_set_get _ _ _ _ _ _ Hw Hset Ha) as Hval.
      destruct (duplicate_fails_check t col r r' held row' Hinv Hcol Hi Hg' Hne)
        as (e' & He' & _); [now rewrite Hval | now rewrite Hval |]. congruence. }
    destruct He as (e & He). exists e. split; [exact He |].
    split; [exact (update_row_set_error _ _ _ _ _ _ Hinv Hw Hg He) |]. split.
    + intros row' Ha Hpk.
      pose proof (apply_set_get _ _ _ _ _ _ Hw Hset Ha) as Hval.
      destruct (duplicate_fails_check t col r r' held row' Hinv Hcol Hi Hg' Hne)
        as (e' & He' & Hkind); [now rewrite Hval | now rewrite Hval |].
      rewrite (update_check_raises _ _ _ _ _ _ Hg Ha He') in He.
      injection He as <-. now apply Hkind.
    + intros Hok Honly.
      exact (update_row_only_duplicate _ _ _ _ _ _ _ _ Hinv Hw Hg Hset Hv Hok Honly He).
  - intros where_ Hin.
    destruct (where_clause_ids t where_ Hinv) as [Hnd Hst].
    destruct (update_loop_duplicate set_ col v r r' row held _ t 0
                Hw Hset Hv Hi Hne Hinv Hcol Hg Hg' Hheld Hnd Hst Hin)
      as (t' & n' & e & rf & rest & rowf & Hl & Hshape & Hrf & Hinv' & Hgf).
    assert (Hfacts : schema t' = schema t
                     /\ dict_get Z.eqb r (rows t') = Some row
                     /\ (forall k, k <> r' ->
                                   dict_get Z.eqb k (rows t') = dict_get Z.eqb k (rows t))
                     /\ exists held', dict_get Z.eqb r' (rows t') = Some held'
                                      /\ py_eq (row_get held' (name col)) v = true).
    { destruct Hshape as [[_ ->] | (held' & _ & Ha' & _ & ->)].
      - split; [reflexivity |]. split; [exact Hg |]. split; [reflexivity |]. eauto.
      - split; [reflexivity |]. simpl. split; [| split].
        + rewrite zget_set. destruct (Z.eqb_spec r' r); [congruence | exact Hg].
        + intros k Hk. rewrite zget_set.
          destruct (Z.eqb_spec r' k); [congruence | reflexivity].
        + exists held'. rewrite zget_set, Z.eqb_refl. split; [reflexivity |].
          rewrite (apply_set_get _ _ _ _ _ _ Hw Hset Ha').
          exact (py_eq_refl_r _ _ Hheld). }
    destruct Hfacts as (Hsch & Hrow & Hother & Hholder).
    exists t', e. split.
    { cbn [execute]. now rewrite (execute_update_cases _ _ _ _ _ Ht), Hl. }
    split; [exists rf, rest; auto |]. split; [exact Hrow |]. split; [exact Hother |].
    split; [exact Hholder |]. split.
    + rewrite <- Hsch. exact (update_row_set_error _ _ _ _ _ _ Hinv' Hw Hgf Hrf).
    + intros (row0' & Ha0) Honly.
      apply (update_row_only_duplicate t' t' set_ rf rowf e (name col) v Hinv' Hw Hgf
               Hset Hv); [| rewrite Hsch; exact Honly | exact Hrf].
      rewrite Hsch. destruct (apply_set_ok_any _ _ _ rowf _ Ha0) as (rowf' & Haf & _).
      eauto.
Qed.

(** C7 as stated fails on the error kind: the SET below assigns [email] the
    value row 1 holds while updating row 2, and the statement raises the
    unknown-column error of its second assignment, leaving both rows as they
    were. *)
Lemma duplicate_update_other_error :
  dict_get Z.eqb 1 (rows demo_users)
    = Some [("id", VInt 1); ("name", VStr "Alice"); ("email", VStr "a@x.com")]
  /\ dict_keys (_apply_where_clause demo_users (rows demo_users)
                  (Some [mkCondition "id" "=" (VInt 2)])) = [2]
  /\ QueryParser.parse "UPDATE users SET email = 'a@x.com', nosuch = 1 WHERE id = 2"
     = Ok (UPDATE "users" [("email", VStr "a@x.com"); ("nosuch", VInt 1)]
                  (Some [mkCondition "id" "=" (VInt 2)]))
  /\ DatabaseEngine.execute demo
       "UPDATE users SET email = 'a@x.com', nosuch = 1 WHERE id = 2"
     = (demo, Raise (ValueError (NoSuchColumn "nosuch"))).
Proof. vm_compute. repeat split; reflexivity. Qed.

(** The theorem at the demonstration database: row 2 set to row 1's email;
    the statement raises the duplicate-value error of [email]. *)
Lemma duplicate_update_rejected_witness :
  reachable demo
  /\ dict_get String.eqb "users" (tables demo) = Some demo_users
  /\ exists t',
       execute demo (UPDATE "users" [("email", VStr "a@x.com")]
                            (Some [mkCondition "id" "=" (VInt 2)]))
       = (set_table demo "users" t',
          Raise (ValueError (DuplicateValue "email" (VStr "a@x.com"))))
       /\ dict_get Z.eqb 2 (rows t')
          = Some [("id", VInt 2); ("name", VStr "Bob"); ("email", VStr "b@x.com")].
Proof.
  assert (H1 : dict_get String.eqb "users" (tables demo) = Some demo_users)
    by (vm_compute; reflexivity).
  split; [exact demo_reachable |]. split; [exact H1 |].
  assert (H2 : In (mkColumn "email" TEXT false true) (schema demo_users))
    by (simpl; auto).
  assert (H3 : dict_wf String.eqb [("email", VStr "a@x.com")])
    by (simpl; auto).
  assert (H4 : 2 <> 1) by discriminate.
  destruct (proj2 (duplicate_update_rejected demo "users" demo_users
                     (mkColumn "email" TEXT false true) [("email", VStr "a@x.com")]
                     (VStr "a@x.com") 2 1
                     [("id", VInt 2); ("name", VStr "Bob"); ("email", VStr "b@x.com")]
                     [("id", VInt 1); ("name", VStr "Alice"); ("email", VStr "a@x.com")]
                     demo_reachable H1 H2 eq_refl H3 eq_refl eq_refl eq_refl eq_refl
                     H4 eq_refl)
                  (Some [mkCondition "id" "=" (VInt 2)]))
    as (t' & e & Hex & _ & Hrow & _ & _ & _ & Hdup).
  - vm_compute. auto.
  - exists t'. split; [| exact Hrow]. rewrite Hex. do 3 f_equal.
    apply Hdup.
    + eexists. reflexivity.
    + intros c0 [<- | [<- | [<- | []]]] Hi Hn;
        [discriminate Hi | discriminate Hi | now destruct Hn].
Defined.

(** ** C4: index lookup against full scan *)

Lemma filter_single_key {V} (P : Z * V -> bool) (d : dict Z V) (r : Z) (x : V) :
  dict_wf Z.eqb d -> dict_get Z.eqb r d = Some x -> P (r, x) = true ->
  (forall k y, In (k, y) d -> P (k, y) = true -> k = r) ->
  filter P d = [(r, x)].
Proof.
  induction d as [| [k y] d IH]; simpl; intros Hw Hg HP Huniq; [discriminate |].
  destruct Hw as [Hn Hw]. destruct (Z.eqb_spec k r) as [-> | Hne].
  - injection Hg as ->. rewrite HP. f_equal.
    assert (H : forall it, In it d -> P it = false).
    { intros [k' y'] Hin. destruct (P (k', y')) eqn:E; [| reflexivity].
      assert (k' = r) by (apply (Huniq k' y'); auto). subst k'.
      rewrite (zdict_In_get _ _ _ Hw Hin) in Hn. discriminate. }
    clear -H. induction d as [| it d IH]; simpl; [reflexivity |].
    rewrite (H it (or_introl eq_refl)). apply IH. intros it' Hin. apply H. now right.
  - destruct (P (k, y)) eqn:E.
    + exfalso. apply Hne. apply (Huniq k y); auto.
    + apply IH; auto. intros k' y' Hin. apply Huniq. now right.
Qed.

Lemma filter_none {A} (P : A -> bool) (l : list A) :
  (forall x, In x l -> P x = false) -> filter P l = [].
Proof.
  induction l as [| a l IH]; simpl; intros H; [reflexivity |].
  rewrite (H a (or_introl eq_refl)). apply IH. intros x Hx. apply H. now right.
Qed.

(** With a unique index that reflects the rows, the rows having a given
    non-null value in the column are exactly the rows the index names. *)
Lemma scan_matches_index (c : string) (ix : Index.t) (rows : Rows) (v : value) :
  index_ok c ix rows -> dict_wf Z.eqb rows -> is_none v = false ->
  filter (fun item => py_eq (row_get (snd item) c) v) rows
  = rows_of_ids rows (Index.search ix v) [].
Proof.
  intros Hok Hw Hv.
  assert (Hscan : forall k y, In (k, y) rows -> py_eq (row_get y c) v = true ->
                              In k (Index.search ix v)).
  { intros k y Hin He. apply (ix_reflects _ _ _ Hok). exists y.
    split; [now apply zdict_In_get |]. split; [| exact He].
    now rewrite (py_eq_is_none _ _ He). }
  pose proof (ix_single _ _ _ Hok v) as Hlen.
  destruct (Index.search ix v) as [| r [| r2 l]] eqn:Hs; simpl in *; [| | lia].
  - apply filter_none. intros [k y] Hin. simpl.
    destruct (py_eq (row_get y c) v) eqn:E; [| reflexivity].
    destruct (Hscan k y Hin E).
  - assert (Hin : In r (Index.search ix v)) by (rewrite Hs; now left).
    apply (ix_reflects _ _ _ Hok) in Hin. destruct Hin as (row & Hg & _ & He).
    rewrite Hg. simpl. apply filter_single_key; auto.
    intros k y Hin HP. simpl in HP. destruct (Hscan k y Hin HP) as [<- | []]. reflexivity.
Qed.

Lemma search_none (c : string) (ix : Index.t) (rows : Rows) :
  index_ok c ix rows -> Index.search ix VNone = [].
Proof.
  intros Hok. apply In_nil_eq. intros r Hin.
  apply (ix_reflects _ _ _ Hok) in Hin. destruct Hin as (row & _ & Hn & He).
  rewrite py_eq_none_r in He. congruence.
Qed.

(** C4 (as amended).  In a reachable state, for a condition list made of
    one equality condition on an indexed column: when the condition value is
    not null, the index-lookup path yields exactly the rows (in the same
    order) the full scan with that condition yields; when it is null, the
    index-lookup path yields no row (nulls are not indexed), whatever the
    full scan would find. *)
Theorem index_lookup_equals_full_scan (s : QueryExecutor) (table_name : string)
        (t : Table) (cond : Condition) :
  reachable s ->
  dict_get String.eqb table_name (tables s) = Some t ->
  cond_operator cond = "=" ->
  dict_mem String.eqb (cond_column cond) (indexes t) = true ->
  (is_none (cond_value cond) = false ->
   _apply_where_clause t (rows t) (Some [cond]) = full_scan (rows t) [cond])
  /\ (is_none (cond_value cond) = true ->
      _apply_where_clause t (rows t) (Some [cond]) = []).
Proof.
  intros Hr Ht Hop Hmem.
  pose proof (reachable_inv s Hr _ _ Ht) as Hinv.
  unfold dict_mem in Hmem.
  destruct (dict_get String.eqb (cond_column cond) (indexes t)) as [ix |] eqn:Hix;
    [| discriminate].
  pose proof (inv_index_ok _ Hinv _ _ (sdict_get_In _ _ _ Hix)) as Hok.
  assert (Hpath : _apply_where_clause t (rows t) (Some [cond])
                  = rows_of_ids (rows t) (Index.search ix (cond_value cond)) []).
  { unfold _apply_where_clause. simpl. now rewrite Hop, Hix. }
  split; intros Hv.
  - rewrite Hpath, <- (scan_matches_index _ _ _ _ Hok (inv_rows_wf _ Hinv) Hv).
    unfold full_scan. apply filter_ext. intros [k y]. simpl. rewrite Hop. simpl.
    unfold py_ne. destruct (py_eq _ _); reflexivity.
  - rewrite Hpath. destruct (cond_value cond); try discriminate.
    now rewrite (search_none _ _ _ Hok).
Qed.

(** C4 as stated fails for the condition value NULL: on the indexed column
    [email] the index-lookup path of [WHERE email = NULL] yields no row,
    while a full scan with the same condition yields row 2. *)
Lemma null_lookup_differs_from_full_scan :
  dict_get String.eqb "users" (tables nulls) = Some nulls_users
  /\ dict_mem String.eqb "email" (indexes nulls_users) = true
  /\ QueryParser._parse_where_clause "email = NULL"
     = Ok [mkCondition "email" "=" VNone]
  /\ _apply_where_clause nulls_users (rows nulls_users)
       (Some [mkCondition "email" "=" VNone]) = []
  /\ full_scan (rows nulls_users) [mkCondition "email" "=" VNone]
     = [(2, [("id", VInt 2); ("email", VNone)])]
  /\ snd (DatabaseEngine.execute nulls "SELECT * FROM users WHERE email = NULL")
     = Ok (Selected ["id"; "email"] []).
Proof. vm_compute. repeat split; reflexivity. Qed.

(** The theorem at [WHERE email = 'b@x.com'] on the demonstration database. *)
Lemma index_lookup_equals_full_scan_witness :
  reachable demo
  /\ dict_get String.eqb "users" (tables demo) = Some demo_users
  /\ dict_mem String.eqb "email" (indexes demo_users) = true
  /\ _apply_where_clause demo_users (rows demo_users)
       (Some [mkCondition "email" "=" (VStr "b@x.com")])
     = full_scan (rows demo_users) [mkCondition "email" "=" (VStr "b@x.com")].
Proof.
  assert (H1 : dict_get String.eqb "users" (tables demo) = Some demo_users)
    by (vm_compute; reflexivity).
  split; [exact demo_reachable |]. split; [exact H1 |]. split; [reflexivity |].
  exact (proj1 (index_lookup_equals_full_scan demo "users" demo_users
                  (mkCondition "email" "=" (VStr "b@x.com"))
                  demo_reachable H1 eq_refl eq_refl) eq_refl).
Defined.

(** ** C8: the join *)

Lemma dotted_inj (tbl k1 k2 : string) : dotted tbl k1 = dotted tbl k2 -> k1 = k2.
Proof.
  unfold dotted. induction tbl as [| c tbl IH]; simpl; intros H.
  - now injection H.
  - injection H as H. now apply IH.
Qed.

Lemma get_prefixed_out (tbl key : string) (row acc : Row) :
  (forall k, dict_mem String.eqb k row = true -> key <> dotted tbl k) ->
  dict_get String.eqb key (prefixed tbl row acc) = dict_get String.eqb key acc.
Proof.
  revert acc. induction row as [| [k0 v0] row IH]; simpl; intros acc H; [reflexivity |].
  rewrite IH.
  - rewrite sget_set. destruct (String.eqb_spec (dotted tbl k0) key) as [E | E];
      [| reflexivity].
    exfalso. apply (H k0); [| now symmetry]. unfold dict_mem. simpl.
    now rewrite String.eqb_refl.
  - intros k Hk. apply H. unfold dict_mem in *. simpl.
    destruct (String.eqb k0 k); [reflexivity | exact Hk].
Qed.

Lemma get_prefixed_in (tbl k : string) (v : value) (row acc : Row) :
  dict_wf String.eqb row -> dict_get String.eqb k row = Some v ->
  dict_get String.eqb (dotted tbl k) (prefixed tbl row acc) = Some v.
Proof.
  revert acc. induction row as [| [k0 v0] row IH]; simpl; intros acc Hw Hg;
    [discriminate |].
  destruct Hw as [Hn Hw]. destruct (String.eqb_spec k0 k) as [-> | Hne].
  - injection Hg as ->. rewrite get_prefixed_out.
    + now rewrite sget_set, String.eqb_refl.
    + intros k' Hk' E. apply dotted_inj in E. subst k'.
      unfold dict_mem in Hk'. now rewrite Hn in Hk'.
  - now apply IH.
Qed.

Lemma get_prefixed_some (tbl key : string) (v : value) (row acc : Row) :
  dict_get String.eqb key (prefixed tbl row acc) = Some v ->
  (exists k, key = dotted tbl k /\ dict_mem String.eqb k row = true)
  \/ dict_get String.eqb key acc = Some v.
Proof.
  revert acc. induction row as [| [k0 v0] row IH]; simpl; intros acc H; [now right |].
  destruct (IH _ H) as [(k & -> & Hk) | Hacc].
  - left. exists k. split; [reflexivity |]. unfold dict_mem in *. simpl.
    destruct (String.eqb k0 k); [reflexivity | exact Hk].
  - rewrite sget_set in Hacc.
    destruct (String.eqb_spec (dotted tbl k0) key) as [<- | Hne]; [| now right].
    left. exists k0. split; [reflexivity |]. unfold dict_mem. simpl.
    now rewrite String.eqb_refl.
Qed.

(** The shape of a merged row: every right column under its dotted name
    with the right row's value; every left column under its dotted name,
    with the left row's value unless the key is also a dotted right column
    (a table joined with itself), which the right row's entry replaces; and
    no other key. *)
Lemma merge_rows_shape (ltbl rtbl : string) (lrow rrow : Row) :
  dict_wf String.eqb lrow -> dict_wf String.eqb rrow ->
  let m := merge_rows ltbl lrow rtbl rrow in
  (forall k v, dict_get String.eqb k rrow = Some v ->
               dict_get String.eqb (dotted rtbl k) m = Some v)
  /\ (forall k v, dict_get String.eqb k lrow = Some v ->
        dict_mem String.eqb (dotted ltbl k) m = true
        /\ ((forall k', dict_mem String.eqb k' rrow = true ->
                        dotted ltbl k <> dotted rtbl k') ->
            dict_get String.eqb (dotted ltbl k) m = Some v))
  /\ (forall key, dict_mem String.eqb key m = true ->
        (exists k, key = dotted ltbl k /\ dict_mem String.eqb k lrow = true)
        \/ (exists k, key = dotted rtbl k /\ dict_mem String.eqb k rrow = true)).
Proof.
  intros Hl Hr m. unfold m, merge_rows. split; [| split].
  - intros k v Hg. now apply get_prefixed_in.
  - intros k v Hg.
    assert (Hleft : dict_get String.eqb (dotted ltbl k) (prefixed ltbl lrow []) = Some v)
      by now apply get_prefixed_in.
    split.
    + unfold dict_mem.
      destruct (dict_get String.eqb (dotted ltbl k)
                  (prefixed rtbl rrow (prefixed ltbl lrow []))) eqn:E; [reflexivity |].
      exfalso.
      assert (Hx : forall acc, dict_get String.eqb (dotted ltbl k)
                                 (prefixed rtbl rrow acc) = None ->
                               dict_get String.eqb (dotted ltbl k) acc = None).
      { clear. induction rrow as [| [k0 v0] rrow IH]; simpl; intros acc H; [exact H |].
        specialize (IH _ H). rewrite sget_set in IH.
        destruct (String.eqb (dotted rtbl k0) (dotted ltbl k));
          [discriminate | exact IH]. }
      specialize (Hx _ E). rewrite Hleft in Hx. discriminate.
    + intros Hfree. rewrite get_prefixed_out; [exact Hleft | exact Hfree].
  - intros key Hmem. unfold dict_mem in Hmem.
    destruct (dict_get String.eqb key (prefixed rtbl rrow (prefixed ltbl lrow [])))
      as [v |] eqn:E; [| discriminate].
    destruct (get_prefixed_some _ _ _ _ _ E) as [H | H]; [now right |].
    destruct (get_prefixed_some _ _ _ _ _ H) as [H' | H']; [now left | discriminate].
Qed.

Lemma flat_map_filter {A B} (P : A -> bool) (f : A -> B) (l : list A) :
  flat_map (fun x => if P x then [f x] else []) l = map f (filter P l).
Proof.
  induction l as [| a l IH]; simpl; [reflexivity |].
  destruct (P a); simpl; now rewrite IH.
Qed.

Lemma flat_map_skip {A B} (P : A -> bool) (f : A -> list B) (l : list A) :
  (forall x, P x = false -> f x = []) ->
  flat_map f l = flat_map f (filter P l).
Proof.
  intros H. induction l as [| a l IH]; simpl; [reflexivity |].
  destruct (P a) eqn:E; simpl; [now rewrite IH | now rewrite (H a E)].
Qed.

Lemma row_get_nonempty (row : Row) (c : string) :
  is_none (row_get row c) = false -> nonempty row = true.
Proof. destruct row; [discriminate | reflexivity]. Qed.

(** For one left row the two branches of the join build the same list. *)
Lemma join_row_paths_agree (ltbl rtbl : string) (right_rows : Rows) (ix : Index.t)
      (left_col right_col : string) (left_row : Row) :
  index_ok right_col ix right_rows -> dict_wf Z.eqb right_rows ->
  join_index_row ltbl rtbl right_rows ix left_col left_row
  = join_scan_row ltbl rtbl right_rows left_col right_col left_row.
Proof.
  intros Hok Hw. unfold join_index_row, join_scan_row.
  destruct (is_none (row_get left_row left_col)) eqn:Hn; [reflexivity |].
  rewrite (flat_map_filter
             (fun item => py_eq (row_get (snd item) right_col) (row_get left_row left_col))
             (fun item => merge_rows ltbl left_row rtbl (snd item))).
  rewrite (scan_matches_index _ _ _ _ Hok Hw Hn).
  pose proof (ix_single _ _ _ Hok (row_get left_row left_col)) as Hlen.
  destruct (Index.search ix (row_get left_row left_col)) as [| r [| r2 l]] eqn:Hs;
    simpl in *; [reflexivity | | lia].
  assert (Hin : In r (Index.search ix (row_get left_row left_col)))
    by (rewrite Hs; now left).
  apply (ix_reflects _ _ _ Hok) in Hin. destruct Hin as (row & Hg & Hnn & He).
  rewrite Hg, (row_get_nonempty _ _ Hnn). reflexivity.
Qed.

(** C8 (as amended).  For a Select with a join, in a reachable state, with
    the left rows those the WHERE clause kept: when the right column has an
    index, the index-lookup branch and the nested-loop branch build the same
    list of merged rows (hence the same multiset); the join returns that
    list; a left row whose join-key value is null contributes no row in
    either branch, so dropping such rows does not change the result; and
    every result row is [merge_rows] of one left row with a non-null key and
    one right row whose join column equals it, so that it has every right
    column under [<right_table>.<col>] with the right row's value, every
    left column under [<left_table>.<col>], with the left row's value
    unless the same key is a right column's (a table joined with itself),
    in which case the right row's value is the one kept, and no other key. *)
Theorem join_merges_matching_rows (s : QueryExecutor) (left_table_name : string)
        (left_table right_table : Table) (where_ : option (list Condition))
        (join_info : JoinInfo) :
  reachable s ->
  dict_get String.eqb left_table_name (tables s) = Some left_table ->
  dict_get String.eqb (join_table join_info) (tables s) = Some right_table ->
  let left_rows := _apply_where_clause left_table (rows left_table) where_ in
  let right_table_name := join_table join_info in
  let left_col := left_column join_info in
  let right_col := right_column join_info in
  let scan := join_scan left_table_name right_table_name (rows right_table)
                        left_col right_col in
  (forall index, dict_get String.eqb right_col (indexes right_table) = Some index ->
     join_index left_table_name right_table_name (rows right_table) index left_col
                left_rows
     = scan left_rows)
  /\ _execute_join s left_table_name left_rows join_info = Ok (scan left_rows)
  /\ (forall left_row, is_none (row_get left_row left_col) = true ->
        join_scan_row left_table_name right_table_name (rows right_table)
                      left_col right_col left_row = []
        /\ forall index,
             join_index_row left_table_name right_table_name (rows right_table)
                            index left_col left_row = [])
  /\ scan left_rows
     = scan (filter (fun item => negb (is_none (row_get (snd item) left_col))) left_rows)
  /\ forall m, In m (scan left_rows) ->
       exists left_id left_row right_id right_row,
         In (left_id, left_row) left_rows
         /\ dict_get Z.eqb right_id (rows right_table) = Some right_row
         /\ is_none (row_get left_row left_col) = false
         /\ py_eq (row_get right_row right_col) (row_get left_row left_col) = true
         /\ m = merge_rows left_table_name left_row right_table_name right_row
         /\ (forall k v, dict_get String.eqb k right_row = Some v ->
                         dict_get String.eqb (dotted right_table_name k) m = Some v)
         /\ (forall k v, dict_get String.eqb k left_row = Some v ->
               dict_mem String.eqb (dotted left_table_name k) m = true
               /\ ((forall k', dict_mem String.eqb k' right_row = true ->
                      dotted left_table_name k <> dotted right_table_name k') ->
                   dict_get String.eqb (dotted left_table_name k) m = Some v))
         /\ (forall key, dict_mem String.eqb key m = true ->
               (exists k, key = dotted left_table_name k
                          /\ dict_mem String.eqb k left_row = true)
               \/ (exists k, key = dotted right_table_name k
                             /\ dict_mem String.eqb k right_row = true)).
Proof.
  intros Hr Hl Hrt left_rows right_table_name left_col right_col scan.
  pose proof (reachable_inv s Hr _ _ Hl) as Hinvl.
  pose proof (reachable_inv s Hr _ _ Hrt) as Hinvr.
  assert (Hpaths : forall index,
             dict_get String.eqb right_col (indexes right_table) = Some index ->
             join_index left_table_name right_table_name (rows right_table) index
                        left_col left_rows = scan left_rows).
  { intros index Hix. unfold scan, join_index, join_scan. apply flat_map_ext.
    intros [k row]. simpl. apply join_row_paths_agree; [| apply Hinvr].
    apply (inv_index_ok _ Hinvr), sdict_get_In, Hix. }
  assert (Hnull : forall left_row, is_none (row_get left_row left_col) = true ->
             join_scan_row left_table_name right_table_name (rows right_table)
                           left_col right_col left_row = []
             /\ forall index,
                  join_index_row left_table_name right_table_name (rows right_table)
                                 index left_col left_row = []).
  { intros left_row Hn. unfold join_scan_row, join_index_row. now rewrite Hn. }
  split; [exact Hpaths |]. split; [| split; [exact Hnull | split]].
  - unfold _execute_join. rewrite Hrt.
    pose proof (Hpaths) as Hp. unfold right_col, scan in Hp.
    destruct (dict_get String.eqb (right_column join_info) (indexes right_table))
      as [index |] eqn:Hix; [| reflexivity].
    f_equal. exact (Hp index eq_refl).
  - unfold scan, join_scan. apply flat_map_skip. intros [k row] Hn. simpl in *.
    apply Hnull. now destruct (is_none (row_get row left_col)).
  - intros m Hin. unfold scan, join_scan in Hin. apply in_flat_map in Hin.
    destruct Hin as ([left_id left_row] & Hleft & Hin). simpl in Hin.
    unfold join_scan_row in Hin.
    destruct (is_none (row_get left_row left_col)) eqn:Hn; [contradiction |].
    apply in_flat_map in Hin. destruct Hin as ([right_id right_row] & Hright & Hin).
    simpl in Hin.
    destruct (py_eq (row_get right_row right_col) (row_get left_row left_col)) eqn:He;
      [| contradiction].
    destruct Hin as [<- | []].
    pose proof (zdict_In_get _ _ _ (inv_rows_wf _ Hinvr) Hright) as Hg.
    exists left_id, left_row, right_id, right_row.
    split; [exact Hleft |]. split; [exact Hg |]. split; [exact Hn |].
    split; [exact He |]. split; [reflexivity |].
    apply merge_rows_shape.
    + apply (inv_row_wf _ Hinvl left_id).
      apply where_clause_rows with (where_ := where_); [apply Hinvl | exact Hleft].
    + exact (inv_row_wf _ Hinvr _ _ Hg).
Qed.

(** C8 as stated fails when the two tables are the same: the only result
    row comes from the left row [(a, b) = (1, 2)] and the right row [(2, 9)],
    and it holds the right row's values under [t.a] and [t.b]; the left
    column [a], whose value is 1, is not in it. *)
Lemma self_join_drops_left_values :
  option_map rows (dict_get String.eqb "t" (tables selfjoin)) = Some selfjoin_rows
  /\ snd (DatabaseEngine.execute selfjoin "SELECT * FROM t INNER JOIN t ON t.b = t.a")
     = Ok (Selected ["a"; "b"] [[("t.a", VInt 2); ("t.b", VInt 9)]])
  /\ join_scan_row "t" "t" selfjoin_rows "b" "a" [("a", VInt 1); ("b", VInt 2)]
     = [[("t.a", VInt 2); ("t.b", VInt 9)]]
  /\ join_scan_row "t" "t" selfjoin_rows "b" "a" [("a", VInt 2); ("b", VInt 9)] = []
  /\ merge_rows "t" [("a", VInt 1); ("b", VInt 2)] "t" [("a", VInt 2); ("b", VInt 9)]
     = [("t.a", VInt 2); ("t.b", VInt 9)].
Proof. vm_compute. repeat split; reflexivity. Qed.

(** The theorem at the join of the demonstration database. *)
Lemma join_merges_matching_rows_witness :
  reachable demo
  /\ dict_get String.eqb "users" (tables demo) = Some demo_users
  /\ dict_get String.eqb "orders" (tables demo) = Some demo_orders
  /\ _execute_join demo "users" (_apply_where_clause demo_users (rows demo_users) None)
                   (mkJoin "orders" "id" "user_id")
     = Ok (join_scan "users" "orders" (rows demo_orders) "id" "user_id"
                     (_apply_where_clause demo_users (rows demo_users) None)).
Proof.
  assert (H1 : dict_get String.eqb "users" (tables demo) = Some demo_users)
    by (vm_compute; reflexivity).
  assert (H2 : dict_get String.eqb "orders" (tables demo) = Some demo_orders)
    by (vm_compute; reflexivity).
  split; [exact demo_reachable |]. split; [exact H1 |]. split; [exact H2 |].
  exact (proj1 (proj2 (join_merges_matching_rows demo "users" demo_users demo_orders
                         None (mkJoin "orders" "id" "user_id") demo_reachable H1 H2))).
Defined.

(** ** C3: row-ids *)

Lemma load_rows_next (columns : list Column) (items : Rows)
      (ixs : dict string Index.t) (n : Z) :
  n <= snd (load_rows columns items ixs n)
  /\ forall k row, In (k, row) items -> k < snd (load_rows columns items ixs n).
Proof.
  revert ixs n. induction items as [| [r row0] items IH]; simpl; intros ixs n.
  - split; [lia | contradiction].
  - destruct (IH (load_row columns ixs row0 r) (Z.max n (r + 1))) as [H1 H2].
    split; [lia |]. intros k row [[= <- <-] | Hin]; [lia | eauto].
Qed.
























Lemma load_rows_tight (columns : list Column) (items : Rows)
      (ixs : dict string Index.t) (n : Z) :
  snd (load_rows columns items ixs n) = n
  \/ exists row, In (snd (load_rows columns items ixs n) - 1, row) items.
Proof.
  revert ixs n. induction items as [| [r row0] items IH]; simpl; intros ixs n;
    [now left |].
  destruct (IH (load_row columns ixs row0 r) (Z.max n (r + 1))) as [H | (row & H)].
  - rewrite H. destruct (Z.max_spec n (r + 1)) as [[_ ->] | [_ ->]].
    + right. exists row0. left. f_equal. lia.
    + now left.
  - right. exists row. now right.
Qed.

(** [_load_table] leaves the executor as it is or sets the table of that
    name to what the files give. *)
Lemma load_table_cases (s s' : QueryExecutor) (table_name : string) :
  _load_table s table_name = Ok s' ->
  s' = s
  \/ exists t, s' = set_table s table_name t /\ loaded_from (storage s) table_name t.
Proof.
  unfold _load_table.
  destruct (load_table_schema (storage s) table_name) as [[| cd cds] |] eqn:Hf;
    try (intros [= <-]; now left).
  destruct (columns_of (cd :: cds)) as [columns | e] eqn:Hc; cbn [bind];
    [| discriminate].
  set (data := match load_table_data (storage s) table_name with
               | Some d => d | None => [] end).
  pose proof (load_rows_next columns data (make_indexes columns []) 1) as [H1 H2].
  pose proof (load_rows_tight columns data (make_indexes columns []) 1) as H3.
  destruct (load_rows columns data (make_indexes columns []) 1) as [ixs n].
  intros [= <-]. right. eexists. split; [reflexivity |].
  split; [reflexivity |]. split; [split; assumption |]. split; [exact H3 |].
  exists cd, cds. split; [exact Hf | exact Hc].
Qed.

Lemma load_tables_loaded (names : list string) (s s' : QueryExecutor) :
  load_tables s names = Ok s' ->
  (forall T t, dict_get String.eqb T (tables s) = Some t -> loaded_from (storage s) T t) ->
  storage s' = storage s
  /\ forall T t, dict_get String.eqb T (tables s') = Some t -> loaded_from (storage s) T t.
Proof.
  revert s. induction names as [| n names IH]; simpl; intros s H Hs.
  - injection H as <-. auto.
  - destruct (_load_table s n) as [s1 | e] eqn:E; simpl in H; [| discriminate].
    destruct (load_table_cases _ _ _ E) as [-> | (t1 & -> & Ht1)]; [now apply IH |].
    destruct (IH _ H) as [Hst Hall]; [| split; [exact Hst | exact Hall]].
    intros T t. cbn [tables storage set_table]. rewrite sget_set.
    destruct (String.eqb_spec n T) as [-> | Hne]; [| apply Hs].
    now intros [= <-].
Qed.

(** Every table of a newly constructed executor is what the files give. *)
Lemma init_loaded (st : Storage) (s : QueryExecutor) (T : string) (t : Table) :
  QueryExecutor_init st = Ok s ->
  dict_get String.eqb T (tables s) = Some t -> loaded_from st T t.
Proof.
  intros Hinit. unfold QueryExecutor_init, _load_existing_tables in Hinit.
  apply (load_tables_loaded _ _ _ Hinit). intros T0 t0. discriminate.
Qed.





(** ** C10: booleans in INT columns *)







(** ** C6 and C9: the WHERE clause parser *)

Lemma startswith_ne (s : string) :
  PyStr.startswith "!=" s = true -> exists rest, s = String "!" (String "=" rest).
Proof.
  destruct s as [| a [| b rest]]; cbn [PyStr.startswith].
  - discriminate.
  - now rewrite andb_false_r.
  - rewrite andb_true_r. intros H. apply andb_prop in H. destruct H as [H1 H2].
    apply Ascii.eqb_eq in H1. apply Ascii.eqb_eq in H2. subst. eauto.
Qed.

Lemma contains_ne_eq (s : string) :
  PyStr.contains "!=" s = true -> PyStr.contains "=" s = true.
Proof.
  unfold PyStr.contains. induction s as [| c s IH]; [discriminate |].
  cbn [PyStr.split_once].
  destruct (PyStr.startswith "!=" (String c s)) eqn:E1.
  - intros _. destruct (startswith_ne _ E1) as (rest & E). injection E as -> ->.
    reflexivity.
  - destruct (PyStr.startswith "=" (String c s)); [reflexivity |].
    destruct (PyStr.split_once "!=" s) as [[l r] |]; [| discriminate].
    intros _. specialize (IH eq_refl).
    destruct (PyStr.split_once "=" s) as [[l' r'] |]; [reflexivity | discriminate].
Qed.

(** Every condition the WHERE parser builds has the operator [=]: the
    branch for ['!=' in cond] is only reached when ['=' in cond] is false,
    and then ['!=' in cond] is false too. *)
Lemma where_loop_operator (conds : list string) (acc conditions : list Condition) :
  (forall c, In c acc -> cond_operator c = "=") ->
  QueryParser.where_loop conds acc = Ok conditions ->
  forall c, In c conditions -> cond_operator c = "=".
Proof.
  revert acc. induction conds as [| cond conds IH]; simpl; intros acc Hacc.
  { now intros [= <-]. }
  destruct (PyStr.contains "=" cond) eqn:E.
  - destruct (PyStr.split_once "=" cond) as [[l r] |]; [| now apply IH].
    destruct (QueryParser._parse_value (PyStr.strip r)) as [v | e]; cbn [bind];
      [| discriminate].
    apply IH. intros c Hin. apply in_app_or in Hin.
    destruct Hin as [Hin | [<- | []]]; [now apply Hacc | reflexivity].
  - destruct (PyStr.contains "!=" cond) eqn:E'; [| now apply IH].
    apply contains_ne_eq in E'. congruence.
Qed.

Lemma where_operator_always_equal (where_str : string) (conditions : list Condition)
      (c : Condition) :
  QueryParser._parse_where_clause where_str = Ok conditions ->
  In c conditions -> cond_operator c = "=".
Proof.
  intros H. revert c. apply (where_loop_operator _ [] _ (fun c0 (H0 : In c0 []) =>
                                                          match H0 with end) H).
Qed.

(** A term without [=] leaves no condition behind. *)
Lemma where_loop_drops (cond : string) (conds : list string) (acc : list Condition) :
  PyStr.contains "=" cond = false ->
  QueryParser.where_loop (cond :: conds) acc = QueryParser.where_loop conds acc.
Proof.
  intros E. simpl. rewrite E.
  destruct (PyStr.contains "!=" cond) eqn:E'; [| reflexivity].
  apply contains_ne_eq in E'. congruence.
Qed.

(** C6 (the code at a failing input).  The term [age != 5] is parsed as
    the equality condition on a column named ["age !"], and on the
    demonstration database [WHERE name != 'Alice'] selects no row although
    Bob's row has another name. *)
Theorem not_equal_parsed_as_equal :
  QueryParser._parse_where_clause "age != 5" = Ok [mkCondition "age !" "=" (VInt 5)]
  /\ QueryParser.parse "SELECT * FROM users WHERE name != 'Alice'"
     = Ok (SELECT "users" ["*"] (Some [mkCondition "name !" "=" (VStr "Alice")]) None)
  /\ snd (DatabaseEngine.execute demo "SELECT * FROM users WHERE name != 'Alice'")
     = Ok (Selected ["id"; "name"; "email"] [])
  /\ option_map rows (dict_get String.eqb "users" (tables demo))
     = Some [(1, [("id", VInt 1); ("name", VStr "Alice"); ("email", VStr "a@x.com")]);
             (2, [("id", VInt 2); ("name", VStr "Bob"); ("email", VStr "b@x.com")])].
Proof. vm_compute. repeat split; reflexivity. Qed.

(** C9 (the code at a failing input).  The WHERE term [id] matches neither
    form; parsing returns a Delete with an empty condition list instead of
    raising a syntax error, and executing it removes every row. *)
Theorem malformed_where_term_ignored :
  QueryParser.parse "DELETE FROM users WHERE id" = Ok (DELETE "users" (Some []))
  /\ snd (DatabaseEngine.execute demo "DELETE FROM users WHERE id") = Ok (Deleted 2)
  /\ option_map rows
       (dict_get String.eqb "users"
          (tables (fst (DatabaseEngine.execute demo "DELETE FROM users WHERE id"))))
     = Some [].
Proof. vm_compute. repeat split; reflexivity. Qed.

(** ** C1: the marks of a created column *)

Lemma has_space_snoc (s : string) (c : ascii) :
  has_space (PyStr.snoc s c) = has_space s || PyStr.is_space c.
Proof.
  unfold PyStr.snoc. induction s as [| a s IH]; simpl.
  - now rewrite orb_false_r.
  - now rewrite IH, orb_assoc.
Qed.

(** The tokens of [str.split()] hold no blank. *)
Lemma split_ws_from_no_space (s cur : string) :
  has_space cur = false ->
  forall tok, In tok (PyStr.split_ws_from cur s) -> has_space tok = false.
Proof.
  revert cur. induction s as [| c s IH]; simpl; intros cur Hcur tok.
  - destruct (PyStr.is_empty cur); [contradiction |]. now intros [<- | []].
  - destruct (PyStr.is_space c) eqn:E.
    + destruct (PyStr.is_empty cur).
      * now apply IH.
      * intros [<- | Hin]; [exact Hcur | now apply (IH EmptyString)].
    + apply IH. now rewrite has_space_snoc, Hcur, E.
Qed.

Lemma is_space_upper_char (c : ascii) :
  PyStr.is_space (PyStr.upper_char c) = PyStr.is_space c.
Proof. destruct c as [[] [] [] [] [] [] [] []]; reflexivity. Qed.

Lemma has_space_upper (s : string) : has_space (PyStr.upper s) = has_space s.
Proof.
  induction s as [| c s IH]; simpl; [reflexivity |].
  now rewrite is_space_upper_char, IH.
Qed.

Lemma upper_tokens_not_primary_key (tokens : list string) :
  (forall tok, In tok tokens -> has_space tok = false) ->
  list_mem "PRIMARY KEY" (map PyStr.upper tokens) = false.
Proof.
  intros H. unfold list_mem.
  destruct (existsb (String.eqb "PRIMARY KEY") (map PyStr.upper tokens)) eqn:E;
    [| reflexivity].
  apply existsb_exists in E. destruct E as (x & Hin & Hx).
  apply in_map_iff in Hin. destruct Hin as (tok & <- & Htok).
  apply String.eqb_eq in Hx.
  pose proof (has_space_upper tok) as Hu. rewrite <- Hx, (H tok Htok) in Hu.
  discriminate.
Qed.

Lemma create_columns_loop_constraints (col_defs : list string)
      (acc columns : list ColumnDef) :
  QueryParser.create_columns_loop col_defs acc = Ok columns ->
  (forall cd, In cd acc -> list_mem "PRIMARY KEY" (cd_constraints cd) = false) ->
  forall cd, In cd columns -> list_mem "PRIMARY KEY" (cd_constraints cd) = false.
Proof.
  revert acc. induction col_defs as [| d col_defs IH]; simpl; intros acc H Hacc.
  - now injection H as <-.
  - destruct (PyStr.is_empty (PyStr.strip d)); [now apply (IH acc) |].
    destruct (PyStr.split_ws (PyStr.strip d)) as [| col_name [| ty more]] eqn:E;
      try discriminate.
    apply (IH _ H). intros cd Hin. apply in_app_or in Hin.
    destruct Hin as [Hin | [<- | []]]; [now apply Hacc |]. simpl.
    apply upper_tokens_not_primary_key. intros tok Htok.
    apply (split_ws_from_no_space (PyStr.strip d) EmptyString eq_refl).
    fold (PyStr.split_ws (PyStr.strip d)). rewrite E. right. now right.
Qed.

(** No CREATE TABLE text gives the executor a column definition whose
    constraint list contains the token ["PRIMARY KEY"]: the parser splits
    the definition at blanks. *)
Lemma parsed_constraints_never_primary_key (text table_name : string)
      (columns : list ColumnDef) :
  QueryParser.parse text = Ok (CREATE_TABLE table_name columns) ->
  forall cd, In cd columns -> list_mem "PRIMARY KEY" (cd_constraints cd) = false.
Proof.
  unfold QueryParser.parse.
  set (query := PyStr.rstrip_semicolon (PyStr.strip text)).
  destruct (PyStr.startswith "CREATE TABLE" (PyStr.upper query)).
  { unfold QueryParser._parse_create_table.
    destruct (Re.rmatch QueryParser.CREATE_TABLE_PATTERN query) as [m |]; [| discriminate].
    destruct (QueryParser.create_columns_loop _ []) as [cols | e] eqn:E; simpl;
      [| discriminate].
    intros [= _ <-]. apply (create_columns_loop_constraints _ _ _ E). intros cd []. }
  destruct (PyStr.startswith "INSERT INTO" (PyStr.upper query)).
  { unfold QueryParser._parse_insert.
    destruct (Re.rmatch QueryParser.INSERT_PATTERN query); [| discriminate].
    destruct (QueryParser._parse_values _); cbn [bind]; discriminate. }
  destruct (PyStr.startswith "SELECT" (PyStr.upper query)).
  { unfold QueryParser._parse_select.
    destruct (Re.rmatch QueryParser.SELECT_PATTERN query) as [m |]; [| discriminate].
    destruct (QueryParser.where_of _); cbn [bind]; [| discriminate].
    destruct (QueryParser.group_nonempty 4 m); [| discriminate].
    destruct (QueryParser.group_nonempty 5 m) as [jc |]; [| discriminate].
    destruct (PyStr.split_char "=" jc) as [| l [| r [| x y]]]; try discriminate.
    destruct (QueryParser.unpack_dotted (PyStr.strip l)); simpl; [| discriminate].
    destruct (QueryParser.unpack_dotted (PyStr.strip r)); simpl; discriminate. }
  destruct (PyStr.startswith "UPDATE" (PyStr.upper query)).
  { unfold QueryParser._parse_update.
    destruct (Re.rmatch QueryParser.UPDATE_PATTERN query) as [m |]; [| discriminate].
    destruct (QueryParser.set_loop _ []); cbn [bind]; [| discriminate].
    destruct (QueryParser.where_of _); cbn [bind]; discriminate. }
  destruct (PyStr.startswith "DELETE FROM" (PyStr.upper query)); [| discriminate].
  unfold QueryParser._parse_delete.
  destruct (Re.rmatch QueryParser.DELETE_PATTERN query); [| discriminate].
  destruct (QueryParser.where_of _); cbn [bind]; discriminate.
Qed.

(** Hence no column of a table created through the engine is marked
    primary. *)
Lemma engine_never_marks_primary (text table_name : string)
      (col_defs : list ColumnDef) (columns : list Column) :
  QueryParser.parse text = Ok (CREATE_TABLE table_name col_defs) ->
  columns_of col_defs = Ok columns ->
  forall col, In col columns -> is_primary col = false.
Proof.
  intros Hp. pose proof (parsed_constraints_never_primary_key _ _ _ Hp) as H. clear Hp.
  revert columns. induction col_defs as [| cd col_defs IH]; simpl; intros columns.
  - intros [= <-] col [].
  - unfold column_of. destruct (DataType_of (cd_type cd)) as [ty | e]; simpl;
      [| discriminate].
    destruct (columns_of col_defs) as [cols | e]; simpl; [| discriminate].
    intros [= <-] col [<- | Hin].
    + simpl. apply H. now left.
    + apply (IH (fun cd' Hcd => H cd' (or_intror Hcd)) cols eq_refl col Hin).
Qed.

(** The parts of the marking that hold: the unique mark is the UNIQUE token
    or the primary mark (and, by [persisted_schema_reloads], the descriptor
    persisted by CREATE TABLE gives the same columns back at load). *)
Lemma column_of_marks (col_def : ColumnDef) (col : Column) :
  column_of col_def = Ok col ->
  is_primary col = list_mem "PRIMARY KEY" (cd_constraints col_def)
  /\ is_unique col = list_mem "UNIQUE" (cd_constraints col_def) || is_primary col.
Proof.
  unfold column_of. destruct (DataType_of (cd_type col_def)); simpl; [| discriminate].
  intros [= <-]. split; reflexivity.
Qed.

(** C1 (the code at a failing input).  The constraint tokens of
    [id INT PRIMARY KEY] are [PRIMARY] and [KEY]; the created column is
    marked neither primary nor unique, at creation and after a reload, and the
    table then takes a second row with the same [id] and a row whose [id] is
    NULL. *)
Theorem primary_key_tokens_not_recognised :
  QueryParser.parse "CREATE TABLE users (id INT PRIMARY KEY, name TEXT, email TEXT UNIQUE)"
  = Ok (CREATE_TABLE "users"
          [mkColumnDef "id" "INT" ["PRIMARY"; "KEY"];
           mkColumnDef "name" "TEXT" [];
           mkColumnDef "email" "TEXT" ["UNIQUE"]])
  /\ DatabaseEngine.get_table_info demo "users"
     = Ok ([("id", "INT", false, false); ("name", "TEXT", false, false);
            ("email", "TEXT", false, true)], 2%nat)
  /\ (r <- DatabaseEngine.init (storage demo) ;; DatabaseEngine.get_table_info r "users")
     = Ok ([("id", "INT", false, false); ("name", "TEXT", false, false);
            ("email", "TEXT", false, true)], 2%nat)
  /\ snd (DatabaseEngine.execute_all demo
            ["INSERT INTO users VALUES (1, 'Eve', 'e@x.com')";
             "INSERT INTO users VALUES (NULL, 'Mallory', 'm@x.com')"])
     = [Ok (Inserted 3); Ok (Inserted 4)].
Proof. vm_compute. repeat split; reflexivity. Qed.

(* ================================================================== *)
(** * Further properties of the code *)

(** ** The WHERE clause *)

Lemma match_all_forallb (row : Row) (conds : list Condition) :
  match_all row conds = forallb (cond_holds row) conds.
Proof.
  induction conds as [| c conds IH]; simpl; [reflexivity |].
  unfold cond_holds, py_ne.
  destruct (String.eqb (cond_operator c) "=").
  - destruct (py_eq _ _); simpl; [exact IH | reflexivity].
  - destruct (String.eqb (cond_operator c) "!="); [| exact IH].
    destruct (py_eq _ _); simpl; [reflexivity | exact IH].
Qed.

Lemma index_path_skip (t : Table) (rows : Rows) (pre rest : list Condition) :
  (forall p, In p pre -> indexed_equality t p = false) ->
  index_path (indexes t) rows (pre ++ rest) = index_path (indexes t) rows rest.
Proof.
  induction pre as [| p pre IH]; simpl; intros H; [reflexivity |].
  pose proof (H p (or_introl eq_refl)) as Hp. unfold indexed_equality, dict_mem in Hp.
  destruct (String.eqb (cond_operator p) "=").
  - destruct (dict_get String.eqb (cond_column p) (indexes t)); [discriminate |].
    apply IH. intros q Hq. apply H. now right.
  - apply IH. intros q Hq. apply H. now right.
Qed.

Lemma index_path_none (t : Table) (rows : Rows) (conds : list Condition) :
  (forall p, In p conds -> indexed_equality t p = false) ->
  index_path (indexes t) rows conds = None.
Proof.
  intros H. rewrite <- (app_nil_r conds). now rewrite index_path_skip.
Qed.

(** X1.  When the condition list of a WHERE clause holds an equality on an
    indexed column, the first such condition decides the result alone: the
    rows are those of the index lookup for it, and the conditions before and
    after it are not applied.  In a reachable state, when its value is not
    null, no row that satisfies all the conditions is lost that way. *)
Theorem where_first_indexed_equality_decides (s : QueryExecutor) (table_name : string)
        (t : Table) (pre post : list Condition) (c : Condition) :
  reachable s ->
  dict_get String.eqb table_name (tables s) = Some t ->
  (forall p, In p pre -> indexed_equality t p = false) ->
  indexed_equality t c = true ->
  _apply_where_clause t (rows t) (Some (pre ++ c :: post)%list)
  = _apply_where_clause t (rows t) (Some [c])
  /\ (is_none (cond_value c) = false ->
      forall item, In item (full_scan (rows t) (pre ++ c :: post)%list) ->
                   In item (_apply_where_clause t (rows t) (Some (pre ++ c :: post)%list))).
Proof.
  intros Hr Ht Hpre Hc.
  assert (E : _apply_where_clause t (rows t) (Some (pre ++ c :: post)%list)
              = _apply_where_clause t (rows t) (Some [c])).
  { unfold _apply_where_clause.
    destruct (pre ++ c :: post)%list as [| c0 l] eqn:El.
    - destruct pre; discriminate.
    - rewrite <- El, (index_path_skip t (rows t) pre (c :: post) Hpre).
      unfold indexed_equality, dict_mem in Hc. simpl.
      destruct (String.eqb (cond_operator c) "="); [| discriminate].
      destruct (dict_get String.eqb (cond_column c) (indexes t)); [reflexivity | discriminate]. }
  split; [exact E |]. intros Hv [k row] Hin. rewrite E.
  pose proof (reachable_inv s Hr _ _ Ht) as Hinv.
  unfold indexed_equality, dict_mem in Hc. apply andb_prop in Hc. destruct Hc as [Hop Hix].
  destruct (dict_get String.eqb (cond_column c) (indexes t)) as [ix |] eqn:Hg;
    [| discriminate].
  pose proof (inv_index_ok _ Hinv _ _ (sdict_get_In _ _ _ Hg)) as Hok.
  unfold _apply_where_clause. simpl. rewrite Hop, Hg.
  rewrite <- (scan_matches_index _ _ _ _ Hok (inv_rows_wf _ Hinv) Hv).
  unfold full_scan in Hin. apply filter_In in Hin. destruct Hin as [Hin Hm].
  apply filter_In. split; [exact Hin |]. simpl in *.
  rewrite match_all_forallb, forallb_app in Hm. apply andb_prop in Hm.
  destruct Hm as [_ Hm]. simpl in Hm. apply andb_prop in Hm. destruct Hm as [Hm _].
  unfold cond_holds in Hm. now rewrite Hop in Hm.
Qed.

(** The theorem at [WHERE email = 'a@x.com', name = 'Bob'] on the
    demonstration database: Alice's row is returned although its name is not
    Bob. *)
Lemma where_first_indexed_equality_decides_witness :
  reachable demo
  /\ dict_get String.eqb "users" (tables demo) = Some demo_users
  /\ _apply_where_clause demo_users (rows demo_users)
       (Some [mkCondition "email" "=" (VStr "a@x.com"); mkCondition "name" "=" (VStr "Bob")])
     = [(1, [("id", VInt 1); ("name", VStr "Alice"); ("email", VStr "a@x.com")])]
  /\ _apply_where_clause demo_users (rows demo_users)
       (Some ([] ++ [mkCondition "email" "=" (VStr "a@x.com");
                     mkCondition "name" "=" (VStr "Bob")])%list)
     = _apply_where_clause demo_users (rows demo_users)
         (Some [mkCondition "email" "=" (VStr "a@x.com")]).
Proof.
  assert (H1 : dict_get String.eqb "users" (tables demo) = Some demo_users)
    by (vm_compute; reflexivity).
  split; [exact demo_reachable |]. split; [exact H1 |]. split; [vm_compute; reflexivity |].
  refine (proj1 (where_first_indexed_equality_decides demo "users" demo_users []
                   [mkCondition "name" "=" (VStr "Bob")]
                   (mkCondition "email" "=" (VStr "a@x.com")) demo_reachable H1 _ eq_refl)).
  intros p [].
Defined.

Lemma full_scan_app (rows : Rows) (conds1 conds2 : list Condition) :
  full_scan rows (conds1 ++ conds2) = full_scan (full_scan rows conds1) conds2.
Proof.
  unfold full_scan. induction rows as [| item rows IH]; simpl; [reflexivity |].
  rewrite !match_all_forallb, forallb_app.
  destruct (forallb (cond_holds (snd item)) conds1); simpl.
  - rewrite match_all_forallb. destruct (forallb (cond_holds (snd item)) conds2);
      now rewrite IH.
  - exact IH.
Qed.

(** X2.  When no condition of a non-empty list is an equality on an indexed
    column, the WHERE clause keeps, in stored order, exactly the rows that
    satisfy every condition; conditions scanned together or one list after
    the other, in either order, keep the same rows. *)
Theorem where_without_index_is_conjunction (t : Table) (rows : Rows)
        (conds1 conds2 : list Condition) :
  (conds1 ++ conds2)%list <> [] ->
  (forall p, In p (conds1 ++ conds2)%list -> indexed_equality t p = false) ->
  _apply_where_clause t rows (Some (conds1 ++ conds2)%list)
  = filter (fun item => forallb (cond_holds (snd item)) (conds1 ++ conds2)) rows
  /\ _apply_where_clause t rows (Some (conds1 ++ conds2)%list)
     = full_scan (full_scan rows conds1) conds2
  /\ _apply_where_clause t rows (Some (conds1 ++ conds2)%list)
     = full_scan rows (conds2 ++ conds1).
Proof.
  intros Hne Hno.
  assert (E : _apply_where_clause t rows (Some (conds1 ++ conds2)%list)
              = full_scan rows (conds1 ++ conds2)).
  { unfold _apply_where_clause. destruct (conds1 ++ conds2)%list as [| c l] eqn:El;
      [congruence |]. now rewrite (index_path_none t rows (c :: l) Hno). }
  rewrite E. unfold full_scan. split; [| split].
  - apply filter_ext. intros item. apply match_all_forallb.
  - apply full_scan_app.
  - apply filter_ext. intros item. rewrite !match_all_forallb, !forallb_app.
    apply andb_comm.
Qed.

(** The theorem at [WHERE name = 'Bob', id != 1] on the demonstration
    database ([name] and [id] have no index). *)
Lemma where_without_index_is_conjunction_witness :
  _apply_where_clause demo_users (rows demo_users)
    (Some ([mkCondition "name" "=" (VStr "Bob")] ++ [mkCondition "id" "!=" (VInt 1)])%list)
  = full_scan (full_scan (rows demo_users) [mkCondition "name" "=" (VStr "Bob")])
              [mkCondition "id" "!=" (VInt 1)]
  /\ full_scan (full_scan (rows demo_users) [mkCondition "name" "=" (VStr "Bob")])
               [mkCondition "id" "!=" (VInt 1)]
     = [(2, [("id", VInt 2); ("name", VStr "Bob"); ("email", VStr "b@x.com")])].
Proof.
  split; [| vm_compute; reflexivity].
  refine (proj1 (proj2 (where_without_index_is_conjunction demo_users (rows demo_users)
                          [mkCondition "name" "=" (VStr "Bob")]
                          [mkCondition "id" "!=" (VInt 1)] _ _))).
  - discriminate.
  - intros p [<- | [<- | []]]; reflexivity.
Defined.

(** ** DELETE *)

Lemma dict_del_filter {V} (r : Z) (d : dict Z V) :
  dict_wf Z.eqb d ->
  dict_del Z.eqb r d = filter (fun item => negb (Z.eqb (fst item) r)) d.
Proof.
  induction d as [| [k x] d IH]; simpl; [reflexivity |]. intros [Hn Hw].
  destruct (Z.eqb_spec k r) as [-> | Hne]; simpl.
  - clear IH. induction d as [| [k1 x1] d IH]; simpl; [reflexivity |].
    simpl in Hn. destruct Hw as [_ Hw].
    destruct (Z.eqb k1 r); [discriminate |]. simpl. f_equal. now apply IH.
  - f_equal. now apply IH.
Qed.

(** The loop of [_execute_delete] over distinct row-ids that are all stored:
    it never raises, counts every one of them and leaves the other rows, in
    their order. *)
Lemma delete_loop_spec (ids : list Z) (t : Table) (n : Z) :
  dict_wf Z.eqb (rows t) -> NoDup ids ->
  (forall k, In k ids -> dict_mem Z.eqb k (rows t) = true) ->
  exists t',
    delete_loop t ids n = (t', n + Z.of_nat (List.length ids), None)
    /\ rows t' = filter (fun item => negb (existsb (Z.eqb (fst item)) ids)) (rows t)
    /\ schema t' = schema t /\ next_row_id t' = next_row_id t.
Proof.
  revert t n. induction ids as [| r ids IH]; intros t n Hw Hnd Hin.
  - exists t. simpl. rewrite Z.add_0_r. repeat split.
    clear. induction (rows t) as [| it l IHl]; simpl; [reflexivity | now rewrite <- IHl].
  - inversion Hnd as [| ? ? Hr Hnd']; subst.
    pose proof (Hin r (or_introl eq_refl)) as Hm. unfold dict_mem in Hm.
    cbn [delete_loop]. unfold delete_row.
    destruct (dict_get Z.eqb r (rows t)) as [row |] eqn:Hg; [| discriminate].
    destruct (IH (mkTable (schema t) (dict_del Z.eqb r (rows t))
                          (delete_indexes (indexes t) row r) (next_row_id t)) (n + 1))
      as (t' & Hl & Hrows & Hs & Hc).
    + simpl. now apply zwf_del.
    + exact Hnd'.
    + intros k Hk. simpl. unfold dict_mem. rewrite (zget_del _ _ _ Hw).
      destruct (Z.eqb_spec r k) as [-> | Hne]; [contradiction |].
      apply (Hin k). now right.
    + exists t'. rewrite Hl. split; [f_equal; f_equal; simpl List.length; lia |].
      split; [| auto]. rewrite Hrows. simpl. rewrite (dict_del_filter _ _ Hw).
      clear. induction (rows t) as [| it l IHl]; simpl; [reflexivity |].
      destruct (Z.eqb (fst it) r); simpl; [exact IHl |].
      destruct (existsb _ ids); simpl; [exact IHl | now rewrite IHl].
Qed.

(** X3.  In a reachable state a DELETE on an existing table removes from
    memory exactly the rows the WHERE clause keeps, leaves the other rows in
    their order and keeps the schema and the row-id counter.  When no row is
    kept it returns the count 0 and writes nothing.  Otherwise it writes the
    data file and returns the number of rows removed, unless the file system
    refuses the data file: then it raises that [OSError], with the rows
    removed in memory and the storage as it was.  It raises nothing else. *)
Theorem delete_removes_selected_rows (s : QueryExecutor) (table_name : string)
        (t : Table) (where_ : option (list Condition)) :
  reachable s ->
  dict_get String.eqb table_name (tables s) = Some t ->
  exists t',
    tables (fst (_execute_delete s table_name where_))
    = dict_set String.eqb table_name t' (tables s)
    /\ rows t'
       = filter (fun item =>
                   negb (dict_mem Z.eqb (fst item) (_apply_where_clause t (rows t) where_)))
                (rows t)
    /\ schema t' = schema t /\ next_row_id t' = next_row_id t
    /\ match _apply_where_clause t (rows t) where_ with
       | [] => _execute_delete s table_name where_
               = (set_table s table_name t', Ok (Deleted 0))
       | _ :: _ =>
           match save_table_data (storage s) table_name (rows t') with
           | Ok st =>
               _execute_delete s table_name where_
               = (mkExecutor st (dict_set String.eqb table_name t' (tables s)),
                  Ok (Deleted (Z.of_nat
                                 (List.length (_apply_where_clause t (rows t) where_)))))
           | Raise e =>
               e = OSError (data_file_name table_name)
               /\ _execute_delete s table_name where_
                  = (set_table s table_name t', Raise e)
           end
       end.
Proof.
  intros Hr Ht. pose proof (reachable_inv s Hr _ _ Ht) as Hinv.
  pose proof (inv_rows_wf _ Hinv) as Hw.
  set (filtered := _apply_where_clause t (rows t) where_).
  destruct (delete_loop_spec (dict_keys filtered) t 0 Hw) as (t' & Hl & Hrows & Hs & Hc).
  - apply zwf_NoDup_keys, where_clause_wf, Hw.
  - intros k Hk. unfold dict_keys in Hk. apply in_map_iff in Hk.
    destruct Hk as ([k' row] & E & Hk). simpl in E. subst k'.
    unfold dict_mem. now rewrite (where_clause_rows t where_ k row Hw Hk).
  - exists t'. split; [| split; [| split; [exact Hs | split; [exact Hc |]]]].
    + rewrite (delete_tables _ _ _ _ Ht). fold filtered. now rewrite Hl.
    + rewrite Hrows. apply filter_ext. intros item. now rewrite existsb_keys.
    + unfold _execute_delete. rewrite Ht. fold filtered. rewrite Hl.
      assert (Hlen : List.length (dict_keys filtered) = List.length filtered)
        by apply length_map.
      rewrite Hlen. cbn [Z.add].
      destruct filtered as [| item filtered']; [reflexivity |].
      change (0 <? Z.of_nat (List.length (item :: filtered'))) with true.
      cbn [storage set_table].
      destruct (save_table_data_cases (storage s) table_name (rows t'))
        as [[_ ->] | [_ ->]]; [reflexivity | split; reflexivity].
Qed.

(** The theorem at [DELETE FROM users WHERE name = 'Bob'] on the
    demonstration database: Alice's row is what is left. *)
Lemma delete_removes_selected_rows_witness :
  reachable demo
  /\ dict_get String.eqb "users" (tables demo) = Some demo_users
  /\ exists t',
       tables (fst (_execute_delete demo "users"
                      (Some [mkCondition "name" "=" (VStr "Bob")])))
       = dict_set String.eqb "users" t' (tables demo)
       /\ rows t' = [(1, [("id", VInt 1); ("name", VStr "Alice"); ("email", VStr "a@x.com")])].
Proof.
  assert (H1 : dict_get String.eqb "users" (tables demo) = Some demo_users)
    by (vm_compute; reflexivity).
  split; [exact demo_reachable |]. split; [exact H1 |].
  destruct (delete_removes_selected_rows demo "users" demo_users
              (Some [mkCondition "name" "=" (VStr "Bob")]) demo_reachable H1)
    as (t' & Htab & Hrows & _).
  exists t'. split; [exact Htab |]. exact Hrows.
Defined.

(** ** UPDATE *)

(** X4.  In a reachable state, an UPDATE that returns has visited every row
    the WHERE clause keeps: it reports their number; each of them holds the
    assigned value in every assigned column and its former value in every
    other column; the rows the WHERE clause does not keep, the row-ids, the
    schema and the counter are unchanged; the data file is written when at
    least one row was visited. *)
Theorem update_rewrites_selected_rows (s s' : QueryExecutor) (table_name : string)
        (t : Table) (set_ : dict string value) (where_ : option (list Condition)) (n : Z) :
  reachable s ->
  dict_get String.eqb table_name (tables s) = Some t ->
  dict_wf String.eqb set_ ->
  _execute_update s table_name set_ where_ = (s', Ok (Updated n)) ->
  n = Z.of_nat (List.length (_apply_where_clause t (rows t) where_))
  /\ exists t',
       tables s' = dict_set String.eqb table_name t' (tables s)
       /\ (if nonempty (_apply_where_clause t (rows t) where_)
           then save_table_data (storage s) table_name (rows t') = Ok (storage s')
           else storage s' = storage s)
       /\ schema t' = schema t /\ next_row_id t' = next_row_id t
       /\ dict_keys (rows t') = dict_keys (rows t)
       /\ forall k row, dict_get Z.eqb k (rows t) = Some row ->
            (dict_mem Z.eqb k (_apply_where_clause t (rows t) where_) = false ->
             dict_get Z.eqb k (rows t') = Some row)
            /\ (dict_mem Z.eqb k (_apply_where_clause t (rows t) where_) = true ->
                exists row',
                  dict_get Z.eqb k (rows t') = Some row'
                  /\ (forall c v, dict_get String.eqb c set_ = Some v -> row_get row' c = v)
                  /\ (forall c, dict_get String.eqb c set_ = None ->
                                row_get row' c = row_get row c)).
Proof.
  intros Hr Ht Hset He. pose proof (reachable_inv s Hr _ _ Ht) as Hinv.
  pose proof (inv_rows_wf _ Hinv) as Hw.
  set (filtered := _apply_where_clause t (rows t) where_) in *.
  unfold _execute_update in He. rewrite Ht in He. fold filtered in He.
  destruct (update_loop t set_ (dict_keys filtered) 0) as [[t' n'] [e |]] eqn:Hl;
    [discriminate |].
  assert (Hnd : NoDup (dict_keys filtered)) by apply zwf_NoDup_keys, where_clause_wf, Hw.
  destruct (update_loop_spec _ _ _ _ _ _ Hinv Hnd Hl) as (Hn & Hs & Hc & Hk & Hrows).
  assert (Hlen : List.length (dict_keys filtered) = List.length filtered)
    by apply length_map.
  rewrite Hlen in Hn. simpl in Hn.
  assert (Hpos : (0 <? n') = nonempty filtered) by (subst n'; destruct filtered; reflexivity).
  rewrite Hpos in He.
  assert (He' : s' = (if nonempty filtered
                      then match save_table_data (storage s) table_name (rows t') with
                           | Ok st => set_storage (set_table s table_name t') st
                           | Raise _ => s'
                           end
                      else set_table s table_name t')
                /\ n = n'
                /\ (nonempty filtered = true ->
                    exists st, save_table_data (storage s) table_name (rows t') = Ok st)).
  { destruct (nonempty filtered); cbn [storage set_table] in He.
    - destruct (save_table_data (storage s) table_name (rows t')) as [st |];
        [| discriminate].
      injection He as <- <-. eauto.
    - injection He as <- <-. split; [reflexivity |]. split; [reflexivity | discriminate]. }
  destruct He' as (Hs' & -> & Hsave). split; [exact Hn |].
  exists t'. split.
  { rewrite Hs'. destruct (nonempty filtered); [| reflexivity].
    destruct (Hsave eq_refl) as (st & ->). reflexivity. }
  split.
  { destruct (nonempty filtered) eqn:Hne.
    - destruct (Hsave eq_refl) as (st & Hst). rewrite Hst in Hs'. rewrite Hst, Hs'.
      reflexivity.
    - rewrite Hs'. reflexivity. }
  split; [exact Hs |]. split; [exact Hc |]. split; [exact Hk |].
  intros k row Hg. destruct (Hrows k) as [Hin Hout]. rewrite <- existsb_keys. split.
  - intros Hm. rewrite Hout; [exact Hg |]. intros Hin'.
    assert (existsb (Z.eqb k) (dict_keys filtered) = true).
    { apply existsb_exists. exists k. split; [exact Hin' | apply Z.eqb_refl]. }
    congruence.
  - intros Hm. apply existsb_exists in Hm. destruct Hm as (k' & Hin' & E).
    apply Z.eqb_eq in E. subst k'.
    destruct (Hin Hin') as (row0 & row' & Hg0 & Ha & Hg').
    rewrite Hg in Hg0. injection Hg0 as <-. exists row'. split; [exact Hg' |]. split.
    + intros c v Hcv. exact (apply_set_get _ _ _ _ _ _ Hset Hcv Ha).
    + intros c Hcn. exact (apply_set_other _ _ _ _ _ Hcn Ha).
Qed.

(** The theorem at [UPDATE users SET name = 'Robert' WHERE id = 2] on the
    demonstration database. *)
Lemma update_rewrites_selected_rows_witness :
  reachable demo
  /\ dict_get String.eqb "users" (tables demo) = Some demo_users
  /\ _execute_update demo "users" [("name", VStr "Robert")]
       (Some [mkCondition "id" "=" (VInt 2)])
     = (fst (_execute_update demo "users" [("name", VStr "Robert")]
               (Some [mkCondition "id" "=" (VInt 2)])), Ok (Updated 1))
  /\ 1 = Z.of_nat (List.length (_apply_where_clause demo_users (rows demo_users)
                                  (Some [mkCondition "id" "=" (VInt 2)]))).
Proof.
  assert (H1 : dict_get String.eqb "users" (tables demo) = Some demo_users)
    by (vm_compute; reflexivity).
  assert (H2 : _execute_update demo "users" [("name", VStr "Robert")]
                 (Some [mkCondition "id" "=" (VInt 2)])
               = (fst (_execute_update demo "users" [("name", VStr "Robert")]
                         (Some [mkCondition "id" "=" (VInt 2)])), Ok (Updated 1)))
    by (vm_compute; reflexivity).
  split; [exact demo_reachable |]. split; [exact H1 |]. split; [exact H2 |].
  refine (proj1 (update_rewrites_selected_rows demo _ "users" demo_users
                   [("name", VStr "Robert")] (Some [mkCondition "id" "=" (VInt 2)]) 1
                   demo_reachable H1 _ H2)).
  simpl. auto.
Defined.

(** ** Statements that raise *)

(** In a state that satisfies the invariant the loop of a DELETE raises
    nothing. *)
Lemma delete_loop_total (t : Table) (where_ : option (list Condition)) :
  dict_wf Z.eqb (rows t) ->
  snd (delete_loop t (dict_keys (_apply_where_clause t (rows t) where_)) 0) = None.
Proof.
  intros Hw.
  destruct (delete_loop_spec (dict_keys (_apply_where_clause t (rows t) where_)) t 0 Hw)
    as (t' & Hl & _).
  - apply zwf_NoDup_keys, where_clause_wf, Hw.
  - intros k Hk. unfold dict_keys in Hk. apply in_map_iff in Hk.
    destruct Hk as ([k' row] & E & Hk). simpl in E. subst k'.
    unfold dict_mem. now rewrite (where_clause_rows t where_ k row Hw Hk).
  - now rewrite Hl.
Qed.

Lemma update_row_dict_keys (t : Table) (set_ : dict string value) (r : Z) :
  dict_keys (rows (fst (update_row t set_ r))) = dict_keys (rows t)
  /\ next_row_id (fst (update_row t set_ r)) = next_row_id t.
Proof.
  unfold update_row. destruct (dict_get Z.eqb r (rows t)) as [row |] eqn:Hg; [| auto].
  destruct (apply_set _ _ _); [| auto].
  destruct (_check_constraints _ _ _); [auto |].
  destruct (update_indexes _ _ _ _) as [ixs [c |]]; simpl; [auto |].
  split; [| reflexivity]. apply dict_keys_set_present. unfold dict_mem. now rewrite Hg.
Qed.

Lemma update_loop_dict_keys (t : Table) (set_ : dict string value) (ids : list Z) (n : Z) :
  dict_keys (rows (fst (fst (update_loop t set_ ids n)))) = dict_keys (rows t)
  /\ next_row_id (fst (fst (update_loop t set_ ids n))) = next_row_id t.
Proof.
  revert t n. induction ids as [| r ids IH]; simpl; intros t n; [auto |].
  pose proof (update_row_dict_keys t set_ r) as [H1 H2].
  destruct (update_row t set_ r) as [t' [e |]]; simpl in *; [auto |].
  destruct (IH t' (n + 1)) as [H3 H4]. split; congruence.
Qed.

Lemma project_not_os (row : Row) (selected_columns : list string) (acc : Row)
      (e : exn) :
  project row selected_columns acc = Raise e -> is_os_error e = false.
Proof.
  revert acc. induction selected_columns as [| c sel IH]; simpl; intros acc;
    [discriminate |].
  destruct (dict_get String.eqb c row); [apply IH | now intros [= <-]].
Qed.

Lemma project_all_not_os (items : Rows) (selected_columns : list string) (e : exn) :
  project_all items selected_columns = Raise e -> is_os_error e = false.
Proof.
  induction items as [| [k row] items IH]; simpl; [discriminate |].
  destruct (project row selected_columns []) as [r1 | e1] eqn:Ep; cbn [bind];
    [| intros [= <-]; exact (project_not_os _ _ _ _ Ep)].
  destruct (project_all items selected_columns); cbn [bind]; [discriminate |].
  intros [= <-]. now apply IH.
Qed.

Lemma execute_select_not_os (s : QueryExecutor) (table_name : string)
      (cols : list string) (where_ : option (list Condition)) (join : option JoinInfo)
      (e : exn) :
  snd (_execute_select s table_name cols where_ join) = Raise e ->
  is_os_error e = false.
Proof.
  unfold _execute_select.
  destruct (dict_get String.eqb table_name (tables s)) as [t |];
    [| now intros [= <-]].
  destruct join as [ji |]; cbn [snd].
  - unfold _execute_join.
    destruct (dict_get String.eqb (join_table ji) (tables s)) as [rt |]; cbn [bind];
      [| now intros [= <-]].
    destruct (dict_get String.eqb (right_column ji) (indexes rt)); cbn [bind];
      discriminate.
  - destruct (project_all _ _) as [rs | e1] eqn:Ep; cbn [bind]; [discriminate |].
    intros [= <-]. exact (project_all_not_os _ _ _ Ep).
Qed.

Lemma update_row_not_os (t : Table) (set_ : dict string value) (r : Z) (e : exn) :
  snd (update_row t set_ r) = Some e -> is_os_error e = false.
Proof.
  unfold update_row. destruct (dict_get Z.eqb r (rows t)) as [row |];
    [| now intros [= <-]].
  destruct (apply_set _ _ _) as [row' | e0] eqn:Ha;
    [| intros [= <-]; exact (apply_set_not_os _ _ _ _ Ha)].
  destruct (_check_constraints _ _ _) as [e0 |] eqn:Hc;
    [intros [= <-]; exact (check_columns_not_os _ _ _ _ _ Hc) |].
  destruct (update_indexes _ _ _ _) as [ixs [c |]]; simpl; [now intros [= <-] | discriminate].
Qed.

Lemma update_loop_not_os (t : Table) (set_ : dict string value) (ids : list Z)
      (n : Z) (e : exn) :
  snd (update_loop t set_ ids n) = Some e -> is_os_error e = false.
Proof.
  revert t n. induction ids as [| r ids IH]; simpl; intros t n; [discriminate |].
  pose proof (update_row_not_os t set_ r) as H.
  destruct (update_row t set_ r) as [t' [e0 |]]; simpl in *; [| apply IH].
  intros [= <-]. now apply H.
Qed.

(** X5.  In a reachable state, a statement that raises writes nothing to
    storage.  When the exception is an [OSError] it is the refusal of the
    file the statement was about to write (the schema file for a CREATE
    TABLE, the data file otherwise), and the change the statement made stays
    in memory: the created table, the inserted row, the rows the completed
    loop of the UPDATE or DELETE replaced or removed.  When it is another
    exception, a CREATE TABLE, an INSERT, a SELECT or a DELETE leaves the
    executor exactly as it was, and an UPDATE leaves every other table as it
    was and the schema, counter and row-ids of its own table (the rows it
    replaced before the failing one stay replaced in memory). *)
Theorem raising_statement_writes_nothing (s s' : QueryExecutor) (q : Query) (e : exn) :
  reachable s ->
  execute s q = (s', Raise e) ->
  storage s' = storage s
  /\ match e, q with
     | OSError file_name, CREATE_TABLE table_name col_defs =>
         file_name = schema_file_name table_name
         /\ open_w file_name = Raise e
         /\ exists columns,
              columns_of col_defs = Ok columns
              /\ tables s' = dict_set String.eqb table_name
                               (mkTable columns [] (make_indexes columns []) 1)
                               (tables s)
     | OSError file_name, INSERT table_name query_columns values =>
         file_name = data_file_name table_name
         /\ open_w file_name = Raise e
         /\ exists t row,
              dict_get String.eqb table_name (tables s) = Some t
              /\ assemble_row t query_columns values = Ok row
              /\ tables s' = dict_set String.eqb table_name (inserted_table t row)
                               (tables s)
     | OSError file_name, UPDATE table_name set_ where_ =>
         file_name = data_file_name table_name
         /\ open_w file_name = Raise e
         /\ exists t t' n,
              dict_get String.eqb table_name (tables s) = Some t
              /\ update_loop t set_
                   (dict_keys (_apply_where_clause t (rows t) where_)) 0
                 = (t', n, None)
              /\ 0 < n
              /\ tables s' = dict_set String.eqb table_name t' (tables s)
     | OSError file_name, DELETE table_name where_ =>
         file_name = data_file_name table_name
         /\ open_w file_name = Raise e
         /\ exists t t' n,
              dict_get String.eqb table_name (tables s) = Some t
              /\ delete_loop t (dict_keys (_apply_where_clause t (rows t) where_)) 0
                 = (t', n, None)
              /\ 0 < n
              /\ tables s' = dict_set String.eqb table_name t' (tables s)
     | OSError _, SELECT _ _ _ _ => False
     | _, UPDATE table_name _ _ =>
         (forall T, T <> table_name ->
                    dict_get String.eqb T (tables s') = dict_get String.eqb T (tables s))
         /\ (forall t, dict_get String.eqb table_name (tables s) = Some t ->
               exists t', dict_get String.eqb table_name (tables s') = Some t'
                          /\ schema t' = schema t /\ next_row_id t' = next_row_id t
                          /\ dict_keys (rows t') = dict_keys (rows t))
         /\ (dict_get String.eqb table_name (tables s) = None -> s' = s)
     | _, _ => s' = s
     end.
Proof.
  intros Hr He. pose proof (reachable_inv s Hr) as Hs.
  destruct q as [T cols | T qc vals | T cols w j | T set_ w | T w]; simpl in He.
  - (* CREATE TABLE *)
    unfold _execute_create_table in He.
    destruct (dict_mem String.eqb T (tables s)) eqn:Hm.
    { injection He as <- <-. split; reflexivity. }
    destruct (columns_of cols) as [columns | e0] eqn:Hc.
    2:{ injection He as <- <-. split; [reflexivity |].
        pose proof (columns_of_not_os _ _ Hc) as Hno. destruct e0; try reflexivity.
        discriminate. }
    cbn [storage set_table] in He.
    destruct (save_table_schema_cases (storage s) T
                (map (fun cc => mkColumnDef (name (fst cc))
                                  (DataType_value (dtype (fst cc)))
                                  (cd_constraints (snd cc)))
                     (combine columns cols))) as [[Hw E] | [Hw E]]; rewrite E in He.
    + cbn [storage set_storage rows] in He.
      destruct (save_table_data_cases
                  (mkStorage (dict_set String.eqb T
                                (map (fun cc => mkColumnDef (name (fst cc))
                                                  (DataType_value (dtype (fst cc)))
                                                  (cd_constraints (snd cc)))
                                     (combine columns cols))
                                (schema_files (storage s)))
                             (data_files (storage s))) T [])
        as [[_ E2] | [Hw2 _]]; [rewrite E2 in He; discriminate |].
      rewrite (data_file_opens _ Hw) in Hw2. discriminate.
    + injection He as <- <-. split; [reflexivity |].
      split; [reflexivity |]. split; [exact Hw |]. exists columns. split; reflexivity.
  - (* INSERT *)
    destruct (execute_insert_spec s T qc vals Hs)
      as [(e0 & E & Hno) | (t & row & Ht & Hrow & _ & Hchk & E)]; rewrite E in He.
    + injection He as <- <-. split; [reflexivity |].
      destruct e0; try reflexivity. discriminate.
    + unfold saved in He. cbn [storage set_table] in He.
      destruct (save_table_data_cases (storage s) T
                  (dict_set Z.eqb (next_row_id t) row (rows t)))
        as [[_ E2] | [Hw E2]]; rewrite E2 in He; [discriminate |].
      injection He as <- <-. split; [reflexivity |].
      split; [reflexivity |]. split; [exact Hw |]. exists t, row. auto.
  - (* SELECT *)
    pose proof (execute_select_state s T cols w j) as E. rewrite He in E. simpl in E.
    subst s'. split; [reflexivity |].
    assert (Hno : is_os_error e = false).
    { apply (execute_select_not_os s T cols w j). now rewrite He. }
    destruct e; try reflexivity. discriminate.
  - (* UPDATE *)
    unfold _execute_update in He.
    destruct (dict_get String.eqb T (tables s)) as [t |] eqn:Ht.
    2:{ injection He as <- <-. split; [reflexivity |]. split; [reflexivity |].
        split; [discriminate | reflexivity]. }
    pose proof (update_loop_dict_keys t set_
                  (dict_keys (_apply_where_clause t (rows t) w)) 0) as [Hk Hc].
    pose proof (update_loop_schema t set_
                  (dict_keys (_apply_where_clause t (rows t) w)) 0) as Hsch.
    pose proof (update_loop_not_os t set_
                  (dict_keys (_apply_where_clause t (rows t) w)) 0) as Hno.
    destruct (update_loop _ _ _ _) as [[t' n] [e0 |]] eqn:Hl; simpl in Hk, Hc, Hsch, Hno.
    + injection He as <- <-. split; [reflexivity |]. specialize (Hno _ eq_refl).
      assert (Hup : (forall T0, T0 <> T ->
                       dict_get String.eqb T0 (tables (set_table s T t'))
                       = dict_get String.eqb T0 (tables s))
                    /\ (forall t0, Some t = Some t0 ->
                          exists t1, dict_get String.eqb T (tables (set_table s T t'))
                                     = Some t1
                                     /\ schema t1 = schema t0
                                     /\ next_row_id t1 = next_row_id t0
                                     /\ dict_keys (rows t1) = dict_keys (rows t0))
                    /\ (Some t = None -> set_table s T t' = s)).
      { split; [| split].
        - intros T0 Hne. simpl. rewrite sget_set.
          destruct (String.eqb_spec T T0); [congruence | reflexivity].
        - intros t0 [= <-]. exists t'. simpl. rewrite sget_set, String.eqb_refl.
          split; [reflexivity |]. split; [exact Hsch |]. split; [exact Hc | exact Hk].
        - discriminate. }
      destruct e0; try exact Hup. discriminate.
    + destruct (0 <? n) eqn:Hpos; [| discriminate]. cbn [storage set_table] in He.
      destruct (save_table_data_cases (storage s) T (rows t'))
        as [[_ E2] | [Hw E2]]; rewrite E2 in He; [discriminate |].
      injection He as <- <-. split; [reflexivity |].
      split; [reflexivity |]. split; [exact Hw |]. exists t, t', n.
      split; [reflexivity |]. split; [exact Hl |]. split; [lia | reflexivity].
  - (* DELETE *)
    unfold _execute_delete in He.
    destruct (dict_get String.eqb T (tables s)) as [t |] eqn:Ht.
    2:{ injection He as <- <-. split; reflexivity. }
    pose proof (delete_loop_total t w (inv_rows_wf _ (Hs _ _ Ht))) as Hn.
    destruct (delete_loop _ _ _) as [[t' n] [e0 |]] eqn:Hl; simpl in Hn; [discriminate |].
    destruct (0 <? n) eqn:Hpos; [| discriminate]. cbn [storage set_table] in He.
    destruct (save_table_data_cases (storage s) T (rows t'))
      as [[_ E2] | [Hw E2]]; rewrite E2 in He; [discriminate |].
    injection He as <- <-. split; [reflexivity |].
    split; [reflexivity |]. split; [exact Hw |]. exists t, t', n.
    split; [reflexivity |]. split; [exact Hl |]. split; [lia | reflexivity].
Qed.

(** The theorem at an UPDATE of the demonstration database that gives both
    users the same email: the first row is replaced, the second raises; the
    storage keeps the former rows while the table in memory has the new email
    in row 1. *)
Lemma raising_statement_writes_nothing_witness :
  reachable demo
  /\ execute demo (UPDATE "users" [("email", VStr "z@x.com")] None)
     = (fst (execute demo (UPDATE "users" [("email", VStr "z@x.com")] None)),
        Raise (ValueError (DuplicateValue "email" (VStr "z@x.com"))))
  /\ storage (fst (execute demo (UPDATE "users" [("email", VStr "z@x.com")] None)))
     = storage demo
  /\ load_table_data (storage demo) "users" = Some (rows demo_users)
  /\ option_map rows
       (dict_get String.eqb "users"
          (tables (fst (execute demo (UPDATE "users" [("email", VStr "z@x.com")] None)))))
     = Some [(1, [("id", VInt 1); ("name", VStr "Alice"); ("email", VStr "z@x.com")]);
             (2, [("id", VInt 2); ("name", VStr "Bob"); ("email", VStr "b@x.com")])].
Proof.
  assert (H : execute demo (UPDATE "users" [("email", VStr "z@x.com")] None)
              = (fst (execute demo (UPDATE "users" [("email", VStr "z@x.com")] None)),
                 Raise (ValueError (DuplicateValue "email" (VStr "z@x.com")))))
    by (vm_compute; reflexivity).
  split; [exact demo_reachable |]. split; [exact H |].
  split; [exact (proj1 (raising_statement_writes_nothing demo _ _ _ demo_reachable H)) |].
  split; vm_compute; reflexivity.
Defined.

(** ** Memory and storage *)

Lemma synced_commit (s : QueryExecutor) (table_name : string) (t' : Table)
      (st : Storage) :
  synced s ->
  save_table_data (storage s) table_name (rows t') = Ok st ->
  synced (set_storage (set_table s table_name t') st).
Proof.
  intros Hs Hsave T t. destruct (save_table_data_load _ _ _ _ Hsave) as [_ Hld].
  cbn [storage tables set_storage set_table]. rewrite Hld, sget_set.
  destruct (String.eqb table_name T); [now intros [= <-] | apply Hs].
Qed.

Lemma synced_same_rows (s : QueryExecutor) (table_name : string) (t t' : Table) :
  synced s -> dict_get String.eqb table_name (tables s) = Some t -> rows t' = rows t ->
  synced (set_table s table_name t').
Proof.
  intros Hs Ht Hrows T t0. unfold set_table. simpl. rewrite sget_set.
  destruct (String.eqb_spec table_name T) as [<- | Hne]; [| apply Hs].
  intros [= <-]. rewrite Hrows. now apply Hs.
Qed.

(** X6.  In a reachable state where every table in memory has its data file
    and the file holds the table's rows, every statement that returns leaves
    it so, and so does every statement other than an UPDATE that raises
    anything but the refusal of a file ([OSError]). *)
Theorem returning_statement_keeps_storage_current (s : QueryExecutor) (q : Query) :
  reachable s -> synced s ->
  match snd (execute s q) with
  | Ok _ => synced (fst (execute s q))
  | Raise e => is_os_error e = false -> is_update q = false ->
               synced (fst (execute s q))
  end.
Proof.
  intros Hr Hsync. pose proof (reachable_inv s Hr) as Hs.
  destruct (execute s q) as [s' [r | e]] eqn:He.
  - (* the statement returns *)
    cbn [fst snd]. destruct q as [T cols | T qc vals | T cols w j | T set_ w | T w];
      simpl in He.
    + unfold _execute_create_table in He.
      destruct (dict_mem String.eqb T (tables s)); [discriminate |].
      destruct (columns_of cols) as [columns | e]; [| discriminate].
      cbn [storage set_table] in He.
      destruct (save_table_schema (storage s) T _) as [st1 |] eqn:E1; [| discriminate].
      cbn [storage set_storage rows] in He.
      destruct (save_table_data st1 T []) as [st2 |] eqn:E2; [| discriminate].
      injection He as <- _. intros T0 t0. cbn [storage tables set_storage set_table].
      destruct (save_table_data_load _ _ _ _ E2) as [_ Hld2].
      destruct (save_table_schema_load _ _ _ _ E1) as [_ Hld1].
      rewrite Hld2, Hld1, sget_set.
      destruct (String.eqb T T0); [now intros [= <-] | apply Hsync].
    + destruct (execute_insert_spec s T qc vals Hs)
        as [(e0 & E & _) | (t & row & _ & _ & _ & _ & E)]; rewrite E in He;
        [discriminate |].
      unfold saved in He. cbn [storage set_table] in He.
      destruct (save_table_data (storage s) T _) as [st |] eqn:E1; [| discriminate].
      injection He as <- _. exact (synced_commit s T (inserted_table t row) st Hsync E1).
    + pose proof (execute_select_state s T cols w j) as E. rewrite He in E.
      cbn [fst] in E. now subst.
    + unfold _execute_update in He.
      destruct (dict_get String.eqb T (tables s)) as [t |] eqn:Ht; [| discriminate].
      pose proof (Hs _ _ Ht) as Hinv.
      destruct (update_loop t set_ (dict_keys (_apply_where_clause t (rows t) w)) 0)
        as [[t' n] [e |]] eqn:Hl; [discriminate |].
      destruct (0 <? n) eqn:Hpos; cbn [storage set_table] in He.
      * destruct (save_table_data (storage s) T (rows t')) as [st |] eqn:E1;
          [| discriminate].
        injection He as <- _. exact (synced_commit s T t' st Hsync E1).
      * injection He as <- _.
        destruct (update_loop_spec _ _ _ _ _ _ Hinv
                    (zwf_NoDup_keys _ (where_clause_wf t w (inv_rows_wf _ Hinv))) Hl)
          as (Hn & _).
        destruct (dict_keys (_apply_where_clause t (rows t) w)) as [| k ids].
        -- simpl in Hl. injection Hl as <- _.
           now apply (synced_same_rows s T t t).
        -- apply Z.ltb_ge in Hpos. simpl List.length in Hn. lia.
    + unfold _execute_delete in He.
      destruct (dict_get String.eqb T (tables s)) as [t |] eqn:Ht; [| discriminate].
      pose proof (Hs _ _ Ht) as Hinv.
      destruct (delete_loop t (dict_keys (_apply_where_clause t (rows t) w)) 0)
        as [[t' n] [e |]] eqn:Hl; [discriminate |].
      destruct (0 <? n) eqn:Hpos; cbn [storage set_table] in He.
      * destruct (save_table_data (storage s) T (rows t')) as [st |] eqn:E1;
          [| discriminate].
        injection He as <- _. exact (synced_commit s T t' st Hsync E1).
      * injection He as <- _.
        destruct (dict_keys (_apply_where_clause t (rows t) w)) as [| k ids] eqn:Hk.
        -- simpl in Hl. injection Hl as <- _. now apply (synced_same_rows s T t t).
        -- exfalso.
           destruct (delete_loop_spec (k :: ids) t 0 (inv_rows_wf _ Hinv))
             as (t1 & Hl1 & _).
           ++ rewrite <- Hk. apply zwf_NoDup_keys, where_clause_wf, Hinv.
           ++ intros k0 Hk0. rewrite <- Hk in Hk0. unfold dict_keys in Hk0.
              apply in_map_iff in Hk0. destruct Hk0 as ([k' row] & E & Hk0).
              simpl in E. subst k'. unfold dict_mem.
              now rewrite (where_clause_rows t w k0 row (inv_rows_wf _ Hinv) Hk0).
           ++ rewrite Hl in Hl1. injection Hl1 as _ Hn. apply Z.ltb_ge in Hpos.
              simpl List.length in Hn. lia.
  - (* the statement raises *)
    cbn [fst snd]. intros Hno Hq.
    destruct q as [T cols | T qc vals | T cols w j | T set_ w | T w];
      try discriminate Hq; simpl in He.
    + unfold _execute_create_table in He.
      destruct (dict_mem String.eqb T (tables s)); [now injection He as <- |].
      destruct (columns_of cols) as [columns | e0]; [| now injection He as <-].
      cbn [storage set_table] in He.
      destruct (save_table_schema_cases (storage s) T
                  (map (fun cc => mkColumnDef (name (fst cc))
                                    (DataType_value (dtype (fst cc)))
                                    (cd_constraints (snd cc)))
                       (combine columns cols))) as [[Hw E] | [Hw E]]; rewrite E in He.
      * cbn [storage set_storage rows] in He.
        destruct (save_table_data _ T []) as [st2 | e2] eqn:E2; [discriminate |].
        injection He as _ <-. unfold save_table_data in E2.
        destruct (open_w_cases (data_file_name T)) as [E3 | E3]; rewrite E3 in E2;
          cbn [bind] in E2; [discriminate |]. injection E2 as <-. discriminate.
      * injection He as _ <-. discriminate.
    + destruct (execute_insert_spec s T qc vals Hs)
        as [(e0 & E & _) | (t & row & _ & _ & _ & _ & E)]; rewrite E in He;
        [now injection He as <- |].
      unfold saved in He. cbn [storage set_table] in He.
      destruct (save_table_data_cases (storage s) T
                  (dict_set Z.eqb (next_row_id t) row (rows t)))
        as [[_ E2] | [_ E2]]; rewrite E2 in He; [discriminate |].
      injection He as _ <-. discriminate.
    + pose proof (execute_select_state s T cols w j) as E. rewrite He in E.
      cbn [fst] in E. now subst.
    + unfold _execute_delete in He.
      destruct (dict_get String.eqb T (tables s)) as [t |] eqn:Ht;
        [| now injection He as <-].
      pose proof (delete_loop_total t w (inv_rows_wf _ (Hs _ _ Ht))) as Hn.
      destruct (delete_loop _ _ _) as [[t' n] [e0 |]]; simpl in Hn; [discriminate |].
      destruct (0 <? n); [| discriminate]. cbn [storage set_table] in He.
      destruct (save_table_data_cases (storage s) T (rows t'))
        as [[_ E2] | [_ E2]]; rewrite E2 in He; [discriminate |].
      injection He as _ <-. discriminate.
Qed.

Lemma demo_synced : synced demo.
Proof.
  intros T t H.
  assert (E : tables demo = [("users", demo_users); ("orders", demo_orders)])
    by (vm_compute; reflexivity).
  rewrite E in H. clear E. cbn [dict_get] in H.
  destruct (String.eqb "users" T) eqn:E1.
  { apply String.eqb_eq in E1. subst T. injection H as <-. vm_compute. reflexivity. }
  destruct (String.eqb "orders" T) eqn:E2; [| discriminate H].
  apply String.eqb_eq in E2. subst T. injection H as <-. vm_compute. reflexivity.
Qed.

(** The theorem at an INSERT into the demonstration database. *)
Lemma returning_statement_keeps_storage_current_witness :
  reachable demo /\ synced demo
  /\ synced (fst (execute demo
                    (INSERT "users" None [VInt 3; VStr "Carol"; VStr "c@x.com"]))).
Proof.
  split; [exact demo_reachable |]. split; [exact demo_synced |].
  exact (returning_statement_keeps_storage_current demo
           (INSERT "users" None [VInt 3; VStr "Carol"; VStr "c@x.com"])
           demo_reachable demo_synced).
Defined.

(** ** Restart *)

Lemma load_rows_bound (columns : list Column) (items : Rows)
      (ixs : dict string Index.t) (n m : Z) :
  n <= m -> (forall k row, In (k, row) items -> k < m) ->
  snd (load_rows columns items ixs n) <= m.
Proof.
  revert ixs n. induction items as [| [r row0] items IH]; simpl; intros ixs n Hn H;
    [exact Hn |].
  apply IH.
  - pose proof (H r row0 (or_introl eq_refl)). lia.
  - intros k row Hin. apply (H k row). now right.
Qed.

Lemma load_tables_other (names : list string) (s s' : QueryExecutor) (T : string) :
  load_tables s names = Ok s' -> ~ In T names ->
  storage s' = storage s
  /\ dict_get String.eqb T (tables s') = dict_get String.eqb T (tables s).
Proof.
  revert s. induction names as [| n names IH]; simpl; intros s H Hn.
  - now injection H as <-.
  - destruct (_load_table s n) as [s1 | e] eqn:E; simpl in H; [| discriminate].
    destruct (load_table_get _ _ _ E) as (Hst & Hoth & _).
    destruct (IH s1 H) as [Hst' Hg]; [tauto |].
    split; [congruence |]. rewrite Hg. apply Hoth. intros ->. tauto.
Qed.

Lemma load_tables_get (names : list string) (s s' : QueryExecutor) (T : string)
      (cd : ColumnDef) (cds : list ColumnDef) :
  load_tables s names = Ok s' -> In T names ->
  load_table_schema (storage s) T = Some (cd :: cds) ->
  exists t', dict_get String.eqb T (tables s') = Some t'
             /\ columns_of (cd :: cds) = Ok (schema t')
             /\ rows t' = match load_table_data (storage s) T with
                          | Some d => d
                          | None => []
                          end
             /\ next_row_id t'
                = snd (load_rows (schema t') (rows t') (make_indexes (schema t') []) 1).
Proof.
  revert s. induction names as [| n names IH]; simpl; intros s H Hin Hf; [contradiction |].
  destruct (_load_table s n) as [s1 | e] eqn:E; simpl in H; [| discriminate].
  destruct (load_table_get _ _ _ E) as (Hst & Hoth & Hget).
  destruct (in_dec string_dec T names) as [Hi | Hni].
  - rewrite <- Hst in *. exact (IH s1 H Hi Hf).
  - destruct Hin as [-> | Hi]; [| contradiction].
    destruct (load_tables_other _ _ _ _ H Hni) as [_ Hg]. rewrite Hg.
    exact (Hget cd cds Hf).
Qed.

(** X7.  An executor constructed again over the storage of a reachable
    state holds only tables that have their schema file, each with the rows
    of its data file, so that memory and data files agree again.  When the
    data files held the rows of the tables in memory, a table comes back with
    the same schema and the same rows, and with a counter above every stored
    row-id and not above the former counter, provided that it has a column,
    that the file system accepts the name of its schema file (otherwise there
    is no such file) and that its name holds no dot (otherwise
    [list_tables] may give another name). *)
Theorem restart_restores_tables (s s' : QueryExecutor) :
  reachable s ->
  QueryExecutor_init (storage s) = Ok s' ->
  synced s'
  /\ (forall T t', dict_get String.eqb T (tables s') = Some t' ->
        table_exists (storage s) T = true
        /\ load_table_data (storage s) T = Some (rows t'))
  /\ (forall table_name t,
        synced s ->
        dict_get String.eqb table_name (tables s) = Some t ->
        schema t <> [] ->
        open_w (schema_file_name table_name) = Ok tt ->
        has_char "." table_name = false ->
        exists t',
          dict_get String.eqb table_name (tables s') = Some t'
          /\ schema t' = schema t /\ rows t' = rows t
          /\ (forall r row, dict_get Z.eqb r (rows t') = Some row -> r < next_row_id t')
          /\ 1 <= next_row_id t' <= next_row_id t).
Proof.
  intros Hr Hinit.
  destruct (reachable_system_inv s Hr) as (Hs & _ & Hfiles & Hl).
  assert (Hloaded : forall T t', dict_get String.eqb T (tables s') = Some t' ->
                      table_exists (storage s) T = true
                      /\ load_table_data (storage s) T = Some (rows t')).
  { intros T t' Hg.
    destruct (init_loaded _ _ _ _ Hinit Hg) as (Hrows & _ & _ & cd & cds & Hf & _).
    split; [unfold table_exists, dict_mem; unfold load_table_schema in Hf; now rewrite Hf |].
    destruct (Hfiles _ _ Hf) as (_ & d & Hd). rewrite Hd in Hrows. now rewrite Hrows. }
  assert (Hst : storage s' = storage s).
  { unfold QueryExecutor_init, _load_existing_tables in Hinit.
    exact (load_tables_storage _ _ _ Hinit). }
  split; [| split; [exact Hloaded |]].
  - intros T t' Hg. rewrite Hst. exact (proj2 (Hloaded T t' Hg)).
  - intros table_name t Hsync Ht Hne Hw Hdot.
    pose proof (Hl _ _ Ht) as Hlt.
    destruct (load_table_schema (storage s) table_name) as [col_defs |] eqn:Hf;
      [| rewrite Hw in Hlt; discriminate].
    destruct col_defs as [| cd cds]; [simpl in Hlt; injection Hlt as Hc; congruence |].
    unfold QueryExecutor_init, _load_existing_tables in Hinit. simpl in Hinit.
    assert (Hin : In table_name (list_tables (storage s))).
    { unfold list_tables, dict_keys. apply in_map_iff. exists table_name.
      split; [now apply replace_schema_suffix |].
      apply in_map_iff. exists (table_name, cd :: cds).
      split; [reflexivity |]. now apply sdict_get_In. }
    destruct (load_tables_get _ _ _ _ cd cds Hinit Hin Hf)
      as (t' & Hg & Hc' & Hrows & Hn).
    simpl in Hrows. rewrite (Hsync _ _ Ht) in Hrows.
    rewrite Hlt in Hc'. injection Hc' as Hsch.
    exists t'. split; [exact Hg |]. split; [now symmetry |]. split; [exact Hrows |].
    pose proof (load_rows_next (schema t') (rows t') (make_indexes (schema t') []) 1)
      as [H1 H2].
    rewrite <- Hn in H1, H2. split.
    + intros r row Hgr. apply (H2 r row). now apply zdict_get_In.
    + split; [exact H1 |]. rewrite Hn. apply load_rows_bound.
      * apply (inv_next _ (Hs _ _ Ht)).
      * intros k row Hk. rewrite Hrows in Hk.
        apply (zdict_In_get _ _ _ (inv_rows_wf _ (Hs _ _ Ht))) in Hk.
        apply (inv_row_id _ (Hs _ _ Ht)) in Hk. lia.
Qed.

(** The theorem at the [users] table of the demonstration database. *)
Lemma restart_restores_tables_witness :
  reachable demo /\ synced demo
  /\ QueryExecutor_init (storage demo) = Ok demo_restarted
  /\ dict_get String.eqb "users" (tables demo) = Some demo_users
  /\ schema demo_users <> []
  /\ synced demo_restarted
  /\ exists t', dict_get String.eqb "users" (tables demo_restarted) = Some t'
                /\ schema t' = schema demo_users /\ rows t' = rows demo_users.
Proof.
  assert (H0 : QueryExecutor_init (storage demo) = Ok demo_restarted)
    by (vm_compute; reflexivity).
  assert (H1 : dict_get String.eqb "users" (tables demo) = Some demo_users)
    by (vm_compute; reflexivity).
  assert (H2 : schema demo_users <> []) by discriminate.
  split; [exact demo_reachable |]. split; [exact demo_synced |].
  split; [exact H0 |]. split; [exact H1 |]. split; [exact H2 |].
  destruct (restart_restores_tables demo demo_restarted demo_reachable H0)
    as (Hsync & _ & Hback).
  split; [exact Hsync |].
  destruct (Hback "users" demo_users demo_synced H1 H2 eq_refl eq_refl)
    as (t' & Hg & Hs & Hrows & _).
  eauto.
Defined.

(** ** Tables and schemas stay *)

Lemma In_keys_mem {V} (k : string) (d : dict string V) :
  In k (dict_keys d) <-> dict_mem String.eqb k d = true.
Proof.
  unfold dict_mem, dict_keys. induction d as [| [k1 x1] d IH]; simpl.
  - split; [contradiction | discriminate].
  - destruct (String.eqb_spec k1 k) as [-> | Hne]; [tauto |].
    rewrite <- IH. split; [intros [H | H]; [contradiction | exact H] | auto].
Qed.

Lemma mem_set_mono {V} (k k' : string) (x : V) (d : dict string V) :
  dict_mem String.eqb k' d = true ->
  dict_mem String.eqb k' (dict_set String.eqb k x d) = true.
Proof.
  unfold dict_mem. rewrite sget_set. destruct (String.eqb k k'); auto.
Qed.

(** What a statement does to the tables in memory: nothing, or it sets one
    table, to a table of the same schema when there was one of that name. *)
Lemma execute_tables_shape (s : QueryExecutor) (q : Query) :
  tables (fst (execute s q)) = tables s
  \/ exists T0 t0',
       tables (fst (execute s q)) = dict_set String.eqb T0 t0' (tables s)
       /\ forall t0, dict_get String.eqb T0 (tables s) = Some t0 -> schema t0' = schema t0.
Proof.
  destruct q as [T cols | T qc vals | T cols w j | T set_ w | T w]; simpl.
  - destruct (dict_mem String.eqb T (tables s)) eqn:Hm;
      [left; unfold _execute_create_table; now rewrite Hm |].
    destruct (columns_of cols) as [columns | e] eqn:Hc;
      [| left; unfold _execute_create_table; now rewrite Hm, Hc].
    right. eexists T, _. split; [exact (create_table_tables _ _ _ _ Hm Hc) |].
    intros t0 Ht0. unfold dict_mem in Hm. rewrite Ht0 in Hm. discriminate.
  - unfold _execute_insert.
    destruct (dict_get String.eqb T (tables s)) as [t |] eqn:Ht; [| now left].
    destruct (assemble_row t qc vals); [| now left].
    destruct (_check_constraints t _ None); [now left |].
    destruct (insert_indexes _ _ _) as [ixs [c |]]; right.
    + eexists T, _. split; [reflexivity |]. intros t0 Ht0. rewrite Ht in Ht0.
      now injection Ht0 as <-.
    + destruct (save_table_data _ _ _); (eexists T, _; split; [reflexivity |]);
        intros t0 Ht0; rewrite Ht in Ht0; now injection Ht0 as <-.
  - rewrite execute_select_state. now left.
  - destruct (dict_get String.eqb T (tables s)) as [t |] eqn:Ht;
      [| left; unfold _execute_update; now rewrite Ht].
    right. eexists T, _. split; [exact (update_tables _ _ _ _ _ Ht) |].
    intros t0 Ht0. rewrite Ht in Ht0. injection Ht0 as <-. apply update_loop_schema.
  - destruct (dict_get String.eqb T (tables s)) as [t |] eqn:Ht;
      [| left; unfold _execute_delete; now rewrite Ht].
    right. eexists T, _. split; [exact (delete_tables _ _ _ _ Ht) |].
    intros t0 Ht0. rewrite Ht in Ht0. injection Ht0 as <-. apply delete_loop_schema.
Qed.

Lemma saved_schema_files (s : QueryExecutor) (table_name : string) (rows_ : Rows)
      (r : Response) :
  schema_files (storage (fst (saved s table_name rows_ r))) = schema_files (storage s).
Proof.
  unfold saved.
  destruct (save_table_data_cases (storage s) table_name rows_) as [[_ ->] | [_ ->]];
    reflexivity.
Qed.

(** What a statement does to the schema files: nothing, or a CREATE TABLE
    writes the schema file of a table that was not in memory. *)
Lemma execute_schema_files (s : QueryExecutor) (q : Query) :
  schema_files (storage (fst (execute s q))) = schema_files (storage s)
  \/ exists T0 col_defs,
       dict_mem String.eqb T0 (tables s) = false
       /\ schema_files (storage (fst (execute s q)))
          = dict_set String.eqb T0 col_defs (schema_files (storage s)).
Proof.
  destruct q as [T cols | T qc vals | T cols w j | T set_ w | T w]; simpl.
  - unfold _execute_create_table.
    destruct (dict_mem String.eqb T (tables s)) eqn:Hm; [now left |].
    destruct (columns_of cols) as [columns | e]; [| now left].
    cbn [storage set_table].
    destruct (save_table_schema_cases (storage s) T
                (map (fun cc => mkColumnDef (name (fst cc))
                                  (DataType_value (dtype (fst cc)))
                                  (cd_constraints (snd cc)))
                     (combine columns cols))) as [[_ ->] | [_ ->]]; [| now left].
    right. eexists T, _. split; [exact Hm |]. cbn [storage set_storage rows].
    match goal with
    | |- context [save_table_data ?st ?T ?d] =>
        destruct (save_table_data_cases st T d) as [[_ ->] | [_ ->]]; reflexivity
    end.
  - unfold _execute_insert.
    destruct (dict_get String.eqb T (tables s)) as [t |]; [| now left].
    destruct (assemble_row t qc vals); [| now left].
    destruct (_check_constraints t _ None); [now left |].
    destruct (insert_indexes _ _ _) as [ixs [c |]]; [now left |]. left.
    exact (saved_schema_files (set_table s T _) T _ (Inserted (next_row_id t))).
  - rewrite execute_select_state. now left.
  - unfold _execute_update.
    destruct (dict_get String.eqb T (tables s)) as [t |]; [| now left].
    destruct (update_loop _ _ _ _) as [[t' n] [e |]]; [now left |].
    destruct (0 <? n); [| now left]. left.
    exact (saved_schema_files (set_table s T t') T _ (Updated n)).
  - unfold _execute_delete.
    destruct (dict_get String.eqb T (tables s)) as [t |]; [| now left].
    destruct (delete_loop _ _ _) as [[t' n] [e |]]; [now left |].
    destruct (0 <? n); [| now left]. left.
    exact (saved_schema_files (set_table s T t') T _ (Deleted n)).
Qed.

(** X8.  No statement removes a table or changes the schema of a table:
    whatever the state and the statement, a table in memory is still there
    afterwards with the same columns and the same schema file, every schema
    file stays, and every name [list_tables] gave is still given.
    [list_tables] gives a table that exists under its own name when the name
    holds no dot, and on a storage where no name holds a dot [table_exists]
    and [list_tables] agree. *)
Theorem no_statement_drops_a_table (s : QueryExecutor) (q : Query) :
  (forall T t, dict_get String.eqb T (tables s) = Some t ->
     exists t', dict_get String.eqb T (tables (fst (execute s q))) = Some t'
                /\ schema t' = schema t
                /\ load_table_schema (storage (fst (execute s q))) T
                   = load_table_schema (storage s) T)
  /\ (forall T, table_exists (storage s) T = true ->
                table_exists (storage (fst (execute s q))) T = true)
  /\ (forall T, In T (DatabaseEngine_list_tables s) ->
                In T (DatabaseEngine_list_tables (fst (execute s q))))
  /\ (forall st T, has_char "." T = false -> table_exists st T = true ->
                   In T (list_tables st))
  /\ (forall st, (forall T, table_exists st T = true -> has_char "." T = false) ->
                 forall T, In T (list_tables st) <-> table_exists st T = true).
Proof.
  assert (Hlist : forall st T, has_char "." T = false -> table_exists st T = true ->
                               In T (list_tables st)).
  { intros st T Hd He. unfold list_tables. apply in_map_iff. exists T.
    split; [now apply replace_schema_suffix | now apply In_keys_mem]. }
  split; [| split; [| split; [| split; [exact Hlist |]]]].
  - intros T t Ht.
    assert (Hmem : exists t', dict_get String.eqb T (tables (fst (execute s q))) = Some t'
                              /\ schema t' = schema t).
    { destruct (execute_tables_shape s q) as [-> | (T0 & t0' & -> & Hsch)]; [eauto |].
      rewrite sget_set. destruct (String.eqb_spec T0 T) as [-> | Hne]; [| eauto].
      exists t0'. split; [reflexivity | now apply Hsch]. }
    destruct Hmem as (t' & Hg & Hsch). exists t'. split; [exact Hg |].
    split; [exact Hsch |]. unfold load_table_schema.
    destruct (execute_schema_files s q) as [-> | (T0 & cds & Hm & ->)]; [reflexivity |].
    rewrite sget_set. destruct (String.eqb_spec T0 T) as [-> | Hne]; [| reflexivity].
    unfold dict_mem in Hm. rewrite Ht in Hm. discriminate.
  - intros T. unfold table_exists.
    destruct (execute_schema_files s q) as [-> | (T0 & cds & _ & ->)]; [auto |].
    apply mem_set_mono.
  - unfold DatabaseEngine_list_tables, list_tables. intros T Hin.
    apply in_map_iff in Hin. destruct Hin as (T1 & E & Hin). apply in_map_iff.
    exists T1. split; [exact E |]. apply In_keys_mem. apply In_keys_mem in Hin.
    destruct (execute_schema_files s q) as [-> | (T0 & cds & _ & ->)]; [exact Hin |].
    now apply mem_set_mono.
  - intros st Hnames T. split; [| intros He; apply Hlist; [now apply Hnames | exact He]].
    unfold list_tables. intros Hin. apply in_map_iff in Hin.
    destruct Hin as (T1 & E & Hin). apply In_keys_mem in Hin.
    rewrite (replace_schema_suffix T1 (Hnames T1 Hin)) in E. now subst.
Qed.

(** ** The index of types.py *)

Lemma vdict_set_In {V} (k k0 : value) (x x0 : V) (d : dict value V) :
  In (k, x) (dict_set py_eq k0 x0 d) ->
  In (k, x) d \/ (x = x0 /\ (k = k0 \/ py_eq k k0 = true)).
Proof.
  induction d as [| [k1 x1] d IH]; simpl.
  - intros [[= E1 E2] | []]. subst. auto.
  - destruct (py_eq k1 k0) eqn:E; simpl.
    + intros [[= E1 E2] | H]; [subst; auto | auto].
    + intros [H | H]; [auto |]. destruct (IH H); auto.
Qed.

Lemma search_entry (ix : Index.t) (v : value) :
  Index.search ix v = []
  \/ exists k, In (k, Index.search ix v) (Index._index ix) /\ py_eq k v = true.
Proof.
  unfold Index.search.
  destruct (dict_get py_eq v (Index._index ix)) as [s |] eqn:E; [right | now left].
  exact (dict_get_In py_eq _ _ _ E).
Qed.

Lemma NoDup_set_add (r : Z) (s : list Z) : NoDup s -> NoDup (set_add r s).
Proof.
  intros H. unfold set_add. destruct (existsb (Z.eqb r) s) eqn:E; [exact H |].
  apply NoDup_app; [exact H | repeat constructor; tauto |].
  intros x Hx [-> | []].
  assert (existsb (Z.eqb x) s = true)
    by (apply existsb_exists; exists x; split; [exact Hx | apply Z.eqb_refl]).
  congruence.
Qed.

Lemma set_add_nonempty (r : Z) (s : list Z) : set_add r s <> [].
Proof.
  unfold set_add. destruct (existsb (Z.eqb r) s) eqn:E.
  - destruct s; [discriminate | discriminate].
  - destruct s; discriminate.
Qed.

Lemma NoDup_set_discard (r : Z) (s : list Z) : NoDup s -> NoDup (set_discard r s).
Proof. apply NoDup_filter. Qed.

Lemma set_discard_add (r : Z) (s : list Z) : ~ In r s -> set_discard r (set_add r s) = s.
Proof.
  intros H. unfold set_add.
  assert (Hs : set_discard r s = s).
  { unfold set_discard. induction s as [| x s IH]; simpl; [reflexivity |].
    destruct (Z.eqb_spec x r) as [-> | Hne]; [destruct H; now left |].
    simpl. f_equal. apply IH. intros Hin. apply H. now right. }
  destruct (existsb (Z.eqb r) s); [exact Hs |].
  unfold set_discard in *. rewrite filter_app, Hs. simpl. rewrite Z.eqb_refl. simpl.
  apply app_nil_r.
Qed.

Lemma Index_built_inv (ix : Index.t) :
  Index_built ix -> dict_wf py_eq (Index._index ix) /\ entries_proper ix.
Proof.
  induction 1 as [c u | ix v r Hb [Hw He] | ix v r Hb [Hw He]].
  - split; [exact I | intros v s []].
  - split; [now apply wf_insert |].
    unfold Index.insert. destruct (is_none v) eqn:Hv; [exact He |].
    destruct (Index.is_unique ix && Index.has_value ix v && nonempty (Index.search ix v))
      eqn:Hrefuse; [exact He |].
    intros k s Hin. simpl in Hin. apply vdict_set_In in Hin.
    destruct Hin as [Hin | [-> Hk]]; [exact (He k s Hin) |]. split.
    { destruct Hk as [-> | Hk]; [exact Hv |]. now rewrite (py_eq_is_none _ _ Hk). }
    split; [apply set_add_nonempty |]. split.
    + apply NoDup_set_add. destruct (search_entry ix v) as [-> | (k0 & Hin0 & _)];
        [constructor | apply (He _ _ Hin0)].
    + simpl. intros Hu. rewrite Hu in Hrefuse. simpl in Hrefuse.
      assert (Hs : Index.search ix v = []).
      { destruct (Index.has_value ix v) eqn:Hh;
          [now apply nonempty_false | now apply has_value_false_search]. }
      now rewrite Hs.
  - split; [now apply wf_delete |].
    unfold Index.delete. destruct (Index.has_value ix v) eqn:Hh; [| exact He].
    destruct (nonempty (set_discard r (Index.search ix v))) eqn:Hn.
    + intros k s Hin. simpl in Hin. apply vdict_set_In in Hin.
      destruct Hin as [Hin | [-> Hk]]; [exact (He k s Hin) |].
      destruct (search_entry ix v) as [E | (k0 & Hin0 & Hk0)];
        [rewrite E in Hn; discriminate |].
      destruct (He _ _ Hin0) as (Hnone & _ & Hnd & Hlen).
      assert (Hv : is_none v = false) by now rewrite <- (py_eq_is_none _ _ Hk0).
      split; [destruct Hk as [-> | Hk]; [exact Hv | now rewrite (py_eq_is_none _ _ Hk)] |].
      split; [intros E; rewrite E in Hn; discriminate |].
      split; [now apply NoDup_set_discard |].
      simpl. intros Hu. specialize (Hlen Hu).
      pose proof (length_set_discard r (Index.search ix v)).
      destruct (set_discard r (Index.search ix v)); [discriminate | simpl in *; lia].
    + intros k s Hin. simpl in Hin. apply dict_del_In in Hin. exact (He k s Hin).
Qed.

(** X9.  An index built by [Index(...)], [insert], [delete] and [update]
    never has NULL as a key and never keeps a value without a row-id:
    [has_value] holds exactly of the values [search] finds a row-id for, a
    search for NULL finds nothing, the row-ids [search] yields are distinct,
    and a unique index yields at most one. *)
Theorem index_holds_no_null_and_no_empty_entry (ix : Index.t) :
  Index_built ix ->
  Index.has_value ix VNone = false
  /\ Index.search ix VNone = []
  /\ (forall v, Index.has_value ix v = nonempty (Index.search ix v))
  /\ (forall v, NoDup (Index.search ix v))
  /\ (Index.is_unique ix = true ->
      forall v, (List.length (Index.search ix v) <= 1)%nat)
  /\ (forall old_value new_value r,
        Index_built (fst (Index.update ix old_value new_value r))).
Proof.
  intros Hb. destruct (Index_built_inv ix Hb) as [Hw He].
  assert (Hnone : Index.has_value ix VNone = false).
  { unfold Index.has_value, dict_mem.
    destruct (dict_get py_eq VNone (Index._index ix)) as [s |] eqn:E; [| reflexivity].
    destruct (dict_get_In py_eq _ _ _ E) as (k & Hin & Hk).
    destruct (He k s Hin) as (Hn & _). rewrite py_eq_none_r in Hk. congruence. }
  split; [exact Hnone |]. split; [now apply has_value_false_search |].
  split; [| split; [| split]].
  - intros v. unfold Index.has_value, dict_mem, Index.search.
    destruct (dict_get py_eq v (Index._index ix)) as [s |] eqn:E; [| reflexivity].
    destruct (dict_get_In py_eq _ _ _ E) as (k & Hin & _).
    destruct (He k s Hin) as (_ & Hs & _). destruct s; [congruence | reflexivity].
  - intros v. destruct (search_entry ix v) as [-> | (k & Hin & _)]; [constructor |].
    apply (He _ _ Hin).
  - intros Hu v. destruct (search_entry ix v) as [-> | (k & Hin & _)]; [simpl; lia |].
    destruct (He _ _ Hin) as (_ & _ & _ & Hlen). rewrite (Hlen Hu). lia.
  - intros o n r. unfold Index.update. now apply built_insert, built_delete.
Qed.

(** The theorem at the index of [email] in the demonstration database after
    one insert and one update. *)
Lemma index_holds_no_null_and_no_empty_entry_witness :
  Index_built (fst (Index.update
                      (fst (Index.insert (Index.new "email" true) (VStr "a@x.com") 1))
                      (VStr "a@x.com") VNone 1))
  /\ Index.has_value
       (fst (Index.update
               (fst (Index.insert (Index.new "email" true) (VStr "a@x.com") 1))
               (VStr "a@x.com") VNone 1)) VNone = false.
Proof.
  assert (H : Index_built (fst (Index.update
                      (fst (Index.insert (Index.new "email" true) (VStr "a@x.com") 1))
                      (VStr "a@x.com") VNone 1))).
  { unfold Index.update. apply built_insert, built_delete, built_insert, built_new. }
  split; [exact H |].
  exact (proj1 (index_holds_no_null_and_no_empty_entry _ H)).
Defined.

(** X10.  Inserting a row-id under a value and deleting it again gives the
    index back as far as [search] and [has_value] can tell, whenever the
    insert was accepted and the row-id was not already under the value. *)
Theorem index_delete_undoes_insert (ix : Index.t) (v : value) (r : Z) :
  Index_built ix ->
  snd (Index.insert ix v r) = true ->
  ~ In r (Index.search ix v) ->
  forall v',
    Index.search (Index.delete (fst (Index.insert ix v r)) v r) v' = Index.search ix v'
    /\ Index.has_value (Index.delete (fst (Index.insert ix v r)) v r) v'
       = Index.has_value ix v'.
Proof.
  intros Hb Hok Hfresh v'.
  assert (Hs : Index.search (Index.delete (fst (Index.insert ix v r)) v r) v'
               = Index.search ix v').
  { destruct (Index_built_inv ix Hb) as [Hw _].
    rewrite (search_delete _ _ _ _ (wf_insert ix v r Hw)), (search_insert _ _ _ _ Hok).
    destruct (py_eq v v') eqn:E; [| now rewrite andb_false_r].
    destruct (is_none v) eqn:Hn; simpl.
    - assert (Hv' : Index.search ix v' = []).
      { destruct (search_entry ix v') as [-> | (k & Hin & Hk)]; [reflexivity |].
        destruct (Index_built_inv ix Hb) as [_ He]. destruct (He _ _ Hin) as (Hkn & _).
        rewrite (py_eq_is_none _ _ Hk), <- (py_eq_is_none _ _ E) in Hkn. congruence. }
      now rewrite Hv'.
    - apply set_discard_add. now rewrite <- (search_congr ix v v' E). }
  split; [exact Hs |].
  assert (Hb' : Index_built (Index.delete (fst (Index.insert ix v r)) v r))
    by now apply built_delete, built_insert.
  assert (Hhv : forall ix0, Index_built ix0 ->
                  Index.has_value ix0 v' = nonempty (Index.search ix0 v')).
  { intros ix0 Hb0. destruct (Index_built_inv ix0 Hb0) as [_ He].
    unfold Index.has_value, dict_mem, Index.search.
    destruct (dict_get py_eq v' (Index._index ix0)) as [s |] eqn:E; [| reflexivity].
    destruct (dict_get_In py_eq _ _ _ E) as (k & Hin & _).
    destruct (He k s Hin) as (_ & Hne & _). destruct s; [congruence | reflexivity]. }
  now rewrite (Hhv _ Hb'), (Hhv _ Hb), Hs.
Qed.

(** The theorem at a non-unique index that holds row 1 under the value 7. *)
Lemma index_delete_undoes_insert_witness :
  Index_built (fst (Index.insert (Index.new "n" false) (VInt 7) 1))
  /\ snd (Index.insert (fst (Index.insert (Index.new "n" false) (VInt 7) 1)) (VInt 7) 2)
     = true
  /\ Index.search (Index.delete
                     (fst (Index.insert (fst (Index.insert (Index.new "n" false) (VInt 7) 1))
                                        (VInt 7) 2)) (VInt 7) 2) (VBool true)
     = Index.search (fst (Index.insert (Index.new "n" false) (VInt 7) 1)) (VBool true).
Proof.
  assert (H : Index_built (fst (Index.insert (Index.new "n" false) (VInt 7) 1)))
    by apply built_insert, built_new.
  split; [exact H |]. split; [reflexivity |].
  refine (proj1 (index_delete_undoes_insert _ (VInt 7) 2 H eq_refl _ (VBool true))).
  simpl. intros [E | []]. discriminate.
Defined.

(** ** Literals *)

Lemma append_nil_r (a : string) : a ++ "" = a.
Proof. induction a as [| c a IH]; simpl; [reflexivity | now rewrite IH]. Qed.

Lemma append_assoc (a b c : string) : (a ++ b) ++ c = a ++ (b ++ c).
Proof. induction a as [| x a IH]; simpl; [reflexivity | now rewrite IH]. Qed.

Lemma drop_append (a b : string) : PyStr.drop (String.length a) (a ++ b) = b.
Proof. induction a as [| c a IH]; simpl; [now destruct b | exact IH]. Qed.

Lemma take_append (a b : string) : PyStr.take (String.length a) (a ++ b) = a.
Proof. induction a as [| c a IH]; simpl; [now destruct b | now rewrite IH]. Qed.

Lemma rstrip_by_last (p : ascii -> bool) (s : string) (c : ascii) :
  p c = false ->
  PyStr.rstrip_by p (s ++ String c "") = s ++ String c "".
Proof.
  intros Hc. induction s as [| a s IH]; simpl.
  - now rewrite Hc.
  - rewrite IH. destruct s; simpl; now rewrite andb_false_r.
Qed.

(** A text between two quote characters is its own [strip]. *)
Lemma strip_quoted (q : ascii) (s : string) :
  PyStr.is_space q = false ->
  PyStr.strip (String q (s ++ String q "")) = String q (s ++ String q "").
Proof.
  intros Hq. unfold PyStr.strip. cbn [PyStr.lstrip_by]. rewrite Hq.
  change (String q (s ++ String q "")) with (String q s ++ String q "").
  now apply rstrip_by_last.
Qed.

Lemma endswith_last (q : ascii) (s : string) :
  PyStr.endswith (String q "") (s ++ String q "") = true.
Proof.
  unfold PyStr.endswith. rewrite length_append. simpl String.length.
  replace (String.length s + 1 - 1)%nat with (String.length s) by lia.
  rewrite drop_append, String.eqb_refl.
  rewrite andb_true_r. apply Nat.leb_le. lia.
Qed.

Lemma slice_quoted (q : ascii) (s : string) :
  PyStr.slice_1_m1 (String q (s ++ String q "")) = s.
Proof.
  unfold PyStr.slice_1_m1. cbn [PyStr.drop String.length]. rewrite length_append.
  simpl String.length.
  replace (S (String.length s + 1) - 2)%nat with (String.length s) by lia.
  apply take_append.
Qed.

(** X11.  A literal between single quotes, or between double quotes, parses
    to the text between the quotes, character for character: there is no
    escape syntax, and keywords, digits and blanks inside the quotes stay
    text. *)
Theorem quoted_literal_parses_to_its_text (s : string) :
  QueryParser._parse_value ("'" ++ s ++ "'") = Ok (VStr s)
  /\ QueryParser._parse_value (QueryParser.dquote ++ s ++ QueryParser.dquote)
     = Ok (VStr s).
Proof.
  split.
  - unfold QueryParser._parse_value.
    change ("'" ++ s ++ "'") with (String "'" (s ++ String "'" "")).
    rewrite (strip_quoted "'" s eq_refl).
    cbn [PyStr.upper]. change (PyStr.upper_char "'") with "'"%char.
    cbn [String.eqb Ascii.eqb Bool.eqb]. cbn [PyStr.startswith Ascii.eqb Bool.eqb andb].
    change (String "'" (s ++ String "'" "")) with (String "'" s ++ String "'" "").
    rewrite endswith_last.
    change (String "'" s ++ String "'" "") with (String "'" (s ++ String "'" "")).
    now rewrite slice_quoted.
  - unfold QueryParser._parse_value, QueryParser.dquote.
    set (q := ascii_of_nat 34).
    change (String q "" ++ s ++ String q "") with (String q (s ++ String q "")).
    rewrite (strip_quoted q s eq_refl).
    cbn [PyStr.upper]. change (PyStr.upper_char q) with q.
    assert (E1 : forall x y, String.eqb (String q x) (String "N" y) = false) by reflexivity.
    assert (E2 : forall x y, String.eqb (String q x) (String "T" y) = false) by reflexivity.
    assert (E3 : forall x y, String.eqb (String q x) (String "F" y) = false) by reflexivity.
    rewrite E1, E2, E3.
    assert (E4 : forall x, PyStr.startswith "'" (String q x) = false) by reflexivity.
    rewrite E4. simpl andb.
    change (String q (s ++ String q "")) with (String q s ++ String q "").
    rewrite endswith_last.
    change (String q s ++ String q "") with (String q (s ++ String q "")).
    now rewrite slice_quoted.
Qed.

Lemma digit_char_spec (d : Z) :
  0 <= d < 10 ->
  PyStr.is_digit (digit_char d) = true /\ PyStr.digit_val (digit_char d) = d.
Proof.
  intros H.
  assert (E : d = 0 \/ d = 1 \/ d = 2 \/ d = 3 \/ d = 4 \/ d = 5 \/ d = 6 \/ d = 7
              \/ d = 8 \/ d = 9) by lia.
  repeat (destruct E as [-> | E]; [split; reflexivity |]). subst. split; reflexivity.
Qed.

Lemma all_digits_app (a b : string) :
  PyStr.all_digits (a ++ b) = PyStr.all_digits a && PyStr.all_digits b.
Proof.
  induction a as [| c a IH]; simpl; [reflexivity |]. now rewrite IH, andb_assoc.
Qed.

(** [str_digits] writes a non-empty run of digits whose value is [n]. *)
Lemma str_digits_spec (fuel : nat) (n : Z) (acc : string) :
  0 <= n < Z.of_nat fuel ->
  exists ds,
    str_digits fuel n acc = ds ++ acc
    /\ ds <> "" /\ PyStr.all_digits ds = true
    /\ forall a rest,
         PyStr.digits_value a (ds ++ rest)
         = PyStr.digits_value (a * 10 ^ Z.of_nat (String.length ds) + n) rest.
Proof.
  revert n acc. induction fuel as [| fuel IH]; intros n acc Hn; [lia |].
  assert (Hd : 0 <= n mod 10 < 10) by (apply Z.mod_pos_bound; lia).
  destruct (digit_char_spec _ Hd) as [Hdig Hval].
  set (c := digit_char (n mod 10)) in *.
  assert (Hstep : str_digits (S fuel) n acc
                  = if n <? 10 then String c acc
                    else str_digits fuel (n / 10) (String c acc)) by reflexivity.
  rewrite Hstep. clear Hstep. destruct (n <? 10) eqn:E.
  - apply Z.ltb_lt in E. exists (String c "").
    split; [reflexivity |]. split; [discriminate |].
    split; [cbn [PyStr.all_digits]; now rewrite Hdig |].
    intros a rest. cbn [append PyStr.digits_value String.length].
    rewrite Hval, Z.mod_small by lia. f_equal.
    change (Z.of_nat 1) with 1. rewrite Z.pow_1_r. lia.
  - apply Z.ltb_ge in E.
    destruct (IH (n / 10) (String c acc)) as (ds & Hs & Hne & Hall & Hv).
    { split; [apply Z.div_pos; lia |].
      assert (n / 10 < n) by (apply Z.div_lt; lia). lia. }
    exists (ds ++ String c "").
    split; [rewrite Hs, append_assoc; reflexivity |].
    split; [destruct ds; discriminate |].
    split; [rewrite all_digits_app, Hall; cbn [PyStr.all_digits andb]; now rewrite Hdig |].
    intros a rest. rewrite append_assoc. cbn [append]. rewrite Hv.
    cbn [PyStr.digits_value]. rewrite Hval.
    f_equal. rewrite length_append. cbn [String.length].
    rewrite Nat2Z.inj_add, Z.pow_add_r by lia.
    change (Z.of_nat 1) with 1. rewrite Z.pow_1_r.
    pose proof (Z.div_mod n 10). lia.
Qed.

Lemma digit_is_plain (c : ascii) :
  PyStr.is_digit c = true ->
  PyStr.is_space c = false /\ PyStr.upper_char c = c
  /\ Ascii.eqb c "N" = false /\ Ascii.eqb c "T" = false /\ Ascii.eqb c "F" = false
  /\ Ascii.eqb "'" c = false /\ Ascii.eqb (ascii_of_nat 34) c = false.
Proof.
  destruct c as [[] [] [] [] [] [] [] []]; try discriminate; intros _; repeat split.
Qed.

Lemma digits_no_space (s : string) : PyStr.all_digits s = true -> has_space s = false.
Proof.
  induction s as [| c s IH]; simpl; [reflexivity |]. intros H.
  apply andb_prop in H. destruct H as [Hc Hs].
  destruct (digit_is_plain c Hc) as (-> & _). now apply IH.
Qed.

Lemma rstrip_no_space (s : string) :
  has_space s = false -> PyStr.rstrip_by PyStr.is_space s = s.
Proof.
  induction s as [| c s IH]; simpl; [reflexivity |]. intros H.
  apply orb_false_elim in H. destruct H as [Hc Hs]. now rewrite (IH Hs), Hc.
Qed.

Lemma strip_no_space (s : string) : has_space s = false -> PyStr.strip s = s.
Proof.
  intros H. unfold PyStr.strip.
  assert (E : PyStr.lstrip_by PyStr.is_space s = s).
  { destruct s as [| c s]; [reflexivity |]. simpl in *.
    apply orb_false_elim in H. destruct H as [-> _]. reflexivity. }
  rewrite E. now apply rstrip_no_space.
Qed.

Lemma string_eqb_head (a b : ascii) (x y : string) :
  Ascii.eqb a b = false -> String.eqb (String a x) (String b y) = false.
Proof. intros H. simpl. now rewrite H. Qed.

Lemma parse_value_digits (ds : string) :
  ds <> "" -> PyStr.all_digits ds = true ->
  QueryParser._parse_value ds = (n <- PyInt.of_digits false ds ;; Ok (VInt n))
  /\ QueryParser._parse_value (String "-" ds)
     = (n <- PyInt.of_digits true ds ;; Ok (VInt n)).
Proof.
  intros Hne Hall. pose proof (digits_no_space ds Hall) as Hsp.
  destruct ds as [| d ds']; [congruence |].
  pose proof Hall as Hall'. simpl in Hall'. apply andb_prop in Hall'.
  destruct Hall' as [Hd _].
  destruct (digit_is_plain d Hd) as (_ & Hu & HN & HT & HF & Hq & Hdq).
  split.
  - unfold QueryParser._parse_value. rewrite (strip_no_space _ Hsp).
    cbn [PyStr.upper]. rewrite Hu.
    rewrite (string_eqb_head _ _ _ _ HN), (string_eqb_head _ _ _ _ HT),
      (string_eqb_head _ _ _ _ HF).
    cbn [PyStr.startswith QueryParser.dquote]. rewrite Hq, Hdq. cbn [andb].
    unfold PyStr.isdigit. rewrite Hall. reflexivity.
  - unfold QueryParser._parse_value.
    assert (Hsp' : has_space (String "-" (String d ds')) = false) by exact Hsp.
    rewrite (strip_no_space _ Hsp'). cbn [PyStr.upper].
    change (PyStr.upper_char "-") with "-"%char.
    rewrite (string_eqb_head "-" "N" _ _ eq_refl), (string_eqb_head "-" "T" _ _ eq_refl),
      (string_eqb_head "-" "F" _ _ eq_refl).
    cbn [PyStr.startswith QueryParser.dquote]. cbn [Ascii.eqb Bool.eqb andb].
    unfold PyStr.isdigit at 1. cbn [PyStr.all_digits PyStr.is_empty negb andb].
    change (PyStr.is_digit "-") with false. cbn [andb].
    unfold PyStr.slice_1. cbn [PyStr.drop]. unfold PyStr.isdigit. rewrite Hall.
    reflexivity.
Qed.

(** The number of digits [str_digits] writes: the least [k >= 1] with
    [n < 10 ^ k]. *)
Lemma str_digits_length (fuel : nat) (n : Z) (acc : string) :
  0 <= n < Z.of_nat fuel ->
  exists k : nat,
    String.length (str_digits fuel n acc) = (k + String.length acc)%nat
    /\ (1 <= k)%nat /\ n < 10 ^ Z.of_nat k
    /\ (n < 10 \/ 10 ^ (Z.of_nat k - 1) <= n).
Proof.
  revert n acc. induction fuel as [| fuel IH]; intros n acc Hn; [lia |].
  set (c := digit_char (n mod 10)).
  assert (Hstep : str_digits (S fuel) n acc
                  = if n <? 10 then String c acc
                    else str_digits fuel (n / 10) (String c acc)) by reflexivity.
  rewrite Hstep. clear Hstep. destruct (n <? 10) eqn:E.
  - apply Z.ltb_lt in E. exists 1%nat. split; [reflexivity |]. split; [lia |].
    change (Z.of_nat 1) with 1. rewrite Z.pow_1_r. lia.
  - apply Z.ltb_ge in E.
    assert (Hdiv : 1 <= n / 10 < n).
    { split; [apply Z.div_le_lower_bound; lia | apply Z.div_lt; lia]. }
    destruct (IH (n / 10) (String c acc)) as (k & Hlen & Hk & Hub & Hlb); [lia |].
    exists (S k). split; [rewrite Hlen; cbn [String.length]; lia |]. split; [lia |].
    pose proof (Z.div_mod n 10 ltac:(lia)) as Hdm.
    pose proof (Z.mod_pos_bound n 10 ltac:(lia)) as Hmod.
    rewrite Nat2Z.inj_succ, Z.pow_succ_r by lia. split; [lia |]. right.
    replace (Z.succ (Z.of_nat k) - 1) with (Z.of_nat k) by lia.
    destruct Hlb as [Hlt | Hge].
    + (* n / 10 is one digit: k = 1 *)
      assert (k = 1%nat).
      { destruct k as [| [| k']]; [lia | reflexivity |].
        exfalso. revert Hlen. clear -Hlt Hdiv.
        intros Hlen. destruct fuel as [| fuel']; cbn [str_digits] in Hlen.
        - cbn [String.length] in Hlen. lia.
        - replace (n / 10 <? 10) with true in Hlen by (symmetry; apply Z.ltb_lt; lia).
          cbn [String.length] in Hlen. lia. }
      subst k. change (Z.of_nat 1) with 1. rewrite Z.pow_1_r. lia.
    + replace (Z.of_nat k) with (Z.succ (Z.of_nat k - 1)) by lia.
      rewrite Z.pow_succ_r by lia. lia.
Qed.

(** [str(n)] of a natural number has at most [k] digits exactly when
    [n < 10 ^ k]. *)
Lemma str_int_digits (n : Z) (k : nat) :
  0 <= n -> (1 <= k)%nat ->
  ((String.length (str_int n) <= k)%nat <-> n < 10 ^ Z.of_nat k).
Proof.
  intros Hn Hk. unfold str_int.
  replace (n <? 0) with false by (symmetry; apply Z.ltb_ge; lia).
  destruct (str_digits_length (S (Z.to_nat n)) n "") as (m & Hlen & Hm & Hub & Hlb);
    [lia |].
  rewrite Hlen. cbn [String.length]. rewrite Nat.add_0_r. split.
  - intros Hle. apply (Z.lt_le_trans _ _ _ Hub).
    apply Z.pow_le_mono_r; lia.
  - intros Hlt. destruct (Nat.le_gt_cases m k) as [H | H]; [exact H | exfalso].
    destruct Hlb as [Hlb | Hlb].
    + assert (10 ^ 1 <= 10 ^ Z.of_nat k) by (apply Z.pow_le_mono_r; lia).
      assert (m = 1%nat); [| lia].
      destruct m as [| [| m']]; [lia | reflexivity | exfalso].
      clear -Hlen Hlb Hn. cbn [str_digits] in Hlen.
      replace (n <? 10) with true in Hlen by (symmetry; apply Z.ltb_lt; lia).
      cbn [String.length] in Hlen. lia.
    + assert (10 ^ Z.of_nat k <= 10 ^ (Z.of_nat m - 1)) by (apply Z.pow_le_mono_r; lia).
      lia.
Qed.

(** X12.  The decimal text of an integer below [10 ^ 4300] in absolute value
    parses back to that integer; the text of any other integer, which has
    more than 4300 digits, makes [_parse_value] raise the [ValueError] of
    [int]. *)
Theorem integer_literal_round_trip (z : Z) :
  (Z.abs z < 10 ^ Z.of_nat PyInt.MAX_STR_DIGITS ->
   QueryParser._parse_value (str_int z) = Ok (VInt z))
  /\ (10 ^ Z.of_nat PyInt.MAX_STR_DIGITS <= Z.abs z ->
      QueryParser._parse_value (str_int z)
      = Raise (ValueError (IntMaxStrDigits (String.length (str_int (Z.abs z)))))).
Proof.
  assert (Hk : (1 <= PyInt.MAX_STR_DIGITS)%nat) by (unfold PyInt.MAX_STR_DIGITS; lia).
  pose proof (str_int_digits (Z.abs z) PyInt.MAX_STR_DIGITS (Z.abs_nonneg z) Hk) as Hlim.
  assert (Hof : forall negative digits,
             PyInt.of_digits negative digits
             = if Nat.ltb PyInt.MAX_STR_DIGITS (String.length digits)
               then Raise (ValueError (IntMaxStrDigits (String.length digits)))
               else Ok (if negative then - PyStr.digits_value 0 digits
                        else PyStr.digits_value 0 digits)) by reflexivity.
  remember PyInt.MAX_STR_DIGITS as limit eqn:Hlimit. clear Hlimit Hk.
  assert (Hparse :
            exists ds, str_int (Z.abs z) = ds
                       /\ QueryParser._parse_value (str_int z)
                          = (n <- PyInt.of_digits (z <? 0) ds ;; Ok (VInt n))
                       /\ PyStr.digits_value 0 ds = Z.abs z).
  { unfold str_int. replace (Z.abs z <? 0) with false
      by (symmetry; apply Z.ltb_ge; apply Z.abs_nonneg).
    destruct (z <? 0) eqn:E.
    - apply Z.ltb_lt in E. replace (Z.abs z) with (- z) by lia.
      destruct (str_digits_spec (S (Z.to_nat (- z))) (- z) "")
        as (ds & Hs & Hne & Hall & Hv); [lia |].
      rewrite Hs, append_nil_r. exists ds. split; [reflexivity |].
      split; [exact (proj2 (parse_value_digits ds Hne Hall)) |].
      specialize (Hv 0 ""). rewrite append_nil_r in Hv. rewrite Hv. reflexivity.
    - apply Z.ltb_ge in E. replace (Z.abs z) with z by lia.
      destruct (str_digits_spec (S (Z.to_nat z)) z "")
        as (ds & Hs & Hne & Hall & Hv); [lia |].
      rewrite Hs, append_nil_r. exists ds. split; [reflexivity |].
      split; [exact (proj1 (parse_value_digits ds Hne Hall)) |].
      specialize (Hv 0 ""). rewrite append_nil_r in Hv. rewrite Hv. reflexivity. }
  destruct Hparse as (ds & Hds & Hp & Hval). rewrite Hp, Hds in *.
  rewrite Hof. split.
  - intros Hlt. apply Hlim in Hlt.
    replace (Nat.ltb limit (String.length ds)) with false
      by (symmetry; apply Nat.ltb_ge; exact Hlt).
    cbn [bind]. rewrite Hval. f_equal. f_equal. destruct (z <? 0) eqn:E.
    + apply Z.ltb_lt in E. lia.
    + apply Z.ltb_ge in E. lia.
  - intros Hge.
    replace (Nat.ltb limit (String.length ds)) with true; [reflexivity |].
    symmetry. apply Nat.ltb_lt.
    destruct (Nat.le_gt_cases (String.length ds) limit) as [H | H]; [| exact H].
    apply Hlim in H. lia.
Qed.

(** ** Splitting at commas *)

Lemma split_char_cons (sep : ascii) (s : string) :
  exists h t, PyStr.split_char sep s = h :: t.
Proof.
  induction s as [| c s (h & t & IH)]; simpl; [eauto |].
  destruct (Ascii.eqb c sep); [eauto |]. rewrite IH. eauto.
Qed.

Lemma rstrip_idem (p : ascii -> bool) (s : string) :
  PyStr.rstrip_by p (PyStr.rstrip_by p s) = PyStr.rstrip_by p s.
Proof.
  induction s as [| c s IH]; simpl; [reflexivity |].
  destruct (p c && PyStr.is_empty (PyStr.rstrip_by p s)) eqn:E; [reflexivity |].
  simpl. now rewrite IH, E.
Qed.

Lemma lstrip_head (p : ascii -> bool) (s : string) :
  match PyStr.lstrip_by p s with
  | EmptyString => True
  | String c _ => p c = false
  end.
Proof.
  induction s as [| c s IH]; simpl; [exact I |].
  destruct (p c) eqn:E; [exact IH | exact E].
Qed.

Lemma strip_idem (s : string) : PyStr.strip (PyStr.strip s) = PyStr.strip s.
Proof.
  unfold PyStr.strip. pose proof (lstrip_head PyStr.is_space s) as H.
  destruct (PyStr.lstrip_by PyStr.is_space s) as [| c y]; [reflexivity |].
  cbn [PyStr.rstrip_by]. rewrite H. cbn [andb PyStr.lstrip_by]. rewrite H.
  cbn [PyStr.rstrip_by]. rewrite H. cbn [andb]. now rewrite rstrip_idem.
Qed.

Lemma split_commas_loop_stripped (s : string) (acc : list string) (cur : string) (d : Z) :
  (forall p, In p acc -> PyStr.strip p = p) ->
  forall p, In p (QueryParser.split_commas_loop s acc cur d) -> PyStr.strip p = p.
Proof.
  revert acc cur d. induction s as [| c s IH]; simpl; intros acc cur d Hacc p.
  - destruct (PyStr.is_empty cur); [apply Hacc |]. intros Hin.
    apply in_app_or in Hin. destruct Hin as [Hin | [<- | []]];
      [now apply Hacc | apply strip_idem].
  - destruct (Ascii.eqb c "("); [now apply IH |].
    destruct (Ascii.eqb c ")"); [now apply IH |].
    destruct (Ascii.eqb c "," && (d =? 0)); [| now apply IH].
    apply IH. intros q Hin. apply in_app_or in Hin.
    destruct Hin as [Hin | [<- | []]]; [now apply Hacc | apply strip_idem].
Qed.

Lemma drop_empty_last_cons (x h : string) (t : list string) :
  drop_empty_last (x :: h :: t) = x :: drop_empty_last (h :: t).
Proof. reflexivity. Qed.

Lemma split_commas_loop_flat (s : string) (acc : list string) (cur : string) :
  has_char "(" s = false -> has_char ")" s = false ->
  QueryParser.split_commas_loop s acc cur 0
  = (acc ++ map PyStr.strip
              (drop_empty_last
                 match PyStr.split_char "," s with
                 | h :: t => (cur ++ h)%string :: t
                 | [] => [cur]
                 end))%list.
Proof.
  revert acc cur. induction s as [| c s IH]; intros acc cur Ho Hc.
  - simpl. rewrite append_nil_r. destruct (PyStr.is_empty cur); simpl;
      [now rewrite app_nil_r | reflexivity].
  - cbn [has_char] in Ho, Hc. apply orb_false_elim in Ho. apply orb_false_elim in Hc.
    destruct Ho as [Ho Ho'], Hc as [Hc Hc'].
    cbn [QueryParser.split_commas_loop PyStr.split_char]. rewrite Ho, Hc.
    destruct (split_char_cons "," s) as (h & t & Hs).
    destruct (Ascii.eqb c ",") eqn:E.
    + cbn [andb Z.eqb]. rewrite (IH _ _ Ho' Hc'), Hs. cbn [append].
      rewrite append_nil_r, drop_empty_last_cons. cbn [map].
      now rewrite <- app_assoc.
    + cbn [andb]. rewrite (IH _ _ Ho' Hc'), Hs. unfold PyStr.snoc.
      now rewrite append_assoc.
Qed.

(** X13.  Every piece [_split_by_commas] returns is stripped of blanks at
    both ends.  For a text without parentheses the pieces are those of
    [split(',')]: the text is cut at every comma (a comma between quotes
    included), each piece is stripped, and a last piece that is empty before
    stripping is dropped, so that the empty text has no piece. *)
Theorem split_by_commas_cuts_at_every_comma (s : string) :
  (forall p, In p (QueryParser._split_by_commas s) -> PyStr.strip p = p)
  /\ (has_char "(" s = false -> has_char ")" s = false ->
      QueryParser._split_by_commas s
      = map PyStr.strip (drop_empty_last (PyStr.split_char "," s))).
Proof.
  split.
  - apply split_commas_loop_stripped. intros p [].
  - intros Ho Hc. unfold QueryParser._split_by_commas.
    rewrite (split_commas_loop_flat s [] "" Ho Hc).
    destruct (split_char_cons "," s) as (h & t & ->). reflexivity.
Qed.

(** The theorem at the value list ['a,b', 2,]: the quoted text is cut in
    two and the empty piece after the last comma is dropped. *)
Lemma split_by_commas_cuts_at_every_comma_witness :
  has_char "(" "'a,b', 2," = false /\ has_char ")" "'a,b', 2," = false
  /\ QueryParser._split_by_commas "'a,b', 2,"
     = map PyStr.strip (drop_empty_last (PyStr.split_char "," "'a,b', 2,"))
  /\ map PyStr.strip (drop_empty_last (PyStr.split_char "," "'a,b', 2,"))
     = ["'a"; "b'"; "2"].
Proof.
  split; [reflexivity |]. split; [reflexivity |].
  split; [| vm_compute; reflexivity].
  exact (proj2 (split_by_commas_cuts_at_every_comma "'a,b', 2,") eq_refl eq_refl).
Defined.

(** ** What the parser raises *)










(** ** Stored rows are typed *)

Lemma find_column_In (columns : list Column) (col : Column) :
  In col columns -> exists col', find_column columns (name col) = Some col'.
Proof.
  unfold find_column. induction columns as [| c0 columns IH]; simpl; [contradiction |].
  intros [-> | Hin].
  - rewrite String.eqb_refl. eauto.
  - destruct (String.eqb (name c0) (name col)); [eauto | now apply IH].
Qed.

Lemma validate_none (col : Column) : validate_value col VNone = true.
Proof. reflexivity. Qed.

Lemma typed_entries_set (columns : list Column) (row : Row) (c : string) (v : value)
      (col : Column) :
  find_column columns c = Some col -> validate_value col v = true ->
  (forall c0 v0, dict_get String.eqb c0 row = Some v0 ->
     exists col0, find_column columns c0 = Some col0 /\ validate_value col0 v0 = true) ->
  forall c0 v0, dict_get String.eqb c0 (dict_set String.eqb c v row) = Some v0 ->
    exists col0, find_column columns c0 = Some col0 /\ validate_value col0 v0 = true.
Proof.
  intros Hf Hv H c0 v0. rewrite sget_set.
  destruct (String.eqb_spec c c0) as [<- | Hne]; [| apply H].
  intros [= <-]. eauto.
Qed.

Lemma build_row_typed (columns : list Column) (pairs : list (string * value))
      (acc row : Row) :
  build_row columns pairs acc = Ok row ->
  (forall c v, dict_get String.eqb c acc = Some v ->
     exists col, find_column columns c = Some col /\ validate_value col v = true) ->
  forall c v, dict_get String.eqb c row = Some v ->
    exists col, find_column columns c = Some col /\ validate_value col v = true.
Proof.
  revert acc. induction pairs as [| [c0 v0] pairs IH]; simpl; intros acc H Hacc.
  - now injection H as <-.
  - destruct (find_column columns c0) as [col |] eqn:Hf; [| discriminate].
    destruct (validate_value col v0) eqn:Hv; [| discriminate].
    apply (IH _ H). now apply (typed_entries_set columns acc c0 v0 col).
Qed.

Lemma fill_missing_typed (all columns : list Column) (acc : Row) :
  incl columns all ->
  (forall c v, dict_get String.eqb c acc = Some v ->
     exists col, find_column all c = Some col /\ validate_value col v = true) ->
  forall c v, dict_get String.eqb c (fill_missing columns acc) = Some v ->
    exists col, find_column all c = Some col /\ validate_value col v = true.
Proof.
  revert acc. induction columns as [| col columns IH]; simpl; intros acc Hi Hacc;
    [exact Hacc |].
  assert (Hi' : incl columns all) by (intros x Hx; apply Hi; now right).
  destruct (dict_mem String.eqb (name col) acc); [now apply IH |].
  apply IH; [exact Hi' |].
  destruct (find_column_In all col (Hi col (or_introl eq_refl))) as (col' & Hf).
  now apply (typed_entries_set all acc (name col) VNone col').
Qed.

Lemma fill_missing_mem_acc (columns : list Column) (acc : Row) (c : string) :
  dict_mem String.eqb c acc = true ->
  dict_mem String.eqb c (fill_missing columns acc) = true.
Proof.
  intros H. unfold dict_mem. rewrite (fill_missing_get columns acc c H). exact H.
Qed.

Lemma fill_missing_mem (columns : list Column) (acc : Row) (col : Column) :
  In col columns -> dict_mem String.eqb (name col) (fill_missing columns acc) = true.
Proof.
  revert acc. induction columns as [| c0 columns IH]; simpl; intros acc; [contradiction |].
  intros [-> | Hin].
  - destruct (dict_mem String.eqb (name col) acc) eqn:E.
    + now apply fill_missing_mem_acc.
    + apply fill_missing_mem_acc. unfold dict_mem. now rewrite sget_set, String.eqb_refl.
  - destruct (dict_mem String.eqb (name c0) acc); now apply IH.
Qed.

Lemma assemble_row_typed (t : Table) (query_columns : option (list string))
      (values : list value) (row : Row) :
  assemble_row t query_columns values = Ok row -> row_typed (schema t) row.
Proof.
  unfold assemble_row. destruct (negb _); [discriminate |].
  destruct (build_row _ _ _) as [row0 | e] eqn:Hb; simpl; [| discriminate].
  intros [= <-]. split.
  - apply fill_missing_typed; [apply incl_refl |].
    apply (build_row_typed _ _ _ _ Hb). intros c v. discriminate.
  - intros col Hin. now apply fill_missing_mem.
Qed.

Lemma apply_set_typed (columns : list Column) (items : dict string value)
      (acc row : Row) :
  apply_set columns items acc = Ok row -> row_typed columns acc -> row_typed columns row.
Proof.
  revert acc. induction items as [| [c0 v0] items IH]; simpl; intros acc H Hacc.
  - now injection H as <-.
  - destruct (find_column columns c0) as [col |] eqn:Hf; [| discriminate].
    destruct (validate_value col v0) eqn:Hv; [| discriminate].
    apply (IH _ H). destruct Hacc as [H1 H2]. split.
    + now apply (typed_entries_set columns acc c0 v0 col).
    + intros col0 Hin. apply mem_set_mono. now apply H2.
Qed.

Lemma rows_typed_set (columns : list Column) (rows : Rows) (r : Z) (row : Row) :
  rows_typed columns rows -> row_typed columns row ->
  rows_typed columns (dict_set Z.eqb r row rows).
Proof.
  intros Hrows Hrow r0 row0. rewrite zget_set.
  destruct (Z.eqb r r0); [now intros [= <-] | apply Hrows].
Qed.

Lemma update_row_typed (t : Table) (set_ : dict string value) (r : Z) :
  rows_typed (schema t) (rows t) ->
  rows_typed (schema t) (rows (fst (update_row t set_ r))).
Proof.
  intros H. unfold update_row.
  destruct (dict_get Z.eqb r (rows t)) as [row |] eqn:Hg; [| exact H].
  destruct (apply_set (schema t) set_ row) as [row' | e] eqn:Ha; [| exact H].
  destruct (_check_constraints t row' (Some r)); [exact H |].
  destruct (update_indexes _ _ _ _) as [ixs [c |]]; simpl; [exact H |].
  apply rows_typed_set; [exact H |]. apply (apply_set_typed _ _ _ _ Ha). exact (H _ _ Hg).
Qed.

Lemma update_loop_typed (t : Table) (set_ : dict string value) (ids : list Z) (n : Z) :
  rows_typed (schema t) (rows t) ->
  rows_typed (schema t) (rows (fst (fst (update_loop t set_ ids n)))).
Proof.
  revert t n. induction ids as [| r ids IH]; simpl; intros t n H; [exact H |].
  pose proof (update_row_typed t set_ r H) as H1.
  pose proof (update_row_schema t set_ r) as Hs.
  destruct (update_row t set_ r) as [t' [e |]]; simpl in *; [exact H1 |].
  rewrite <- Hs. apply IH. now rewrite Hs.
Qed.

Lemma delete_loop_typed (t : Table) (ids : list Z) (n : Z) :
  table_inv t -> rows_typed (schema t) (rows t) ->
  rows_typed (schema t) (rows (fst (fst (delete_loop t ids n)))).
Proof.
  revert t n. induction ids as [| r ids IH]; simpl; intros t n Hinv H; [exact H |].
  pose proof (delete_row_inv t r Hinv) as Hinv1. unfold delete_row in *.
  destruct (dict_get Z.eqb r (rows t)) as [row |] eqn:Hg; simpl in *; [| exact H].
  apply (IH _ _ Hinv1). simpl. intros r0 row0.
  rewrite (zget_del _ _ _ (inv_rows_wf _ Hinv)).
  destruct (Z.eqb r r0); [discriminate | apply H].
Qed.

Lemma typed_commit (s : QueryExecutor) (table_name : string) (t t' : Table)
      (r : Response) :
  typed_inv s -> linked s ->
  dict_get String.eqb table_name (tables s) = Some t ->
  schema t' = schema t -> rows_typed (schema t') (rows t') ->
  typed_inv (set_table s table_name t')
  /\ typed_inv (fst (saved (set_table s table_name t') table_name (rows t') r)).
Proof.
  intros [Hm Hst] Hl Ht Hsch Hrows.
  assert (Hm' : forall T t0,
             dict_get String.eqb T (dict_set String.eqb table_name t' (tables s)) = Some t0 ->
             rows_typed (schema t0) (rows t0)).
  { intros T t0. rewrite sget_set.
    destruct (String.eqb table_name T); [now intros [= <-] | apply Hm]. }
  assert (H1 : typed_inv (set_table s table_name t')) by (split; [exact Hm' | exact Hst]).
  split; [exact H1 |]. unfold saved. cbn [storage set_table].
  destruct (save_table_data (storage s) table_name (rows t')) as [st |] eqn:Hsave;
    [| exact H1].
  cbn [fst]. split; [exact Hm' |].
  destruct (save_table_data_load _ _ _ _ Hsave) as [Hls Hld].
  intros T cds columns Hf Hc. cbn [storage set_storage] in *.
  rewrite Hls in Hf. rewrite Hld.
  destruct (String.eqb_spec table_name T) as [<- | Hne];
    [| exact (Hst T cds columns Hf Hc)].
  pose proof (Hl _ _ Ht) as Hlt. rewrite Hf in Hlt. rewrite Hc in Hlt.
  injection Hlt as ->. now rewrite <- Hsch.
Qed.

Lemma execute_typed (s : QueryExecutor) (q : Query) :
  system_inv s -> typed_inv s -> typed_inv (fst (execute s q)).
Proof.
  intros (Hs & _ & _ & Hl) Hty. pose proof Hty as [Hm Hst]. destruct q; simpl.
  - unfold _execute_create_table.
    destruct (dict_mem String.eqb table_name (tables s)); [exact Hty |].
    destruct (columns_of columns) as [cols | e] eqn:Hc; [| exact Hty].
    assert (Hm' : forall T t,
               dict_get String.eqb T
                 (dict_set String.eqb table_name
                    (mkTable cols [] (make_indexes cols []) 1) (tables s)) = Some t ->
               rows_typed (schema t) (rows t)).
    { intros T t. rewrite sget_set. destruct (String.eqb table_name T); [| apply Hm].
      intros [= <-] r row. discriminate. }
    cbn [storage set_table].
    destruct (save_table_schema (storage s) table_name _) as [st1 |] eqn:E1;
      [| split; [exact Hm' | exact Hst]].
    cbn [storage set_storage rows].
    destruct (save_table_schema_load _ _ _ _ E1) as [Hls1 Hld1].
    destruct (save_table_data st1 table_name []) as [st2 |] eqn:E2; cbn [fst].
    + destruct (save_table_data_load _ _ _ _ E2) as [Hls2 Hld2].
      split; [exact Hm' |]. intros T cds cols0. cbn [storage set_storage].
      rewrite Hls2, Hls1, Hld2.
      destruct (String.eqb table_name T); [intros _ _ r row; discriminate |].
      rewrite Hld1. apply Hst.
    + unfold save_table_data in E2. unfold save_table_schema in E1.
      destruct (open_w_cases (schema_file_name table_name)) as [Hw | Hw];
        rewrite Hw in E1; cbn [bind] in E1; [| discriminate].
      rewrite (data_file_opens _ Hw) in E2. discriminate.
  - destruct (execute_insert_spec s table_name columns values Hs)
      as [(e0 & -> & _) | (t & row & Ht & Hrow & _ & _ & ->)]; [exact Hty |].
    apply (typed_commit s table_name t (inserted_table t row) _ Hty Hl Ht eq_refl).
    simpl. apply rows_typed_set; [exact (Hm _ _ Ht) |].
    exact (assemble_row_typed _ _ _ _ Hrow).
  - now rewrite execute_select_state.
  - unfold _execute_update.
    destruct (dict_get String.eqb table_name (tables s)) as [t |] eqn:Ht; [| exact Hty].
    pose proof (update_loop_typed t set_
                  (dict_keys (_apply_where_clause t (rows t) where_)) 0 (Hm _ _ Ht)) as H.
    pose proof (update_loop_schema t set_
                  (dict_keys (_apply_where_clause t (rows t) where_)) 0) as Hsch.
    destruct (update_loop _ _ _ _) as [[t' n] [e |]]; simpl in H, Hsch;
      rewrite <- Hsch in H;
      destruct (typed_commit s table_name t t' (Updated n) Hty Hl Ht Hsch H) as [H1 H2];
      [exact H1 |]. destruct (0 <? n); assumption.
  - unfold _execute_delete.
    destruct (dict_get String.eqb table_name (tables s)) as [t |] eqn:Ht; [| exact Hty].
    pose proof (delete_loop_typed t
                  (dict_keys (_apply_where_clause t (rows t) where_)) 0
                  (Hs _ _ Ht) (Hm _ _ Ht)) as H.
    pose proof (delete_loop_schema t
                  (dict_keys (_apply_where_clause t (rows t) where_)) 0) as Hsch.
    destruct (delete_loop _ _ _) as [[t' n] [e |]]; simpl in H, Hsch;
      rewrite <- Hsch in H;
      destruct (typed_commit s table_name t t' (Deleted n) Hty Hl Ht Hsch H) as [H1 H2];
      [exact H1 |]. destruct (0 <? n); assumption.
Qed.

Lemma load_table_typed (s s' : QueryExecutor) (table_name : string) :
  typed_inv s -> _load_table s table_name = Ok s' -> typed_inv s'.
Proof.
  intros [Hm Hst]. unfold _load_table.
  destruct (load_table_schema (storage s) table_name) as [[| cd cds] |] eqn:Hf;
    try (intros [= <-]; split; assumption).
  destruct (columns_of (cd :: cds)) as [columns | e] eqn:Ec; cbn [bind]; [| discriminate].
  pose proof (Hst _ _ _ Hf Ec) as Hd.
  destruct (load_rows columns _ (make_indexes columns []) 1) as [ixs n].
  intros [= <-]. split; [| exact Hst].
  intros T t. cbn [tables set_table]. rewrite sget_set.
  destruct (String.eqb table_name T); [now intros [= <-] | apply Hm].
Qed.

Lemma load_tables_typed (names : list string) (s s' : QueryExecutor) :
  typed_inv s -> load_tables s names = Ok s' -> typed_inv s'.
Proof.
  revert s. induction names as [| n names IH]; simpl; intros s Hs.
  - now intros [= <-].
  - destruct (_load_table s n) as [s1 | e] eqn:E; simpl; [| discriminate].
    apply IH. exact (load_table_typed _ _ _ Hs E).
Qed.

Lemma reachable_typed (s : QueryExecutor) : reachable s -> typed_inv s.
Proof.
  induction 1 as [| s q Hr IH | s s' Hr IH Hinit].
  - split; [intros T t; discriminate | intros T cds cols; discriminate].
  - apply execute_typed; [now apply reachable_system_inv | exact IH].
  - unfold QueryExecutor_init, _load_existing_tables in Hinit.
    refine (load_tables_typed _ (mkExecutor (storage s) []) s' _ Hinit).
    split; [intros T t; discriminate | exact (proj2 IH)].
Qed.

(** X15.  In every reachable state (restarts included) every stored row has
    an entry for every column of the schema and for nothing else, and every
    value passes the type validation of its column (the first of that name):
    it is null or of the declared type; no float is ever stored. *)
Theorem stored_rows_are_typed (s : QueryExecutor) (table_name : string)
        (t : Table) (r : Z) (row : Row) :
  reachable s ->
  dict_get String.eqb table_name (tables s) = Some t ->
  dict_get Z.eqb r (rows t) = Some row ->
  (forall c v, dict_get String.eqb c row = Some v ->
     exists col, find_column (schema t) c = Some col /\ name col = c
                 /\ validate_value col v = true
                 /\ (forall f, v <> VFloat f))
  /\ (forall col, In col (schema t) -> dict_mem String.eqb (name col) row = true).
Proof.
  intros Hr Ht Hg. destruct (reachable_typed s Hr) as [Hm _].
  destruct (Hm _ _ Ht _ _ Hg) as [H1 H2]. split; [| exact H2].
  intros c v Hc. destruct (H1 c v Hc) as (col & Hf & Hv). exists col.
  split; [exact Hf |]. split; [| split; [exact Hv |]].
  - unfold find_column in Hf. apply find_some in Hf. now apply String.eqb_eq.
  - intros f ->. destruct col as [nm [] p u]; discriminate.
Qed.

(** The theorem at row 2 of the [users] table of the demonstration
    database. *)
Lemma stored_rows_are_typed_witness :
  reachable demo
  /\ dict_get String.eqb "users" (tables demo) = Some demo_users
  /\ dict_get Z.eqb 2 (rows demo_users)
     = Some [("id", VInt 2); ("name", VStr "Bob"); ("email", VStr "b@x.com")]
  /\ forall col, In col (schema demo_users) ->
       dict_mem String.eqb (name col)
         [("id", VInt 2); ("name", VStr "Bob"); ("email", VStr "b@x.com")] = true.
Proof.
  assert (H1 : dict_get String.eqb "users" (tables demo) = Some demo_users)
    by (vm_compute; reflexivity).
  assert (H2 : dict_get Z.eqb 2 (rows demo_users)
               = Some [("id", VInt 2); ("name", VStr "Bob"); ("email", VStr "b@x.com")])
    by reflexivity.
  split; [exact demo_reachable |]. split; [exact H1 |]. split; [exact H2 |].
  exact (proj2 (stored_rows_are_typed demo "users" demo_users 2 _ demo_reachable H1 H2)).
Defined.

(** ** SELECT *)

Lemma project_spec (row : Row) (cols : list string) (acc : Row) :
  (forall c, In c cols -> dict_mem String.eqb c row = true) ->
  exists r, project row cols acc = Ok r
            /\ forall c, dict_get String.eqb c r
                         = if list_mem c cols then dict_get String.eqb c row
                           else dict_get String.eqb c acc.
Proof.
  revert acc. induction cols as [| c0 cols IH]; simpl; intros acc H; [eauto |].
  pose proof (H c0 (or_introl eq_refl)) as Hm. unfold dict_mem in Hm.
  destruct (dict_get String.eqb c0 row) as [v |] eqn:Hg; [| discriminate].
  destruct (IH (dict_set String.eqb c0 v acc)) as (r & Hp & Hr);
    [intros c Hc; apply H; now right |].
  exists r. split; [exact Hp |]. intros c. rewrite Hr, sget_set.
  unfold list_mem. simpl. fold (list_mem c cols).
  destruct (list_mem c cols); [now rewrite orb_true_r |]. rewrite orb_false_r.
  rewrite (String.eqb_sym c c0).
  destruct (String.eqb_spec c0 c) as [<- | Hne]; [now rewrite Hg | reflexivity].
Qed.

Lemma project_fails (row : Row) (cols : list string) (acc : Row) (c : string) :
  In c cols -> dict_mem String.eqb c row = false ->
  exists c', project row cols acc = Raise (ValueError (NoSuchColumn c')).
Proof.
  revert acc. induction cols as [| c0 cols IH]; simpl; intros acc Hin Hm; [contradiction |].
  destruct (dict_get String.eqb c0 row) as [v |] eqn:Hg; [| eauto].
  destruct Hin as [-> | Hin]; [unfold dict_mem in Hm; rewrite Hg in Hm; discriminate |].
  now apply IH.
Qed.

Lemma project_all_spec (items : Rows) (cols : list string) :
  (forall k row c, In (k, row) items -> In c cols -> dict_mem String.eqb c row = true) ->
  exists rs, project_all items cols = Ok rs
             /\ Forall2 (fun item r =>
                           forall c, dict_get String.eqb c r
                                     = if list_mem c cols
                                       then dict_get String.eqb c (snd item) else None)
                        items rs.
Proof.
  induction items as [| [k row] items IH]; simpl; intros H; [eauto |].
  destruct (project_spec row cols [] (fun c Hc => H k row c (or_introl eq_refl) Hc))
    as (r & -> & Hr).
  destruct IH as (rs & -> & Hrs); [intros k0 row0 c Hin; apply (H k0 row0 c); now right |].
  simpl. eexists. split; [reflexivity |]. constructor; [exact Hr | exact Hrs].
Qed.

(** X16.  In a reachable state, a SELECT without a join on an existing table
    returns the requested column names (the schema's, for [*]) and, when all
    of them are columns of the table, one row per row the WHERE clause keeps,
    in the same order, holding exactly the requested columns with the stored
    values; so [SELECT *] never raises.  A requested name that is no column
    makes it raise the unknown-column error only if the WHERE clause keeps a
    row: with no row to return, any column list is accepted. *)
Theorem select_returns_requested_columns (s : QueryExecutor) (table_name : string)
        (t : Table) (cols : list string) (where_ : option (list Condition)) :
  reachable s ->
  dict_get String.eqb table_name (tables s) = Some t ->
  let selected := match cols with
                  | ["*"] => map name (schema t)
                  | _ => cols
                  end in
  let filtered := _apply_where_clause t (rows t) where_ in
  (exists rs,
      _execute_select s table_name ["*"] where_ None
      = (s, Ok (Selected (map name (schema t)) rs))
      /\ List.length rs = List.length filtered)
  /\ (filtered = [] ->
      _execute_select s table_name cols where_ None = (s, Ok (Selected selected [])))
  /\ ((forall c, In c selected -> exists col, In col (schema t) /\ name col = c) ->
      exists rs,
        _execute_select s table_name cols where_ None = (s, Ok (Selected selected rs))
        /\ Forall2 (fun item r =>
                      forall c, dict_get String.eqb c r
                                = if list_mem c selected
                                  then dict_get String.eqb c (snd item) else None)
                   filtered rs)
  /\ (forall c, In c selected -> (forall col, In col (schema t) -> name col <> c) ->
      filtered <> [] ->
      exists c', _execute_select s table_name cols where_ None
                 = (s, Raise (ValueError (NoSuchColumn c')))).
Proof.
  intros Hr Ht selected filtered.
  pose proof (reachable_inv s Hr _ _ Ht) as Hinv.
  destruct (reachable_typed s Hr) as [Hm _]. specialize (Hm _ _ Ht).
  assert (Hrow : forall k row, In (k, row) filtered -> row_typed (schema t) row).
  { intros k row Hin. apply (Hm k).
    exact (where_clause_rows t where_ k row (inv_rows_wf _ Hinv) Hin). }
  assert (Hsel : forall cs,
             _execute_select s table_name cs where_ None
             = (s, rs <- project_all filtered
                           match cs with ["*"] => map name (schema t) | _ => cs end ;;
                   Ok (Selected match cs with ["*"] => map name (schema t) | _ => cs end
                                rs))).
  { intros cs. unfold _execute_select. now rewrite Ht. }
  assert (Hok : forall sel,
             (forall c, In c sel -> exists col, In col (schema t) /\ name col = c) ->
             exists rs, project_all filtered sel = Ok rs
                        /\ Forall2 (fun item r =>
                                      forall c, dict_get String.eqb c r
                                                = if list_mem c sel
                                                  then dict_get String.eqb c (snd item)
                                                  else None) filtered rs).
  { intros sel Hcols. apply project_all_spec. intros k row c Hin Hc.
    destruct (Hcols c Hc) as (col & Hcol & <-). now apply (Hrow k row Hin). }
  split; [| split; [| split]].
  - rewrite Hsel. destruct (Hok (map name (schema t))) as (rs & -> & HF).
    + intros c Hc. apply in_map_iff in Hc. destruct Hc as (col & <- & Hcol). eauto.
    + exists rs. split; [reflexivity |]. symmetry. exact (Forall2_length HF).
  - intros He. rewrite Hsel. fold selected. now rewrite He.
  - intros Hcols. rewrite Hsel. fold selected.
    destruct (Hok selected Hcols) as (rs & -> & HF). exists rs. split; [reflexivity | exact HF].
  - intros c Hc Hno Hne. rewrite Hsel. fold selected.
    destruct filtered as [| [k row] rest] eqn:Ef; [congruence |].
    assert (Hmiss : dict_mem String.eqb c row = false).
    { unfold dict_mem. destruct (dict_get String.eqb c row) as [v |] eqn:Hg; [| reflexivity].
      destruct (proj1 (Hrow k row (or_introl eq_refl)) c v Hg) as (col & Hf & _).
      unfold find_column in Hf. apply find_some in Hf. destruct Hf as [Hin He].
      apply String.eqb_eq in He. destruct (Hno col Hin He). }
    destruct (project_fails row selected [] c Hc Hmiss) as (c' & Hp).
    exists c'. simpl. now rewrite Hp.
Qed.

(** The theorem at [SELECT name FROM users WHERE id = 2] on the
    demonstration database. *)
Lemma select_returns_requested_columns_witness :
  reachable demo
  /\ dict_get String.eqb "users" (tables demo) = Some demo_users
  /\ _execute_select demo "users" ["name"] (Some [mkCondition "id" "=" (VInt 2)]) None
     = (demo, Ok (Selected ["name"] [[("name", VStr "Bob")]]))
  /\ exists rs,
       _execute_select demo "users" ["name"] (Some [mkCondition "id" "=" (VInt 2)]) None
       = (demo, Ok (Selected ["name"] rs)).
Proof.
  assert (H1 : dict_get String.eqb "users" (tables demo) = Some demo_users)
    by (vm_compute; reflexivity).
  split; [exact demo_reachable |]. split; [exact H1 |]. split; [vm_compute; reflexivity |].
  destruct (proj1 (proj2 (proj2 (select_returns_requested_columns demo "users" demo_users
                                   ["name"] (Some [mkCondition "id" "=" (VInt 2)])
                                   demo_reachable H1))))
    as (rs & Hsel & _).
  - intros c [<- | []]. exists (mkColumn "name" TEXT false false). simpl. auto.
  - exists rs. exact Hsel.
Defined.

(** ** INSERT *)

(** X17.  In a reachable state, an INSERT that returns has put exactly one
    row into the table, after the rows already there, under the row-id it
    returns, which is the former counter; the other rows are untouched and the
    data file holds the new rows.  The row has the given value in every
    listed column (when no column is listed twice) and null in every other
    column. *)
Theorem insert_appends_one_row (s s' : QueryExecutor) (table_name : string)
        (query_columns : option (list string)) (values : list value) (r : Z) :
  reachable s ->
  execute s (INSERT table_name query_columns values) = (s', Ok (Inserted r)) ->
  exists t t' row,
    dict_get String.eqb table_name (tables s) = Some t
    /\ dict_get String.eqb table_name (tables s') = Some t'
    /\ r = next_row_id t /\ next_row_id t' = r + 1 /\ schema t' = schema t
    /\ rows t' = (rows t ++ [(r, row)])%list
    /\ load_table_data (storage s') table_name = Some (rows t')
    /\ (forall T, T <> table_name ->
                  dict_get String.eqb T (tables s') = dict_get String.eqb T (tables s))
    /\ let col_names := match query_columns with
                        | Some (c :: cs) => c :: cs
                        | _ => map name (schema t)
                        end in
       List.length col_names = List.length values
       /\ (NoDup col_names ->
           forall c v, In (c, v) (combine col_names values) -> row_get row c = v)
       /\ (forall c, ~ In c col_names -> row_get row c = VNone).
Proof.
  intros Hr He. pose proof (reachable_inv s Hr) as Hs. simpl in He.
  destruct (execute_insert_spec s table_name query_columns values Hs)
    as [(e0 & E & _) | (t & row & Ht & Hrow & _ & _ & E)]; rewrite E in He;
    [discriminate |].
  unfold saved in He. cbn [storage set_table] in He.
  destruct (save_table_data (storage s) table_name _) as [st |] eqn:Hsave;
    [| discriminate].
  injection He as <- <-. exists t, (inserted_table t row), row.
  split; [exact Ht |]. split; [simpl; now rewrite sget_set, String.eqb_refl |].
  split; [reflexivity |]. split; [reflexivity |]. split; [reflexivity |].
  split; [simpl; apply dict_set_fresh, fresh_row_id, (Hs _ _ Ht) |].
  split.
  { cbn [storage set_storage]. rewrite (proj2 (save_table_data_load _ _ _ _ Hsave)).
    now rewrite String.eqb_refl. }
  split.
  { intros T Hne. simpl. rewrite sget_set.
    destruct (String.eqb_spec table_name T); [congruence | reflexivity]. }
  unfold assemble_row in Hrow. intros col_names. fold col_names in Hrow.
  destruct (Nat.eqb (List.length col_names) (List.length values)) eqn:Hlen;
    simpl in Hrow; [| discriminate].
  apply Nat.eqb_eq in Hlen.
  destruct (build_row (schema t) (combine col_names values) []) as [row0 | e] eqn:Hb;
    simpl in Hrow; [| discriminate].
  injection Hrow as <-. split; [exact Hlen |]. split.
  - intros Hnd c v Hin. unfold row_get.
    assert (Hg : dict_get String.eqb c row0 = Some v).
    { apply (build_row_get _ _ _ _ _ _ Hb); [| exact Hin].
      now rewrite (map_fst_combine _ _ Hlen). }
    rewrite fill_missing_get; [now rewrite Hg | unfold dict_mem; now rewrite Hg].
  - intros c Hn. apply fill_missing_none.
    rewrite (build_row_other _ _ _ _ c Hb); [reflexivity |].
    now rewrite (map_fst_combine _ _ Hlen).
Qed.

(** The theorem at [INSERT INTO users (id, name) VALUES (3, 'Carol')] on the
    demonstration database: the email of the new row is null. *)
Lemma insert_appends_one_row_witness :
  reachable demo
  /\ execute demo (INSERT "users" (Some ["id"; "name"]) [VInt 3; VStr "Carol"])
     = (fst (execute demo (INSERT "users" (Some ["id"; "name"]) [VInt 3; VStr "Carol"])),
        Ok (Inserted 3))
  /\ option_map rows
       (dict_get String.eqb "users"
          (tables (fst (execute demo
                          (INSERT "users" (Some ["id"; "name"]) [VInt 3; VStr "Carol"])))))
     = Some (rows demo_users
             ++ [(3, [("id", VInt 3); ("name", VStr "Carol"); ("email", VNone)])])%list
  /\ exists t t' row,
       dict_get String.eqb "users" (tables demo) = Some t
       /\ dict_get String.eqb "users"
            (tables (fst (execute demo
                            (INSERT "users" (Some ["id"; "name"]) [VInt 3; VStr "Carol"]))))
          = Some t'
       /\ 3 = next_row_id t /\ rows t' = (rows t ++ [(3, row)])%list.
Proof.
  assert (H : execute demo (INSERT "users" (Some ["id"; "name"]) [VInt 3; VStr "Carol"])
              = (fst (execute demo
                        (INSERT "users" (Some ["id"; "name"]) [VInt 3; VStr "Carol"])),
                 Ok (Inserted 3))) by (vm_compute; reflexivity).
  split; [exact demo_reachable |]. split; [exact H |]. split; [vm_compute; reflexivity |].
  destruct (insert_appends_one_row demo _ "users" (Some ["id"; "name"])
              [VInt 3; VStr "Carol"] 3 demo_reachable H)
    as (t & t' & row & H1 & H2 & H3 & _ & _ & H4 & _).
  exists t, t', row. auto.
Defined.

(** ** CREATE TABLE *)

Lemma DataType_of_ok (ty : string) :
  (exists d, DataType_of ty = Ok d) <-> In ty ["INT"; "TEXT"; "BOOL"].
Proof.
  unfold DataType_of. simpl. split.
  - intros (d & H). destruct (String.eqb_spec ty "INT"); [auto |].
    destruct (String.eqb_spec ty "TEXT"); [auto |].
    destruct (String.eqb_spec ty "BOOL"); [auto | discriminate].
  - intros [<- | [<- | [<- | []]]]; simpl; eauto.
Qed.

Lemma columns_of_ok (col_defs : list ColumnDef) :
  (exists columns, columns_of col_defs = Ok columns)
  <-> forall cd, In cd col_defs -> In (cd_type cd) ["INT"; "TEXT"; "BOOL"].
Proof.
  induction col_defs as [| cd col_defs IH]; cbn [columns_of].
  - split; [intros _ cd [] | eauto].
  - unfold column_of. split.
    + intros (columns & H) cd0 [<- | Hin].
      * apply DataType_of_ok. destruct (DataType_of (cd_type cd)); [eauto | discriminate].
      * apply IH; [| exact Hin]. destruct (DataType_of (cd_type cd)); [| discriminate].
        cbn [bind] in H. destruct (columns_of col_defs); [eauto | discriminate].
    + intros H. destruct (proj2 (DataType_of_ok (cd_type cd)) (H cd (or_introl eq_refl)))
        as (d & ->).
      destruct (proj2 IH (fun cd0 Hin => H cd0 (or_intror Hin))) as (cols & ->).
      cbn [bind]. eauto.
Qed.

Lemma columns_of_names (col_defs : list ColumnDef) (columns : list Column) :
  columns_of col_defs = Ok columns -> map name columns = map cd_name col_defs.
Proof.
  revert columns. induction col_defs as [| cd col_defs IH]; cbn [columns_of]; intros columns.
  - now intros [= <-].
  - unfold column_of. destruct (DataType_of (cd_type cd)); cbn [bind]; [| discriminate].
    destruct (columns_of col_defs) as [cols |]; cbn [bind]; [| discriminate].
    intros [= <-]. simpl. now rewrite (IH cols eq_refl).
Qed.

(** The four ways a CREATE TABLE ends. *)
Lemma create_table_cases (s : QueryExecutor) (table_name : string)
      (col_defs : list ColumnDef) :
  (dict_mem String.eqb table_name (tables s) = true
   /\ _execute_create_table s table_name col_defs
      = (s, Raise (ValueError (TableExists table_name))))
  \/ (dict_mem String.eqb table_name (tables s) = false
      /\ exists e, columns_of col_defs = Raise e
                   /\ _execute_create_table s table_name col_defs = (s, Raise e))
  \/ (dict_mem String.eqb table_name (tables s) = false
      /\ exists columns,
           columns_of col_defs = Ok columns
           /\ open_w (schema_file_name table_name)
              = Raise (OSError (schema_file_name table_name))
           /\ _execute_create_table s table_name col_defs
              = (set_table s table_name (mkTable columns [] (make_indexes columns []) 1),
                 Raise (OSError (schema_file_name table_name))))
  \/ (dict_mem String.eqb table_name (tables s) = false
      /\ exists columns schema_data,
           columns_of col_defs = Ok columns
           /\ open_w (schema_file_name table_name) = Ok tt
           /\ _execute_create_table s table_name col_defs
              = (mkExecutor
                   (mkStorage
                      (dict_set String.eqb table_name schema_data
                                (schema_files (storage s)))
                      (dict_set String.eqb table_name [] (data_files (storage s))))
                   (dict_set String.eqb table_name
                      (mkTable columns [] (make_indexes columns []) 1) (tables s)),
                 Ok (Created table_name))).
Proof.
  unfold _execute_create_table.
  destruct (dict_mem String.eqb table_name (tables s)) eqn:Hm; [now left |]. right.
  destruct (columns_of col_defs) as [columns | e] eqn:Hc; [| left; eauto]. right.
  cbn [storage set_table].
  destruct (save_table_schema_cases (storage s) table_name
              (map (fun cc => mkColumnDef (name (fst cc))
                                (DataType_value (dtype (fst cc)))
                                (cd_constraints (snd cc)))
                   (combine columns col_defs))) as [[Hw ->] | [Hw ->]].
  - right. split; [reflexivity |]. exists columns. eexists.
    split; [reflexivity |]. split; [exact Hw |]. cbn [storage set_storage rows].
    unfold save_table_data. rewrite (data_file_opens _ Hw). reflexivity.
  - left. split; [reflexivity |]. exists columns. auto.
Qed.

(** X18.  CREATE TABLE returns exactly when no table of that name is in
    memory, every column type is INT, TEXT or BOOL, and the file system
    accepts the name of the schema file.  It raises [OSError] for nothing but
    the schema file, and then the new, empty table stays in memory with
    nothing written; when it raises anything else the executor is left as it
    was.  When it returns, the table is there with the declared column names,
    no rows and counter 1, its schema file exists, its data file holds no
    rows, and [get_table_info] reports those columns and 0 rows. *)
Theorem create_table_accepts_three_types (s : QueryExecutor) (table_name : string)
        (col_defs : list ColumnDef) :
  (snd (_execute_create_table s table_name col_defs) = Ok (Created table_name)
   <-> (dict_mem String.eqb table_name (tables s) = false
        /\ (forall cd, In cd col_defs -> In (cd_type cd) ["INT"; "TEXT"; "BOOL"])
        /\ open_w (schema_file_name table_name) = Ok tt))
  /\ (forall e, snd (_execute_create_table s table_name col_defs) = Raise e ->
        storage (fst (_execute_create_table s table_name col_defs)) = storage s
        /\ match e with
           | OSError file_name =>
               file_name = schema_file_name table_name
               /\ exists columns,
                    columns_of col_defs = Ok columns
                    /\ tables (fst (_execute_create_table s table_name col_defs))
                       = dict_set String.eqb table_name
                           (mkTable columns [] (make_indexes columns []) 1) (tables s)
           | _ => fst (_execute_create_table s table_name col_defs) = s
           end)
  /\ (snd (_execute_create_table s table_name col_defs) = Ok (Created table_name) ->
      exists t,
        dict_get String.eqb table_name
                 (tables (fst (_execute_create_table s table_name col_defs))) = Some t
        /\ rows t = [] /\ next_row_id t = 1
        /\ map name (schema t) = map cd_name col_defs
        /\ table_exists (storage (fst (_execute_create_table s table_name col_defs)))
                        table_name = true
        /\ load_table_data (storage (fst (_execute_create_table s table_name col_defs)))
                           table_name = Some []
        /\ exists info,
             DatabaseEngine.get_table_info
               (fst (_execute_create_table s table_name col_defs)) table_name
             = Ok (info, 0%nat)
             /\ map (fun c => fst (fst (fst c))) info = map cd_name col_defs).
Proof.
  destruct (create_table_cases s table_name col_defs)
    as [[Hm ->] | [[Hm (e0 & Hc & ->)] | [[Hm (columns & Hc & Hw & ->)]
                                          | [Hm (columns & sd & Hc & Hw & ->)]]]];
    cbn [fst snd].
  - split; [split; [discriminate | intros (H & _); congruence] |].
    split; [| discriminate]. intros e [= <-]. split; reflexivity.
  - split.
    { split; [discriminate |]. intros (_ & H & _). apply columns_of_ok in H.
      destruct H as (cols & H). congruence. }
    split; [| discriminate]. intros e [= <-]. split; [reflexivity |].
    pose proof (columns_of_not_os _ _ Hc) as Hno. destruct e0; try reflexivity.
    discriminate.
  - split; [split; [discriminate | intros (_ & _ & H); congruence] |].
    split; [| discriminate]. intros e [= <-]. split; [reflexivity |].
    split; [reflexivity |]. exists columns. split; [exact Hc | reflexivity].
  - split.
    { split; [| reflexivity]. intros _. split; [exact Hm |]. split; [| exact Hw].
      apply columns_of_ok. eauto. }
    split; [discriminate |]. intros _. eexists. cbn [tables].
    rewrite sget_set, String.eqb_refl. split; [reflexivity |].
    cbn [rows next_row_id schema]. split; [reflexivity |]. split; [reflexivity |].
    split; [exact (columns_of_names _ _ Hc) |].
    split; [unfold table_exists, dict_mem; simpl; now rewrite sget_set, String.eqb_refl |].
    split; [unfold load_table_data; simpl; now rewrite sget_set, String.eqb_refl |].
    unfold DatabaseEngine.get_table_info. cbn [tables].
    rewrite sget_set, String.eqb_refl. eexists. split; [reflexivity |].
    cbn [schema]. rewrite map_map. simpl. exact (columns_of_names _ _ Hc).
Qed.
